(* ===== verification/_CoqProject ===== *)
-Q . S2P
Prelude.v
Effects.v
JsString.v
JsMap.v
JsValue.v
Crypto.v
Shared.v
Rbac.v
Errors.v
World.v
Repositories.v
Integrity.v
Auth.v
MockChain.v
Concrete.v
Users.v
AuthCorrect.v
UsersCorrect.v
Assets.v
AssetsCorrect.v
Jobs.v
JobsCorrect.v
Validators.v
ValidatorsCorrect.v
Schemas.v
Result.v
Payloads.v
PayloadsCorrect.v
Rpc.v
Evm.v
EvmCorrect.v
Consensus.v
ConsensusCorrect.v
Config.v
Container.v
ConfigCorrect.v
Evidence.v
EvidenceCorrect.v
Rows.v
Prisma.v
PrismaCorrect.v
Ipfs.v
IpfsCorrect.v
Multipart.v
MultipartCorrect.v
Http.v
HttpCorrect.v
Routes.v
RoutesCorrect.v
SystemCorrect.v
AnswersCorrect.v
Paths.v
DeviceWallet.v
Client.v
ClientCorrect.v
SendQueue.v
SendQueueCorrect.v
Interleave.v
AuthRaces.v
JobRaces.v
Traces.v
AssetRaces.v
UserRaces.v
Bootstrap.v
BootstrapCorrect.v
JsonText.v
DevWallet.v
DevWalletCorrect.v
ErrorLog.v
Rely.v
ValidatorRaces.v
EvidenceRaces.v
LiveJobs.v
BackendRaces.v
Orchestrator.v
ScriptLogic.v
OrchestratorCorrect.v
