(* ===== verification/Prelude.v ===== *)
(** * SIH-BEL: verification of the permissioned asset and maintenance backend

    The program is the TypeScript backend of a permissioned registry of
    physical assets and of the maintenance jobs done on them.  People are
    identities with devices and wallets; every change is checked by a service,
    sent to a blockchain service and then stored.

    ** Parts and files

    - [Prelude], [Effects]: generic lemmas and tactics; the effect of an
      [async] method as a state-passing computation that returns or throws and
      keeps, on a throw, the writes made so far.
    - [JsString], [JsMap], [JsValue]: the strings, insertion-ordered maps,
      numbers and dynamically typed values of the language, and the class
      [Platform] of what the program takes from Node.js and ethers (clock,
      UUIDs, hashing, signature verification, address parsing).  [PlatformLaws]
      names the documented facts the theorems use; [Concrete] is an executable
      platform that satisfies them.
    - [Shared], [Rbac], [Errors]: [shared/enums], [shared/types],
      [shared/rbac], [backend/src/errors.ts], [blockchain/errors.ts] and the
      error serializer of [app.ts].
    - [World], [Repositories]: the state of one backend process (the maps of
      [users/identity.store.ts], [users/repository-implementations.ts],
      [domain/repositories.ts], [evidence/evidence.repository.ts], the asset
      cache, the commitments, the state of the chain) and the in-memory
      repository adapters; [World.BlockchainService] is the interface of
      [shared/api.ts] every service is verified against.
    - [MockChain]: [mocks/mock-blockchain/index.ts], one implementation of
      that interface.
    - [Crypto], [Integrity]: [blockchain/crypto.ts], [integrity/integrity.ts].
    - [Auth] and [AuthCorrect]: [auth/auth.service.ts].
    - [Users] and [UsersCorrect]: [users/users.service.ts],
      [devices/device-attestation.ts].
    - [Assets] and [AssetsCorrect]: [assets/assets.service.ts].
    - [Jobs] and [JobsCorrect]: [jobs/jobs.service.ts].
    - [Validators] and [ValidatorsCorrect]: [validators/validator.service.ts],
      [notifications/*.ts].
    - [Payloads] and [PayloadsCorrect]: [blockchain/payloads.ts].
    - [Evidence] and [EvidenceCorrect]: [evidence/evidence.service.ts] and the
      memory storage of [evidence/evidence.storage.ts].
    - [Schemas]: [shared/schemas/index.ts], the shape checks.
    - [Multipart] and [MultipartCorrect]: [backend/src/evidence/multipart.ts].
    - [Http] and [HttpCorrect]: requests, responses and the middleware
      ([middleware/session.ts], [auth/rbac.middleware.ts],
      [auth/fresh-auth.middleware.ts]).
    - [Routes] and [RoutesCorrect]: [routes/*.ts], [audit/audit.service.ts]
      and the composition in [app.ts]; [Routes.serve] is the answer to one
      request.  A handler that passes an unchecked part of the body to a typed
      service reads it at the declared types; what happens for other types is
      the parameter [UntypedBodies].
    - [Rpc], [Evm] and [EvmCorrect]: [blockchain/evm-adapter.ts] on a JSON-RPC
      node ([Rpc.Node]) and the ABI codec of ethers ([Rpc.EvmCodec]), both
      interfaces; [Evm.EvmBlockchainAdapter] is the second implementation of
      [World.BlockchainService].
    - [Result]: synchronous functions that throw.
    - [Consensus] and [ConsensusCorrect]: [blockchain/besu-consensus.ts].
    - [Config], [Container] and [ConfigCorrect]: [blockchain/config.ts],
      [blockchain/factory.ts] and the wiring of [container.ts].
    - [Ipfs] and [IpfsCorrect]: the storage node of
      [evidence/evidence.storage.ts], behind the same port as the memory
      storage of [Evidence].
    - [Rows], [Prisma] and [PrismaCorrect]: the Prisma adapters of
      [users/repository-implementations.ts], [domain/repositories.ts] and
      [evidence/evidence.repository.ts] with the rows they read and write, on a
      database client that is an interface, one instance per table.
    - [SendQueue] and [SendQueueCorrect]: [sendAs] of the adapter as concurrent
      requests perform it, a step relation over the calls, the promises they
      chain and the map [sendQueues].
    - [Interleave], [Traces]: programs of [await]s, their interleaving, the gate
      that lets one through, and the steps one program takes in it.
      [AuthRaces], [UserRaces], [AssetRaces], [JobRaces], [ValidatorRaces] and
      [EvidenceRaces]: the methods of the services as such programs; alone each
      is the method of the service's file.  [LiveJobs]: the job mutations on
      the objects that the memory repository shares out.
    - [Rely], [BackendRaces]: what a program may count on while others run,
      and the calls of all services in one pool, with any evidence storage
      that leaves the records of the process alone ([BackendRaces.StorageApart]).
    - [Bootstrap] and [BootstrapCorrect]: [scripts/bootstrap-dev.ts].
    - [Paths]: the addresses of the endpoints; matching belongs to Express
      ([Paths.Express]).  [DeviceWallet], [Client] and [ClientCorrect]:
      [frontend/src/api/deviceWallet.ts] and [client.ts] over a browser
      ([DeviceWallet.Browser]), against the endpoints of [Routes].
    - [JsonText], [DevWallet] and [DevWalletCorrect]: a text codec for values;
      [frontend/dev-wallet/wallet.mjs] and [server.mjs], over a machine
      ([DevWallet.Host]) and cryptography ([DevWallet.WalletCrypto]), and their
      composition with the page and the backend.
    - [Orchestrator]: the scripts [dev-stop.mjs] (Module Stop) and
      [dev-bootstrap.mjs] (Module Up), over a machine that answers a call by
      the history of the calls before it ([Orchestrator.Machine]).
      [ScriptLogic]: a logic for histories in which every watched call was
      justified.  [OrchestratorCorrect]: what the scripts may stop and empty.
    - [ErrorLog]: the error log and the origins of [app.ts].
    - [SystemCorrect]: all services, routes and chains together.
      [AnswersCorrect]: every request comes to its end and how it is answered.

    A definition has the name of the method it models, qualified by its file
    ([Jobs.assign] is [JobsServiceImpl.assign]); a record of the source is a
    module with a record [t].  A service method is one computation over
    [World C] for an arbitrary chain state [C]; where the code calls another
    service it calls that definition.

    ** What the theorems show

    - Jobs: separation of duties as an invariant of all reachable states; the
      life cycle; each mutation equals a guarded update with one transaction;
      [prepare] decides as the mutation; a throw changes nothing.
    - Assets: reads are stable; on the mock chain the service refines an
      abstract registry; the component hierarchy stays acyclic; the cycle check
      is exact and terminates; DECOMMISSIONED is final.
    - Authentication: challenges are single use; fresh authentication is bound
      to session, operation, resource, device and key; tokens are honoured only
      while everything behind them is active; lifetime of a session.
    - Identity: calls are atomic towards the stores except the two that write
      early; commitment versions are dense; revoking a device kills its
      sessions; one active wallet; grants are validated exactly; private-key
      material is found at any depth.
    - Validators: every call refines an abstract registry with its invariant;
      every attempt that reaches the chain leaves one history row.
    - Payloads: job payloads give the intended contract call; failures are
      client errors; evidence digests are canonical; ranges.
    - Evidence: upload and download are inverse; downloads are verified for
      any storage; uploads are guarded; stored file names are harmless.
    - Boundary: who gets past the middleware of each endpoint and what a
      refused request may have touched (on the endpoints whose permission
      depends on an asset: the cache of that asset and expired grants); fresh proofs are demanded where
      configured; an engineer needs a valid grant to transfer; a logout is
      final.
    - Multipart: the file part comes out byte for byte, within the bounds.
    - EVM adapter: only the call of the envelope is ever published, as signed
      by its actor; SUCCESS means mined and confirmed; the wait for a receipt
      ends; failures are classified.
    - Whole backend: any sequence of requests keeps the invariants of the job
      store and of the validator registry; every request comes to its end, also
      on a cyclic hierarchy, and is answered with the status and body of its
      endpoint or with the serialized error of the program; a job
      mutation on the EVM chain has been mined when it returns.
    - Consensus and configuration: an answer of the consensus node is accepted
      exactly when it is well formed and for the height asked; a configuration
      that loads is valid; in production only device-signed bytes are ever
      published and no store is in memory.
    - Storage node: a download is the complete body of the answer within the
      limit; what was accepted can be downloaded; failures say nothing about
      the node, unless a body breaks off.
    - Database: records survive their rows; the database repositories refine
      the memory repositories that the services are verified on; deleted
      sessions and revoked credentials stay so.
    - Concurrent sends: one at a time per wallet, in order, with rising nonces;
      every one ends and leaves nothing behind; alone it is the sequential one.
    - Races: of concurrent uses of one challenge one succeeds; of concurrent
      judgements of a job one returns, if the chain decides as the contract
      does; an asset is decommissioned once, by its token, and an acknowledged write is on the
      chain; commitment versions stay dense; with all services at once the
      stored jobs, registrations and evidence records stay sound, and a download
      of uploaded evidence gives its record and bytes with its digest or fails.
    - Development bootstrap: what it reports can log in; a run that failed half
      way is never completed; without a database nothing is kept.
    - Frontend: every request of the client fits the endpoint it is meant for,
      with the session and the fresh proof it demands; without a verified user
      nothing is written; the token follows the backend, and the listener for
      expired sessions is told once per rejected session.
    - Development wallet: it keeps its key, signs only when asked for a verified
      operation, and what a page signs with it, past the CORS checks of its
      browser, a backend with an EVM chain accepts.
    - Scripts: they end nothing but processes, runs and containers shown or
      recorded to be their own (the start script where [bash] or WSL answers),
      and the database is only
      emptied for a chain whose contracts and administrator were checked.
    - Error log: it never fails and never holds a signature.

    Some theorems state behaviour that is not what the code means to do (a job
    that can never be judged, a create that cannot be retried, a session that
    never expires); they are statements about the code as it is.

    ** Bounds and fuel

    Three loops have no structural bound.  The fuel of the ancestor walk of
    [assertNoCycle] is a parameter, and [cycle_check_terminates] shows that
    more fuel than there are known asset ids is enough on every state, cyclic
    ones included.  The fuel of the wait for a receipt is one per poll, and
    [receipt_wait_terminates] shows that two more than the milliseconds of the
    timeout are enough.  The scripts that start the system wait with one try per
    millisecond; [waits_end] shows that more make no difference.  Numbers are rationals with NaN and the
    infinities, heights and versions are integers, and [Number.isSafeInteger]
    bounds are explicit.  Strings are sequences of 8-bit code units.

    ** Not modelled

    The OpenAPI pages, the React pages of the frontend, the in-memory API for
    page development, and the scripts that check the repository or drive a
    running system from outside (the shell scripts, [verify.mjs] and the end
    to end tests).
    The routes and the middleware run one request after the other; the
    interleaving of requests is modelled from the services inwards, and a call
    of the EVM adapter is one step there, except in the send queue.

    ** Plan

    Next: the end to end scripts of [scripts/], as clients of the modelled routes. *)
From stdpp Require Export base tactics option list strings pretty numbers.
From Stdlib Require Export ZArith Lia QArith Qround.

(** ** Generic tactics *)

(** Destruct every existential, conjunction and pair equation in sight. *)
Ltac destruct_ex :=
  repeat match goal with
    | H : ex _ |- _ => destruct H
    | H : _ /\ _ |- _ => destruct H
    | H : (_, _) = (_, _) |- _ => injection H as ? ?
    end.

(** Turn boolean hypotheses into propositions. *)
Ltac bool_to_prop :=
  repeat match goal with
    | H : _ && _ = true |- _ => apply andb_true_iff in H as [? ?]
    | H : _ || _ = false |- _ => apply orb_false_iff in H as [? ?]
    | H : negb _ = true |- _ => apply negb_true_iff in H
    | H : negb _ = false |- _ => apply negb_false_iff in H
    | H : bool_decide _ = true |- _ => apply bool_decide_eq_true in H
    | H : bool_decide _ = false |- _ => apply bool_decide_eq_false in H
    end.

Create HintDb bel.
#[export] Hint Constants Opaque : bel.
Create Rewrite HintDb bel.

(** ** Truthiness of a nullable string: [undefined], [null] and the empty
    string are the falsy values a [string | null | undefined] can take. *)
Definition truthy_string (o : option string) : bool :=
  match o with
  | None => false
  | Some s => negb (bool_decide (s = ""%string))
  end.

Lemma truthy_string_Some (o : option string) :
  truthy_string o = true -> exists s, o = Some s /\ s <> ""%string.
Proof. destruct o as [s|]; simpl; intros; [|done]. bool_to_prop. eauto. Qed.

(** [o ?? o'] *)
Definition or_else {A} (o o' : option A) : option A := match o with Some _ => o | None => o' end.

(** ** Lists *)

Lemma find_Some_iff_exists {A} (p : A -> bool) (l : list A) :
  (exists x, In x l /\ p x = true) <-> exists y, List.find p l = Some y.
Proof.
  split.
  - intros (x & Hin & Hp). destruct (List.find p l) eqn:E; [eauto|].
    pose proof (find_none _ _ E x Hin). congruence.
  - intros [y H]. apply find_some in H. eauto.
Qed.

Lemma find_ext_In {A} (p q : A -> bool) (l : list A) :
  (forall x, In x l -> p x = q x) -> List.find p l = List.find q l.
Proof.
  induction l as [|a l IH]; intros H; simpl; [done|].
  rewrite (H a) by (simpl; auto). destruct (q a); [done|].
  apply IH. intros; apply H; simpl; auto.
Qed.

Lemma find_app {A} (p : A -> bool) (l k : list A) :
  List.find p (l ++ k) = match List.find p l with Some x => Some x | None => List.find p k end.
Proof. induction l as [|a l IH]; simpl; [done|]. destruct (p a); auto. Qed.

Lemma find_filter {A} (p q : A -> bool) (l : list A) :
  List.find p (List.filter q l) = List.find (fun x => q x && p x) l.
Proof.
  induction l as [|a l IH]; simpl; [done|].
  destruct (q a); simpl; [destruct (p a)|]; auto.
Qed.
