(* ===== verification/Effects.v ===== *)
(** * Effects: asynchronous handlers as state-passing computations that may throw

    A TypeScript [async] method runs against shared mutable state and either
    returns or throws; a throw does {e not} undo the writes that came before
    it.  [M W A] models exactly that: the new state is returned on both paths.
    The file also holds the small logic used for every service: inversion of
    a run, frame conditions ([keeps]) and "a throw leaves this part of the
    state as it was" ([fails_clean]). *)
From S2P Require Import Prelude.

Section Monad.
Context {X : Type}.

(** [Promise<A>]: settled with an exception or a value, and the state. *)
Definition M (W A : Type) : Type := W -> (X + A) * W.

#[global] Instance M_ret W : MRet (M W) := fun A a w => (inr a, w).
#[global] Instance M_bind W : MBind (M W) := fun A B k m w =>
  match m w with
  | (inr a, w') => k a w'
  | (inl e, w') => (inl e, w')
  end.

Definition throw {W A} (e : X) : M W A := fun w => (inl e, w).
(** [if (b) throw e;] *)
Definition throw_if {W} (b : bool) (e : X) : M W unit :=
  if b then throw e else mret tt.
Definition gets {W A} (f : W -> A) : M W A := fun w => (inr (f w), w).
Definition modify {W} (f : W -> W) : M W unit := fun w => (inr tt, f w).
(** [try { m } catch (error) { h(error) }] *)
Definition try_catch {W A} (m : M W A) (h : X -> M W A) : M W A := fun w =>
  match m w with
  | (inr a, w') => (inr a, w')
  | (inl e, w') => h e w'
  end.
(** [v ?? (throw e)]: an absent value throws. *)
Definition require {W A} (o : option A) (e : X) : M W A :=
  match o with Some a => mret a | None => throw e end.
(** Run a computation on one part of the state. *)
Definition zoom {W S A} (get : W -> S) (put : S -> W -> W) (m : M S A) : M W A := fun w =>
  let '(r, s) := m (get w) in (r, put s w).
(** Lift a result computed without touching the state. *)
Definition lift_result {W A} (r : X + A) : M W A := fun w => (r, w).

(** [for (const x of l) await f(x);] *)
Fixpoint for_each {W A} (l : list A) (f : A -> M W unit) : M W unit :=
  match l with
  | [] => mret tt
  | x :: l' => f x ≫= fun _ => for_each l' f
  end.

(** [await Promise.all(l.map(f))], the calls run in list order. *)
Fixpoint map_all {W A B} (f : A -> M W B) (l : list A) : M W (list B) :=
  match l with
  | [] => mret []
  | x :: l' => f x ≫= fun y => map_all f l' ≫= fun ys => mret (y :: ys)
  end.

(** ** Inversion of a run *)

Lemma bind_inr {W A B} (m : M W A) (k : A -> M W B) w b w' :
  (m ≫= k) w = (inr b, w') <-> exists a w1, m w = (inr a, w1) /\ k a w1 = (inr b, w').
Proof.
  unfold mbind, M_bind. destruct (m w) as [[e|a] w1]; split.
  - discriminate.
  - intros (? & ? & [=] & _).
  - eauto.
  - intros (? & ? & [= -> ->] & ?). done.
Qed.

Lemma bind_inl {W A B} (m : M W A) (k : A -> M W B) w e w' :
  (m ≫= k) w = (inl e, w') <->
  m w = (inl e, w') \/ exists a w1, m w = (inr a, w1) /\ k a w1 = (inl e, w').
Proof.
  unfold mbind, M_bind. destruct (m w) as [[e1|a] w1]; split.
  - intros [= -> ->]. auto.
  - intros [[= -> ->]|(? & ? & [=] & _)]. done.
  - eauto.
  - intros [[=]|(? & ? & [= -> ->] & ?)]. done.
Qed.

Lemma bind_inv {W A B} (m : M W A) (k : A -> M W B) w r w' :
  (m ≫= k) w = (r, w') ->
  (exists e, r = inl e /\ m w = (inl e, w')) \/ exists a w1, m w = (inr a, w1) /\ k a w1 = (r, w').
Proof.
  unfold mbind, M_bind. destruct (m w) as [[e|a] w1]; intros E.
  - left. injection E as <- <-. eauto.
  - right. eauto.
Qed.

Lemma bind_run {W A B} (m : M W A) (k : A -> M W B) w a w1 :
  m w = (inr a, w1) -> (m ≫= k) w = k a w1.
Proof. unfold mbind, M_bind. by intros ->. Qed.

Lemma bind_ret {W A B} (a : A) (k : A -> M W B) w : (mret a ≫= k) w = k a w.
Proof. done. Qed.

Lemma bind_assoc {W A B D} (m : M W A) (k : A -> M W B) (g : B -> M W D) w :
  ((m ≫= k) ≫= g) w = (m ≫= fun a => k a ≫= g) w.
Proof. unfold mbind, M_bind. by destruct (m w) as [[e|a] w1]. Qed.

(** Passing and failing a guard. *)
Lemma guard_pass {W B} e (k : unit -> M W B) w : (throw_if false e ≫= k) w = k tt w.
Proof. done. Qed.
Lemma guard_fail {W B} e (k : unit -> M W B) w : (throw_if true e ≫= k) w = (inl e, w).
Proof. done. Qed.

Lemma bind_throw {W A B} (m : M W A) (k : A -> M W B) w e w1 :
  m w = (inl e, w1) -> (m ≫= k) w = (inl e, w1).
Proof. unfold mbind, M_bind. by intros ->. Qed.

Lemma mret_inr {W A} (a b : A) (w w' : W) :
  (mret a : M W A) w = (inr b, w') <-> a = b /\ w = w'.
Proof. unfold mret, M_ret. split; [by intros [= -> ->]|by intros [-> ->]]. Qed.
Lemma mret_inv {W A} (a : A) (w w' : W) r :
  (mret a : M W A) w = (r, w') -> r = inr a /\ w' = w.
Proof. unfold mret, M_ret. by intros [= <- <-]. Qed.
Lemma throw_if_inr {W} b e (w : W) u w' :
  throw_if b e w = (inr u, w') <-> b = false /\ w = w'.
Proof.
  unfold throw_if, throw, mret, M_ret. destruct b, u; split; try done;
    [by intros [? ?] | by intros [= ->] | by intros [_ ->]].
Qed.
Lemma throw_if_inl {W} b e (w : W) e' w' :
  throw_if b e w = (inl e', w') <-> b = true /\ e = e' /\ w = w'.
Proof.
  unfold throw_if, throw, mret, M_ret. destruct b; split; try done;
    [by intros [= -> ->] | by intros (_ & -> & ->) | by intros [? ?]].
Qed.
Lemma require_inr {W A} (o : option A) e (w : W) a w' :
  require o e w = (inr a, w') <-> o = Some a /\ w = w'.
Proof.
  unfold require, throw, mret, M_ret. destruct o; split; try done;
    [by intros [= -> ->] | by intros [[= ->] ->] | by intros [? ?]].
Qed.
Lemma gets_inr {W A} (f : W -> A) w a w' :
  gets f w = (inr a, w') <-> f w = a /\ w = w'.
Proof. unfold gets. split; [by intros [= -> ->]|by intros [-> ->]]. Qed.
Lemma modify_inr {W} (f : W -> W) w u w' :
  modify f w = (inr u, w') <-> f w = w'.
Proof. unfold modify. destruct u. split; [by intros [= ->]|by intros ->]. Qed.
Lemma throw_inr {W A} e (w : W) (a : A) w' : throw e w = (inr a, w') <-> False.
Proof. done. Qed.
Lemma lift_result_inr {W A} (r : X + A) (w : W) a w' :
  lift_result r w = (inr a, w') <-> r = inr a /\ w = w'.
Proof. unfold lift_result. split; [by intros [= -> ->]|by intros [-> ->]]. Qed.

(** ** Frames: the part [p] of the state is not written *)

Definition keeps {W T A} (p : W -> T) (m : M W A) : Prop :=
  forall w, p (snd (m w)) = p w.

Lemma keeps_run {W T A} (p : W -> T) (m : M W A) w r w' :
  keeps p m -> m w = (r, w') -> p w' = p w.
Proof. intros H E. specialize (H w). by rewrite E in H. Qed.

Lemma keeps_ret {W T A} (p : W -> T) (a : A) : keeps p (mret a : M W A).
Proof. done. Qed.
Lemma keeps_throw {W T A} (p : W -> T) e : keeps p (throw e : M W A).
Proof. done. Qed.
Lemma keeps_throw_if {W T} (p : W -> T) b e : keeps p (throw_if b e).
Proof. by destruct b. Qed.
Lemma keeps_gets {W T A} (p : W -> T) (f : W -> A) : keeps p (gets f).
Proof. done. Qed.
Lemma keeps_lift {W T A} (p : W -> T) (r : X + A) : keeps p (lift_result r).
Proof. done. Qed.
Lemma keeps_require {W T A} (p : W -> T) (o : option A) e : keeps p (require o e).
Proof. by destruct o. Qed.
Lemma keeps_modify {W T} (p : W -> T) f : (forall w, p (f w) = p w) -> keeps p (modify f).
Proof. intros H w. apply H. Qed.
Lemma keeps_bind {W T A B} (p : W -> T) (m : M W A) (k : A -> M W B) :
  keeps p m -> (forall a, keeps p (k a)) -> keeps p (m ≫= k).
Proof.
  intros Hm Hk w. unfold mbind, M_bind. specialize (Hm w).
  destruct (m w) as [[e|a] w1]; simpl in *; [done|]. rewrite (Hk a w1). done.
Qed.
Lemma keeps_try {W T A} (p : W -> T) (m : M W A) h :
  keeps p m -> (forall e, keeps p (h e)) -> keeps p (try_catch m h).
Proof.
  intros Hm Hk w. unfold try_catch. specialize (Hm w).
  destruct (m w) as [[e|a] w1]; simpl in *; [|done]. rewrite (Hk e w1). done.
Qed.
Lemma keeps_zoom {W S T A} (p : W -> T) (get : W -> S) put (m : M S A) :
  (forall s w, p (put s w) = p w) -> keeps p (zoom get put m).
Proof. intros H w. unfold zoom. destruct (m (get w)). apply H. Qed.
Lemma keeps_for_each {W T A} (p : W -> T) (l : list A) f :
  (forall x, keeps p (f x)) -> keeps p (for_each l f).
Proof.
  intros Hf. induction l as [|x l IH]; simpl; [apply keeps_ret|].
  apply keeps_bind; auto.
Qed.
Lemma keeps_map_all {W T A B} (p : W -> T) (l : list A) (f : A -> M W B) :
  (forall x, keeps p (f x)) -> keeps p (map_all f l).
Proof.
  intros Hf. induction l as [|x l IH]; simpl; [apply keeps_ret|].
  apply keeps_bind; [auto|]. intros. apply keeps_bind; [auto|]. intros; apply keeps_ret.
Qed.

(** ** Computations that move the state along a preorder *)

Definition respects {W A} (R : W -> W -> Prop) (m : M W A) : Prop := forall w r w', m w = (r, w') -> R w w'.

Lemma respects_bind {W A B} (R : W -> W -> Prop) `{!PreOrder R} (m : M W A) (k : A -> M W B) :
  respects R m -> (forall a, respects R (k a)) -> respects R (m ≫= k).
Proof.
  intros Hm Hk w r w' [(e & -> & E)|(a & w1 & E & Hrun)]%bind_inv; [by eapply Hm|].
  etransitivity; [by eapply Hm|by eapply Hk].
Qed.
Lemma respects_for_each {W A} (R : W -> W -> Prop) `{!PreOrder R} (l : list A) (f : A -> M W unit) :
  (forall x, respects R (f x)) -> respects R (for_each l f).
Proof.
  intros Hf. induction l as [|x l IH]; simpl; [by intros w r w' [= _ <-]|]. by apply respects_bind.
Qed.
Lemma respects_try {W A} (R : W -> W -> Prop) `{!PreOrder R} (m : M W A) h :
  respects R m -> (forall e, respects R (h e)) -> respects R (try_catch m h).
Proof.
  intros Hm Hh w r w'. unfold try_catch. destruct (m w) as [[e|a] w1] eqn:E; intros E2.
  - etransitivity; [by eapply Hm|by eapply Hh].
  - injection E2 as _ <-. by eapply Hm.
Qed.
Lemma respects_keeps {W T A} (R : W -> W -> Prop) (p : W -> T) (m : M W A) :
  (forall w w', p w' = p w -> R w w') -> keeps p m -> respects R m.
Proof. intros HR Hm w r w' E. apply HR. by eapply keeps_run. Qed.

(** ** A throw leaves [p] as it was, although the computation writes it *)

Definition fails_clean {W T A} (p : W -> T) (m : M W A) : Prop :=
  forall w e w', m w = (inl e, w') -> p w' = p w.
Definition never_throws {W A} (m : M W A) : Prop :=
  forall w, exists a w', m w = (inr a, w').

Lemma fails_clean_keeps {W T A} (p : W -> T) (m : M W A) : keeps p m -> fails_clean p m.
Proof. intros H w e w' E. by eapply keeps_run. Qed.
Lemma fails_clean_never {W T A} (p : W -> T) (m : M W A) : never_throws m -> fails_clean p m.
Proof. intros H w e w' E. destruct (H w) as (? & ? & ?). congruence. Qed.
(** Guards first: nothing is written until the guards have passed. *)
Lemma fails_clean_guard {W T A B} (p : W -> T) (m : M W A) (k : A -> M W B) :
  keeps p m -> (forall a, fails_clean p (k a)) -> fails_clean p (m ≫= k).
Proof.
  intros Hm Hk w e w' [E|(a & w1 & E1 & E2)]%bind_inl.
  - by eapply keeps_run.
  - etransitivity; [by eapply Hk|]. by eapply keeps_run.
Qed.
Lemma never_throws_ret {W A} (a : A) : never_throws (mret a : M W A).
Proof. intros w. by repeat eexists. Qed.
Lemma never_throws_gets {W A} (f : W -> A) : never_throws (gets f).
Proof. intros w. by repeat eexists. Qed.
Lemma never_throws_modify {W} (f : W -> W) : never_throws (modify f).
Proof. intros w. by repeat eexists. Qed.
Lemma never_throws_bind {W A B} (m : M W A) (k : A -> M W B) :
  never_throws m -> (forall a, never_throws (k a)) -> never_throws (m ≫= k).
Proof.
  intros Hm Hk w. destruct (Hm w) as (a & w1 & E). destruct (Hk a w1) as (b & w2 & E2).
  exists b, w2. by rewrite (bind_run _ _ _ _ _ E).
Qed.
Lemma never_throws_for_each {W A} (l : list A) (f : A -> M W unit) :
  (forall x, never_throws (f x)) -> never_throws (for_each l f).
Proof. intros Hf. induction l; simpl; [apply never_throws_ret|]. by apply never_throws_bind. Qed.

(** ** What a computation leaves true, whether it returns or throws *)

Definition preserves {W A} (Q : W -> Prop) (m : M W A) : Prop := forall w r w', Q w -> m w = (r, w') -> Q w'.

Lemma preserves_keeps {W T A} (Q : W -> Prop) (p : W -> T) (m : M W A) : (forall w w', p w' = p w -> Q w -> Q w') -> keeps p m -> preserves Q m.
Proof. intros Hp Hm w r w' Hq E. eapply Hp; [by eapply keeps_run|done]. Qed.
Lemma preserves_modify {W} (Q : W -> Prop) (f : W -> W) : (forall w, Q w -> Q (f w)) -> preserves Q (modify f).
Proof. intros Hf w r w' Hq [= _ <-]. by apply Hf. Qed.
Lemma preserves_bind {W A B} (Q : W -> Prop) (m : M W A) (k : A -> M W B) :
  preserves Q m -> (forall a, preserves Q (k a)) -> preserves Q (m ≫= k).
Proof.
  intros Hm Hk w r w' Hq [(e & -> & E)|(a & w1 & E & Hrun)]%bind_inv; [by eapply Hm|].
  eapply Hk; [|exact Hrun]. by eapply Hm.
Qed.
Lemma preserves_for_each {W A} (Q : W -> Prop) (l : list A) (f : A -> M W unit) : (forall x, preserves Q (f x)) -> preserves Q (for_each l f).
Proof.
  intros Hf. induction l; simpl; [by intros w r w' Hq [= _ <-]|]. by apply preserves_bind.
Qed.

(** ** Every exception of [m] satisfies [P] *)

Definition throws_only {W A} (P : X -> Prop) (m : M W A) : Prop := forall w e w', m w = (inl e, w') -> P e.

Lemma throws_only_ret {W A} P (a : A) : throws_only P (mret a : M W A).
Proof. by intros w e w'. Qed.
Lemma throws_only_gets {W A} P (f : W -> A) : throws_only P (gets f).
Proof. by intros w e w'. Qed.
Lemma throws_only_modify {W} P (f : W -> W) : throws_only P (modify f).
Proof. by intros w e w'. Qed.
Lemma throws_only_throw {W A} (P : X -> Prop) e : P e -> throws_only P (throw e : M W A).
Proof. by intros He w e' w' [= <- _]. Qed.
Lemma throws_only_throw_if {W} (P : X -> Prop) b e : (b = true -> P e) -> throws_only P (throw_if b e : M W unit).
Proof. destruct b; intros He; [by apply throws_only_throw, He|apply throws_only_ret]. Qed.
Lemma throws_only_bind {W A B} (P : X -> Prop) (m : M W A) (k : A -> M W B) :
  throws_only P m -> (forall a, throws_only P (k a)) -> throws_only P (m ≫= k).
Proof. intros Hm Hk w e w' [E|(a & w1 & E & Hrun)]%bind_inl; [by eapply Hm|by eapply Hk]. Qed.
Lemma throws_only_map_all {W A B} (P : X -> Prop) (l : list A) (f : A -> M W B) :
  (forall a, throws_only P (f a)) -> throws_only P (map_all f l).
Proof.
  intros Hf. induction l as [|x l IH]; simpl; [apply throws_only_ret|].
  apply throws_only_bind; [apply Hf|]. intros. apply throws_only_bind; [exact IH|]. intros. apply throws_only_ret.
Qed.
Lemma throws_only_weaken {W A} (P Q : X -> Prop) (m : M W A) : (forall e, P e -> Q e) -> throws_only P m -> throws_only Q m.
Proof. intros HPQ Hm w e w' E. eapply HPQ, Hm, E. Qed.
End Monad.

Arguments M X W A : clear implicits.

(** [try { m } catch (err) { h(err) }] where [m] rejects with values of one
    type and the whole with another. *)
Definition rescue {X Y W A} (m : M X W A) (h : X -> M Y W A) : M Y W A := fun w =>
  match m w with
  | (inr a, w') => (inr a, w')
  | (inl x, w') => h x w'
  end.
Lemma keeps_rescue {X Y W T A} (p : W -> T) (m : M X W A) (h : X -> M Y W A) :
  keeps p m -> (forall x, keeps p (h x)) -> keeps p (rescue m h).
Proof.
  intros Hm Hh w. unfold rescue. specialize (Hm w). destruct (m w) as [[x|a] w']; [|done]. rewrite Hh. exact Hm.
Qed.
Lemma throws_only_rescue {X Y W A} (P : Y -> Prop) (m : M X W A) (h : X -> M Y W A) :
  (forall x, throws_only P (h x)) -> throws_only P (rescue m h).
Proof.
  intros Hh w e w'. unfold rescue. destruct (m w) as [[x|a] w1]; [apply Hh|done].
Qed.
Lemma rescue_inr {X Y W A} (m : M X W A) (h : X -> M Y W A) w a w' :
  rescue m h w = (inr a, w') <-> m w = (inr a, w') \/ exists x w1, m w = (inl x, w1) /\ h x w1 = (inr a, w').
Proof.
  unfold rescue. destruct (m w) as [[x|b] w1].
  - split; [intros E; right; eauto|]. intros [E|(x' & w2 & E & Hh)]; [congruence|]. by injection E as -> ->.
  - split; [intros [= -> ->]; by left|]. by intros [[= -> ->]|(x' & w2 & E & _)].
Qed.
#[export] Hint Resolve throws_only_ret throws_only_gets throws_only_modify : bel.

#[export] Hint Resolve keeps_ret keeps_throw keeps_throw_if keeps_gets keeps_lift keeps_require
  keeps_bind keeps_try keeps_for_each keeps_map_all never_throws_ret never_throws_gets
  never_throws_modify never_throws_bind : bel.

(** Invert every successful run in the context down to its primitive steps. *)
Ltac run_step :=
  match goal with
  | H : (_ ≫= _) _ = (inr _, _) |- _ => apply bind_inr in H as (? & ? & ? & H)
  | H : mret _ _ = (inr _, _) |- _ => apply mret_inr in H as [? ?]
  | H : throw_if _ _ _ = (inr _, _) |- _ => apply throw_if_inr in H as [? ?]
  | H : require _ _ _ = (inr _, _) |- _ => apply require_inr in H as [? ?]
  | H : gets _ _ = (inr _, _) |- _ => apply gets_inr in H as [? ?]
  | H : modify _ _ = (inr _, _) |- _ => apply modify_inr in H
  | H : lift_result _ _ = (inr _, _) |- _ => apply lift_result_inr in H as [? ?]
  | H : throw _ _ = (inr _, _) |- _ => by apply throw_inr in H
  end; subst; simpl in *.
Ltac run_inv := repeat run_step.

(** Prove a frame by walking the computation. *)
Ltac frame :=
  repeat first
    [ progress intros
    | lazymatch goal with
      | |- keeps _ (mret _) => apply keeps_ret
      | |- keeps _ (throw _) => apply keeps_throw
      | |- keeps _ (throw_if _ _) => apply keeps_throw_if
      | |- keeps _ (gets _) => apply keeps_gets
      | |- keeps _ (lift_result _) => apply keeps_lift
      | |- keeps _ (require _ _) => apply keeps_require
      | |- keeps _ (mbind _ _) => apply keeps_bind
      | |- keeps _ (try_catch _ _) => apply keeps_try
      | |- keeps _ (rescue _ _) => apply keeps_rescue
      | |- keeps _ (for_each _ _) => apply keeps_for_each
      | |- keeps _ (map_all _ _) => apply keeps_map_all
      | |- keeps _ (modify _) => apply keeps_modify; intros; reflexivity
      | |- keeps _ (if ?b then _ else _) => destruct b
      | |- keeps _ (match ?o with _ => _ end) => destruct o
      | |- keeps _ (let _ := _ in _) => cbv zeta
      end
    | solve [auto with bel] ].

(** Walk a computation down to its throws. *)
Ltac throws :=
  repeat first
    [ progress intros
    | lazymatch goal with
      | |- throws_only _ (mbind _ _) => apply throws_only_bind
      | |- throws_only _ (mret _) => apply throws_only_ret
      | |- throws_only _ (gets _) => apply throws_only_gets
      | |- throws_only _ (modify _) => apply throws_only_modify
      | |- throws_only _ (rescue _ _) => apply throws_only_rescue
      | |- throws_only _ (map_all _ _) => apply throws_only_map_all
      | |- throws_only _ (throw _) => apply throws_only_throw
      | |- throws_only _ (throw_if _ _) => apply throws_only_throw_if
      | |- throws_only _ (if ?b then _ else _) => destruct b eqn:?
      | |- throws_only _ (match ?o with _ => _ end) => destruct o eqn:?
      | |- throws_only _ (let _ := _ in _) => cbv zeta
      end
    | solve [eauto with bel] ].
