(* ===== verification/JsString.v ===== *)
(** * JsString: the string operations of the language

    A JavaScript string is modelled as a [string] of 8-bit code units, which
    is exact for strings whose code units are Latin-1 (below U+0100). *)
From S2P Require Import Prelude.
From Stdlib Require Import Ascii.
Local Open Scope string_scope.

(** WhiteSpace and LineTerminator code units below U+0100. *)
Definition is_space (a : ascii) : bool :=
  let n := nat_of_ascii a in
  bool_decide (n = 9 \/ n = 10 \/ n = 11 \/ n = 12 \/ n = 13 \/ n = 32 \/ n = 160)%nat.

Fixpoint trimStart (s : string) : string :=
  match s with
  | "" => ""
  | String a s' => if is_space a then trimStart s' else s
  end.

Fixpoint trimEnd (s : string) : string :=
  match s with
  | "" => ""
  | String a s' =>
      match trimEnd s' with
      | "" => if is_space a then "" else String a ""
      | t => String a t
      end
  end.

(** [s.trim()] *)
Definition trim (s : string) : string := trimEnd (trimStart s).

(** [s.trim() === ""], the emptiness test behind [!s.trim()]. *)
Definition blank (s : string) : bool := bool_decide (trim s = "").

Definition lower_char (a : ascii) : ascii :=
  let n := nat_of_ascii a in
  if bool_decide (65 <= n <= 90)%nat || (bool_decide (192 <= n <= 222)%nat && negb (bool_decide (n = 215%nat)))
  then ascii_of_nat (n + 32) else a.

Fixpoint map_chars (f : ascii -> ascii) (s : string) : string :=
  match s with "" => "" | String a s' => String (f a) (map_chars f s') end.

(** [s.toLowerCase()] *)
Definition toLowerCase (s : string) : string := map_chars lower_char s.

Fixpoint all_chars (p : ascii -> bool) (s : string) : bool :=
  match s with "" => true | String a s' => p a && all_chars p s' end.

Definition is_digit (a : ascii) : bool :=
  let n := nat_of_ascii a in bool_decide (48 <= n <= 57)%nat.
Definition is_hex (a : ascii) : bool :=
  let n := nat_of_ascii a in
  bool_decide (48 <= n <= 57)%nat || bool_decide (65 <= n <= 70)%nat || bool_decide (97 <= n <= 102)%nat.

(** [/^[0-9a-fA-F]{n}$/.test(s)] *)
Definition is_hex_of_length (n : nat) (s : string) : bool :=
  bool_decide (String.length s = n) && all_chars is_hex s.

(** [s.startsWith(p)] and [s.slice(n)] *)
Definition startsWith (p s : string) : bool := String.prefix p s.
Fixpoint slice_from (n : nat) (s : string) : string :=
  match n, s with
  | O, _ => s
  | S n', String _ s' => slice_from n' s'
  | S _, "" => ""
  end.
(** [s.slice(0, n)] *)
Fixpoint slice_to (n : nat) (s : string) : string :=
  match n, s with
  | O, _ => ""
  | S n', String a s' => String a (slice_to n' s')
  | S _, "" => ""
  end.

(** [s.includes(sub)] *)
Fixpoint includes (sub s : string) : bool :=
  String.prefix sub s || match s with "" => false | String _ s' => includes sub s' end.

(** The value of a string of hexadecimal digits, most significant first. *)
Definition hex_digit (a : ascii) : Z :=
  let n := Z.of_nat (nat_of_ascii a) in
  if (n <=? 57)%Z then (n - 48)%Z else if (n <=? 70)%Z then (n - 55)%Z else (n - 87)%Z.
Fixpoint hex_value_from (acc : Z) (s : string) : Z :=
  match s with "" => acc | String a s' => hex_value_from (16 * acc + hex_digit a) s' end.
Definition hex_value (s : string) : Z := hex_value_from 0 s.

(** The value of a string of decimal digits: [BigInt(s)] when [/^\d+$/] matches. *)
Fixpoint decimal_value_from (acc : Z) (s : string) : Z :=
  match s with "" => acc | String a s' => decimal_value_from (10 * acc + (Z.of_nat (nat_of_ascii a) - 48)) s' end.
Definition decimal_value (s : string) : Z := decimal_value_from 0 s.
(** [/^\d+$/.test(s)] *)
Definition is_decimal (s : string) : bool := negb (bool_decide (s = "")) && all_chars is_digit s.

(** [l.join(sep)] *)
Fixpoint join_strings (sep : string) (l : list string) : string :=
  match l with
  | [] => ""
  | [x] => x
  | x :: l' => x +:+ sep +:+ join_strings sep l'
  end.

(** [s.split(c)] for a one-character separator *)
Fixpoint split_char (c : ascii) (s : string) : list string :=
  match s with
  | "" => [""]
  | String a s' =>
      if Ascii.eqb a c then "" :: split_char c s'
      else match split_char c s' with
           | [] => [String a ""]
           | x :: l => String a x :: l
           end
  end.

(** ** Laws *)

Lemma trimStart_head s a s' : trimStart s = String a s' -> is_space a = false.
Proof. induction s as [|b s IH]; simpl; [done|]. destruct (is_space b) eqn:E; [auto|]. congruence. Qed.

Lemma trimEnd_cons a s : trimEnd (String a s) =
  match trimEnd s with "" => if is_space a then "" else String a "" | t => String a t end.
Proof. done. Qed.

Lemma trimEnd_idem s : trimEnd (trimEnd s) = trimEnd s.
Proof.
  induction s as [|a s IH]; [done|]. rewrite trimEnd_cons.
  destruct (trimEnd s) as [|b t] eqn:E.
  - destruct (is_space a) eqn:Ea; [done|]. simpl. by rewrite Ea.
  - rewrite trimEnd_cons, IH. done.
Qed.

Lemma trimStart_trim s : trimStart (trim s) = trim s.
Proof.
  unfold trim. destruct (trimStart s) as [|a t] eqn:E; [done|].
  pose proof (trimStart_head _ _ _ E) as Ha. rewrite trimEnd_cons.
  destruct (trimEnd t); [|simpl]; rewrite ?Ha; simpl; by rewrite ?Ha.
Qed.

Lemma trim_idem s : trim (trim s) = trim s.
Proof. unfold trim at 1. rewrite trimStart_trim. apply trimEnd_idem. Qed.

Lemma blank_trim s : blank (trim s) = blank s.
Proof. unfold blank. by rewrite trim_idem. Qed.

Lemma blank_empty : blank "" = true.
Proof. done. Qed.

Lemma not_blank_trim_nonempty s : blank s = false -> trim s <> "".
Proof. unfold blank. intros H. by bool_to_prop. Qed.

Lemma not_blank_nonempty s : blank s = false -> s <> "".
Proof. intros H ->. by rewrite blank_empty in H. Qed.

Lemma app_string_assoc (s t u : string) : (s +:+ t) +:+ u = s +:+ t +:+ u.
Proof. induction s as [|a s IH]; [done|]. exact (f_equal (String a) IH). Qed.
Lemma app_string_nil (s : string) : s +:+ "" = s.
Proof. induction s as [|a s IH]; [done|]. exact (f_equal (String a) IH). Qed.
Lemma length_app_string (s t : string) : String.length (s +:+ t) = (String.length s + String.length t)%nat.
Proof. induction s as [|a s IH]; [done|]. exact (f_equal S IH). Qed.

Lemma slice_to_app n (s t : string) : n = String.length s -> slice_to n (s +:+ t) = s.
Proof. intros ->. induction s; simpl; congruence. Qed.
Lemma slice_from_app n (s t : string) : n = String.length s -> slice_from n (s +:+ t) = t.
Proof. intros ->. by induction s. Qed.
Lemma toLowerCase_app s t : toLowerCase (s +:+ t) = toLowerCase s +:+ toLowerCase t.
Proof. induction s as [|a s IH]; [done|]. exact (f_equal (String (lower_char a)) IH). Qed.
Lemma all_chars_app p s t : all_chars p (s +:+ t) = all_chars p s && all_chars p t.
Proof. induction s; simpl; [done|]. by rewrite IHs, andb_assoc. Qed.

Lemma length_map_chars f s : String.length (map_chars f s) = String.length s.
Proof. induction s as [|a s IH]; simpl; [done|]. by rewrite IH. Qed.

Lemma all_chars_map p q f s :
  (forall a, q a = true -> p (f a) = true) -> all_chars q s = true -> all_chars p (map_chars f s) = true.
Proof.
  intros H. induction s; simpl; [done|]. intros. bool_to_prop. rewrite H by done. auto.
Qed.

Lemma map_chars_idem f s : (forall a, f (f a) = f a) -> map_chars f (map_chars f s) = map_chars f s.
Proof. intros H. induction s; simpl; [done|]. by rewrite H, IHs. Qed.

(** A fact about every character, checked by evaluation over the 256 code units. *)
Lemma all_ascii (P : ascii -> bool) :
  forallb (fun n => P (ascii_of_nat n)) (seq 0 256) = true -> forall a, P a = true.
Proof.
  intros H a. rewrite forallb_forall in H.
  rewrite <- (ascii_nat_embedding a). apply H.
  apply in_seq. pose proof (nat_ascii_bounded a). lia.
Qed.

Lemma lower_char_idem a : lower_char (lower_char a) = lower_char a.
Proof.
  assert (H : Ascii.eqb (lower_char (lower_char a)) (lower_char a) = true).
  { revert a. apply all_ascii. vm_compute. reflexivity. }
  by apply Ascii.eqb_eq in H.
Qed.

Lemma toLowerCase_idem s : toLowerCase (toLowerCase s) = toLowerCase s.
Proof. apply map_chars_idem, lower_char_idem. Qed.

Lemma is_hex_lower a : is_hex a = true -> is_hex (lower_char a) = true.
Proof.
  assert (H : implb (is_hex a) (is_hex (lower_char a)) = true).
  { revert a. apply all_ascii. vm_compute. reflexivity. }
  intros Ha. by rewrite Ha in H.
Qed.

Lemma is_hex_of_length_lower n s :
  is_hex_of_length n s = true -> is_hex_of_length n (toLowerCase s) = true.
Proof.
  unfold is_hex_of_length. intros. bool_to_prop.
  apply andb_true_iff. split.
  - apply bool_decide_eq_true. unfold toLowerCase. by rewrite length_map_chars.
  - by eapply all_chars_map; [apply is_hex_lower|].
Qed.

#[export] Hint Rewrite trim_idem blank_trim toLowerCase_idem : bel.
