(* ===== verification/JsMap.v ===== *)
(** * JsMap: the JavaScript [Map] keyed by strings

    [Map] iterates in insertion order, and overwriting a key keeps its place;
    [[...map.values()].find(p)] therefore depends on that order.  The model is
    an association list kept in insertion order; [wf] says that keys are
    distinct, and every operation preserves it. *)
From S2P Require Import Prelude.

Section JsMap.
Context {V : Type}.

Definition jsmap : Type := list (string * V).

Definition empty_map : jsmap := [].

(** [map.get(k)] *)
Fixpoint get (k : string) (m : jsmap) : option V :=
  match m with
  | [] => None
  | (k', v) :: m' => if String.eqb k k' then Some v else get k m'
  end.
(** [map.set(k, v)] *)
Fixpoint put (k : string) (v : V) (m : jsmap) : jsmap :=
  match m with
  | [] => [(k, v)]
  | (k', v') :: m' => if String.eqb k k' then (k', v) :: m' else (k', v') :: put k v m'
  end.
(** [map.delete(k)] *)
Fixpoint remove (k : string) (m : jsmap) : jsmap :=
  match m with
  | [] => []
  | (k', v') :: m' => if String.eqb k k' then m' else (k', v') :: remove k m'
  end.
Definition keys (m : jsmap) : list string := map fst m.
(** [[...map.values()]] *)
Definition values (m : jsmap) : list V := map snd m.
(** [map.size] *)
Definition size (m : jsmap) : nat := length m.

Definition wf (m : jsmap) : Prop := List.NoDup (keys m).

Lemma get_put_eq k v m : get k (put k v m) = Some v.
Proof.
  induction m as [|[k' v'] m IH]; simpl; [by rewrite String.eqb_refl|].
  destruct (String.eqb k k') eqn:E; simpl; by rewrite E.
Qed.

Lemma get_put_ne k k' v m : k <> k' -> get k (put k' v m) = get k m.
Proof.
  intros Hne. induction m as [|[k1 v1] m IH]; simpl.
  - by destruct (String.eqb_spec k k').
  - destruct (String.eqb_spec k' k1) as [->|]; simpl.
    + by destruct (String.eqb_spec k k1).
    + by rewrite IH.
Qed.

Lemma get_put k k' v m : get k (put k' v m) = if String.eqb k k' then Some v else get k m.
Proof.
  destruct (String.eqb_spec k k') as [->|]; [apply get_put_eq|by apply get_put_ne].
Qed.

Lemma get_In k v m : get k m = Some v -> In (k, v) m.
Proof.
  induction m as [|[k' v'] m IH]; simpl; [done|].
  destruct (String.eqb_spec k k') as [->|]; [intros [= ->]|]; auto.
Qed.

Lemma get_None k m : get k m = None <-> ~ In k (keys m).
Proof.
  induction m as [|[k' v'] m IH]; simpl; [tauto|].
  destruct (String.eqb_spec k k') as [->|]; [split; [done|tauto]|].
  rewrite IH. intuition congruence.
Qed.

Lemma In_get k v m : wf m -> In (k, v) m -> get k m = Some v.
Proof.
  unfold wf. induction m as [|[k' v'] m IH]; simpl; [done|].
  intros [Hn Hm]%NoDup_cons_iff [[= -> ->]|Hin]; [by rewrite String.eqb_refl|].
  destruct (String.eqb_spec k k') as [->|]; [|auto].
  exfalso. apply Hn. apply (in_map fst) in Hin. done.
Qed.

Lemma values_get v m : wf m -> In v (values m) <-> exists k, get k m = Some v.
Proof.
  intros Hwf. unfold values. rewrite in_map_iff. split.
  - intros ([k v'] & <- & Hin). exists k. by apply In_get.
  - intros [k Hk]. exists (k, v). split; [done|]. by apply get_In.
Qed.

Lemma get_values k v m : get k m = Some v -> In v (values m).
Proof. intros H%get_In. by apply (in_map snd) in H. Qed.

Lemma get_Forall (P : string * V -> Prop) m : Forall P m -> forall k v, get k m = Some v -> P (k, v).
Proof. intros HP k v Hg%get_In. by eapply List.Forall_forall in HP. Qed.

Lemma get_keys k v m : get k m = Some v -> In k (keys m).
Proof. intros H%get_In. by apply (in_map fst) in H. Qed.

Lemma keys_put_in k v m : In k (keys m) -> keys (put k v m) = keys m.
Proof.
  induction m as [|[k' v'] m IH]; simpl; [done|].
  destruct (String.eqb_spec k k') as [->|]; simpl; [done|].
  intros [->|Hin]; [done|]. by rewrite IH.
Qed.

Lemma put_fresh k v m : get k m = None -> put k v m = m ++ [(k, v)].
Proof.
  induction m as [|[k' v'] m IH]; simpl; [done|].
  destruct (String.eqb_spec k k') as [->|]; [done|]. intros. by rewrite IH.
Qed.

Lemma wf_empty : wf empty_map.
Proof. constructor. Qed.

Lemma wf_put k v m : wf m -> wf (put k v m).
Proof.
  unfold wf. intros Hwf. destruct (get k m) eqn:E.
  - rewrite keys_put_in; [done|].
    apply get_In in E. by apply (in_map fst) in E.
  - rewrite put_fresh by done. unfold keys. rewrite map_app. simpl.
    apply get_None in E. apply List.NoDup_app; [done|repeat constructor; simpl; tauto|].
    intros x Hx [<-|[]]. done.
Qed.

Lemma keys_remove_incl k m x : In x (keys (remove k m)) -> In x (keys m).
Proof.
  induction m as [|[k' v'] m IH]; simpl; [done|].
  destruct (String.eqb k k'); simpl; tauto.
Qed.

Lemma wf_remove k m : wf m -> wf (remove k m).
Proof.
  unfold wf. induction m as [|[k' v'] m IH]; simpl; [done|].
  intros [Hn Hm]%NoDup_cons_iff. destruct (String.eqb k k'); [done|].
  constructor; [|auto]. intros Hin. by apply keys_remove_incl in Hin.
Qed.

Lemma get_remove_eq k m : wf m -> get k (remove k m) = None.
Proof.
  unfold wf. induction m as [|[k' v'] m IH]; simpl; [done|].
  intros [Hn Hm]%NoDup_cons_iff. destruct (String.eqb_spec k k') as [->|Hne]; simpl.
  - by apply get_None.
  - destruct (String.eqb_spec k k'); [done|auto].
Qed.

Lemma get_remove_ne k k' m : k <> k' -> get k (remove k' m) = get k m.
Proof.
  intros Hne. induction m as [|[k1 v1] m IH]; simpl; [done|].
  destruct (String.eqb_spec k' k1) as [->|]; simpl.
  - by destruct (String.eqb_spec k k1).
  - by rewrite IH.
Qed.

Lemma size_put_fresh k v m : get k m = None -> size (put k v m) = S (size m).
Proof. intros. unfold size. rewrite put_fresh by done. rewrite length_app. simpl. lia. Qed.

(** A property of every value survives a [put] of a value that has it. *)
Definition all_values (P : V -> Prop) (m : jsmap) : Prop := forall k v, get k m = Some v -> P v.

Lemma all_values_put P k v m : P v -> all_values P m -> all_values P (put k v m).
Proof.
  intros Hv Hm k' v'. rewrite get_put. destruct (String.eqb k' k); [congruence|apply Hm].
Qed.
Lemma all_values_empty P : all_values P empty_map.
Proof. by intros k v. Qed.
End JsMap.

Arguments jsmap V : clear implicits.

#[export] Hint Rewrite @get_put_eq : bel.
#[export] Hint Resolve wf_empty wf_put wf_remove all_values_put all_values_empty : bel.

(** [[...new Set(l)]]: first occurrences, in order. *)
Fixpoint dedup_from (seen : list string) (l : list string) : list string :=
  match l with
  | [] => []
  | x :: l' => if existsb (String.eqb x) seen then dedup_from seen l' else x :: dedup_from (x :: seen) l'
  end.
Definition dedup (l : list string) : list string := dedup_from [] l.

Lemma In_dedup_from x seen l : In x (dedup_from seen l) <-> In x l /\ ~ In x seen.
Proof.
  revert seen. induction l as [|y l IH]; intros seen; simpl; [tauto|].
  destruct (existsb (String.eqb y) seen) eqn:E.
  - apply existsb_exists in E as (z & Hz & <-%String.eqb_eq). rewrite IH. split; [tauto|].
    intros [[->|?] ?]; tauto.
  - assert (~ In y seen).
    { intros Hy. assert (existsb (String.eqb y) seen = true); [|congruence].
      apply existsb_exists. exists y. split; [done|apply String.eqb_refl]. }
    simpl. rewrite IH. simpl. destruct (decide (x = y)) as [->|]; [tauto|]. intuition congruence.
Qed.
Lemma In_dedup x l : In x (dedup l) <-> In x l.
Proof. unfold dedup. rewrite In_dedup_from. simpl. tauto. Qed.
