(* ===== verification/JsValue.v ===== *)
(** * JsValue: numbers, dynamically typed values and the platform

    [num] models an IEEE double by the rational it denotes, with [NaN] and the
    two infinities kept apart (rounding of inexact results is not modelled;
    the program only computes with integers and small fractions).  [value] is
    a value of type [unknown], as found in a transaction payload.  [Platform]
    collects what the program takes from Node.js and from the [ethers]
    package: clock, dates, randomness, hashing, key handling. *)
From S2P Require Import Prelude JsString JsMap.
Local Open Scope string_scope.

(** ** Numbers *)

Inductive num := NaN | PosInf | NegInf | Num (q : Q).

Definition num_of_Z (z : Z) : num := Num (inject_Z z).

(** [a <= b] and [a < b]; every comparison with [NaN] is false. *)
Definition num_le (a b : num) : bool :=
  match a, b with
  | NaN, _ | _, NaN => false
  | NegInf, _ | _, PosInf => true
  | PosInf, _ | _, NegInf => false
  | Num p, Num q => Qle_bool p q
  end.
Definition num_lt (a b : num) : bool :=
  match a, b with
  | NaN, _ | _, NaN => false
  | _, _ => negb (num_le b a)
  end.

(** [Math.max(a, b)]: [NaN] if either is [NaN]. *)
Definition num_max (a b : num) : num :=
  match a, b with
  | NaN, _ | _, NaN => NaN
  | _, _ => if num_le a b then b else a
  end.

(** [a + b] and [a * k] for an integer [k > 0]. *)
Definition num_add (a b : num) : num :=
  match a, b with
  | NaN, _ | _, NaN => NaN
  | PosInf, NegInf | NegInf, PosInf => NaN
  | PosInf, _ | _, PosInf => PosInf
  | NegInf, _ | _, NegInf => NegInf
  | Num p, Num q => Num (p + q)
  end.
Definition num_scale (a : num) (k : positive) : num :=
  match a with Num p => Num (p * inject_Z (Zpos k)) | _ => a end.

Definition isFinite (a : num) : bool := match a with Num _ => true | _ => false end.

(** [Math.floor] on a finite number, as an integer. *)
Definition floor_Z (q : Q) : Z := Qfloor q.

Definition as_integer (a : num) : option Z :=
  match a with
  | Num q => if Z.eqb (Qnum q mod Zpos (Qden q)) 0 then Some (Qfloor q) else None
  | _ => None
  end.
(** [Number.isInteger] *)
Definition isInteger (a : num) : bool := bool_decide (is_Some (as_integer a)).
Definition MAX_SAFE_INTEGER : Z := 9007199254740991.
(** [Number.isSafeInteger], with the integer when it is one. *)
Definition as_safe_integer (a : num) : option Z :=
  match as_integer a with
  | Some z => if (Z.abs z <=? MAX_SAFE_INTEGER)%Z then Some z else None
  | None => None
  end.

Lemma as_integer_num_of_Z z : as_integer (num_of_Z z) = Some z.
Proof.
  unfold as_integer, num_of_Z, inject_Z. simpl. rewrite Z.mod_1_r. simpl.
  unfold Qfloor. by rewrite Z.div_1_r.
Qed.

Lemma as_safe_integer_bound a z :
  as_safe_integer a = Some z -> as_integer a = Some z /\ (Z.abs z <= MAX_SAFE_INTEGER)%Z.
Proof.
  unfold as_safe_integer. destruct (as_integer a) as [z'|]; [|done].
  destruct (Z.leb_spec (Z.abs z') MAX_SAFE_INTEGER); [intros [= ->]|]; done.
Qed.

Lemma num_le_Z a b : num_le (num_of_Z a) (num_of_Z b) = (a <=? b)%Z.
Proof.
  simpl. unfold Qle_bool, inject_Z. simpl. by rewrite !Z.mul_1_r.
Qed.

Lemma num_le_NaN_l b : num_le NaN b = false.
Proof. done. Qed.

(** ** Values of type [unknown] *)

#[local] Set Warnings "-register-all".

Inductive value :=
| VUndefined
| VNull
| VBool (b : bool)
| VNum (n : num)
| VBigInt (z : Z)
| VStr (s : string)
| VArr (l : list value)
| VObj (fields : list (string * value)).

(** A [Record<string, unknown>], its own properties in insertion order. *)
Abbreviation payload := (list (string * value)).

(** [p[k]] *)
Definition field (k : string) (p : payload) : value := default VUndefined (get k p).

(** [!v] *)
Definition falsy (v : value) : bool :=
  match v with
  | VUndefined | VNull => true
  | VBool b => negb b
  | VNum NaN => true
  | VNum (Num q) => Qeq_bool q 0
  | VNum _ => false
  | VBigInt z => Z.eqb z 0
  | VStr s => bool_decide (s = "")
  | VArr _ | VObj _ => false
  end.

(** [{ ...base, ...p }] *)
Definition spread (base p : payload) : payload :=
  fold_left (fun o kv => put (fst kv) (snd kv) o) p base.

(** [o ?? null] for an optional string, as a value. *)
Definition nullable (o : option string) : value :=
  match o with Some s => VStr s | None => VNull end.

(** ** The platform *)

Class Platform := {
  (** [process.env[name]] *)
  process_env : string -> option string;
  (** [Date.now()]: the n-th reading of the clock *)
  Date_now : nat -> Z;
  (** [new Date(ms).toISOString()] and [Date.parse(s)] ([None] is [NaN]) *)
  toISOString : Z -> string;
  Date_parse : string -> option Z;
  (** the n-th [randomUUID()] and [randomBytes(32).toString("base64url")] *)
  randomUUID_at : nat -> string;
  randomBytes_at : nat -> string;
  (** [createHash("sha256").update(s).digest("hex")] *)
  sha256_hex : string -> string;
  (** [Number(s)] on a string *)
  Number_of : string -> num;
  (** [String(v)] *)
  String_of : value -> string;
  (** [JSON.stringify] of a payload *)
  JSON_stringify : payload -> string;
  (** [JSON.parse(s)]; [None] when it throws a [SyntaxError] *)
  JSON_parse : string -> option value;
  (** [node:crypto] public keys: PEM and base64 SPKI DER; [None] when it throws *)
  public_key : Type;
  createPublicKey_pem : string -> option public_key;
  createPublicKey_der : string -> option public_key;
  (** [Buffer.from(s, "hex")], [Buffer.from(s, "base64url")] *)
  bytes_of_hex : string -> string;
  bytes_of_base64url : string -> string;
  (** [verify(algorithm, data, key, signature)]; [None] when it throws *)
  crypto_verify : option string -> string -> public_key -> string -> option bool;
  (** [ethers]: addresses and message recovery; [None] when the call throws *)
  isAddress : string -> bool;
  getAddress : string -> option string;
  computeAddress : string -> option string;
  hashMessage : string -> string;
  recoverAddress : string -> string -> string -> Z -> option string;
}.

(** [Number(v)] *)
Definition Number_value `{Platform} (v : value) : num :=
  match v with
  | VUndefined => NaN
  | VNull => num_of_Z 0
  | VBool b => num_of_Z (if b then 1 else 0)
  | VNum n => n
  | VBigInt z => num_of_Z z
  | VStr s => Number_of s
  | VArr _ | VObj _ => Number_of (String_of v)
  end.

(** Documented behaviour the theorems rely on: the clock does not run
    backwards, an ISO string is non-empty and parses back to its instant, and
    UUIDs are unique. *)
Class PlatformLaws (P : Platform) := {
  Date_now_mono : forall m n, (m <= n)%nat -> (Date_now m <= Date_now n)%Z;
  Date_roundtrip : forall t, Date_parse (toISOString t) = Some t;
  randomUUID_inj : forall m n, randomUUID_at m = randomUUID_at n -> m = n;
  toISOString_nonempty : forall t, toISOString t <> "";
}.

(** [(process.env.BEL_BLOCKCHAIN ?? "mock").trim().toLowerCase() === "evm"] *)
Definition evmCryptoEnabled `{Platform} : bool :=
  bool_decide (toLowerCase (trim (default "mock" (process_env "BEL_BLOCKCHAIN"))) = "evm").

(** [process.env.BEL_ENV === "production"] *)
Definition is_production `{Platform} : bool :=
  bool_decide (process_env "BEL_ENV" = Some "production").
