(* ===== verification/Crypto.v ===== *)
(** * Crypto: keys and compact signatures, [backend/src/blockchain/crypto.ts]

    Byte arrays are kept as their lower-case hexadecimal spelling, which is
    what [Buffer.toString("hex")] gives; the [ethers] routines are parameters
    of the [Platform].  [None] is a thrown [Error]. *)
From S2P Require Import Prelude JsString JsValue.
From Stdlib Require Import Ascii.
Local Open Scope string_scope.

Definition PUBLIC_KEY_BYTES : nat := 64.
Definition SIGNATURE_BYTES : nat := 65.
Definition SECP256K1_N : Z := 0xFFFFFFFFFFFFFFFFFFFFFFFFFFFFFFFEBAAEDCE6AF48A03BBFD25E8CD0364141.
Definition SECP256K1_HALF_N : Z := SECP256K1_N / 2.

(** [canonicalHex(value, bytes, label)] *)
Definition canonicalHex (v : string) (bytes : nat) : option string :=
  if startsWith "0x" v then
    let hex := slice_from 2 v in
    if is_hex_of_length (bytes * 2) hex then Some (toLowerCase hex) else None
  else None.

Definition publicKeyToEvmAddress `{Platform} (publicKey : string) : option string :=
  xy ← canonicalHex publicKey PUBLIC_KEY_BYTES;
  a ← computeAddress ("0x04" +:+ xy);
  getAddress a.

Module CompactSignature.
Record t := mk { yParity : Z; r : string; s : string }.
End CompactSignature.

Definition parseCompactSignature (signature : string) : option CompactSignature.t :=
  hex ← canonicalHex signature SIGNATURE_BYTES;
  let yParity := hex_value (slice_to 2 hex) in
  if negb (yParity =? 0)%Z && negb (yParity =? 1)%Z then None else
  let r_hex := slice_to 64 (slice_from 2 hex) in
  let s_hex := slice_from 66 hex in
  let r := hex_value r_hex in
  let s := hex_value s_hex in
  if (r <? 1)%Z || (SECP256K1_N <=? r)%Z then None else
  if (s <? 1)%Z || (SECP256K1_HALF_N <? s)%Z then None else
  Some (CompactSignature.mk yParity ("0x" +:+ r_hex) ("0x" +:+ s_hex)).

Definition assertWalletMatchesPublicKey `{Platform} (address publicKey : string) : option string :=
  expected ← publicKeyToEvmAddress publicKey;
  a ← getAddress address;
  if String.eqb a expected then Some expected else None.

Definition verifyCompactSignature `{Platform} (message publicKey signature : string) : bool :=
  match (expected ← publicKeyToEvmAddress publicKey;
         sig ← parseCompactSignature signature;
         recovered ← recoverAddress (hashMessage message) (CompactSignature.r sig) (CompactSignature.s sig)
           (27 + CompactSignature.yParity sig);
         a ← getAddress recovered;
         Some (String.eqb a expected)) with
  | Some b => b
  | None => false
  end.

(** ** Properties *)

(** The [s] component a signature string spells out. *)
Definition signature_s (signature : string) : Z := hex_value (slice_from 66 (toLowerCase (slice_from 2 signature))).

Lemma parse_low_s signature x :
  parseCompactSignature signature = Some x -> (1 <= signature_s signature <= SECP256K1_HALF_N)%Z.
Proof.
  unfold parseCompactSignature, canonicalHex, signature_s.
  destruct (startsWith "0x" signature); [|done].
  destruct (is_hex_of_length _ _); [|done]. cbn [mbind option_bind].
  destruct (_ && _); [done|]. destruct ((_ <? 1)%Z || (SECP256K1_N <=? _)%Z); [done|].
  destruct ((_ <? 1)%Z || (SECP256K1_HALF_N <? _)%Z) eqn:E; [done|]. intros _.
  apply orb_false_iff in E as [?%Z.ltb_ge ?%Z.ltb_ge]. lia.
Qed.

Lemma half_order_odd : (SECP256K1_N = 2 * SECP256K1_HALF_N + 1)%Z.
Proof. vm_compute. reflexivity. Qed.

(** Compact signatures are not malleable: of a signature and its mirror
    image (the same with [s] replaced by [n - s], which verifies under plain
    ECDSA) at most one is accepted. *)
Theorem signature_not_malleable (signature mirror : string) :
  signature_s mirror = (SECP256K1_N - signature_s signature)%Z ->
  is_Some (parseCompactSignature signature) -> parseCompactSignature mirror = None.
Proof.
  intros Hm [x Hx%parse_low_s]. destruct (parseCompactSignature mirror) as [y|] eqn:E; [|done].
  apply parse_low_s in E. pose proof half_order_odd. lia.
Qed.

Fixpoint repeat_char (a : ascii) (n : nat) : string :=
  match n with O => "" | S n' => String a (repeat_char a n') end.
Definition demo_signature (s_hex : string) : string := "0x00" +:+ repeat_char "1"%char 64 +:+ s_hex.
Definition small_s : string := repeat_char "0"%char 63 +:+ "1".
Definition mirror_s : string := "fffffffffffffffffffffffffffffffebaaedce6af48a03bbfd25e8cd0364140".

Lemma signature_not_malleable_witness :
  is_Some (parseCompactSignature (demo_signature small_s)) /\ parseCompactSignature (demo_signature mirror_s) = None.
Proof.
  split; [vm_compute; eauto|].
  apply (signature_not_malleable (demo_signature small_s)); [vm_compute; reflexivity|vm_compute; eauto].
Defined.
