(* ===== verification/Shared.v ===== *)
(** * Shared: the enumerations and records of [shared/enums] and [shared/types]

    Each string union is an inductive type with the literals as constructors
    and the [as const] array as a list; records keep the source's field names
    inside a module named after the type.  [T | null] and optional fields are
    [option]. *)
From S2P Require Import Prelude JsValue.
Local Open Scope string_scope.

(** ** [shared/enums/index.ts] *)

Inductive Role := ADMIN | MANAGER | ENGINEER | TECHNICIAN | AUDITOR | ISSUER | VERIFIER.
Definition ROLES : list Role := [ADMIN; MANAGER; ENGINEER; TECHNICIAN; AUDITOR; ISSUER; VERIFIER].
Definition Role_string (r : Role) : string :=
  match r with
  | ADMIN => "ADMIN" | MANAGER => "MANAGER" | ENGINEER => "ENGINEER" | TECHNICIAN => "TECHNICIAN"
  | AUDITOR => "AUDITOR" | ISSUER => "ISSUER" | VERIFIER => "VERIFIER"
  end.
#[export] Instance Role_eq_dec : EqDecision Role.
Proof. solve_decision. Defined.

Inductive IdentityStatus := Identity_PENDING | Identity_ACTIVE | Identity_SUSPENDED | Identity_REVOKED.
Definition IdentityStatus_string (s : IdentityStatus) : string :=
  match s with
  | Identity_PENDING => "PENDING" | Identity_ACTIVE => "ACTIVE"
  | Identity_SUSPENDED => "SUSPENDED" | Identity_REVOKED => "REVOKED"
  end.
Definition IDENTITY_STATUSES : list IdentityStatus := [Identity_PENDING; Identity_ACTIVE; Identity_SUSPENDED; Identity_REVOKED].
#[export] Instance IdentityStatus_eq_dec : EqDecision IdentityStatus.
Proof. solve_decision. Defined.

(** [WALLET_STATUSES]; devices have the same three states. *)
Inductive WalletStatus := PENDING | ACTIVE | REVOKED.
Definition WalletStatus_string (s : WalletStatus) : string :=
  match s with PENDING => "PENDING" | ACTIVE => "ACTIVE" | REVOKED => "REVOKED" end.
Definition WALLET_STATUSES : list WalletStatus := [PENDING; ACTIVE; REVOKED].
#[export] Instance WalletStatus_eq_dec : EqDecision WalletStatus.
Proof. solve_decision. Defined.

Inductive AssetStatus := Asset_ACTIVE | IN_MAINTENANCE | DECOMMISSIONED.
Definition ASSET_STATUSES : list AssetStatus := [Asset_ACTIVE; IN_MAINTENANCE; DECOMMISSIONED].
Definition AssetStatus_string (s : AssetStatus) : string :=
  match s with
  | Asset_ACTIVE => "ACTIVE" | IN_MAINTENANCE => "IN_MAINTENANCE" | DECOMMISSIONED => "DECOMMISSIONED"
  end.
(** The status a string denotes: membership in [ASSET_STATUSES]. *)
Definition parse_AssetStatus (s : string) : option AssetStatus :=
  if String.eqb s "ACTIVE" then Some Asset_ACTIVE
  else if String.eqb s "IN_MAINTENANCE" then Some IN_MAINTENANCE
  else if String.eqb s "DECOMMISSIONED" then Some DECOMMISSIONED
  else None.
#[export] Instance AssetStatus_eq_dec : EqDecision AssetStatus.
Proof. solve_decision. Defined.

Inductive JobStatus := CREATED | ASSIGNED | IN_PROGRESS | COMPLETED | VERIFIED | REJECTED.
Definition JOB_STATUSES : list JobStatus := [CREATED; ASSIGNED; IN_PROGRESS; COMPLETED; VERIFIED; REJECTED].
Definition JobStatus_string (s : JobStatus) : string :=
  match s with
  | CREATED => "CREATED" | ASSIGNED => "ASSIGNED" | IN_PROGRESS => "IN_PROGRESS"
  | COMPLETED => "COMPLETED" | VERIFIED => "VERIFIED" | REJECTED => "REJECTED"
  end.
#[export] Instance JobStatus_eq_dec : EqDecision JobStatus.
Proof. solve_decision. Defined.

Inductive JobPriority := LOW | MEDIUM | HIGH | CRITICAL.
Definition JOB_PRIORITIES : list JobPriority := [LOW; MEDIUM; HIGH; CRITICAL].
Definition JobPriority_string (p : JobPriority) : string :=
  match p with LOW => "LOW" | MEDIUM => "MEDIUM" | HIGH => "HIGH" | CRITICAL => "CRITICAL" end.
#[export] Instance JobPriority_eq_dec : EqDecision JobPriority.
Proof. solve_decision. Defined.

Inductive ValidatorStatus := Validator_ACTIVE | Validator_INACTIVE | Validator_SLASHED.
#[export] Instance ValidatorStatus_eq_dec : EqDecision ValidatorStatus.
Proof. solve_decision. Defined.

Inductive TransactionType :=
| IDENTITY_CREATE | IDENTITY_REGISTER | ROLE_ASSIGN | ROLE_REVOKE
| WALLET_REGISTER | WALLET_ACTIVATE | WALLET_REVOKE
| ASSET_MINT | ASSET_TRANSFER | ASSET_STATE_CHANGE
| JOB_CREATE | JOB_ASSIGN | JOB_START | JOB_COMPLETE | JOB_APPROVE | JOB_REJECT
| COMPONENT_ATTACH | COMPONENT_REMOVE
| VALIDATOR_ADD | VALIDATOR_REMOVE | VALIDATOR_RESTORE | VALIDATOR_REMOVE_CANCEL
| GRANT_CREATE | GRANT_REVOKE.
Definition TransactionType_string (t : TransactionType) : string :=
  match t with
  | IDENTITY_CREATE => "IDENTITY_CREATE" | IDENTITY_REGISTER => "IDENTITY_REGISTER"
  | ROLE_ASSIGN => "ROLE_ASSIGN" | ROLE_REVOKE => "ROLE_REVOKE"
  | WALLET_REGISTER => "WALLET_REGISTER" | WALLET_ACTIVATE => "WALLET_ACTIVATE"
  | WALLET_REVOKE => "WALLET_REVOKE" | ASSET_MINT => "ASSET_MINT"
  | ASSET_TRANSFER => "ASSET_TRANSFER" | ASSET_STATE_CHANGE => "ASSET_STATE_CHANGE"
  | JOB_CREATE => "JOB_CREATE" | JOB_ASSIGN => "JOB_ASSIGN" | JOB_START => "JOB_START"
  | JOB_COMPLETE => "JOB_COMPLETE" | JOB_APPROVE => "JOB_APPROVE" | JOB_REJECT => "JOB_REJECT"
  | COMPONENT_ATTACH => "COMPONENT_ATTACH" | COMPONENT_REMOVE => "COMPONENT_REMOVE"
  | VALIDATOR_ADD => "VALIDATOR_ADD" | VALIDATOR_REMOVE => "VALIDATOR_REMOVE"
  | VALIDATOR_RESTORE => "VALIDATOR_RESTORE" | VALIDATOR_REMOVE_CANCEL => "VALIDATOR_REMOVE_CANCEL"
  | GRANT_CREATE => "GRANT_CREATE" | GRANT_REVOKE => "GRANT_REVOKE"
  end.
#[export] Instance TransactionType_eq_dec : EqDecision TransactionType.
Proof. solve_decision. Defined.

(** [Action] of [shared/rbac]; declared here because grants carry it. *)
Inductive Action :=
| CREATE_EMPLOYEE | REVOKE_WALLET | ACTIVATE_WALLET | REGISTER_ASSET | CREATE_JOB
| ASSIGN_TECHNICIAN | PERFORM_MAINTENANCE | VERIFY_MAINTENANCE | TRANSFER_ASSET
| VIEW_AUDIT_HISTORY | VIEW_VALIDATOR_STATUS | MANAGE_VALIDATORS.
Definition ACTIONS : list Action :=
  [CREATE_EMPLOYEE; REVOKE_WALLET; ACTIVATE_WALLET; REGISTER_ASSET; CREATE_JOB;
   ASSIGN_TECHNICIAN; PERFORM_MAINTENANCE; VERIFY_MAINTENANCE; TRANSFER_ASSET;
   VIEW_AUDIT_HISTORY; VIEW_VALIDATOR_STATUS; MANAGE_VALIDATORS].
Definition Action_string (a : Action) : string :=
  match a with
  | CREATE_EMPLOYEE => "CREATE_EMPLOYEE" | REVOKE_WALLET => "REVOKE_WALLET"
  | ACTIVATE_WALLET => "ACTIVATE_WALLET" | REGISTER_ASSET => "REGISTER_ASSET"
  | CREATE_JOB => "CREATE_JOB" | ASSIGN_TECHNICIAN => "ASSIGN_TECHNICIAN"
  | PERFORM_MAINTENANCE => "PERFORM_MAINTENANCE" | VERIFY_MAINTENANCE => "VERIFY_MAINTENANCE"
  | TRANSFER_ASSET => "TRANSFER_ASSET" | VIEW_AUDIT_HISTORY => "VIEW_AUDIT_HISTORY"
  | VIEW_VALIDATOR_STATUS => "VIEW_VALIDATOR_STATUS" | MANAGE_VALIDATORS => "MANAGE_VALIDATORS"
  end.
#[export] Instance Action_eq_dec : EqDecision Action.
Proof. solve_decision. Defined.

(** ** [shared/types/index.ts] *)

(** [Identity] and [PendingIdentity] are stored in the same map: before
    verification [employeeId], [role] and [department] are null. *)
Module Identity.
Record t := mk {
  identityId : string; employeeId : option string; fullName : string;
  role : option Role; department : option string; status : IdentityStatus;
  createdAt : string; verifiedAt : option string; verifiedBy : option string }.
Definition with_status (s : IdentityStatus) (x : t) : t :=
  mk (identityId x) (employeeId x) (fullName x) (role x) (department x) s (createdAt x) (verifiedAt x) (verifiedBy x).
Definition with_role (r : Role) (x : t) : t :=
  mk (identityId x) (employeeId x) (fullName x) (Some r) (department x) (status x) (createdAt x) (verifiedAt x) (verifiedBy x).
Definition with_verification (emp dep at' by' : string) (x : t) : t :=
  mk (identityId x) (Some emp) (fullName x) (role x) (Some dep) (status x) (createdAt x) (Some at') (Some by').
End Identity.

Module Device.
Record t := mk {
  deviceId : string; identityId : string; status : WalletStatus; registeredAt : string;
  activatedAt : option string; revokedAt : option string; publicKey : option string;
  metadata : option payload }.
Definition activated (now : string) (x : t) : t :=
  mk (deviceId x) (identityId x) ACTIVE (registeredAt x) (Some now) (revokedAt x) (publicKey x) (metadata x).
Definition revoked (now : string) (x : t) : t :=
  mk (deviceId x) (identityId x) REVOKED (registeredAt x) (activatedAt x) (Some now) (publicKey x) (metadata x).
End Device.

Module Wallet.
Record t := mk {
  address : string; identityId : string; deviceId : string; status : WalletStatus;
  activatedAt : option string; revokedAt : option string; revokedReason : option string;
  publicKey : option string }.
Definition activated (now : string) (x : t) : t :=
  mk (address x) (identityId x) (deviceId x) ACTIVE (Some now) (revokedAt x) (revokedReason x) (publicKey x).
Definition revoked (now reason : string) (x : t) : t :=
  mk (address x) (identityId x) (deviceId x) REVOKED (activatedAt x) (Some now) (Some reason) (publicKey x).
End Wallet.

Inductive ChallengePurpose := WALLET_INITIALIZATION | AUTHENTICATION | FRESH_AUTHENTICATION.
#[export] Instance ChallengePurpose_eq_dec : EqDecision ChallengePurpose.
Proof. solve_decision. Defined.

Module ProvisioningChallenge.
Record t := mk {
  challengeId : string; deviceId : string; challenge : string; purpose : ChallengePurpose;
  expiresAt : string; usedAt : option string; metadata : option payload }.
Definition used (at' : string) (x : t) : t :=
  mk (challengeId x) (deviceId x) (challenge x) (purpose x) (expiresAt x) (Some at') (metadata x).
End ProvisioningChallenge.

Inductive ResourceType := ASSET | JOB.
#[export] Instance ResourceType_eq_dec : EqDecision ResourceType.
Proof. solve_decision. Defined.
Definition ResourceType_string (r : ResourceType) : string :=
  match r with ASSET => "ASSET" | JOB => "JOB" end.
Inductive GrantStatus := Grant_ACTIVE | Grant_REVOKED | Grant_EXPIRED.
#[export] Instance GrantStatus_eq_dec : EqDecision GrantStatus.
Proof. solve_decision. Defined.

Module AuthorizationGrant.
Record t := mk {
  authorizationGrantId : string; actorIdentityId : string; resourceType : ResourceType;
  resourceId : string; action : Action; grantedByIdentityId : string;
  issuedAt : string; expiresAt : option string; status : GrantStatus }.
Definition with_status (s : GrantStatus) (x : t) : t :=
  mk (authorizationGrantId x) (actorIdentityId x) (resourceType x) (resourceId x) (action x)
     (grantedByIdentityId x) (issuedAt x) (expiresAt x) s.
End AuthorizationGrant.

Module User.
Record t := mk {
  employeeId : string; identityId : string; walletAddress : string;
  role : Role; department : string; status : IdentityStatus }.
Definition with_wallet (a : string) (x : t) : t :=
  mk (employeeId x) (identityId x) a (role x) (department x) (status x).
Definition with_role (r : Role) (x : t) : t :=
  mk (employeeId x) (identityId x) (walletAddress x) r (department x) (status x).
(** [{ ...user, walletAddress, role, status }] *)
Definition session_view (a : string) (r : Role) (s : IdentityStatus) (x : t) : t :=
  mk (employeeId x) (identityId x) a r (department x) s.
End User.

Module Asset.
Record t := mk {
  assetId : string; nftId : string; assetType : string; ownerId : string;
  custodianId : string; parentAssetId : option string; status : AssetStatus }.
Definition with_owner (o c : string) (x : t) : t :=
  mk (assetId x) (nftId x) (assetType x) o c (parentAssetId x) (status x).
Definition with_status (s : AssetStatus) (x : t) : t :=
  mk (assetId x) (nftId x) (assetType x) (ownerId x) (custodianId x) (parentAssetId x) s.
Definition with_parent (p : option string) (x : t) : t :=
  mk (assetId x) (nftId x) (assetType x) (ownerId x) (custodianId x) p (status x).
Definition with_nftId (n : string) (x : t) : t :=
  mk (assetId x) n (assetType x) (ownerId x) (custodianId x) (parentAssetId x) (status x).
End Asset.

Module Job.
Record t := mk {
  jobId : string; assetId : string; createdBy : string; assignedTo : string;
  verifierId : option string; status : JobStatus; priority : JobPriority;
  createdAt : string; completedAt : option string }.
Definition assigned (tech : string) (x : t) : t :=
  mk (jobId x) (assetId x) (createdBy x) tech (verifierId x) ASSIGNED (priority x) (createdAt x) (completedAt x).
Definition started (x : t) : t :=
  mk (jobId x) (assetId x) (createdBy x) (assignedTo x) (verifierId x) IN_PROGRESS (priority x) (createdAt x) (completedAt x).
Definition completed (now : string) (x : t) : t :=
  mk (jobId x) (assetId x) (createdBy x) (assignedTo x) (verifierId x) COMPLETED (priority x) (createdAt x) (Some now).
Definition judged (s : JobStatus) (by' : string) (x : t) : t :=
  mk (jobId x) (assetId x) (createdBy x) (assignedTo x) (Some by') s (priority x) (createdAt x) (completedAt x).
End Job.

Inductive ValidatorRegistrationStatus := VR_PENDING | VR_ACTIVE | VR_REMOVAL_SCHEDULED | VR_REMOVED.
#[export] Instance ValidatorRegistrationStatus_eq_dec : EqDecision ValidatorRegistrationStatus.
Proof. solve_decision. Defined.

Module ValidatorRegistration.
Record t := mk {
  registrationId : string; validatorId : string; identityId : string; walletAddress : string;
  nodeId : string; nodeAddress : string; publicKey : string; signingPublicKey : string;
  status : ValidatorRegistrationStatus; requestedAt : string; activationHeight : Z;
  removalHeight : option Z; removalReason : option string; txHash : option string;
  blockNumber : option Z }.
Definition with_status (s : ValidatorRegistrationStatus) (x : t) : t :=
  mk (registrationId x) (validatorId x) (identityId x) (walletAddress x) (nodeId x) (nodeAddress x)
     (publicKey x) (signingPublicKey x) s (requestedAt x) (activationHeight x) (removalHeight x)
     (removalReason x) (txHash x) (blockNumber x).
(** assign [status], [removalHeight], [removalReason], [txHash], [blockNumber] *)
Definition with_removal (s : ValidatorRegistrationStatus) (h : option Z) (r : option string)
    (tx : option string) (b : option Z) (x : t) : t :=
  mk (registrationId x) (validatorId x) (identityId x) (walletAddress x) (nodeId x) (nodeAddress x)
     (publicKey x) (signingPublicKey x) s (requestedAt x) (activationHeight x) h r tx b.
End ValidatorRegistration.

Inductive HistoryStatus := History_SUCCESS | History_FAILED.
#[export] Instance HistoryStatus_eq_dec : EqDecision HistoryStatus.
Proof. solve_decision. Defined.

Module ValidatorHistoryRecord.
Record t := mk {
  historyId : string; validatorId : string; operation : TransactionType; actorIdentityId : string;
  actorWallet : string; timestamp : string; blockNumber : option Z; transactionHash : option string;
  previousState : option ValidatorRegistrationStatus; newState : ValidatorRegistrationStatus;
  reason : option string; status : HistoryStatus; inverseTransactionHash : option string }.
End ValidatorHistoryRecord.

Inductive NotificationChannel := IN_APP | EMAIL.
Inductive DeliveryStatus := Delivery_PENDING | DELIVERED | FAILED.
#[export] Instance DeliveryStatus_eq_dec : EqDecision DeliveryStatus.
Proof. solve_decision. Defined.
#[export] Instance NotificationChannel_eq_dec : EqDecision NotificationChannel.
Proof. solve_decision. Defined.

Module NotificationDelivery.
Record t := mk {
  notificationId : string; eventType : TransactionType; validatorId : string; operation : TransactionType;
  recipientIdentityId : string; channel : NotificationChannel; createdAt : string; status : DeliveryStatus }.
End NotificationDelivery.

Module Transaction.
Record t := mk {
  txId : string; type : TransactionType; actorIdentity : string; actorWallet : string;
  payload : list (string * value); timestamp : string; signature : string }.
End Transaction.

Module PreparedTransaction.
Record t := mk {
  from : string; to : string; data : string; chainId : Z; nonce : option Z;
  gasLimit : option string; value : option string; contract : string; method : string }.
End PreparedTransaction.

(** ** [shared/api.ts]: results of the blockchain service *)

Inductive TxStatus := SUCCESS | TX_REJECTED.
#[export] Instance TxStatus_eq_dec : EqDecision TxStatus.
Proof. solve_decision. Defined.

Module DecodedRevert.
Record t := mk { name : string; args : list string; message : string }.
End DecodedRevert.

(** [MockBlockchainResult], with the [nftId] a detailed adapter result may carry. *)
Module TxResult.
Record t := mk {
  txId : string; status : TxStatus; transactionHash : option string; blockNumber : option Z;
  event : option string; revert : option DecodedRevert.t; nftId : option string }.
End TxResult.

(** [Block] *)
Module Block.
Record t := mk { height : Z; leaderId : string; committee : list string; transactions : list string; finalizedAt : string }.
End Block.

Module BlockchainStatus.
Record t := mk { height : Z; healthy : bool; finalityLag : Z; lastFinalizedHeight : Z }.
End BlockchainStatus.

Module Validator.
Record t := mk { validatorId : string; publicKey : string; status : ValidatorStatus; joinedAt : string }.
End Validator.

(** [AUDIT_ENTITY_TYPES] *)
Inductive AuditEntityType := Audit_ASSET | Audit_JOB | Audit_IDENTITY | Audit_DEVICE | Audit_WALLET | Audit_GRANT | Audit_VALIDATOR.

(** [timestamp] is what the adapter makes of a time on the chain: [null] for
    the time 0. *)
Module AuditEvent.
Record t := mk {
  eventId : string; txId : string; entityType : AuditEntityType; entityId : string;
  action : string; actorIdentityId : string; timestamp : option string }.
End AuditEvent.

Lemma Role_string_inj r r' : Role_string r = Role_string r' -> r = r'.
Proof. by destruct r, r'. Qed.
Lemma ROLES_complete r : In r ROLES.
Proof. destruct r; simpl; tauto. Qed.
Lemma ACTIONS_complete a : In a ACTIONS.
Proof. destruct a; simpl; tauto. Qed.
