(* ===== verification/Rbac.v ===== *)
(** * Rbac: the permission matrix of [shared/rbac/index.ts] *)
From S2P Require Import Prelude JsValue Shared.
Local Open Scope string_scope.

Inductive Permission := ALLOW | DENY | AUTH | OWN.
#[export] Instance Permission_eq_dec : EqDecision Permission.
Proof. solve_decision. Defined.

Definition RBAC_MATRIX (action : Action) (role : Role) : Permission :=
  match action with
  | CREATE_EMPLOYEE =>
      match role with
      | ADMIN => ALLOW | MANAGER => DENY | ENGINEER => DENY | TECHNICIAN => DENY
      | AUDITOR => DENY | ISSUER => DENY | VERIFIER => DENY
      end
  | REVOKE_WALLET =>
      match role with
      | ADMIN => ALLOW | MANAGER => DENY | ENGINEER => DENY | TECHNICIAN => DENY
      | AUDITOR => DENY | ISSUER => DENY | VERIFIER => DENY
      end
  | ACTIVATE_WALLET =>
      match role with
      | ADMIN => ALLOW | MANAGER => DENY | ENGINEER => DENY | TECHNICIAN => DENY
      | AUDITOR => DENY | ISSUER => ALLOW | VERIFIER => DENY
      end
  | REGISTER_ASSET =>
      match role with
      | ADMIN => ALLOW | MANAGER => ALLOW | ENGINEER => ALLOW | TECHNICIAN => DENY
      | AUDITOR => DENY | ISSUER => ALLOW | VERIFIER => DENY
      end
  | CREATE_JOB =>
      match role with
      | ADMIN => DENY | MANAGER => ALLOW | ENGINEER => ALLOW | TECHNICIAN => DENY
      | AUDITOR => DENY | ISSUER => DENY | VERIFIER => DENY
      end
  | ASSIGN_TECHNICIAN =>
      match role with
      | ADMIN => DENY | MANAGER => ALLOW | ENGINEER => ALLOW | TECHNICIAN => DENY
      | AUDITOR => DENY | ISSUER => DENY | VERIFIER => DENY
      end
  | PERFORM_MAINTENANCE =>
      match role with
      | ADMIN => DENY | MANAGER => DENY | ENGINEER => ALLOW | TECHNICIAN => ALLOW
      | AUDITOR => DENY | ISSUER => DENY | VERIFIER => DENY
      end
  | VERIFY_MAINTENANCE =>
      match role with
      | ADMIN => DENY | MANAGER => ALLOW | ENGINEER => ALLOW | TECHNICIAN => DENY
      | AUDITOR => ALLOW | ISSUER => DENY | VERIFIER => ALLOW
      end
  | TRANSFER_ASSET =>
      match role with
      | ADMIN => ALLOW | MANAGER => ALLOW | ENGINEER => AUTH | TECHNICIAN => DENY
      | AUDITOR => DENY | ISSUER => DENY | VERIFIER => DENY
      end
  | VIEW_AUDIT_HISTORY =>
      match role with
      | ADMIN => ALLOW | MANAGER => ALLOW | ENGINEER => ALLOW | TECHNICIAN => OWN
      | AUDITOR => ALLOW | ISSUER => DENY | VERIFIER => ALLOW
      end
  | VIEW_VALIDATOR_STATUS =>
      match role with
      | ADMIN => ALLOW | MANAGER => ALLOW | ENGINEER => ALLOW | TECHNICIAN => ALLOW
      | AUDITOR => ALLOW | ISSUER => ALLOW | VERIFIER => ALLOW
      end
  | MANAGE_VALIDATORS =>
      match role with
      | ADMIN => ALLOW | MANAGER => DENY | ENGINEER => DENY | TECHNICIAN => DENY
      | AUDITOR => DENY | ISSUER => DENY | VERIFIER => DENY
      end
  end.

Module PermissionContext.
Record t := mk {
  actorId : option string; resourceOwnerId : option string;
  authorizationGrantId : option string; explicitlyAuthorized : option bool }.
Definition empty : t := mk None None None None.
End PermissionContext.
Import PermissionContext.

Definition permissionFor (role : Role) (action : Action) : Permission := RBAC_MATRIX action role.

Definition can (role : Role) (action : Action) (ctx : PermissionContext.t) : bool :=
  match permissionFor role action with
  | ALLOW => true
  | DENY => false
  | AUTH => bool_decide (explicitlyAuthorized ctx = Some true) && truthy_string (authorizationGrantId ctx)
  | OWN => match actorId ctx, resourceOwnerId ctx with
           | Some a, Some o => String.eqb a o
           | _, _ => false
           end
  end.

(** [Object.keys(RBAC_MATRIX[action])] lists the roles in declaration order. *)
Definition rolesDeniedFor (action : Action) : list Role :=
  List.filter (fun role => bool_decide (RBAC_MATRIX action role = DENY)) ROLES.

(** ** Lemmas *)

Lemma can_ALLOW role action ctx : permissionFor role action = ALLOW -> can role action ctx = true.
Proof. unfold can. by intros ->. Qed.

Lemma can_AUTH role action ctx :
  permissionFor role action = AUTH ->
  can role action ctx = true <->
  explicitlyAuthorized ctx = Some true /\ exists g, authorizationGrantId ctx = Some g /\ g <> "".
Proof.
  unfold can. intros ->. rewrite andb_true_iff, bool_decide_eq_true. split.
  - intros [? (g & ? & ?)%truthy_string_Some]. eauto.
  - intros [? (g & -> & ?)]. split; [done|]. simpl. by apply negb_true_iff, bool_decide_eq_false.
Qed.

Lemma can_OWN role action ctx :
  permissionFor role action = OWN ->
  can role action ctx = true <-> exists a, actorId ctx = Some a /\ resourceOwnerId ctx = Some a.
Proof.
  unfold can. intros ->. destruct (actorId ctx) as [a|], (resourceOwnerId ctx) as [o|]; split; try done.
  - intros ->%String.eqb_eq. eauto.
  - intros (? & [= ->] & [= ->]). apply String.eqb_refl.
  - by intros (? & ? & ?).
  - by intros (? & ? & ?).
  - by intros (? & ? & ?).
Qed.

(** The context in which every conditional cell resolves to yes. *)
Definition fully_authorized : PermissionContext.t :=
  PermissionContext.mk (Some "self") (Some "self") (Some "grant") (Some true).

Lemma can_fully_authorized role action :
  permissionFor role action <> DENY -> can role action fully_authorized = true.
Proof. unfold can. by destruct (permissionFor role action). Qed.

(** The list the UI gates on is exactly the set of roles to
    which no request context ever grants the action. *)
Lemma rolesDeniedFor_spec_aux (action : Action) (role : Role) :
  In role (rolesDeniedFor action) <-> forall ctx, can role action ctx = false.
Proof.
  unfold rolesDeniedFor. rewrite filter_In, bool_decide_eq_true. split.
  - intros [_ H] ctx. unfold can, permissionFor. by rewrite H.
  - intros H. split; [apply ROLES_complete|].
    destruct (decide (RBAC_MATRIX action role = DENY)) as [|Hn]; [done|].
    specialize (H fully_authorized). by rewrite (can_fully_authorized role action Hn) in H.
Qed.
