(* ===== verification/Errors.v ===== *)
(** * Errors: the exception values of [backend/src/errors.ts] and
    [backend/src/blockchain/errors.ts], and the error serializer of [app.ts] *)
From S2P Require Import Prelude JsString Shared.
Local Open Scope string_scope.

Inductive BlockchainErrorKind :=
| INVALID_PAYLOAD | UNSUPPORTED_TRANSACTION | NOT_FOUND | CONFIG | SIGNER | NETWORK | TIMEOUT | REVERTED.
#[export] Instance BlockchainErrorKind_eq_dec : EqDecision BlockchainErrorKind.
Proof. solve_decision. Defined.

(** [HTTP[kind]] *)
Definition HTTP (kind : BlockchainErrorKind) : Z * string :=
  match kind with
  | INVALID_PAYLOAD => (400%Z, "VALIDATION_FAILED")
  | UNSUPPORTED_TRANSACTION => (400%Z, "VALIDATION_FAILED")
  | NOT_FOUND => (404%Z, "NOT_FOUND")
  | CONFIG => (500%Z, "INTERNAL_ERROR")
  | SIGNER => (500%Z, "INTERNAL_ERROR")
  | NETWORK => (502%Z, "INTERNAL_ERROR")
  | TIMEOUT => (504%Z, "INTERNAL_ERROR")
  | REVERTED => (409%Z, "CONFLICT")
  end.

(** One constructor per error class; [Error] is a plain JavaScript [Error].
    [OutOfFuel] is not an error of the program: a loop of the model raises it
    when its fuel is spent, and the termination theorems exclude it. *)
Inductive exn :=
| HttpError (status : Z) (message code : string)
| NotImplementedError (what : string)
| ForbiddenError (message : string)
| UnauthorizedError (message : string)
| NotFoundError (message : string)
| ValidationError (errors : list string)
| ConflictError (message : string)
| PayloadTooLargeError (message : string)
| UnsupportedMediaTypeError (message : string)
| ServiceUnavailableError (message : string)
| IntegrityError (message : string)
| TransactionRejectedError (transactionType : string)
| BlockchainStateUnavailableError (assetId txId : string)
| BlockchainError (kind : BlockchainErrorKind) (message : string)
| EvidenceStorageError (message : string)
| Error (message : string)
| OutOfFuel.

(** Default messages of the constructors. *)
Definition default_forbidden : exn := ForbiddenError "Action not permitted for this role".
Definition default_unauthorized : exn := UnauthorizedError "No valid session".
Definition default_too_large : exn := PayloadTooLargeError "Uploaded file exceeds the configured size limit".
Definition default_media_type : exn := UnsupportedMediaTypeError "Unsupported evidence content type".
Definition default_unavailable : exn := ServiceUnavailableError "Evidence storage is temporarily unavailable".
Definition default_integrity : exn := IntegrityError "Evidence integrity verification failed".

(** What the [HttpError] constructor stores: status, message and code;
    [None] for the errors that are not an [HttpError]. *)
Definition http_fields (e : exn) : option (Z * string * string) :=
  match e with
  | HttpError s m c => Some (s, m, c)
  | NotImplementedError w => Some (501%Z, w +:+ " is not implemented yet", "NOT_IMPLEMENTED")
  | ForbiddenError m => Some (403%Z, m, "FORBIDDEN")
  | UnauthorizedError m => Some (401%Z, m, "UNAUTHORIZED")
  | NotFoundError m => Some (404%Z, m, "NOT_FOUND")
  | ValidationError es =>
      let m := join_strings "; " es in
      Some (400%Z, if bool_decide (m = "") then "Invalid request body" else m, "VALIDATION_FAILED")
  | ConflictError m => Some (409%Z, m, "CONFLICT")
  | PayloadTooLargeError m => Some (413%Z, m, "PAYLOAD_TOO_LARGE")
  | UnsupportedMediaTypeError m => Some (415%Z, m, "UNSUPPORTED_MEDIA_TYPE")
  | ServiceUnavailableError m => Some (503%Z, m, "SERVICE_UNAVAILABLE")
  | IntegrityError m => Some (409%Z, m, "INTEGRITY_FAILURE")
  | TransactionRejectedError t => Some (502%Z, "Blockchain rejected " +:+ t, "INTERNAL_ERROR")
  | BlockchainStateUnavailableError a t =>
      Some (502%Z, "Blockchain accepted " +:+ t +:+ ", but asset " +:+ a +:+ " is not queryable", "INTERNAL_ERROR")
  | BlockchainError k m => let '(s, c) := HTTP k in Some (s, m, c)
  | EvidenceStorageError _ | Error _ | OutOfFuel => None
  end.

(** The error handler of [createApp]: response status, code and message. *)
Definition serialize_error (e : exn) : Z * string * string :=
  match http_fields e with
  | Some (status, message, code) => (status, code, message)
  | None => (500%Z, "INTERNAL_ERROR", "Unexpected server error")
  end.
