(* ===== verification/World.v ===== *)
(** * World: the mutable state of one backend process, and its ports

    [World C] gathers what the container wires together: the maps behind the
    in-memory repositories ([users/identity.store.ts],
    [users/repository-implementations.ts], [domain/repositories.ts],
    [evidence/evidence.repository.ts]), the cache of the asset service, the
    recording integrity adapter, the state [C] of the blockchain service, and
    how many times the clock and the two random sources have been read.
    [BlockchainService] is the interface of [shared/api.ts] the services are
    written against. *)
From S2P Require Import Prelude Effects JsString JsMap JsValue Shared Errors.
Local Open Scope string_scope.

(** [SessionRecord] of [identity.store.ts]; [expiresAt] is a number of
    milliseconds. *)
Module SessionRecord.
Record t := mk { token : string; identityId : string; deviceId : string; walletAddress : string; expiresAt : num }.
End SessionRecord.

(** [Evidence] of [evidence.types.ts] *)
Module Evidence.
Record t := mk {
  evidenceId : string; jobId : string; cid : string; sha256 : string; originalFilename : string;
  contentType : string; sizeBytes : Z; uploadedBy : string; createdAt : string; updatedAt : string }.
End Evidence.

Inductive CommitmentEntity := E_IDENTITY | E_DEVICE | E_WALLET | E_GRANT.

(** [IntegrityCommitment] of [integrity.ts] *)
Module IntegrityCommitment.
Record t := mk {
  entityType : CommitmentEntity; entityId : string; eventType : string; version : Z;
  canonicalStateHash : string; actorIdentityId : string; timestamp : string }.
End IntegrityCommitment.

(** [JobActor] of the job service and [AssetActor] of the asset service: the
    authenticated caller, with the raw transaction signed on the device. *)
Module Actor.
Record t := mk { identityId : string; walletAddress : string; signature : option string }.
End Actor.

(** What [container.ts] passes to the services: whether an asset repository
    and an identity check are wired in. *)
Class Wiring := { wired_assets : bool; wired_identityExists : bool }.

(** The answer of [getAsset]; [parentAssetId] is an optional field of the
    type [Asset], and [parent_undefined] says that the answer omits it. *)
Module OnChainAsset.
Record t := mk { asset : Asset.t; parent_undefined : bool }.
End OnChainAsset.

(** ** The blockchain service *)

(** [BlockchainService]: every call may change the service's own state and
    may throw.  The three optional methods are [None] when the implementation
    does not provide them. *)
Class BlockchainService (C : Type) := {
  submitTransaction : Transaction.t -> M exn C TxResult.t;
  submitTransactionDetailed : option (Transaction.t -> M exn C TxResult.t);
  prepareTransaction : option (Transaction.t -> M exn C PreparedTransaction.t);
  chain_getIdentity : string -> M exn C (option Identity.t);
  chain_getWallet : string -> M exn C (option Wallet.t);
  chain_getAsset : string -> M exn C (option OnChainAsset.t);
  chain_getStatus : M exn C BlockchainStatus.t;
  chain_getValidators : M exn C (list Validator.t);
  chain_getCommittee : Z -> M exn C (list string);
  getAuditTrail : option (string -> M exn C (list AuditEvent.t));
}.

(** ** The state *)

Record World (C : Type) := mkWorld {
  w_identities : jsmap Identity.t;
  w_users : jsmap User.t;
  w_devices : jsmap Device.t;
  w_wallets : jsmap Wallet.t;
  w_credentials : jsmap string;
  w_sessions : jsmap SessionRecord.t;
  w_grants : jsmap AuthorizationGrant.t;
  w_challenges : jsmap ProvisioningChallenge.t;
  w_validators : jsmap ValidatorRegistration.t;
  w_validatorHistory : jsmap ValidatorHistoryRecord.t;
  w_notifications : jsmap NotificationDelivery.t;
  w_jobs : jsmap Job.t;
  w_assetRecords : jsmap Asset.t;
  w_assetCache : jsmap Asset.t;
  w_evidenceRecords : jsmap Evidence.t;
  w_evidenceObjects : jsmap string;
  w_commitments : list IntegrityCommitment.t;
  w_versions : jsmap Z;
  w_chain : C;
  w_clockReads : nat;
  w_uuidReads : nat;
  w_randomReads : nat }.
Arguments mkWorld {C}.
Arguments w_identities {C}.
Arguments w_users {C}.
Arguments w_devices {C}.
Arguments w_wallets {C}.
Arguments w_credentials {C}.
Arguments w_sessions {C}.
Arguments w_grants {C}.
Arguments w_challenges {C}.
Arguments w_validators {C}.
Arguments w_validatorHistory {C}.
Arguments w_notifications {C}.
Arguments w_jobs {C}.
Arguments w_assetRecords {C}.
Arguments w_assetCache {C}.
Arguments w_evidenceRecords {C}.
Arguments w_evidenceObjects {C}.
Arguments w_commitments {C}.
Arguments w_versions {C}.
Arguments w_chain {C}.
Arguments w_clockReads {C}.
Arguments w_uuidReads {C}.
Arguments w_randomReads {C}.

Section World.
Context {C : Type}.
Abbreviation W := (World C).

Definition upd_identities (f : jsmap Identity.t -> jsmap Identity.t) (w : W) : W :=
  mkWorld (f (w_identities w)) (w_users w) (w_devices w) (w_wallets w) (w_credentials w) (w_sessions w) (w_grants w) (w_challenges w) (w_validators w) (w_validatorHistory w) (w_notifications w) (w_jobs w) (w_assetRecords w) (w_assetCache w) (w_evidenceRecords w) (w_evidenceObjects w) (w_commitments w) (w_versions w) (w_chain w) (w_clockReads w) (w_uuidReads w) (w_randomReads w).
Definition upd_users (f : jsmap User.t -> jsmap User.t) (w : W) : W :=
  mkWorld (w_identities w) (f (w_users w)) (w_devices w) (w_wallets w) (w_credentials w) (w_sessions w) (w_grants w) (w_challenges w) (w_validators w) (w_validatorHistory w) (w_notifications w) (w_jobs w) (w_assetRecords w) (w_assetCache w) (w_evidenceRecords w) (w_evidenceObjects w) (w_commitments w) (w_versions w) (w_chain w) (w_clockReads w) (w_uuidReads w) (w_randomReads w).
Definition upd_devices (f : jsmap Device.t -> jsmap Device.t) (w : W) : W :=
  mkWorld (w_identities w) (w_users w) (f (w_devices w)) (w_wallets w) (w_credentials w) (w_sessions w) (w_grants w) (w_challenges w) (w_validators w) (w_validatorHistory w) (w_notifications w) (w_jobs w) (w_assetRecords w) (w_assetCache w) (w_evidenceRecords w) (w_evidenceObjects w) (w_commitments w) (w_versions w) (w_chain w) (w_clockReads w) (w_uuidReads w) (w_randomReads w).
Definition upd_wallets (f : jsmap Wallet.t -> jsmap Wallet.t) (w : W) : W :=
  mkWorld (w_identities w) (w_users w) (w_devices w) (f (w_wallets w)) (w_credentials w) (w_sessions w) (w_grants w) (w_challenges w) (w_validators w) (w_validatorHistory w) (w_notifications w) (w_jobs w) (w_assetRecords w) (w_assetCache w) (w_evidenceRecords w) (w_evidenceObjects w) (w_commitments w) (w_versions w) (w_chain w) (w_clockReads w) (w_uuidReads w) (w_randomReads w).
Definition upd_credentials (f : jsmap string -> jsmap string) (w : W) : W :=
  mkWorld (w_identities w) (w_users w) (w_devices w) (w_wallets w) (f (w_credentials w)) (w_sessions w) (w_grants w) (w_challenges w) (w_validators w) (w_validatorHistory w) (w_notifications w) (w_jobs w) (w_assetRecords w) (w_assetCache w) (w_evidenceRecords w) (w_evidenceObjects w) (w_commitments w) (w_versions w) (w_chain w) (w_clockReads w) (w_uuidReads w) (w_randomReads w).
Definition upd_sessions (f : jsmap SessionRecord.t -> jsmap SessionRecord.t) (w : W) : W :=
  mkWorld (w_identities w) (w_users w) (w_devices w) (w_wallets w) (w_credentials w) (f (w_sessions w)) (w_grants w) (w_challenges w) (w_validators w) (w_validatorHistory w) (w_notifications w) (w_jobs w) (w_assetRecords w) (w_assetCache w) (w_evidenceRecords w) (w_evidenceObjects w) (w_commitments w) (w_versions w) (w_chain w) (w_clockReads w) (w_uuidReads w) (w_randomReads w).
Definition upd_grants (f : jsmap AuthorizationGrant.t -> jsmap AuthorizationGrant.t) (w : W) : W :=
  mkWorld (w_identities w) (w_users w) (w_devices w) (w_wallets w) (w_credentials w) (w_sessions w) (f (w_grants w)) (w_challenges w) (w_validators w) (w_validatorHistory w) (w_notifications w) (w_jobs w) (w_assetRecords w) (w_assetCache w) (w_evidenceRecords w) (w_evidenceObjects w) (w_commitments w) (w_versions w) (w_chain w) (w_clockReads w) (w_uuidReads w) (w_randomReads w).
Definition upd_challenges (f : jsmap ProvisioningChallenge.t -> jsmap ProvisioningChallenge.t) (w : W) : W :=
  mkWorld (w_identities w) (w_users w) (w_devices w) (w_wallets w) (w_credentials w) (w_sessions w) (w_grants w) (f (w_challenges w)) (w_validators w) (w_validatorHistory w) (w_notifications w) (w_jobs w) (w_assetRecords w) (w_assetCache w) (w_evidenceRecords w) (w_evidenceObjects w) (w_commitments w) (w_versions w) (w_chain w) (w_clockReads w) (w_uuidReads w) (w_randomReads w).
Definition upd_validators (f : jsmap ValidatorRegistration.t -> jsmap ValidatorRegistration.t) (w : W) : W :=
  mkWorld (w_identities w) (w_users w) (w_devices w) (w_wallets w) (w_credentials w) (w_sessions w) (w_grants w) (w_challenges w) (f (w_validators w)) (w_validatorHistory w) (w_notifications w) (w_jobs w) (w_assetRecords w) (w_assetCache w) (w_evidenceRecords w) (w_evidenceObjects w) (w_commitments w) (w_versions w) (w_chain w) (w_clockReads w) (w_uuidReads w) (w_randomReads w).
Definition upd_validatorHistory (f : jsmap ValidatorHistoryRecord.t -> jsmap ValidatorHistoryRecord.t) (w : W) : W :=
  mkWorld (w_identities w) (w_users w) (w_devices w) (w_wallets w) (w_credentials w) (w_sessions w) (w_grants w) (w_challenges w) (w_validators w) (f (w_validatorHistory w)) (w_notifications w) (w_jobs w) (w_assetRecords w) (w_assetCache w) (w_evidenceRecords w) (w_evidenceObjects w) (w_commitments w) (w_versions w) (w_chain w) (w_clockReads w) (w_uuidReads w) (w_randomReads w).
Definition upd_notifications (f : jsmap NotificationDelivery.t -> jsmap NotificationDelivery.t) (w : W) : W :=
  mkWorld (w_identities w) (w_users w) (w_devices w) (w_wallets w) (w_credentials w) (w_sessions w) (w_grants w) (w_challenges w) (w_validators w) (w_validatorHistory w) (f (w_notifications w)) (w_jobs w) (w_assetRecords w) (w_assetCache w) (w_evidenceRecords w) (w_evidenceObjects w) (w_commitments w) (w_versions w) (w_chain w) (w_clockReads w) (w_uuidReads w) (w_randomReads w).
Definition upd_jobs (f : jsmap Job.t -> jsmap Job.t) (w : W) : W :=
  mkWorld (w_identities w) (w_users w) (w_devices w) (w_wallets w) (w_credentials w) (w_sessions w) (w_grants w) (w_challenges w) (w_validators w) (w_validatorHistory w) (w_notifications w) (f (w_jobs w)) (w_assetRecords w) (w_assetCache w) (w_evidenceRecords w) (w_evidenceObjects w) (w_commitments w) (w_versions w) (w_chain w) (w_clockReads w) (w_uuidReads w) (w_randomReads w).
Definition upd_assetRecords (f : jsmap Asset.t -> jsmap Asset.t) (w : W) : W :=
  mkWorld (w_identities w) (w_users w) (w_devices w) (w_wallets w) (w_credentials w) (w_sessions w) (w_grants w) (w_challenges w) (w_validators w) (w_validatorHistory w) (w_notifications w) (w_jobs w) (f (w_assetRecords w)) (w_assetCache w) (w_evidenceRecords w) (w_evidenceObjects w) (w_commitments w) (w_versions w) (w_chain w) (w_clockReads w) (w_uuidReads w) (w_randomReads w).
Definition upd_assetCache (f : jsmap Asset.t -> jsmap Asset.t) (w : W) : W :=
  mkWorld (w_identities w) (w_users w) (w_devices w) (w_wallets w) (w_credentials w) (w_sessions w) (w_grants w) (w_challenges w) (w_validators w) (w_validatorHistory w) (w_notifications w) (w_jobs w) (w_assetRecords w) (f (w_assetCache w)) (w_evidenceRecords w) (w_evidenceObjects w) (w_commitments w) (w_versions w) (w_chain w) (w_clockReads w) (w_uuidReads w) (w_randomReads w).
Definition upd_evidenceRecords (f : jsmap Evidence.t -> jsmap Evidence.t) (w : W) : W :=
  mkWorld (w_identities w) (w_users w) (w_devices w) (w_wallets w) (w_credentials w) (w_sessions w) (w_grants w) (w_challenges w) (w_validators w) (w_validatorHistory w) (w_notifications w) (w_jobs w) (w_assetRecords w) (w_assetCache w) (f (w_evidenceRecords w)) (w_evidenceObjects w) (w_commitments w) (w_versions w) (w_chain w) (w_clockReads w) (w_uuidReads w) (w_randomReads w).
Definition upd_evidenceObjects (f : jsmap string -> jsmap string) (w : W) : W :=
  mkWorld (w_identities w) (w_users w) (w_devices w) (w_wallets w) (w_credentials w) (w_sessions w) (w_grants w) (w_challenges w) (w_validators w) (w_validatorHistory w) (w_notifications w) (w_jobs w) (w_assetRecords w) (w_assetCache w) (w_evidenceRecords w) (f (w_evidenceObjects w)) (w_commitments w) (w_versions w) (w_chain w) (w_clockReads w) (w_uuidReads w) (w_randomReads w).
Definition upd_commitments (f : list IntegrityCommitment.t -> list IntegrityCommitment.t) (w : W) : W :=
  mkWorld (w_identities w) (w_users w) (w_devices w) (w_wallets w) (w_credentials w) (w_sessions w) (w_grants w) (w_challenges w) (w_validators w) (w_validatorHistory w) (w_notifications w) (w_jobs w) (w_assetRecords w) (w_assetCache w) (w_evidenceRecords w) (w_evidenceObjects w) (f (w_commitments w)) (w_versions w) (w_chain w) (w_clockReads w) (w_uuidReads w) (w_randomReads w).
Definition upd_versions (f : jsmap Z -> jsmap Z) (w : W) : W :=
  mkWorld (w_identities w) (w_users w) (w_devices w) (w_wallets w) (w_credentials w) (w_sessions w) (w_grants w) (w_challenges w) (w_validators w) (w_validatorHistory w) (w_notifications w) (w_jobs w) (w_assetRecords w) (w_assetCache w) (w_evidenceRecords w) (w_evidenceObjects w) (w_commitments w) (f (w_versions w)) (w_chain w) (w_clockReads w) (w_uuidReads w) (w_randomReads w).
Definition upd_chain (f : C -> C) (w : W) : W :=
  mkWorld (w_identities w) (w_users w) (w_devices w) (w_wallets w) (w_credentials w) (w_sessions w) (w_grants w) (w_challenges w) (w_validators w) (w_validatorHistory w) (w_notifications w) (w_jobs w) (w_assetRecords w) (w_assetCache w) (w_evidenceRecords w) (w_evidenceObjects w) (w_commitments w) (w_versions w) (f (w_chain w)) (w_clockReads w) (w_uuidReads w) (w_randomReads w).
Definition upd_clockReads (f : nat -> nat) (w : W) : W :=
  mkWorld (w_identities w) (w_users w) (w_devices w) (w_wallets w) (w_credentials w) (w_sessions w) (w_grants w) (w_challenges w) (w_validators w) (w_validatorHistory w) (w_notifications w) (w_jobs w) (w_assetRecords w) (w_assetCache w) (w_evidenceRecords w) (w_evidenceObjects w) (w_commitments w) (w_versions w) (w_chain w) (f (w_clockReads w)) (w_uuidReads w) (w_randomReads w).
Definition upd_uuidReads (f : nat -> nat) (w : W) : W :=
  mkWorld (w_identities w) (w_users w) (w_devices w) (w_wallets w) (w_credentials w) (w_sessions w) (w_grants w) (w_challenges w) (w_validators w) (w_validatorHistory w) (w_notifications w) (w_jobs w) (w_assetRecords w) (w_assetCache w) (w_evidenceRecords w) (w_evidenceObjects w) (w_commitments w) (w_versions w) (w_chain w) (w_clockReads w) (f (w_uuidReads w)) (w_randomReads w).
Definition upd_randomReads (f : nat -> nat) (w : W) : W :=
  mkWorld (w_identities w) (w_users w) (w_devices w) (w_wallets w) (w_credentials w) (w_sessions w) (w_grants w) (w_challenges w) (w_validators w) (w_validatorHistory w) (w_notifications w) (w_jobs w) (w_assetRecords w) (w_assetCache w) (w_evidenceRecords w) (w_evidenceObjects w) (w_commitments w) (w_versions w) (w_chain w) (w_clockReads w) (w_uuidReads w) (f (w_randomReads w)).

(** Everything the backend itself stores: all but the chain and the
    counters of the ambient sources. *)
Definition stored (w : W) :=
  (w_identities w, w_users w, w_devices w, w_wallets w, w_credentials w, w_sessions w, w_grants w, w_challenges w, w_validators w, w_validatorHistory w, w_notifications w, w_jobs w, w_assetRecords w, w_assetCache w, w_evidenceRecords w, w_evidenceObjects w, w_commitments w, w_versions w).

(** Read the clock, draw a UUID, draw 32 random bytes. *)
Definition now `{Platform} : M exn W Z := fun w =>
  (inr (Date_now (w_clockReads w)), upd_clockReads S w).
Definition nowISO `{Platform} : M exn W string := t ← now; mret (toISOString t).
Definition randomUUID `{Platform} : M exn W string := fun w =>
  (inr (randomUUID_at (w_uuidReads w)), upd_uuidReads S w).
Definition randomChallenge `{Platform} : M exn W string := fun w =>
  (inr (randomBytes_at (w_randomReads w)), upd_randomReads S w).

(** A call to the blockchain service. *)
Definition on_chain {A} (m : M exn C A) : M exn W A :=
  zoom w_chain (fun c => upd_chain (fun _ => c)) m.

Lemma on_chain_inv {A} (m : M exn C A) w r w' :
  on_chain m w = (r, w') -> exists c, m (w_chain w) = (r, c) /\ w' = upd_chain (fun _ => c) w.
Proof. unfold on_chain, zoom. destruct (m (w_chain w)) as [r' c]. intros [= -> <-]. eauto. Qed.

Lemma now_inv `{Platform} w r w' :
  now w = (r, w') -> r = inr (Date_now (w_clockReads w)) /\ w' = upd_clockReads S w.
Proof. unfold now. by intros [= <- <-]. Qed.
Lemma nowISO_inv `{Platform} w r w' :
  nowISO w = (r, w') -> r = inr (toISOString (Date_now (w_clockReads w))) /\ w' = upd_clockReads S w.
Proof. unfold nowISO, mbind, M_bind, now. simpl. by intros [= <- <-]. Qed.
Lemma randomUUID_inv `{Platform} w r w' :
  randomUUID w = (r, w') -> r = inr (randomUUID_at (w_uuidReads w)) /\ w' = upd_uuidReads S w.
Proof. unfold randomUUID. by intros [= <- <-]. Qed.
Lemma randomChallenge_inv `{Platform} w r w' :
  randomChallenge w = (r, w') -> r = inr (randomBytes_at (w_randomReads w)) /\ w' = upd_randomReads S w.
Proof. unfold randomChallenge. by intros [= <- <-]. Qed.

Lemma never_throws_now `{Platform} : never_throws now.
Proof. intros w. by repeat eexists. Qed.
Lemma never_throws_nowISO `{Platform} : never_throws nowISO.
Proof. intros w. by repeat eexists. Qed.
Lemma never_throws_randomUUID `{Platform} : never_throws randomUUID.
Proof. intros w. by repeat eexists. Qed.

(** Frames for the ambient sources: they write only their own counter. *)
Definition ambient_free {T} (p : W -> T) : Prop :=
  (forall f w, p (upd_clockReads f w) = p w) /\
  (forall f w, p (upd_uuidReads f w) = p w) /\
  (forall f w, p (upd_randomReads f w) = p w).
Definition chain_free {T} (p : W -> T) : Prop := forall f w, p (upd_chain f w) = p w.

Lemma keeps_now `{Platform} {T} (p : W -> T) : ambient_free p -> keeps p now.
Proof. intros (Hp & _) w. apply Hp. Qed.
Lemma keeps_nowISO `{Platform} {T} (p : W -> T) : ambient_free p -> keeps p nowISO.
Proof. intros (Hp & _) w. apply Hp. Qed.
Lemma keeps_randomUUID `{Platform} {T} (p : W -> T) : ambient_free p -> keeps p randomUUID.
Proof. intros (_ & Hp & _) w. apply Hp. Qed.
Lemma keeps_randomChallenge `{Platform} {T} (p : W -> T) : ambient_free p -> keeps p randomChallenge.
Proof. intros (_ & _ & Hp) w. apply Hp. Qed.
Lemma keeps_on_chain {T A} (p : W -> T) (m : M exn C A) : chain_free p -> keeps p (on_chain m).
Proof. intros H. apply keeps_zoom. intros. apply H. Qed.
End World.

(** The state parts a frame is usually stated for. *)
Ltac solve_free := repeat split; intros; reflexivity.
#[export] Hint Extern 1 (ambient_free _) => solve_free : bel.
#[export] Hint Extern 1 (chain_free _) => solve_free : bel.
#[export] Hint Resolve keeps_now keeps_nowISO keeps_randomUUID keeps_randomChallenge keeps_on_chain
  never_throws_now never_throws_nowISO never_throws_randomUUID : bel.

(** Extend [run_inv] with the ambient sources and the chain. *)
Ltac world_step :=
  match goal with
  | H : now _ = (inr _, _) |- _ => apply now_inv in H as [? ?]
  | H : nowISO _ = (inr _, _) |- _ => apply nowISO_inv in H as [? ?]
  | H : randomUUID _ = (inr _, _) |- _ => apply randomUUID_inv in H as [? ?]
  | H : randomChallenge _ = (inr _, _) |- _ => apply randomChallenge_inv in H as [? ?]
  | H : on_chain _ _ = (inr _, _) |- _ => apply on_chain_inv in H as (? & ? & ?)
  | H : inr _ = inr _ |- _ => injection H as H
  end; subst; simpl in *.
Ltac winv := repeat first [run_step | world_step].
