(* ===== verification/Repositories.v ===== *)
(** * Repositories: the in-memory persistence adapters

    The adapters of [users/repository-implementations.ts] and
    [domain/repositories.ts] over the maps of the [World].  All of them copy
    on read and on write except the job repository, which hands out the stored
    object itself; between two awaits the job service only mutates that object
    immediately before saving it, so reading and writing whole values gives
    the same sequential behaviour. *)
From S2P Require Import Prelude Effects JsString JsMap JsValue Shared Errors World.
Local Open Scope string_scope.

Section Repositories.
Context {C : Type}.
Abbreviation W := (World C).
Abbreviation MW := (M exn (World C)).

(** MemoryIdentityRepository *)
Definition identities_findById (id : string) : MW (option Identity.t) := gets (fun w => get id (w_identities w)).
Definition identities_findByEmployeeId (employeeId : string) : MW (option Identity.t) :=
  gets (fun w => List.find (fun i => bool_decide (Identity.employeeId i = Some employeeId)) (values (w_identities w))).
Definition identities_listByStatus (status : IdentityStatus) : MW (list Identity.t) :=
  gets (fun w => List.filter (fun i => bool_decide (Identity.status i = status)) (values (w_identities w))).
Definition identities_save (v : Identity.t) : MW unit := modify (upd_identities (put (Identity.identityId v) v)).

(** MemoryUserRepository *)
Definition users_findById (id : string) : MW (option User.t) := gets (fun w => get id (w_users w)).
Definition user_of_identity (identityId : string) (w : W) : option User.t :=
  List.find (fun u => String.eqb (User.identityId u) identityId) (values (w_users w)).
Definition users_findByIdentityId (identityId : string) : MW (option User.t) := gets (user_of_identity identityId).
Definition users_save (v : User.t) : MW unit := modify (upd_users (put (User.employeeId v) v)).

(** MemoryDeviceRepository *)
Definition devices_findById (id : string) : MW (option Device.t) := gets (fun w => get id (w_devices w)).
Definition devices_listByIdentityId (id : string) : MW (list Device.t) :=
  gets (fun w => List.filter (fun d => String.eqb (Device.identityId d) id) (values (w_devices w))).
Definition devices_save (v : Device.t) : MW unit := modify (upd_devices (put (Device.deviceId v) v)).

(** MemoryWalletRepository *)
Definition wallets_findByAddress (a : string) : MW (option Wallet.t) := gets (fun w => get a (w_wallets w)).
Definition wallets_of (id : string) (w : W) : list Wallet.t :=
  List.filter (fun x => String.eqb (Wallet.identityId x) id) (values (w_wallets w)).
Definition wallets_listByIdentityId (id : string) : MW (list Wallet.t) := gets (wallets_of id).
Definition wallets_save (v : Wallet.t) : MW unit := modify (upd_wallets (put (Wallet.address v) v)).

(** MemoryCredentialRepository *)
Definition credentials_findDeviceId (verifier : string) : MW (option string) := gets (fun w => get verifier (w_credentials w)).
Definition credentials_save (verifier deviceId : string) : MW unit := modify (upd_credentials (put verifier deviceId)).
Definition credentials_revokeForDevice (deviceId : string) : MW unit :=
  modify (upd_credentials (List.filter (fun kv => negb (String.eqb (snd kv) deviceId)))).

(** MemorySessionRepository *)
Definition sessions_find (token : string) : MW (option SessionRecord.t) := gets (fun w => get token (w_sessions w)).
Definition sessions_save (v : SessionRecord.t) : MW unit := modify (upd_sessions (put (SessionRecord.token v) v)).
Definition sessions_delete (token : string) : MW unit := modify (upd_sessions (remove token)).

(** MemoryGrantRepository *)
Definition grants_findById (id : string) : MW (option AuthorizationGrant.t) := gets (fun w => get id (w_grants w)).
Definition grants_of (id : string) (w : W) : list AuthorizationGrant.t :=
  List.filter (fun g => String.eqb (AuthorizationGrant.actorIdentityId g) id) (values (w_grants w)).
Definition grants_listByIdentityId (id : string) : MW (list AuthorizationGrant.t) := gets (grants_of id).
Definition grants_save (v : AuthorizationGrant.t) : MW unit :=
  modify (upd_grants (put (AuthorizationGrant.authorizationGrantId v) v)).

(** MemoryProvisioningChallengeRepository; [consumeIfUnused] reads and
    writes without an await in between, so it is one atomic step. *)
Definition challenges_findById (id : string) : MW (option ProvisioningChallenge.t) := gets (fun w => get id (w_challenges w)).
Definition challenges_save (v : ProvisioningChallenge.t) : MW unit :=
  modify (upd_challenges (put (ProvisioningChallenge.challengeId v) v)).
Definition consumeIfUnused (id usedAt : string) : MW bool := fun w =>
  match get id (w_challenges w) with
  | None => (inr false, w)
  | Some v =>
      if truthy_string (ProvisioningChallenge.usedAt v) then (inr false, w)
      else (inr true, upd_challenges (put id (ProvisioningChallenge.used usedAt v)) w)
  end.

(** MemoryValidatorRepository, history and notifications *)
Definition validators_findById (id : string) : MW (option ValidatorRegistration.t) := gets (fun w => get id (w_validators w)).
Definition validators_findByValidatorId (id : string) : MW (option ValidatorRegistration.t) :=
  gets (fun w => List.find (fun v => String.eqb (ValidatorRegistration.validatorId v) id) (values (w_validators w))).
Definition validators_list : MW (list ValidatorRegistration.t) := gets (fun w => values (w_validators w)).
Definition validators_save (v : ValidatorRegistration.t) : MW unit :=
  modify (upd_validators (put (ValidatorRegistration.registrationId v) v)).
Definition validatorHistory_append (v : ValidatorHistoryRecord.t) : MW unit :=
  modify (upd_validatorHistory (put (ValidatorHistoryRecord.historyId v) v)).
(** Sorted by [a.timestamp.localeCompare(b.timestamp)], which orders ISO
    timestamps as their characters do; the sort is stable. *)
Fixpoint insert_by_time (v : ValidatorHistoryRecord.t) (l : list ValidatorHistoryRecord.t) : list ValidatorHistoryRecord.t :=
  match l with
  | [] => [v]
  | x :: l' =>
      if String.leb (ValidatorHistoryRecord.timestamp v) (ValidatorHistoryRecord.timestamp x) then v :: l
      else x :: insert_by_time v l'
  end.
Definition validatorHistory_list : MW (list ValidatorHistoryRecord.t) :=
  gets (fun w => fold_right insert_by_time [] (values (w_validatorHistory w))).
Definition notifications_append (v : NotificationDelivery.t) : MW unit :=
  modify (upd_notifications (put (NotificationDelivery.notificationId v) v)).

(** MemoryAssetRepository and MemoryJobRepository *)
Definition assets_list : MW (list Asset.t) := gets (fun w => values (w_assetRecords w)).
Definition assets_findById (id : string) : MW (option Asset.t) := gets (fun w => get id (w_assetRecords w)).
Definition assets_save (v : Asset.t) : MW unit := modify (upd_assetRecords (put (Asset.assetId v) v)).
Definition jobs_list : MW (list Job.t) := gets (fun w => values (w_jobs w)).
Definition jobs_findById (id : string) : MW (option Job.t) := gets (fun w => get id (w_jobs w)).
Definition jobs_save (v : Job.t) : MW unit := modify (upd_jobs (put (Job.jobId v) v)).

(** MemoryEvidenceRepository *)
Definition evidence_findById (id : string) : MW (option Evidence.t) := gets (fun w => get id (w_evidenceRecords w)).
Definition evidence_listByJob (jobId : string) : MW (list Evidence.t) :=
  gets (fun w => List.filter (fun e => String.eqb (Evidence.jobId e) jobId) (values (w_evidenceRecords w))).
Definition evidence_save (v : Evidence.t) : MW unit := modify (upd_evidenceRecords (put (Evidence.evidenceId v) v)).

(** A challenge is consumed at most once. *)
Lemma consumeIfUnused_inv id at' w b w' :
  consumeIfUnused id at' w = (inr b, w') ->
  match get id (w_challenges w) with
  | Some v =>
      if truthy_string (ProvisioningChallenge.usedAt v) then b = false /\ w' = w
      else b = true /\ w' = upd_challenges (put id (ProvisioningChallenge.used at' v)) w
  | None => b = false /\ w' = w
  end.
Proof.
  unfold consumeIfUnused. destruct (get id (w_challenges w)) as [v|]; [|by intros [= <- <-]].
  destruct (truthy_string _); by intros [= <- <-].
Qed.

Lemma keeps_consumeIfUnused {T} (p : W -> T) id at' :
  (forall f w, p (upd_challenges f w) = p w) -> keeps p (consumeIfUnused id at').
Proof.
  intros Hp w. unfold consumeIfUnused. destruct (get id (w_challenges w)) as [v|]; [|done].
  destruct (truthy_string _); [done|]. apply Hp.
Qed.
End Repositories.

(** Expose the primitive step behind a repository call. *)
Create HintDb repo.
#[export] Hint Unfold identities_findById identities_findByEmployeeId identities_listByStatus identities_save
  users_findById users_findByIdentityId users_save devices_findById devices_listByIdentityId devices_save
  wallets_findByAddress wallets_listByIdentityId wallets_save credentials_findDeviceId credentials_save
  credentials_revokeForDevice sessions_find sessions_save sessions_delete grants_findById
  grants_listByIdentityId grants_save challenges_findById challenges_save validators_findById
  validators_findByValidatorId validators_list validators_save validatorHistory_append validatorHistory_list
  notifications_append assets_list assets_findById assets_save jobs_list jobs_findById jobs_save
  evidence_findById evidence_listByJob evidence_save : repo.

(** [rinv]: invert a successful run through repository calls as well. *)
Ltac repo_step :=
  match goal with
  | H : ?m _ = (inr _, _) |- _ => progress autounfold with repo in H
  end.
Ltac rinv := repeat first [run_step | world_step | repo_step].

(** [rframe]: a frame proof that sees through repository calls. *)
Ltac rframe := repeat first [progress frame | progress autounfold with repo].

(** A computation that only reads and writes: it cannot throw. *)
Ltac calm_tail :=
  repeat first
    [ progress intros
    | lazymatch goal with
      | |- never_throws (mbind _ _) => apply never_throws_bind
      | |- never_throws (for_each _ _) => apply never_throws_for_each
      | |- never_throws (if ?b then _ else _) => destruct b
      | |- never_throws (match ?o with _ => _ end) => destruct o
      end
    | solve [auto with bel]
    | progress autounfold with repo ].

(** [kept p E]: from a run [E] that does not write the part [p] of the state,
    conclude that [p] is the same before and after. *)
Ltac kept p E :=
  let K := fresh "K" in
  match type of E with
  | ?m ?a = (_, ?b) =>
      assert (K : p b = p a) by (eapply (keeps_run p m); [solve [auto with bel | rframe] | exact E])
  end.
