(* ===== verification/Integrity.v ===== *)
(** * Integrity: hash commitments of [backend/src/integrity/integrity.ts]

    A commitment hashes the JSON text of the state with its keys sorted.  The
    keys the services use are property names, not array indices, so the object
    rebuilt in sorted order is also serialised in that order. *)
From S2P Require Import Prelude Effects JsString JsMap JsValue Shared Errors World.
From Stdlib Require Import Sorting.Permutation Sorting.Sorted.
Local Open Scope string_scope.
Local Open Scope list_scope.

(** [Object.keys(state).sort()] with the values carried along. *)
Fixpoint insert_key (kv : string * value) (p : payload) : payload :=
  match p with
  | [] => [kv]
  | kv' :: p' => if String.leb (fst kv) (fst kv') then kv :: p else kv' :: insert_key kv p'
  end.
Definition sort_keys (p : payload) : payload := fold_right insert_key [] p.

Definition canonicalStateHash `{Platform} (state : payload) : string := sha256_hex (JSON_stringify (sort_keys state)).

Section Commit.
Context `{Platform} {C : Type}.

(** [MemoryIntegrityAdapter.commit] *)
Definition adapter_commit (c : IntegrityCommitment.t) : M exn (World C) unit :=
  modify (upd_commitments (fun l => l ++ [c])).

Definition commitState (entityType : CommitmentEntity) (entityId eventType : string) (version : Z)
    (actorIdentityId : string) (state : payload) : M exn (World C) IntegrityCommitment.t :=
  timestamp ← nowISO;
  let c := IntegrityCommitment.mk entityType entityId eventType version (canonicalStateHash state) actorIdentityId timestamp in
  adapter_commit c;;
  mret c.
End Commit.

(** ** Properties *)

Lemma leb_total s t : String.leb s t = true \/ String.leb t s = true.
Proof. apply String.leb_total. Qed.

Lemma leb_antisym s t : String.leb s t = true -> String.leb t s = true -> s = t.
Proof. apply String.leb_antisym. Qed.

Lemma compare_lt_trans s t u :
  String.compare s t = Lt -> String.compare t u = Lt -> String.compare s u = Lt.
Proof.
  revert t u. induction s as [|a s IH]; intros [|b t] [|c u]; simpl; try done.
  destruct (Ascii.compare a b) eqn:Eab; [|intros _|done].
  - apply Ascii.compare_eq_iff in Eab as ->. intros Hst. destruct (Ascii.compare b c) eqn:Ebc; try done.
    intros Htu. by eapply IH.
  - destruct (Ascii.compare b c) eqn:Ebc; try done.
    + apply Ascii.compare_eq_iff in Ebc as ->. by rewrite Eab.
    + intros _. unfold Ascii.compare in *. rewrite N.compare_lt_iff in *.
      replace (_ ?= _)%N with Lt; [done|]. symmetry. apply N.compare_lt_iff. lia.
Qed.

Lemma leb_trans s t u : String.leb s t = true -> String.leb t u = true -> String.leb s u = true.
Proof.
  unfold String.leb. destruct (String.compare s t) eqn:E1; try done; destruct (String.compare t u) eqn:E2; try done; intros _ _.
  - apply String.compare_eq_iff in E1 as ->. by rewrite E2.
  - apply String.compare_eq_iff in E1 as ->. by rewrite E2.
  - apply String.compare_eq_iff in E2 as <-. by rewrite E1.
  - by rewrite (compare_lt_trans _ _ _ E1 E2).
Qed.

Lemma insert_comm a b p :
  fst a <> fst b -> insert_key a (insert_key b p) = insert_key b (insert_key a p).
Proof.
  intros Hab. assert (Htwo : forall q, (if String.leb (fst a) (fst b) then a :: b :: q else b :: a :: q)
    = (if String.leb (fst b) (fst a) then b :: a :: q else a :: b :: q)).
  { intros q. destruct (String.leb (fst a) (fst b)) eqn:E1, (String.leb (fst b) (fst a)) eqn:E2; try done.
    - by destruct Hab; apply leb_antisym.
    - destruct (leb_total (fst a) (fst b)); congruence. }
  induction p as [|c p IH]; simpl; [apply Htwo|].
  destruct (String.leb (fst b) (fst c)) eqn:Ebc, (String.leb (fst a) (fst c)) eqn:Eac; simpl.
  - rewrite Ebc, Eac. apply Htwo.
  - rewrite Ebc, Eac. destruct (String.leb (fst a) (fst b)) eqn:Eab; [|done].
    by rewrite (leb_trans _ _ _ Eab Ebc) in Eac.
  - rewrite Ebc, Eac. destruct (String.leb (fst b) (fst a)) eqn:Eba; [|done].
    by rewrite (leb_trans _ _ _ Eba Eac) in Ebc.
  - by rewrite Ebc, Eac, IH.
Qed.

Lemma sort_keys_perm p q : Permutation p q -> List.NoDup (map fst p) -> sort_keys p = sort_keys q.
Proof.
  induction 1 as [|x p q _ IH|x y p|p q r Hpq IH1 Hqr IH2]; simpl; intros Hnd; [done|..].
  - inversion_clear Hnd. by rewrite IH.
  - apply insert_comm. inversion_clear Hnd as [|? ? Hn _]. intros E. apply Hn. simpl. by left.
  - rewrite IH1 by done. apply IH2. eapply Permutation_NoDup; [by apply Permutation_map|done].
Qed.

(** The commitment hash is canonical: it does not depend on the order in
    which the fields of the state were written. *)
Theorem canonical_hash_order_independent `{Platform} (p q : payload) :
  List.NoDup (map fst p) -> Permutation p q -> canonicalStateHash p = canonicalStateHash q.
Proof. intros Hnd Hp. unfold canonicalStateHash. by rewrite (sort_keys_perm p q). Qed.
