(* ===== verification/Auth.v ===== *)
(** * Auth: sessions and challenges, [backend/src/auth/auth.service.ts]

    Challenge-response login, the legacy credential login, fresh
    authentication for high-impact operations, session validation. *)
From S2P Require Import Prelude Effects JsString JsMap JsValue Crypto Shared Errors World Repositories.
Local Open Scope string_scope.
Local Open Scope list_scope.

Module LoginProofInput.
Record t := mk { deviceId : string; challengeId : string; publicKey : string; signature : string }.
End LoginProofInput.
Module FreshAuthProofInput.
Record t := mk { challengeId : string; publicKey : string; signature : string }.
End FreshAuthProofInput.

(** [string | LoginProofInput] *)
Inductive LoginInput := Credential (s : string) | Proof_of (p : LoginProofInput.t).

(** [o ?? null] of a dynamic value, for [===]. *)
Definition null_of (v : value) : value := match v with VUndefined => VNull | _ => v end.
(** Strict equality of a dynamic value with a nullable string. *)
Definition is_nullable (v : value) (o : option string) : bool :=
  match v, o with
  | VStr s, Some s' => String.eqb s s'
  | VNull, None => true
  | _, _ => false
  end.
Definition is_string (v : value) (s : string) : bool :=
  match v with VStr s' => String.eqb s' s | _ => false end.

Section AuthService.
Context `{Platform} {C : Type}.
Abbreviation W := (World C).
Abbreviation MW := (M exn (World C)).

Definition hashCredential (credential : string) : string := sha256_hex credential.
Definition sessionHash (token : string) : string := sha256_hex token.

(** [/^[0-9a-f]+$/i.test(s)] *)
Definition all_hex (s : string) : bool := negb (String.eqb s "") && all_chars is_hex s.

(** [verifyProof]; the provisioning proof of the users service is the same code. *)
Definition verifyProof (challenge publicKey signature : string) : bool :=
  if evmCryptoEnabled then verifyCompactSignature challenge publicKey signature
  else
    let key := if includes "BEGIN" publicKey then createPublicKey_pem publicKey else createPublicKey_der publicKey in
    let bytes := if all_hex signature then bytes_of_hex signature else bytes_of_base64url signature in
    match key with
    | None => false
    | Some k =>
        match crypto_verify None challenge k bytes with
        | None => false
        | Some true => true
        | Some false => match crypto_verify (Some "sha256") challenge k bytes with Some b => b | None => false end
        end
    end.

(** [Date.parse(s) <= t]; an unparsable date is [NaN] and never past. *)
Definition expired (s : string) (t : Z) : bool :=
  match Date_parse s with Some e => (e <=? t)%Z | None => false end.

Definition find_wallet (p : Wallet.t -> bool) (l : list Wallet.t) : option Wallet.t := List.find p l.
Definition wallet_active (x : Wallet.t) : bool := bool_decide (Wallet.status x = ACTIVE).

(** The identity behind a device, its user row and its wallets. *)
Definition identity_of_device (device : option Device.t) : MW (option Identity.t) :=
  match device with Some d => identities_findById (Device.identityId d) | None => mret None end.
Definition user_of (identity : option Identity.t) : MW (option User.t) :=
  match identity with Some i => users_findByIdentityId (Identity.identityId i) | None => mret None end.
Definition wallets_of_identity (identity : option Identity.t) : MW (list Wallet.t) :=
  match identity with Some i => wallets_listByIdentityId (Identity.identityId i) | None => mret [] end.

Definition device_active (d : option Device.t) : bool :=
  match d with Some d => bool_decide (Device.status d = ACTIVE) | None => false end.
Definition identity_active (i : option Identity.t) : bool :=
  match i with Some i => bool_decide (Identity.status i = Identity_ACTIVE) | None => false end.
(** [identity.employeeId && identity.role && identity.department] *)
Definition identity_complete (i : Identity.t) : bool :=
  truthy_string (Identity.employeeId i) && bool_decide (is_Some (Identity.role i)) && truthy_string (Identity.department i).

Definition inactive : exn := UnauthorizedError "Device, identity, or wallet is not active".

Definition requestAuthenticationChallenge (deviceId : string) : MW ProvisioningChallenge.t :=
  device ← devices_findById deviceId;
  identity ← identity_of_device device;
  wallets ← wallets_of_identity identity;
  let wallet := find_wallet (fun x => wallet_active x && String.eqb (Wallet.deviceId x) deviceId) wallets in
  throw_if (negb (device_active device) || negb (identity_active identity) || negb (bool_decide (is_Some wallet))) inactive;;
  challengeId ← randomUUID;
  challenge ← randomChallenge;
  t ← now;
  let ch := ProvisioningChallenge.mk challengeId deviceId challenge AUTHENTICATION
    (toISOString (t + 5 * 60 * 1000)%Z) None None in
  challenges_save ch;;
  mret ch.

Definition activeSession (session : SessionRecord.t) : MW bool :=
  identity ← identities_findById (SessionRecord.identityId session);
  device ← devices_findById (SessionRecord.deviceId session);
  wallet ← wallets_findByAddress (SessionRecord.walletAddress session);
  mret (match identity, device, wallet with
        | Some i, Some d, Some x =>
            bool_decide (Identity.status i = Identity_ACTIVE) && bool_decide (Device.status d = ACTIVE) &&
            wallet_active x && String.eqb (Wallet.deviceId x) (Device.deviceId d) &&
            String.eqb (Wallet.identityId x) (Identity.identityId i)
        | _, _, _ => false
        end).

(** [!session || session.expiresAt <= Date.now() || !await activeSession(session)] *)
Definition require_session (token : string) : MW SessionRecord.t :=
  found ← sessions_find token;
  session ← require found default_unauthorized;
  t ← now;
  throw_if (num_le (SessionRecord.expiresAt session) (num_of_Z t)) default_unauthorized;;
  ok ← activeSession session;
  throw_if (negb ok) default_unauthorized;;
  mret session.

Definition requestFreshAuthenticationChallenge (token operation : string) (resourceId : option string) : MW ProvisioningChallenge.t :=
  session ← require_session token;
  throw_if (blank operation) (UnauthorizedError "Fresh-auth operation is required");;
  challengeId ← randomUUID;
  challenge ← randomChallenge;
  t ← now;
  let ch := ProvisioningChallenge.mk challengeId (SessionRecord.deviceId session) challenge FRESH_AUTHENTICATION
    (toISOString (t + 2 * 60 * 1000)%Z) None
    (Some [("operation", VStr (trim operation));
           ("resourceId", let r := trim <$> resourceId in if truthy_string r then nullable r else VNull);
           ("sessionHash", VStr (sessionHash token))]) in
  challenges_save ch;;
  mret ch.

(** The binding a fresh-authentication challenge must have. *)
Definition fresh_challenge_ok (ch : ProvisioningChallenge.t) (session : SessionRecord.t) (token operation : string)
    (resourceId : option string) : bool :=
  bool_decide (ProvisioningChallenge.purpose ch = FRESH_AUTHENTICATION) &&
  negb (truthy_string (ProvisioningChallenge.usedAt ch)) &&
  String.eqb (ProvisioningChallenge.deviceId ch) (SessionRecord.deviceId session) &&
  match ProvisioningChallenge.metadata ch with
  | Some m =>
      is_string (field "sessionHash" m) (sessionHash token) && is_string (field "operation" m) operation &&
      is_nullable (null_of (field "resourceId" m)) resourceId
  | None => false
  end.

Definition verifyFreshAuthentication (token : string) (input : FreshAuthProofInput.t) (operation : string)
    (resourceId : option string) : MW unit :=
  session ← require_session token;
  found ← challenges_findById (FreshAuthProofInput.challengeId input);
  ch ← require found (UnauthorizedError "Invalid fresh-authentication challenge");
  throw_if (negb (fresh_challenge_ok ch session token operation resourceId))
    (UnauthorizedError "Invalid fresh-authentication challenge");;
  t ← now;
  throw_if (expired (ProvisioningChallenge.expiresAt ch) t)
    (UnauthorizedError "Fresh-authentication challenge has expired");;
  device ← devices_findById (SessionRecord.deviceId session);
  identity ← identity_of_device device;
  wallets ← wallets_of_identity identity;
  let wallet := find_wallet (fun x => String.eqb (Wallet.address x) (SessionRecord.walletAddress session) &&
    wallet_active x && String.eqb (Wallet.deviceId x) (SessionRecord.deviceId session)) wallets in
  match device, identity, wallet with
  | Some d, Some i, Some x =>
      throw_if (negb (bool_decide (Device.status d = ACTIVE)) || negb (bool_decide (Identity.status i = Identity_ACTIVE)) ||
        negb (truthy_string (Device.publicKey d)) ||
        negb (bool_decide (Device.publicKey d = Some (FreshAuthProofInput.publicKey input)))) inactive;;
      let key := default "" (Device.publicKey d) in
      throw_if (evmCryptoEnabled && negb (bool_decide (is_Some (assertWalletMatchesPublicKey (Wallet.address x) key))))
        (UnauthorizedError "Wallet address does not match device public key");;
      throw_if (negb (verifyProof (ProvisioningChallenge.challenge ch) key (FreshAuthProofInput.signature input)))
        (UnauthorizedError "Invalid fresh-authentication proof");;
      usedAt ← nowISO;
      ok ← consumeIfUnused (ProvisioningChallenge.challengeId ch) usedAt;
      throw_if (negb ok) (UnauthorizedError "Fresh-authentication challenge has already been used")
  | _, _, _ => throw inactive
  end.

(** [Number(process.env.BEL_SESSION_TTL_SECONDS ?? 3600)] *)
Definition session_ttl : num :=
  match process_env "BEL_SESSION_TTL_SECONDS" with Some s => Number_of s | None => num_of_Z 3600 end.

(** The common end of both logins: a token, a session, the user's view. *)
Definition open_session (user : User.t) (identity : Identity.t) (role : Role) (device : Device.t) (wallet : Wallet.t) : MW (User.t * string) :=
  u ← randomUUID;
  let token := "bel_" +:+ u in
  t ← now;
  sessions_save (SessionRecord.mk token (Identity.identityId identity) (Device.deviceId device) (Wallet.address wallet)
    (num_add (num_of_Z t) (num_scale (num_max (num_of_Z 60) session_ttl) 1000)));;
  mret (User.session_view (Wallet.address wallet) role (Identity.status identity) user, token).

Definition loginWithProof (input : LoginProofInput.t) : MW (User.t * string) :=
  found ← challenges_findById (LoginProofInput.challengeId input);
  ch ← require found (UnauthorizedError "Invalid authentication challenge");
  throw_if (negb (bool_decide (ProvisioningChallenge.purpose ch = AUTHENTICATION)) ||
            truthy_string (ProvisioningChallenge.usedAt ch) ||
            negb (String.eqb (ProvisioningChallenge.deviceId ch) (LoginProofInput.deviceId input)))
    (UnauthorizedError "Invalid authentication challenge");;
  t ← now;
  throw_if (expired (ProvisioningChallenge.expiresAt ch) t) (UnauthorizedError "Authentication challenge has expired");;
  device ← devices_findById (LoginProofInput.deviceId input);
  identity ← identity_of_device device;
  user ← user_of identity;
  wallets ← wallets_of_identity identity;
  let wallet := find_wallet (fun x => wallet_active x && String.eqb (Wallet.deviceId x) (LoginProofInput.deviceId input)) wallets in
  match device, identity, user, wallet with
  | Some d, Some i, Some u, Some x =>
      throw_if (negb (bool_decide (Device.status d = ACTIVE)) || negb (identity_complete i) ||
        negb (bool_decide (Identity.status i = Identity_ACTIVE)) || negb (truthy_string (Device.publicKey d)) ||
        negb (bool_decide (Device.publicKey d = Some (LoginProofInput.publicKey input)))) inactive;;
      role ← require (Identity.role i) inactive;
      let key := default "" (Device.publicKey d) in
      throw_if (evmCryptoEnabled && negb (bool_decide (is_Some (assertWalletMatchesPublicKey (Wallet.address x) key))))
        (UnauthorizedError "Wallet address does not match device public key");;
      throw_if (negb (verifyProof (ProvisioningChallenge.challenge ch) key (LoginProofInput.signature input)))
        (UnauthorizedError "Invalid authentication proof");;
      usedAt ← nowISO;
      ok ← consumeIfUnused (ProvisioningChallenge.challengeId ch) usedAt;
      throw_if (negb ok) (UnauthorizedError "Authentication challenge has already been used");;
      open_session u i role d x
  | _, _, _, _ => throw inactive
  end.

Definition login_credential (deviceCredential : string) : MW (User.t * string) :=
  throw_if is_production (ForbiddenError "Legacy device-credential login is disabled in production");;
  throw_if (blank deviceCredential) (UnauthorizedError "Invalid device credential");;
  deviceId ← credentials_findDeviceId (hashCredential deviceCredential);
  throw_if (negb (truthy_string deviceId)) (UnauthorizedError "Invalid device credential");;
  device ← devices_findById (default "" deviceId);
  identity ← identity_of_device device;
  user ← user_of identity;
  wallets ← wallets_of_identity identity;
  let wallet := find_wallet wallet_active wallets in
  match device, identity, user, wallet with
  | Some d, Some i, Some u, Some x =>
      throw_if (negb (bool_decide (Device.status d = ACTIVE)) || negb (identity_complete i) ||
        negb (String.eqb (Wallet.deviceId x) (Device.deviceId d))) inactive;;
      role ← require (Identity.role i) inactive;
      throw_if (negb (bool_decide (Identity.status i = Identity_ACTIVE)))
        (ForbiddenError ("Identity is " +:+ IdentityStatus_string (Identity.status i)));;
      open_session u i role d x
  | _, _, _, _ => throw inactive
  end.

Definition login (input : LoginInput) : MW (User.t * string) :=
  match input with
  | Credential s => login_credential s
  | Proof_of p => loginWithProof p
  end.

(** The condition under which a session still stands, after the expiry check. *)
Definition session_user (identity : option Identity.t) (device : option Device.t) (wallet : option Wallet.t)
    (user : option User.t) : option User.t :=
  match identity, device, wallet, user with
  | Some i, Some d, Some x, Some u =>
      match Identity.role i with
      | Some role =>
          if identity_complete i && bool_decide (Device.status d = ACTIVE) &&
             bool_decide (Identity.status i = Identity_ACTIVE) && wallet_active x &&
             String.eqb (Wallet.deviceId x) (Device.deviceId d) &&
             (negb evmCryptoEnabled ||
              (truthy_string (Device.publicKey d) &&
               bool_decide (is_Some (assertWalletMatchesPublicKey (Wallet.address x) (default "" (Device.publicKey d))))))
          then Some (User.session_view (Wallet.address x) role (Identity.status i) u) else None
      | None => None
      end
  | _, _, _, _ => None
  end.

Definition validateSession (token : string) : MW (option User.t) :=
  found ← sessions_find token;
  match found with
  | None => mret None
  | Some session =>
      t ← now;
      if num_le (SessionRecord.expiresAt session) (num_of_Z t) then sessions_delete token;; mret None
      else
        identity ← identities_findById (SessionRecord.identityId session);
        device ← devices_findById (SessionRecord.deviceId session);
        wallet ← wallets_findByAddress (SessionRecord.walletAddress session);
        user ← user_of identity;
        match session_user identity device wallet user with
        | None => sessions_delete token;; mret None
        | Some u => mret (Some u)
        end
  end.

Definition logout (token : string) : MW unit := sessions_delete token.
End AuthService.
