(* ===== verification/MockChain.v ===== *)
(** * MockChain: the in-memory blockchain of [mocks/mock-blockchain/index.ts]

    It accepts every transaction and keeps a best-effort record of assets and
    jobs for read-after-write.  It is the second implementation of the
    [BlockchainService] interface besides the EVM adapter, and the one the
    witnesses run on. *)
From S2P Require Import Prelude Effects JsString JsMap JsValue Shared Errors World.
Local Open Scope string_scope.
Local Open Scope list_scope.

Record MockChain := mkMock {
  txCounter : Z;
  m_identities : jsmap Identity.t;
  m_wallets : jsmap Wallet.t;
  m_assets : jsmap Asset.t;
  m_jobs : jsmap Job.t;
  m_validators : list Validator.t;
  submitted : list Transaction.t;
  nftCounter : Z;
  m_clockReads : nat }.

Definition set_assets (a : jsmap Asset.t) (c : MockChain) : MockChain :=
  mkMock (txCounter c) (m_identities c) (m_wallets c) a (m_jobs c) (m_validators c) (submitted c) (nftCounter c) (m_clockReads c).
Definition set_jobs (j : jsmap Job.t) (c : MockChain) : MockChain :=
  mkMock (txCounter c) (m_identities c) (m_wallets c) (m_assets c) j (m_validators c) (submitted c) (nftCounter c) (m_clockReads c).
Definition set_nft (a : jsmap Asset.t) (n : Z) (c : MockChain) : MockChain :=
  mkMock (txCounter c) (m_identities c) (m_wallets c) a (m_jobs c) (m_validators c) (submitted c) n (m_clockReads c).
Definition log_tx (tx : Transaction.t) (c : MockChain) : MockChain :=
  mkMock (txCounter c + 1) (m_identities c) (m_wallets c) (m_assets c) (m_jobs c) (m_validators c)
    (submitted c ++ [tx]) (nftCounter c) (m_clockReads c).

(** [s(k)]: a non-empty string field of the payload. *)
Definition sfield (p : payload) (k : string) : option string :=
  match field k p with
  | VStr v => if bool_decide (v = "") then None else Some v
  | _ => None
  end.

(** [getCommittee(height)]: [ceil(2%)] of the active validators, at least
    one, taken cyclically from position [height mod n]; every caller checks
    that the height is not negative. *)
Definition active_validators (c : MockChain) : list Validator.t :=
  List.filter (fun v => bool_decide (Validator.status v = Validator_ACTIVE)) (m_validators c).
Definition committee_size (n : nat) : nat := Nat.max 1 (Nat.min n ((n + 49) / 50)).
Definition getCommittee (height : Z) (c : MockChain) : list string :=
  let active := active_validators c in
  let n := length active in
  match active with
  | [] => []
  | v0 :: _ =>
      let start := (height mod Z.of_nat n)%Z in
      map (fun i => Validator.validatorId (nth (Z.to_nat ((start + Z.of_nat i) mod Z.of_nat n)) active v0))
        (seq 0 (committee_size n))
  end.

Section MockChain.
Context `{Platform}.

(** [tx.timestamp || new Date().toISOString()] *)
Definition mock_now (tx : Transaction.t) (c : MockChain) : string :=
  if bool_decide (Transaction.timestamp tx = "") then toISOString (Date_now (m_clockReads c))
  else Transaction.timestamp tx.

Definition with_job (p : payload) (f : Job.t -> Job.t) (c : MockChain) : MockChain :=
  match sfield p "jobId" with
  | None => c
  | Some id =>
      match get id (m_jobs c) with
      | None => c
      | Some job => set_jobs (put id (f job) (m_jobs c)) c
      end
  end.
Definition with_asset (p : payload) (f : Asset.t -> Asset.t) (c : MockChain) : MockChain :=
  match sfield p "assetId" with
  | None => c
  | Some id =>
      match get id (m_assets c) with
      | None => c
      | Some asset => set_assets (put id (f asset) (m_assets c)) c
      end
  end.

(** [record(tx)] *)
Definition record (tx : Transaction.t) (c : MockChain) : MockChain :=
  let p := Transaction.payload tx in
  let s := sfield p in
  let now := mock_now tx c in
  match Transaction.type tx with
  | ASSET_MINT =>
      match s "assetId" with
      | None => c
      | Some id =>
          match get id (m_assets c) with
          | Some _ => c
          | None =>
              let owner := default (Transaction.actorIdentity tx) (s "ownerId") in
              let n := (nftCounter c + 1)%Z in
              set_nft (put id (Asset.mk id (pretty n) (default "" (s "assetType")) owner
                (default owner (s "custodianId")) (s "parentAssetId") Asset_ACTIVE) (m_assets c)) n c
          end
      end
  | ASSET_TRANSFER =>
      match s "newOwnerId" with
      | None => c
      | Some o => with_asset p (Asset.with_owner o (default o (s "newCustodianId"))) c
      end
  | ASSET_STATE_CHANGE =>
      match or_else (s "newState") (s "status") ≫= parse_AssetStatus with
      | None => c
      | Some st => with_asset p (Asset.with_status st) c
      end
  | COMPONENT_ATTACH | COMPONENT_REMOVE =>
      let id := default "" (or_else (s "componentAssetId") (s "componentId")) in
      match get id (m_assets c) with
      | None => c
      | Some component =>
          let parent := if decide (Transaction.type tx = COMPONENT_ATTACH) then s "parentAssetId" else None in
          set_assets (put id (Asset.with_parent parent component) (m_assets c)) c
      end
  | JOB_CREATE =>
      match s "jobId", s "assetId" with
      | Some id, Some assetId =>
          match get id (m_jobs c) with
          | Some _ => c
          | None =>
              let priority := match s "priority" with
                              | Some "LOW" => LOW | Some "HIGH" => HIGH | Some "CRITICAL" => CRITICAL
                              | _ => MEDIUM
                              end in
              set_jobs (put id (Job.mk id assetId (Transaction.actorIdentity tx) "" (s "verifierId") CREATED
                priority now None) (m_jobs c)) c
          end
      | _, _ => c
      end
  | JOB_ASSIGN => with_job p (fun j => Job.assigned (default (Job.assignedTo j) (s "technicianId")) j) c
  | JOB_START => with_job p Job.started c
  | JOB_COMPLETE => with_job p (Job.completed now) c
  | JOB_APPROVE =>
      with_job p (fun j => Job.mk (Job.jobId j) (Job.assetId j) (Job.createdBy j) (Job.assignedTo j)
        (Job.verifierId j) VERIFIED (Job.priority j) (Job.createdAt j) (Job.completedAt j)) c
  | JOB_REJECT =>
      with_job p (fun j => Job.mk (Job.jobId j) (Job.assetId j) (Job.createdBy j) (Job.assignedTo j)
        (Job.verifierId j) REJECTED (Job.priority j) (Job.createdAt j) (Job.completedAt j)) c
  | _ => c
  end.

Definition mock_event (t : TransactionType) : option string :=
  match t with
  | VALIDATOR_ADD => Some "ValidatorAdded"
  | VALIDATOR_REMOVE => Some "ValidatorRemoved"
  | VALIDATOR_RESTORE => Some "ValidatorRestored"
  | VALIDATOR_REMOVE_CANCEL => Some "ValidatorRemovalCancelled"
  | _ => None
  end.

Definition mock_submitTransaction (tx : Transaction.t) : M exn MockChain TxResult.t := fun c =>
  let c' := record tx (log_tx tx c) in
  let n := txCounter c' in
  (inr (TxResult.mk
     (if bool_decide (Transaction.txId tx = "") then "mock-tx-" +:+ pretty n else Transaction.txId tx)
     SUCCESS (Some ("0xmock" +:+ pretty n)) (Some (42 + n)%Z) (mock_event (Transaction.type tx)) None None), c').

Definition mock_getStatus : BlockchainStatus.t := BlockchainStatus.mk 42 true 0 42.

#[export] Instance MockBlockchainAdapter : BlockchainService MockChain := {
  submitTransaction := mock_submitTransaction;
  submitTransactionDetailed := None;
  prepareTransaction := None;
  chain_getIdentity id := gets (fun c => get id (m_identities c));
  chain_getWallet a := gets (fun c => get a (m_wallets c));
  chain_getAsset id := gets (fun c => (fun a => OnChainAsset.mk a false) <$> get id (m_assets c));
  chain_getStatus := mret mock_getStatus;
  chain_getValidators := gets m_validators;
  chain_getCommittee height := gets (getCommittee height);
  getAuditTrail := None;
}.

(** A new adapter: four active validators, each with the time it was made. *)
Definition genesis_validator (i : nat) : Validator.t :=
  Validator.mk ("val_" +:+ pretty (Z.of_nat i)) ("0xMockPubKey" +:+ pretty (Z.of_nat i)) Validator_ACTIVE (toISOString (Date_now i)).
Definition new_MockBlockchainAdapter : MockChain := mkMock 0 [] [] [] [] (map genesis_validator (seq 0 4)) [] 0 4.

Definition seedIdentity (i : Identity.t) (c : MockChain) : MockChain :=
  mkMock (txCounter c) (put (Identity.identityId i) i (m_identities c)) (m_wallets c) (m_assets c) (m_jobs c) (m_validators c)
    (submitted c) (nftCounter c) (m_clockReads c).
Definition seedWallet (x : Wallet.t) (c : MockChain) : MockChain :=
  mkMock (txCounter c) (m_identities c) (put (Wallet.address x) x (m_wallets c)) (m_assets c) (m_jobs c) (m_validators c)
    (submitted c) (nftCounter c) (m_clockReads c).
Definition seedAsset (a : Asset.t) (c : MockChain) : MockChain := set_assets (put (Asset.assetId a) a (m_assets c)) c.
Definition seedJob (j : Job.t) (c : MockChain) : MockChain := set_jobs (put (Job.jobId j) j (m_jobs c)) c.

Definition mock_getJob (id : string) : M exn MockChain (option Job.t) := gets (fun c => get id (m_jobs c)).
Definition mock_getBlock (height : Z) : M exn MockChain (option Block.t) := fun c =>
  if (height <? 0)%Z then (inr None, c)
  else
    let committee := getCommittee height c in
    (inr (Some (Block.mk height (default "" (head committee)) committee [] (toISOString (Date_now (m_clockReads c))))),
     mkMock (txCounter c) (m_identities c) (m_wallets c) (m_assets c) (m_jobs c) (m_validators c)
       (submitted c) (nftCounter c) (S (m_clockReads c))).
End MockChain.

(** ** Properties *)

(** Every payload the services build has its string fields where the mock
    looks for them; reading back a field just written. *)
Lemma sfield_get p k s : field k p = VStr s -> s <> "" -> sfield p k = Some s.
Proof. unfold sfield. intros -> Hs. by rewrite bool_decide_eq_false_2. Qed.

Lemma getCommittee_spec_aux (height : Z) (c : MockChain) :
  active_validators c <> [] ->
  length (getCommittee height c) = committee_size (length (active_validators c)) /\
  (committee_size (length (active_validators c)) <= length (active_validators c))%nat /\
  Forall (fun id => exists v, In v (active_validators c) /\ Validator.validatorId v = id) (getCommittee height c).
Proof.
  unfold getCommittee. destruct (active_validators c) as [|v0 vs] eqn:E; [done|]. intros _.
  rewrite length_map, length_seq. split; [done|]. split.
  - unfold committee_size. simpl length. lia.
  - apply List.Forall_forall. intros x (i & <- & Hi)%in_map_iff. eexists. split; [|done].
    apply nth_In. pose proof (Z.mod_pos_bound (height mod Z.of_nat (length (v0 :: vs)) + Z.of_nat i)
      (Z.of_nat (length (v0 :: vs)))) as Hb. simpl length in *. lia.
Qed.

(** Every block from height 0 on has a committee of one of the four
    validators of a new adapter, its leader. *)
Lemma getBlock_new `{Platform} (height : Z) : (0 <= height)%Z -> exists b c,
  mock_getBlock height new_MockBlockchainAdapter = (inr (Some b), c) /\ Block.committee b = [Block.leaderId b] /\
  exists v, In v (m_validators new_MockBlockchainAdapter) /\ Validator.validatorId v = Block.leaderId b.
Proof.
  intros Hh. unfold mock_getBlock. rewrite (proj2 (Z.ltb_ge height 0) Hh). do 2 eexists. split; [done|]. cbn [Block.committee Block.leaderId].
  pose proof (getCommittee_spec_aux height new_MockBlockchainAdapter ltac:(by vm_compute)) as (Hl & _ & Hin).
  destruct (getCommittee height new_MockBlockchainAdapter) as [|l [|]]; try discriminate Hl. split; [done|].
  apply Forall_inv in Hin as (v & Hv & <-). by exists v.
Qed.
