(* ===== verification/Concrete.v ===== *)
(** * Concrete: one executable platform and world, for evaluating the handlers

    The examples and witnesses run on this platform: a clock that advances one
    millisecond per reading, UUIDs and ISO strings that spell out their
    argument in binary, and an identity "hash"; three
    comma-separated words stand for the JSON text of a device proof.  It satisfies the platform
    laws, so the theorems that assume them can be applied to it. *)
From S2P Require Import Prelude Effects JsString JsMap JsValue Shared Errors World MockChain.
From Stdlib Require Import Ascii.
Local Open Scope string_scope.

(** Binary spelling of an integer, and its inverse. *)
Fixpoint spell_pos (p : positive) : string :=
  match p with xH => "" | xO p => String "0"%char (spell_pos p) | xI p => String "1"%char (spell_pos p) end.
Fixpoint read_pos (s : string) : option positive :=
  match s with
  | "" => Some xH
  | String a s' =>
      if Ascii.eqb a "0"%char then xO <$> read_pos s'
      else if Ascii.eqb a "1"%char then xI <$> read_pos s' else None
  end.
Definition spell_Z (z : Z) : string :=
  match z with Z0 => "z" | Zpos p => String "p"%char (spell_pos p) | Zneg p => String "n"%char (spell_pos p) end.
Definition read_Z (s : string) : option Z :=
  match s with
  | String a s' =>
      if Ascii.eqb a "z"%char then (if String.eqb s' "" then Some Z0 else None)
      else if Ascii.eqb a "p"%char then Zpos <$> read_pos s'
      else if Ascii.eqb a "n"%char then Zneg <$> read_pos s'
      else None
  | "" => None
  end.

Lemma read_spell_pos p : read_pos (spell_pos p) = Some p.
Proof. induction p; simpl; rewrite ?IHp; reflexivity. Qed.
Lemma read_spell_Z z : read_Z (spell_Z z) = Some z.
Proof. destruct z; simpl; rewrite ?read_spell_pos; reflexivity. Qed.

(** A platform with the given environment and readers of dates and of JSON
    texts; keys and signatures are opaque strings, and a signature is valid
    when it equals the signed data. *)
Definition custom (env : string -> option string) (date : string -> option Z) (json : string -> option value) : Platform := {|
  process_env := env;
  Date_now n := (1000 + Z.of_nat n)%Z;
  toISOString := spell_Z;
  Date_parse := date;
  randomUUID_at n := String "u"%char (spell_Z (Z.of_nat n));
  randomBytes_at n := "c" +:+ spell_Z (Z.of_nat n);
  sha256_hex s := "h" +:+ s;
  Number_of s := match read_Z s with Some z => num_of_Z z | None => NaN end;
  String_of v := match v with VStr s => s | _ => "" end;
  JSON_stringify p := join_strings "," (map fst p);
  JSON_parse := json;
  public_key := string;
  createPublicKey_pem s := Some s;
  createPublicKey_der s := Some s;
  bytes_of_hex s := s;
  bytes_of_base64url s := s;
  crypto_verify _ data _ signature := Some (String.eqb data signature);
  isAddress s := startsWith "0x" s;
  getAddress s := if startsWith "0x" s then Some s else None;
  computeAddress s := Some s;
  hashMessage s := s;
  recoverAddress d r s v := Some d;
|}.
(** Three words are the text of a device proof. *)
Definition read_proof (s : string) : option value :=
  match split_char ","%char s with
  | [id; key; proof] => Some (VObj [("challengeId", VStr id); ("publicKey", VStr key); ("signature", VStr proof)])
  | _ => None
  end.
Definition concrete (env : string -> option string) : Platform := custom env read_Z read_proof.

#[export] Instance concrete_laws env : PlatformLaws (concrete env).
Proof.
  constructor.
  - intros m n Hmn. simpl. lia.
  - intros t. simpl. apply read_spell_Z.
  - intros m n. simpl. intros Heq. injection Heq as Heq.
    apply (f_equal read_Z) in Heq. rewrite !read_spell_Z in Heq. injection Heq as Heq. lia.
  - intros t. by destruct t.
Qed.

(** The default test environment: nothing set. *)
Definition dev : Platform := concrete (fun _ => None).
Definition production_env : Platform :=
  concrete (fun k => if String.eqb k "BEL_ENV" then Some "production" else None).
Definition evm_env : Platform :=
  concrete (fun k => if String.eqb k "BEL_BLOCKCHAIN" then Some "evm" else None).

Definition empty_mock : MockChain := mkMock 0 [] [] [] [] [] [] 0 0.
Definition empty_world : World MockChain :=
  mkWorld [] [] [] [] [] [] [] [] [] [] [] [] [] [] [] [] [] [] empty_mock 0 0 0.
