(* ===== verification/Users.v ===== *)
(** * Users: identities, devices, wallets, roles and grants,
    [backend/src/users/users.service.ts] and [devices/device-attestation.ts] *)
From S2P Require Import Prelude Effects JsString JsMap JsValue Crypto Shared Errors World Repositories Integrity Auth.
From Stdlib Require Import Ascii.
Local Open Scope string_scope.
Local Open Scope list_scope.

(** ** Device attestation *)

Module DeviceAttestationResult.
Record t := mk {
  verified : bool; managedDevice : bool; networkApproved : bool; provider : string; deviceId : option string;
  evidenceId : option string; reason : option string; evidence : option payload }.
End DeviceAttestationResult.

(** The platform seam: a decision about a device. *)
Class DeviceAttestationAdapter := attest : string -> value -> DeviceAttestationResult.t.

Definition RejectingDeviceAttestationAdapter : DeviceAttestationAdapter := fun _ _ =>
  DeviceAttestationResult.mk false false false "not-configured" None None
    (Some "authoritative device-trust provider is not configured") (Some [("adapter", VStr "unconfigured")]).
Definition MockDeviceAttestationAdapter (approvedDeviceIds : list string) : DeviceAttestationAdapter := fun deviceId _ =>
  let approved := bool_decide (deviceId ∈ approvedDeviceIds) in
  DeviceAttestationResult.mk approved approved approved "mock" (Some deviceId) None
    (if approved then None else Some "device is not approved by the test fixture")
    (Some [("adapter", VStr "mock"); ("deviceId", VStr deviceId);
           ("decision", VStr (if approved then "approved" else "denied"))]).

(** ** Private-key material in metadata *)

Definition is_line_end (a : ascii) : bool := Ascii.eqb a "010"%char || Ascii.eqb a "013"%char.

(** [a], at most one character that does not end a line, then [b], somewhere in [s]. *)
Fixpoint includes_gap (a b s : string) : bool :=
  (String.prefix a s &&
   let rest := slice_from (String.length a) s in
   String.prefix b rest ||
   match rest with "" => false | String c rest' => negb (is_line_end c) && String.prefix b rest' end)
  || match s with "" => false | String _ s' => includes_gap a b s' end.

(** [/private.?key|secret.?key|mnemonic|seed(?:.?phrase)?|backup/i.test(key)] *)
Definition sensitiveKey (key : string) : bool :=
  let k := toLowerCase key in
  includes_gap "private" "key" k || includes_gap "secret" "key" k || includes "mnemonic" k
  || includes "seed" k || includes "backup" k.

(** A request body is a tree, so the visited set of the source never stops
    the search early.  The entries of an array have index names. *)
Fixpoint containsSensitiveKey (v : value) : bool :=
  match v with
  | VArr l => existsb containsSensitiveKey l
  | VObj fields => existsb (fun kv => sensitiveKey (fst kv) || containsSensitiveKey (snd kv)) fields
  | _ => false
  end.

(** [!v || typeof v !== "object"] is false *)
Definition is_object (v : value) : bool := match v with VObj _ | VArr _ => true | _ => false end.
(** [typeof v !== "string" || !v.trim()] *)
Definition missing (v : value) : bool := match v with VStr s => blank s | _ => true end.
Definition string_of (v : value) : string := match v with VStr s => s | _ => "" end.

(** ** Requests *)

Module CreateIdentityInput.
Record t := mk {
  employeeId : string; role : option Role; identityId : option string; fullName : option string;
  department : option string; status : option IdentityStatus; createdAt : option string }.
End CreateIdentityInput.
Module InitializeAccountRequest.
Record t := mk {
  has_privateKey : bool; fullName : value; deviceId : value; publicKey : value; walletAddress : value;
  challengeId : value; signature : value; deviceMetadata : value;
  employeeId : option string; department : option string }.
End InitializeAccountRequest.
Module PendingRegistration.
Record t := mk { identity : Identity.t; device : Device.t; wallet : Wallet.t }.
End PendingRegistration.
Module GrantInput.
Record t := mk { resourceType : ResourceType; resourceId : string; action : Action; expiresAt : option string }.
End GrantInput.

Definition SYSTEM_IDENTITY : string := "DID:BEL:SYSTEM".
Definition SYSTEM_WALLET : string := "SYSTEM".

(** Whether an integrity adapter is passed to the service. *)
Class IntegrityWiring := integrity_wired : bool.

Definition role_value (r : option Role) : value := match r with Some r => VStr (Role_string r) | None => VNull end.
Definition status_value (s : WalletStatus) : value := VStr (WalletStatus_string s).
Definition identity_status_value (s : IdentityStatus) : value := VStr (IdentityStatus_string s).

Definition toUser (i : Identity.t) (walletAddress : string) : User.t :=
  User.mk (default "" (Identity.employeeId i)) (Identity.identityId i) walletAddress
    (default ENGINEER (Identity.role i)) (default "UNSPECIFIED" (Identity.department i)) (Identity.status i).

Definition attestation_metadata (a : DeviceAttestationResult.t) : payload :=
  [("attestation", VObj (default [] (DeviceAttestationResult.evidence a)));
   ("managedDevice", VBool (DeviceAttestationResult.managedDevice a));
   ("networkApproved", VBool (DeviceAttestationResult.networkApproved a))].

Section UsersService.
Context `{Platform} {C : Type} `{BlockchainService C} `{DeviceAttestationAdapter} `{IntegrityWiring}.
Abbreviation W := (World C).
Abbreviation MW := (M exn (World C)).

(** ** Helpers *)

Definition resolveIdentity (id : string) : MW (option Identity.t) :=
  direct ← identities_findById id;
  match direct with Some i => mret (Some i) | None => identities_findByEmployeeId id end.
Definition requireIdentity (i : option Identity.t) : MW Identity.t := require i (NotFoundError "No identity").
Definition the_identity (id : string) : MW Identity.t := i ← resolveIdentity id; requireIdentity i.
Definition requireActiveIdentity (i : Identity.t) : MW unit :=
  throw_if (negb (bool_decide (Identity.status i = Identity_ACTIVE)))
    (ForbiddenError ("Identity is " +:+ IdentityStatus_string (Identity.status i))).
Definition is_admin (i : Identity.t) : bool :=
  bool_decide (Identity.status i = Identity_ACTIVE) && bool_decide (Identity.role i = Some ADMIN).

Definition attestDevice (deviceId : string) (metadata : value) : MW DeviceAttestationResult.t :=
  throw_if (containsSensitiveKey metadata) (ValidationError ["private-key material is not accepted"]);;
  mret (attest deviceId metadata).
Definition requireAttestation (r : DeviceAttestationResult.t) : MW unit :=
  throw_if (negb (DeviceAttestationResult.verified r) || negb (DeviceAttestationResult.managedDevice r) ||
            negb (DeviceAttestationResult.networkApproved r)) (ForbiddenError "Device attestation was not approved").

Definition validateEvmWalletBinding (address publicKey : string) : MW unit :=
  throw_if (evmCryptoEnabled && negb (bool_decide (is_Some (assertWalletMatchesPublicKey address publicKey))))
    (ValidationError ["walletAddress must be the EVM address derived from the canonical 64-byte public key"]).

Definition commit (entityType : CommitmentEntity) (entityId eventType actorIdentityId : string) (state : payload) : MW unit :=
  if integrity_wired then
    versions ← gets w_versions;
    let version := (default 0 (get entityId versions) + 1)%Z in
    modify (upd_versions (put entityId version));;
    commitState entityType entityId eventType version actorIdentityId state;;
    mret tt
  else mret tt.

Definition submit (type : TransactionType) (actor : Identity.t) (p : payload) : MW unit :=
  user ← users_findByIdentityId (Identity.identityId actor);
  let address := User.walletAddress <$> user in
  wallet ← (if truthy_string address then wallets_findByAddress (default "" address) else mret None);
  let actorWallet := match wallet with
                     | Some x => if decide (Wallet.status x = ACTIVE) then Some (Wallet.address x) else None
                     | None => None
                     end in
  throw_if (negb (truthy_string actorWallet) && evmCryptoEnabled)
    (BlockchainError SIGNER ("No active actor wallet for " +:+ Identity.identityId actor));;
  txId ← randomUUID;
  timestamp ← nowISO;
  result ← on_chain (submitTransaction (Transaction.mk txId type
    (if bool_decide (Identity.identityId actor = "") then SYSTEM_IDENTITY else Identity.identityId actor)
    (default SYSTEM_WALLET actorWallet) p timestamp "development"));
  throw_if (negb (bool_decide (TxResult.status result = SUCCESS)))
    (BlockchainError REVERTED ("Blockchain rejected " +:+ TransactionType_string type)).

Definition revokeWalletObject (wallet : Wallet.t) (reason : string) : MW Wallet.t :=
  now ← nowISO;
  let wallet' := Wallet.revoked now reason wallet in
  wallets_save wallet';;
  mret wallet'.

Definition ensureIdentityCreated (actor identity : Identity.t) (walletAddress : string) : MW unit :=
  existing ← (if evmCryptoEnabled then on_chain (chain_getWallet walletAddress) else mret None);
  match existing with
  | Some x =>
      throw_if (negb (String.eqb (Wallet.identityId x) (Identity.identityId identity)))
        (ConflictError ("Wallet " +:+ walletAddress +:+ " is already bound to " +:+ Wallet.identityId x +:+ " on-chain"))
  | None => submit IDENTITY_CREATE actor [("walletAddress", VStr walletAddress); ("identityId", VStr (Identity.identityId identity))]
  end.

Definition ensureRoleAssigned (actor identity : Identity.t) (walletAddress : string) : MW unit :=
  onChain ← (if evmCryptoEnabled then on_chain (chain_getIdentity (Identity.identityId identity)) else mret None);
  if evmCryptoEnabled && bool_decide (is_Some onChain) && bool_decide (onChain ≫= Identity.role = Identity.role identity)
  then mret tt
  else submit ROLE_ASSIGN actor [("walletAddress", VStr walletAddress); ("identityId", VStr (Identity.identityId identity));
                                 ("role", role_value (Identity.role identity))].

Definition ensureWalletActive (actor : Identity.t) (walletAddress deviceId identityId : string) : MW unit :=
  onChain ← (if evmCryptoEnabled then on_chain (chain_getWallet walletAddress) else mret None);
  match Wallet.status <$> onChain with
  | Some ACTIVE => mret tt
  | Some REVOKED => throw (ConflictError ("Wallet " +:+ walletAddress +:+ " is already revoked on-chain"))
  | _ => submit WALLET_ACTIVATE actor [("address", VStr walletAddress); ("deviceId", VStr deviceId); ("identityId", VStr identityId)]
  end.

Definition ensureWalletRevoked (actor : Identity.t) (walletAddress reason : string) : MW unit :=
  onChain ← (if evmCryptoEnabled then on_chain (chain_getWallet walletAddress) else mret None);
  match Wallet.status <$> onChain with
  | Some REVOKED => mret tt
  | _ => submit WALLET_REVOKE actor [("address", VStr walletAddress); ("reason", VStr reason)]
  end.

(** ** Identities *)

Definition createUser (input : CreateIdentityInput.t) (actorId : option string) : MW (Identity.t * User.t) :=
  let employeeId := CreateIdentityInput.employeeId input in
  role ← (match CreateIdentityInput.role input with
          | Some r => if bool_decide (employeeId = "") then throw (ValidationError ["employeeId and a valid role are required"]) else mret r
          | None => throw (ValidationError ["employeeId and a valid role are required"])
          end);
  taken ← identities_findByEmployeeId employeeId;
  throw_if (bool_decide (is_Some taken)) (ConflictError ("Employee " +:+ employeeId +:+ " already exists"));;
  (if truthy_string (CreateIdentityInput.identityId input) then
     let id := default "" (CreateIdentityInput.identityId input) in
     i ← identities_findById id;
     throw_if (bool_decide (is_Some i)) (ConflictError ("Identity " +:+ id +:+ " already exists"))
   else mret tt);;
  identityId ← (match CreateIdentityInput.identityId input with Some i => mret i | None => u ← randomUUID; mret ("DID:BEL:" +:+ u) end);
  createdAt ← (match CreateIdentityInput.createdAt input with Some t => mret t | None => nowISO end);
  let identity := Identity.mk identityId (Some employeeId) (default employeeId (CreateIdentityInput.fullName input)) (Some role)
    (Some (default "UNSPECIFIED" (CreateIdentityInput.department input)))
    (default Identity_ACTIVE (CreateIdentityInput.status input)) createdAt None None in
  onChainIdentity ← (if evmCryptoEnabled then on_chain (chain_getIdentity identityId) else mret None);
  throw_if (evmCryptoEnabled && negb (bool_decide (is_Some onChainIdentity)))
    (ConflictError "Legacy user creation cannot create an EVM identity without a registered wallet; use account initialization and administrator activation");;
  (match onChainIdentity with
   | Some oc =>
       if decide (Identity.role oc = Some role) then mret tt
       else actor ← the_identity (default identityId actorId);
            submit ROLE_ASSIGN actor [("identityId", VStr identityId); ("role", VStr (Role_string role))]
   | None => mret tt
   end);;
  identities_save identity;;
  let user := toUser identity "" in
  users_save user;;
  commit E_IDENTITY identityId "IDENTITY_CREATE" identityId
    [("entityType", VStr "IDENTITY"); ("entityId", VStr identityId); ("status", identity_status_value (Identity.status identity)); ("role", VStr (Role_string role))];;
  commit E_IDENTITY identityId "ROLE_ASSIGN" identityId
    [("entityType", VStr "IDENTITY"); ("entityId", VStr identityId); ("role", VStr (Role_string role))];;
  (match onChainIdentity with
   | None =>
       submit IDENTITY_CREATE identity [("identityId", VStr identityId); ("status", identity_status_value (Identity.status identity)); ("role", VStr (Role_string role))];;
       submit ROLE_ASSIGN identity [("identityId", VStr identityId); ("role", VStr (Role_string role))]
   | Some _ => mret tt
   end);;
  mret (identity, user).

Definition requestProvisioningChallenge (deviceId : string) (deviceMetadata : value) : MW ProvisioningChallenge.t :=
  throw_if (blank deviceId) (ValidationError ["deviceId is required"]);;
  throw_if (negb (is_object deviceMetadata)) (ValidationError ["deviceMetadata is required"]);;
  attestation ← attestDevice deviceId deviceMetadata;
  requireAttestation attestation;;
  t ← now;
  challengeId ← randomUUID;
  challenge ← randomChallenge;
  let ch := ProvisioningChallenge.mk challengeId deviceId challenge WALLET_INITIALIZATION
    (toISOString (t + 5 * 60 * 1000)%Z) None (Some (attestation_metadata attestation)) in
  challenges_save ch;;
  mret ch.

Definition initialization_errors (input : InitializeAccountRequest.t) : list string :=
  (if missing (InitializeAccountRequest.fullName input) then ["fullName is required"] else []) ++
  (if missing (InitializeAccountRequest.deviceId input) then ["deviceId is required"] else []) ++
  (if missing (InitializeAccountRequest.publicKey input) then ["publicKey is required"] else []) ++
  (if missing (InitializeAccountRequest.walletAddress input) then ["walletAddress is required"] else []) ++
  (if missing (InitializeAccountRequest.challengeId input) then ["challengeId is required"] else []) ++
  (if missing (InitializeAccountRequest.signature input) then ["signature is required"] else []) ++
  (if is_object (InitializeAccountRequest.deviceMetadata input) then [] else ["deviceMetadata is required"]).

(** [s?.trim() || null] *)
Definition trimmed_or_null (o : option string) : option string :=
  let t := trim <$> o in if truthy_string t then t else None.

Definition initializeAccount (input : InitializeAccountRequest.t) : MW PendingRegistration.t :=
  throw_if (InitializeAccountRequest.has_privateKey input) (ValidationError ["privateKey must never be submitted"]);;
  let errors := initialization_errors input in
  throw_if (negb (bool_decide (errors = []))) (ValidationError errors);;
  let challengeId := string_of (InitializeAccountRequest.challengeId input) in
  let deviceId := string_of (InitializeAccountRequest.deviceId input) in
  let publicKey := string_of (InitializeAccountRequest.publicKey input) in
  let walletAddress := string_of (InitializeAccountRequest.walletAddress input) in
  found ← challenges_findById challengeId;
  ch ← require found (ValidationError ["challenge is invalid"]);
  throw_if (negb (bool_decide (ProvisioningChallenge.purpose ch = WALLET_INITIALIZATION))) (ValidationError ["challenge is invalid"]);;
  throw_if (truthy_string (ProvisioningChallenge.usedAt ch)) (ConflictError "challenge has already been used");;
  t ← now;
  throw_if (expired (ProvisioningChallenge.expiresAt ch) t) (ValidationError ["challenge has expired"]);;
  throw_if (negb (String.eqb (ProvisioningChallenge.deviceId ch) deviceId)) (ValidationError ["challenge is bound to another device"]);;
  validateEvmWalletBinding walletAddress publicKey;;
  throw_if (negb (verifyProof (ProvisioningChallenge.challenge ch) publicKey (string_of (InitializeAccountRequest.signature input))))
    (ForbiddenError "Invalid provisioning proof");;
  attestation ← attestDevice deviceId (InitializeAccountRequest.deviceMetadata input);
  requireAttestation attestation;;
  existingWallet ← wallets_findByAddress walletAddress;
  throw_if (bool_decide (is_Some existingWallet)) (ConflictError "Wallet address is already registered");;
  existingDevice ← devices_findById deviceId;
  throw_if (bool_decide (is_Some existingDevice)) (ConflictError "Device is already registered");;
  (if truthy_string (InitializeAccountRequest.employeeId input) then
     existing ← identities_findByEmployeeId (default "" (InitializeAccountRequest.employeeId input));
     throw_if (bool_decide (is_Some existing)) (ConflictError "Employee is already registered")
   else mret tt);;
  u ← randomUUID;
  createdAt ← nowISO;
  let identity := Identity.mk ("DID:BEL:" +:+ u) (trimmed_or_null (InitializeAccountRequest.employeeId input))
    (trim (string_of (InitializeAccountRequest.fullName input))) None
    (trimmed_or_null (InitializeAccountRequest.department input)) Identity_PENDING createdAt None None in
  let id := Identity.identityId identity in
  let device := Device.mk (trim deviceId) id PENDING createdAt None None (Some publicKey) (Some (attestation_metadata attestation)) in
  let wallet := Wallet.mk (trim walletAddress) id (trim deviceId) PENDING None None None (Some publicKey) in
  usedAt ← nowISO;
  consumed ← consumeIfUnused challengeId usedAt;
  throw_if (negb consumed) (ConflictError "challenge has already been used");;
  identities_save identity;;
  devices_save device;;
  wallets_save wallet;;
  commit E_IDENTITY id "ACCOUNT_INITIALIZATION" id
    [("entityType", VStr "IDENTITY"); ("entityId", VStr id); ("status", VStr "PENDING"); ("fullName", VStr (Identity.fullName identity))];;
  commit E_DEVICE (Device.deviceId device) "DEVICE_REGISTER" id
    [("entityType", VStr "DEVICE"); ("entityId", VStr (Device.deviceId device)); ("identityId", VStr id); ("status", VStr "PENDING"); ("publicKey", VStr publicKey)];;
  commit E_WALLET (Wallet.address wallet) "WALLET_REGISTER" id
    [("entityType", VStr "WALLET"); ("entityId", VStr (Wallet.address wallet)); ("identityId", VStr id);
     ("deviceId", VStr (Wallet.deviceId wallet)); ("status", VStr "PENDING"); ("publicKey", VStr publicKey)];;
  mret (PendingRegistration.mk identity device wallet).

Definition pending_device (d : Device.t) : bool := bool_decide (Device.status d = PENDING).
Definition pending_wallet (x : Wallet.t) : bool := bool_decide (Wallet.status x = PENDING).

Definition listPendingRegistrations : MW (list PendingRegistration.t) :=
  identities ← identities_listByStatus Identity_PENDING;
  rows ← map_all (fun identity =>
    devices ← devices_listByIdentityId (Identity.identityId identity);
    wallets ← wallets_listByIdentityId (Identity.identityId identity);
    mret (match List.find pending_device devices, List.find pending_wallet wallets with
          | Some d, Some x => Some (PendingRegistration.mk identity d x)
          | _, _ => None
          end)) identities;
  mret (omap id rows).

Definition listActiveEmployees : MW (list (User.t * string)) :=
  identities ← identities_listByStatus Identity_ACTIVE;
  map_all (fun identity =>
    wallets ← wallets_listByIdentityId (Identity.identityId identity);
    mret (toUser identity (default "" (Wallet.address <$> find_wallet wallet_active wallets)), Identity.fullName identity)) identities.

Definition verifyRegistration (actorId userId : string) (employeeId department : string) : MW Identity.t :=
  actor ← the_identity actorId;
  throw_if (negb (is_admin actor)) (ForbiddenError "Only an active admin may verify registrations");;
  throw_if (blank employeeId || blank department) (ValidationError ["employeeId and department are required"]);;
  target ← the_identity userId;
  throw_if (negb (bool_decide (Identity.status target = Identity_PENDING))) (ConflictError "Only pending registrations can be verified");;
  existing ← identities_findByEmployeeId employeeId;
  throw_if (match existing with Some e => negb (String.eqb (Identity.identityId e) (Identity.identityId target)) | None => false end)
    (ConflictError "Employee is already registered");;
  verifiedAt ← nowISO;
  let target' := Identity.with_verification (trim employeeId) (trim department) verifiedAt (Identity.identityId actor) target in
  identities_save target';;
  commit E_IDENTITY (Identity.identityId target) "ADMIN_VERIFY" (Identity.identityId actor)
    [("entityType", VStr "IDENTITY"); ("entityId", VStr (Identity.identityId target)); ("employeeId", VStr (trim employeeId));
     ("department", VStr (trim department)); ("status", VStr "PENDING")];;
  mret target'.

Definition activateRegistration (actorId userId : string) : MW PendingRegistration.t :=
  actor ← the_identity actorId;
  throw_if (negb (is_admin actor)) (ForbiddenError "Only an active admin may activate registrations");;
  identity ← the_identity userId;
  throw_if (negb (bool_decide (Identity.status identity = Identity_PENDING)) || negb (identity_complete identity))
    (ConflictError "Registration must be verified and assigned a role before activation");;
  devices ← devices_listByIdentityId (Identity.identityId identity);
  wallets ← wallets_listByIdentityId (Identity.identityId identity);
  match List.find pending_device devices, List.find pending_wallet wallets with
  | Some device, Some wallet =>
      throw_if (negb (truthy_string (Wallet.publicKey wallet)) || negb (truthy_string (Device.publicKey device)) ||
                negb (bool_decide (Wallet.publicKey wallet = Device.publicKey device)))
        (ForbiddenError "Wallet public key is not bound to the registered device");;
      validateEvmWalletBinding (Wallet.address wallet) (default "" (Wallet.publicKey wallet));;
      ensureIdentityCreated actor identity (Wallet.address wallet);;
      ensureRoleAssigned actor identity (Wallet.address wallet);;
      ensureWalletActive actor (Wallet.address wallet) (Device.deviceId device) (Identity.identityId identity);;
      now ← nowISO;
      let identity' := Identity.with_status Identity_ACTIVE identity in
      identities_save identity';;
      let device' := Device.activated now device in
      devices_save device';;
      let wallet' := Wallet.activated now wallet in
      wallets_save wallet';;
      users_save (toUser identity' (Wallet.address wallet));;
      commit E_IDENTITY (Identity.identityId identity) "ROLE_ASSIGN" (Identity.identityId actor)
        [("entityType", VStr "IDENTITY"); ("entityId", VStr (Identity.identityId identity)); ("role", role_value (Identity.role identity))];;
      commit E_DEVICE (Device.deviceId device) "DEVICE_REGISTER" (Identity.identityId actor)
        [("entityType", VStr "DEVICE"); ("entityId", VStr (Device.deviceId device)); ("status", VStr "ACTIVE")];;
      commit E_WALLET (Wallet.address wallet) "WALLET_ACTIVATE" (Identity.identityId actor)
        [("entityType", VStr "WALLET"); ("entityId", VStr (Wallet.address wallet)); ("status", VStr "ACTIVE")];;
      mret (PendingRegistration.mk identity' device' wallet')
  | _, _ => throw (ConflictError "Pending device and wallet are required")
  end.

(** ** Devices and wallets *)

Definition registerDevice (userId deviceId : string) (credential publicKey : option string) : MW Device.t :=
  let cred := default deviceId credential in
  throw_if (blank deviceId || blank cred) (ValidationError ["deviceId and credential are required"]);;
  throw_if (evmCryptoEnabled && negb (truthy_string publicKey)) (ValidationError ["publicKey is required for EVM wallet registration"]);;
  throw_if (evmCryptoEnabled && negb (bool_decide (is_Some (publicKeyToEvmAddress (default "" publicKey)))))
    (ValidationError ["publicKey must be exactly the canonical 64-byte secp256k1 X || Y representation"]);;
  identity ← the_identity userId;
  existing ← devices_findById deviceId;
  throw_if (match existing with Some e => negb (String.eqb (Device.identityId e) (Identity.identityId identity)) | None => false end)
    (ConflictError ("Device " +:+ deviceId +:+ " is already registered"));;
  throw_if (match existing with Some e => bool_decide (Device.status e = ACTIVE) | None => false end)
    (ConflictError ("Device " +:+ deviceId +:+ " is already active"));;
  registeredAt ← (match existing with Some e => mret (Device.registeredAt e) | None => nowISO end);
  activatedAt ← nowISO;
  let device := Device.mk deviceId (Identity.identityId identity) ACTIVE registeredAt (Some activatedAt) None
    (or_else publicKey (existing ≫= Device.publicKey)) None in
  devices_save device;;
  credentials_save (hashCredential cred) deviceId;;
  commit E_DEVICE deviceId "DEVICE_REGISTER" (Identity.identityId identity)
    [("entityType", VStr "DEVICE"); ("entityId", VStr deviceId); ("identityId", VStr (Identity.identityId identity)); ("status", VStr "ACTIVE")];;
  mret device.

Definition wallet_state (x : Wallet.t) : payload :=
  [("entityType", VStr "WALLET"); ("entityId", VStr (Wallet.address x)); ("identityId", VStr (Wallet.identityId x));
   ("deviceId", VStr (Wallet.deviceId x)); ("status", status_value (Wallet.status x))].

Definition revokeDevice (deviceId : string) (actorId : option string) : MW Device.t :=
  found ← devices_findById deviceId;
  device ← require found (NotFoundError ("No device " +:+ deviceId));
  let wasRevoked := bool_decide (Device.status device = REVOKED) in
  actor ← the_identity (default (Device.identityId device) actorId);
  all ← wallets_listByIdentityId (Device.identityId device);
  let wallets := List.filter (fun x => String.eqb (Wallet.deviceId x) deviceId && wallet_active x) all in
  for_each wallets (fun x => ensureWalletRevoked actor (Wallet.address x) "Device revoked");;
  now ← nowISO;
  let device' := if wasRevoked then device else Device.revoked now device in
  (if wasRevoked then mret tt else devices_save device');;
  credentials_revokeForDevice deviceId;;
  for_each wallets (fun x =>
    let x' := Wallet.revoked now "Device revoked" x in
    wallets_save x';;
    commit E_WALLET (Wallet.address x) "WALLET_REVOKE" (Device.identityId device)
      (wallet_state x' ++ [("reason", VStr "Device revoked")]));;
  (if wasRevoked then mret tt
   else commit E_DEVICE deviceId "DEVICE_REVOKE" (Device.identityId device)
     [("entityType", VStr "DEVICE"); ("entityId", VStr deviceId); ("identityId", VStr (Device.identityId device)); ("status", VStr "REVOKED")]);;
  mret device'.

(** The device of a wallet request, active and owned by the identity. *)
Definition active_device (identity : Identity.t) (deviceId : string) : MW Device.t :=
  found ← devices_findById deviceId;
  device ← require found (ForbiddenError "Device is not active for this identity");
  throw_if (negb (String.eqb (Device.identityId device) (Identity.identityId identity)) ||
            negb (bool_decide (Device.status device = ACTIVE))) (ForbiddenError "Device is not active for this identity");;
  mret device.

Definition registerWallet (userId deviceId address : string) : MW Wallet.t :=
  throw_if (blank address) (ValidationError ["device-generated walletAddress is required"]);;
  identity ← the_identity userId;
  requireActiveIdentity identity;;
  device ← active_device identity deviceId;
  throw_if (negb (truthy_string (Device.publicKey device))) (ForbiddenError "A device-generated public key is required to register a wallet");;
  validateEvmWalletBinding address (default "" (Device.publicKey device));;
  existing ← wallets_findByAddress address;
  throw_if (bool_decide (is_Some existing)) (ConflictError ("Wallet " +:+ address +:+ " already exists"));;
  let wallet := Wallet.mk (trim address) (Identity.identityId identity) deviceId PENDING None None None (Device.publicKey device) in
  wallets_save wallet;;
  mret wallet.

Definition revokeWallet (userId reason : string) (actorId : option string) : MW Wallet.t :=
  throw_if (blank reason) (ValidationError ["reason is required to revoke a wallet"]);;
  identity ← the_identity userId;
  wallets ← wallets_listByIdentityId (Identity.identityId identity);
  wallet ← require (find_wallet wallet_active wallets)
    (NotFoundError ("No active wallet for " +:+ default "null" (Identity.employeeId identity)));
  actor ← the_identity (default userId actorId);
  submit WALLET_REVOKE actor [("address", VStr (Wallet.address wallet)); ("reason", VStr reason)];;
  wallet' ← revokeWalletObject wallet reason;
  commit E_WALLET (Wallet.address wallet) "WALLET_REVOKE" (Identity.identityId identity)
    (wallet_state wallet' ++ [("reason", VStr reason)]);;
  mret wallet'.

Definition activateWallet (userId deviceId address : string) (actorId : option string) : MW Wallet.t :=
  throw_if (blank address) (ValidationError ["device-generated walletAddress is required"]);;
  identity ← the_identity userId;
  requireActiveIdentity identity;;
  device ← active_device identity deviceId;
  existing ← wallets_findByAddress (trim address);
  throw_if (match existing with Some e => negb (String.eqb (Wallet.identityId e) (Identity.identityId identity)) | None => false end)
    (ForbiddenError "Wallet belongs to another identity");;
  wallet ← require existing (NotFoundError "No pending wallet registered for this device and public address");
  throw_if (negb (String.eqb (Wallet.deviceId wallet) deviceId) || negb (bool_decide (Wallet.status wallet = PENDING)))
    (NotFoundError "No pending wallet registered for this device and public address");;
  throw_if (negb (truthy_string (Wallet.publicKey wallet))) (ForbiddenError "A device-generated public key is required to activate a wallet");;
  validateEvmWalletBinding address (default "" (Wallet.publicKey wallet));;
  actor ← the_identity (default userId actorId);
  all ← wallets_listByIdentityId (Identity.identityId identity);
  for_each all (fun current =>
    if wallet_active current && negb (String.eqb (Wallet.address current) (Wallet.address wallet)) then
      submit WALLET_REVOKE actor [("address", VStr (Wallet.address current)); ("reason", VStr "Replaced by wallet activation")];;
      current' ← revokeWalletObject current "Replaced by wallet activation";
      commit E_WALLET (Wallet.address current) "WALLET_REVOKE" (Identity.identityId actor)
        (wallet_state current' ++ [("reason", VStr "Replaced by wallet activation")])
    else mret tt);;
  ensureIdentityCreated actor identity (Wallet.address wallet);;
  ensureWalletActive actor (Wallet.address wallet) deviceId (Identity.identityId identity);;
  now ← nowISO;
  let wallet' := Wallet.mk (Wallet.address wallet) (Wallet.identityId wallet) deviceId ACTIVE (Some now) None None (Wallet.publicKey wallet) in
  wallets_save wallet';;
  user ← users_findByIdentityId (Identity.identityId identity);
  (match user with Some u => users_save (User.with_wallet (Wallet.address wallet) u) | None => mret tt end);;
  commit E_WALLET (Wallet.address wallet) "WALLET_ACTIVATE" (Identity.identityId identity) (wallet_state wallet');;
  mret wallet'.

(** ** Roles *)

(** [role] is [None] when the request does not name one of [ROLES]. *)
Definition assignRole (actorId userId : string) (role : option Role) : MW User.t :=
  role ← require role (ValidationError ["role is invalid"]);
  actor ← the_identity actorId;
  throw_if (negb (is_admin actor)) (ForbiddenError "Only an active admin may assign roles");;
  target ← the_identity userId;
  throw_if (bool_decide (Identity.status target = Identity_REVOKED)) (ForbiddenError "Revoked identities cannot receive roles");;
  user ← users_findByIdentityId (Identity.identityId target);
  let target' := Identity.with_role role target in
  let state := [("entityType", VStr "IDENTITY"); ("entityId", VStr (Identity.identityId target)); ("role", VStr (Role_string role))] in
  match user with
  | None =>
      throw_if (negb (bool_decide (Identity.status target = Identity_PENDING)))
        (NotFoundError ("No user for " +:+ default "null" (Identity.employeeId target)));;
      identities_save target';;
      commit E_IDENTITY (Identity.identityId target) "ROLE_ASSIGN" (Identity.identityId actor) state;;
      mret (toUser target' "")
  | Some u =>
      submit ROLE_ASSIGN actor [("identityId", VStr (Identity.identityId target)); ("role", VStr (Role_string role))];;
      identities_save target';;
      users_save (User.with_role role u);;
      commit E_IDENTITY (Identity.identityId target) "ROLE_ASSIGN" (Identity.identityId actor) state;;
      mret (User.with_role role u)
  end.

Definition getById (id : string) : MW (option User.t) :=
  direct ← users_findById id;
  match direct with
  | Some u => mret (Some u)
  | None =>
      identity ← resolveIdentity id;
      match identity with
      | Some i => users_findByIdentityId (Identity.identityId i)
      | None => mret None
      end
  end.
Definition listDevices (userId : string) : MW (list Device.t) :=
  identity ← the_identity userId; devices_listByIdentityId (Identity.identityId identity).
Definition listWallets (userId : string) : MW (list Wallet.t) :=
  identity ← the_identity userId; wallets_listByIdentityId (Identity.identityId identity).

(** ** Grants *)

Definition grant_payload (g : AuthorizationGrant.t) : payload :=
  [("authorizationGrantId", VStr (AuthorizationGrant.authorizationGrantId g));
   ("resourceType", VStr (ResourceType_string (AuthorizationGrant.resourceType g)));
   ("resourceId", VStr (AuthorizationGrant.resourceId g)); ("actorIdentityId", VStr (AuthorizationGrant.actorIdentityId g));
   ("action", VStr (Action_string (AuthorizationGrant.action g))); ("expiresAt", nullable (AuthorizationGrant.expiresAt g))].
Definition grant_status_string (s : GrantStatus) : string :=
  match s with Grant_ACTIVE => "ACTIVE" | Grant_REVOKED => "REVOKED" | Grant_EXPIRED => "EXPIRED" end.
Definition grant_state (g : AuthorizationGrant.t) : payload :=
  [("entityType", VStr "GRANT"); ("entityId", VStr (AuthorizationGrant.authorizationGrantId g));
   ("actorIdentityId", VStr (AuthorizationGrant.actorIdentityId g));
   ("resourceType", VStr (ResourceType_string (AuthorizationGrant.resourceType g)));
   ("resourceId", VStr (AuthorizationGrant.resourceId g)); ("action", VStr (Action_string (AuthorizationGrant.action g)));
   ("grantedByIdentityId", VStr (AuthorizationGrant.grantedByIdentityId g));
   ("status", VStr (grant_status_string (AuthorizationGrant.status g))); ("expiresAt", nullable (AuthorizationGrant.expiresAt g))].

Definition createGrant (actorId targetId : string) (input : GrantInput.t) : MW AuthorizationGrant.t :=
  actor ← the_identity actorId;
  target ← the_identity targetId;
  throw_if (negb (bool_decide (Identity.status actor = Identity_ACTIVE)) || negb (bool_decide (Identity.status target = Identity_ACTIVE)))
    (ForbiddenError "Inactive identity cannot grant authorization");;
  throw_if (negb (bool_decide (Identity.role actor = Some ADMIN))) (ForbiddenError "Only an admin may create an authorization grant");;
  throw_if (negb (bool_decide (GrantInput.resourceType input = ASSET)) || negb (bool_decide (GrantInput.action input = TRANSFER_ASSET)))
    (ForbiddenError "Only asset transfer grants may be created");;
  u ← randomUUID;
  issuedAt ← nowISO;
  let grant := AuthorizationGrant.mk ("GRANT-" +:+ u) (Identity.identityId target) (GrantInput.resourceType input)
    (GrantInput.resourceId input) (GrantInput.action input) (Identity.identityId actor) issuedAt (GrantInput.expiresAt input) Grant_ACTIVE in
  submit GRANT_CREATE actor (grant_payload grant);;
  grants_save grant;;
  commit E_GRANT (AuthorizationGrant.authorizationGrantId grant) "GRANT_CREATE" (Identity.identityId actor) (grant_state grant);;
  mret grant.

Definition listGrants (targetId : string) : MW (list AuthorizationGrant.t) :=
  identity ← the_identity targetId; grants_listByIdentityId (Identity.identityId identity).

Definition grantMatches (g : AuthorizationGrant.t) (actorId resourceId : string) (action : Action) : bool :=
  String.eqb (AuthorizationGrant.actorIdentityId g) actorId && String.eqb (AuthorizationGrant.resourceId g) resourceId &&
  bool_decide (AuthorizationGrant.action g = action).

(** The clock is read only for a grant that has an expiry. *)
Definition grantIsExpired (g : AuthorizationGrant.t) : MW bool :=
  match AuthorizationGrant.expiresAt g with
  | Some e => if bool_decide (e = "") then mret false else t ← now; mret (expired e t)
  | None => mret false
  end.
Definition grantIsActive (g : AuthorizationGrant.t) (actorId resourceId : string) (action : Action) : MW bool :=
  if bool_decide (AuthorizationGrant.status g = Grant_ACTIVE) && grantMatches g actorId resourceId action
  then e ← grantIsExpired g; mret (negb e)
  else mret false.

Fixpoint find_active (l : list AuthorizationGrant.t) (actorId : string) (resourceType : ResourceType) (resourceId : string)
    (action : Action) : MW (option AuthorizationGrant.t) :=
  match l with
  | [] => mret None
  | g :: l' =>
      ok ← (if bool_decide (AuthorizationGrant.resourceType g = resourceType) && String.eqb (AuthorizationGrant.resourceId g) resourceId
            then grantIsActive g actorId resourceId action else mret false);
      match ok with
      | true => mret (Some g)
      | false => find_active l' actorId resourceType resourceId action
      end
  end.
Definition findActiveGrant (actorId : string) (resourceType : ResourceType) (resourceId : string) (action : Action) : MW (option AuthorizationGrant.t) :=
  grants ← grants_listByIdentityId actorId;
  find_active grants actorId resourceType resourceId action.

Definition revokeGrant (actorId grantId : string) : MW AuthorizationGrant.t :=
  actor ← the_identity actorId;
  found ← grants_findById grantId;
  grant ← require found (NotFoundError ("No grant " +:+ grantId));
  throw_if (negb (String.eqb (AuthorizationGrant.grantedByIdentityId grant) (Identity.identityId actor)) &&
            negb (bool_decide (Identity.role actor = Some ADMIN))) (ForbiddenError "Only the grantor or admin may revoke a grant");;
  submit GRANT_REVOKE actor (grant_payload grant);;
  let grant' := AuthorizationGrant.with_status Grant_REVOKED grant in
  grants_save grant';;
  commit E_GRANT (AuthorizationGrant.authorizationGrantId grant) "GRANT_REVOKE" (Identity.identityId actor) (grant_state grant');;
  mret grant'.

Definition validateGrant (grantId actorId resourceId : string) (action : Action) : MW bool :=
  found ← grants_findById grantId;
  match found with
  | None => mret false
  | Some grant =>
      if negb (grantMatches grant actorId resourceId action) || negb (bool_decide (AuthorizationGrant.status grant = Grant_ACTIVE))
      then mret false
      else
        e ← grantIsExpired grant;
        match e with
        | true => grants_save (AuthorizationGrant.with_status Grant_EXPIRED grant);; mret false
        | false => mret true
        end
  end.
End UsersService.
