(* ===== verification/AuthCorrect.v ===== *)
(** * AuthCorrect: what sessions and challenges guarantee *)
From S2P Require Import Prelude Effects JsString JsMap JsValue Crypto Shared Errors World Repositories Auth MockChain Concrete.
From stdpp Require Import relations.
From Stdlib Require Import Lqa.
Local Open Scope string_scope.
Local Open Scope list_scope.

(** The calls of the authentication service. *)
Inductive auth_call :=
| Auth_request (deviceId : string)
| Auth_request_fresh (token operation : string) (resourceId : option string)
| Auth_verify_fresh (token : string) (input : FreshAuthProofInput.t) (operation : string) (resourceId : option string)
| Auth_login (input : LoginInput)
| Auth_validate (token : string)
| Auth_logout (token : string).

Section Spec.
Context `{PF : Platform} {C : Type}.
Abbreviation W := (World C).

Definition run_auth (c : auth_call) : M exn W unit :=
  match c with
  | Auth_request d => requestAuthenticationChallenge d;; mret tt
  | Auth_request_fresh t o r => requestFreshAuthenticationChallenge t o r;; mret tt
  | Auth_verify_fresh t i o r => verifyFreshAuthentication t i o r
  | Auth_login i => login i;; mret tt
  | Auth_validate t => validateSession t;; mret tt
  | Auth_logout t => logout t
  end.

(** The challenge store as an abstract machine: issue under a fresh UUID,
    or mark an unused challenge as used. *)
Inductive challenge_step (w w' : W) : Prop :=
| challenge_same :
    w_challenges w' = w_challenges w -> (w_uuidReads w <= w_uuidReads w')%nat -> challenge_step w w'
| challenge_issue n ch :
    ProvisioningChallenge.challengeId ch = randomUUID_at n -> (w_uuidReads w <= n < w_uuidReads w')%nat ->
    ProvisioningChallenge.usedAt ch = None ->
    w_challenges w' = put (randomUUID_at n) ch (w_challenges w) -> challenge_step w w'
| challenge_consume id ch t :
    get id (w_challenges w) = Some ch -> truthy_string (ProvisioningChallenge.usedAt ch) = false -> t <> "" ->
    w_challenges w' = put id (ProvisioningChallenge.used t ch) (w_challenges w) ->
    (w_uuidReads w <= w_uuidReads w')%nat -> challenge_step w w'.

(** Every challenge is stored under its id, drawn from the UUID source. *)
Definition challenges_drawn (w : W) : Prop :=
  forall id ch, get id (w_challenges w) = Some ch ->
    ProvisioningChallenge.challengeId ch = id /\ exists n, id = randomUUID_at n /\ (n < w_uuidReads w)%nat.
Definition challenge_used (id : string) (w : W) : Prop :=
  exists ch, get id (w_challenges w) = Some ch /\ truthy_string (ProvisioningChallenge.usedAt ch) = true.

(** A step of the process: a call to the service, whether it returns or
    throws, or anything else that treats challenges by the same rules. *)
Definition auth_step (w w' : W) : Prop := (exists c r, run_auth c w = (r, w')) \/ challenge_step w w'.
End Spec.

Section Facts.
Context `{PF : Platform} {C : Type} `{!PlatformLaws PF}.
Abbreviation W := (World C).

(** Challenges and the UUID counter are not written. *)
Definition challenge_state (w : W) := (w_challenges w, w_uuidReads w).

Lemma keeps_identity_of_device {T} (p : W -> T) d : keeps p (identity_of_device d).
Proof. unfold identity_of_device. rframe. Qed.
Lemma keeps_user_of {T} (p : W -> T) i : keeps p (user_of i).
Proof. unfold user_of. rframe. Qed.
Lemma keeps_wallets_of_identity {T} (p : W -> T) i : keeps p (wallets_of_identity i).
Proof. unfold wallets_of_identity. rframe. Qed.
Lemma keeps_activeSession {T} (p : W -> T) s : keeps p (activeSession s).
Proof. unfold activeSession. rframe. Qed.
Lemma keeps_now_challenges : keeps challenge_state now.
Proof. by intros w. Qed.
Lemma keeps_nowISO_challenges : keeps challenge_state nowISO.
Proof. by intros w. Qed.
Hint Resolve keeps_identity_of_device keeps_user_of keeps_wallets_of_identity keeps_activeSession
  keeps_now_challenges keeps_nowISO_challenges : bel.
Lemma keeps_require_session t : keeps challenge_state (require_session t : M exn W _).
Proof. unfold require_session. rframe. Qed.
Hint Resolve keeps_require_session : bel.

Lemma challenge_step_refl (w : W) : challenge_step w w.
Proof. by apply challenge_same. Qed.

Lemma kept_challenge_step {A} (m : M exn W A) (w w' : W) r :
  keeps challenge_state m -> m w = (r, w') -> challenge_step w w'.
Proof.
  intros Hm E. pose proof (keeps_run challenge_state m _ _ _ Hm E) as Hk. injection Hk as H1 H2.
  apply challenge_same; [done|lia].
Qed.

(** Compose with what comes before: nothing relevant happened. *)
Lemma challenge_step_after (w w1 w' : W) :
  w_challenges w1 = w_challenges w -> (w_uuidReads w <= w_uuidReads w1)%nat ->
  challenge_step w1 w' -> challenge_step w w'.
Proof.
  intros Hc Hr [E1 E2|n ch E1 E2 E3 E4|id ch t E1 E2 E3 E4 E5]; rewrite Hc in *.
  - apply challenge_same; [done|lia].
  - apply (challenge_issue _ _ n ch); [done|lia|done|done].
  - eapply challenge_consume; eauto. lia.
Qed.

Lemma challenge_bind {A B} (m : M exn W A) (k : A -> M exn W B) (w w' : W) r :
  keeps challenge_state m -> (m ≫= k) w = (r, w') ->
  (forall a w1, m w = (inr a, w1) -> challenge_state w1 = challenge_state w -> k a w1 = (r, w') -> challenge_step w1 w') ->
  challenge_step w w'.
Proof.
  intros Hm [(e & -> & E)|(a & w1 & E & Hrun)]%bind_inv Hk; [by eapply kept_challenge_step|].
  pose proof (keeps_run challenge_state m _ _ _ Hm E) as Hs. pose proof Hs as Hs'. injection Hs' as H1 H2.
  eapply challenge_step_after; [exact H1|lia|]. by eapply Hk.
Qed.

Lemma consume_step id t (w w' : W) r :
  t <> "" -> consumeIfUnused id t w = (r, w') -> challenge_step w w'.
Proof.
  intros Ht E. unfold consumeIfUnused in E. destruct (get id (w_challenges w)) as [ch|] eqn:Eg.
  - destruct (truthy_string _) eqn:Eu; injection E as <- <-; [apply challenge_step_refl|].
    by eapply challenge_consume.
  - injection E as <- <-. apply challenge_step_refl.
Qed.

Lemma drawn_step (w w' : W) : challenge_step w w' -> challenges_drawn w -> challenges_drawn w'.
Proof.
  intros [E1 E2|n ch E1 E2 E3 E4|id ch t E1 E2 E3 E4 E5] Hd k ch'; (rewrite E1 || rewrite E4).
  - intros (? & m & ? & ?)%Hd. split; [done|]. exists m. split; [done|lia].
  - rewrite get_put. destruct (String.eqb_spec k (randomUUID_at n)) as [->|].
    + intros [= <-]. split; [done|]. exists n. split; [done|lia].
    + intros (? & m & ? & ?)%Hd. split; [done|]. exists m. split; [done|lia].
  - rewrite get_put. destruct (String.eqb_spec k id) as [->|].
    + intros [= <-]. apply Hd in E1 as (? & m & ? & ?). split; [done|]. exists m. split; [done|lia].
    + intros (? & m & ? & ?)%Hd. split; [done|]. exists m. split; [done|lia].
Qed.

(** Once used, a challenge stays used: a new challenge never takes its id. *)
Lemma used_step id (w w' : W) :
  challenge_step w w' -> challenges_drawn w -> challenge_used id w -> challenge_used id w'.
Proof.
  intros [E1 E2|n ch E1 E2 E3 E4|id' ch t E1 E2 E3 E4 E5] Hd (u & Hu & Ht); unfold challenge_used;
    (rewrite E4 || rewrite E1); [by eauto|..]; rewrite get_put;
    match goal with |- context [String.eqb id ?k] => destruct (String.eqb_spec id k) as [->|] end; eauto.
  - destruct (Hd _ _ Hu) as (_ & m & Hm & ?). apply randomUUID_inj in Hm. lia.
  - eexists. split; [done|]. simpl. by apply negb_true_iff, bool_decide_eq_false.
Qed.

Lemma challenge_step_before (w w1 w' : W) :
  challenge_step w w1 -> w_challenges w' = w_challenges w1 -> (w_uuidReads w1 <= w_uuidReads w')%nat ->
  challenge_step w w'.
Proof.
  intros [E1 E2|n ch E1 E2 E3 E4|id ch t E1 E2 E3 E4 E5] Hc Hr.
  - apply challenge_same; [congruence|lia].
  - apply (challenge_issue _ _ n ch); [done|lia|done|congruence].
  - eapply challenge_consume; eauto; [congruence|lia].
Qed.

Ltac along Hrun := eapply challenge_bind; [|exact Hrun|]; [solve [auto with bel|rframe]|]; clear Hrun.

Ltac over Hrun := injection Hrun as <- <-; apply challenge_step_refl.

Lemma request_step d (w w' : W) r :
  requestAuthenticationChallenge d w = (r, w') -> challenge_step w w'.
Proof.
  intros Hrun. unfold requestAuthenticationChallenge in Hrun.
  along Hrun. intros dev w1 _ _ Hrun. along Hrun. intros i w2 _ _ Hrun. along Hrun. intros ws w3 _ _ Hrun.
  along Hrun. intros u w4 _ _ Hrun. injection Hrun as <- <-.
  eapply (challenge_issue w4 _ (w_uuidReads w4)); [| | |simpl; reflexivity]; simpl; try done; lia.
Qed.

Lemma request_fresh_step t o rid (w w' : W) r :
  requestFreshAuthenticationChallenge t o rid w = (r, w') -> challenge_step w w'.
Proof.
  intros Hrun. unfold requestFreshAuthenticationChallenge in Hrun.
  along Hrun. intros s w1 _ _ Hrun. along Hrun. intros u w4 _ _ Hrun. injection Hrun as <- <-.
  eapply (challenge_issue w4 _ (w_uuidReads w4)); [| | |simpl; reflexivity]; simpl; try done; lia.
Qed.

Lemma open_session_step u i role d x (w w' : W) r :
  open_session u i role d x w = (r, w') -> w_challenges w' = w_challenges w /\ (w_uuidReads w <= w_uuidReads w')%nat.
Proof. intros Hrun. injection Hrun as <- <-. simpl. split; [done|lia]. Qed.

Lemma verify_fresh_step t inp o rid (w w' : W) r :
  verifyFreshAuthentication t inp o rid w = (r, w') -> challenge_step w w'.
Proof.
  intros Hrun. unfold verifyFreshAuthentication in Hrun.
  along Hrun. intros s w1 _ _ Hrun. along Hrun. intros f w2 _ _ Hrun. along Hrun. intros ch w3 _ _ Hrun.
  along Hrun. intros u w4 _ _ Hrun. along Hrun. intros n w5 _ _ Hrun. along Hrun. intros u1 w6 _ _ Hrun.
  along Hrun. intros dev w7 _ _ Hrun. along Hrun. intros i w8 _ _ Hrun. along Hrun. intros ws w9 _ _ Hrun.
  destruct dev as [dev|]; [|over Hrun]. destruct i as [i|]; [|over Hrun].
  destruct (find_wallet _ ws) as [x|]; [|over Hrun].
  along Hrun. intros u2 w10 _ _ Hrun. along Hrun. intros u3 w11 _ _ Hrun. along Hrun. intros u4 w12 _ _ Hrun.
  along Hrun. intros at' w13 Hat _ Hrun. apply nowISO_inv in Hat as [[= ->] _].
  apply bind_inv in Hrun as [(e & -> & E)|(b & w14 & E & Hrun)].
  - eapply consume_step; [|exact E]. apply toISOString_nonempty.
  - replace w' with w14; [|by destruct b; injection Hrun as _ <-].
    eapply consume_step; [|exact E]. apply toISOString_nonempty.
Qed.

Lemma login_proof_step inp (w w' : W) r : loginWithProof inp w = (r, w') -> challenge_step w w'.
Proof.
  intros Hrun. unfold loginWithProof in Hrun.
  along Hrun. intros f w1 _ _ Hrun. along Hrun. intros ch w2 _ _ Hrun. along Hrun. intros u w3 _ _ Hrun.
  along Hrun. intros n w4 _ _ Hrun. along Hrun. intros u1 w5 _ _ Hrun. along Hrun. intros dev w6 _ _ Hrun.
  along Hrun. intros i w7 _ _ Hrun. along Hrun. intros us w8 _ _ Hrun. along Hrun. intros ws w9 _ _ Hrun.
  destruct dev as [dev|]; [|over Hrun]. destruct i as [i|]; [|over Hrun]. destruct us as [us|]; [|over Hrun].
  destruct (find_wallet _ ws) as [x|]; [|over Hrun].
  along Hrun. intros u2 w10 _ _ Hrun. along Hrun. intros role w11 _ _ Hrun. along Hrun. intros u4 w12 _ _ Hrun.
  along Hrun. intros u5 w13 _ _ Hrun.
  along Hrun. intros at' w14 Hat _ Hrun. apply nowISO_inv in Hat as [[= ->] _].
  apply bind_inv in Hrun as [(e & -> & E)|(b & w15 & E & Hrun)];
    (eapply challenge_step_before; [eapply consume_step; [apply toISOString_nonempty|exact E]|..]); [done|lia|..].
  all: destruct b; [destruct (open_session_step _ _ _ _ _ _ _ _ Hrun); done|injection Hrun as _ <-; done || lia].
Qed.

Lemma login_credential_step cr (w w' : W) r : login_credential cr w = (r, w') -> challenge_step w w'.
Proof.
  intros Hrun. unfold login_credential in Hrun.
  along Hrun. intros f w1 _ _ Hrun. along Hrun. intros ch w2 _ _ Hrun. along Hrun. intros u w3 _ _ Hrun.
  along Hrun. intros u1 w5 _ _ Hrun. along Hrun. intros dev w6 _ _ Hrun.
  along Hrun. intros i w7 _ _ Hrun. along Hrun. intros us w8 _ _ Hrun. along Hrun. intros ws w9 _ _ Hrun.
  destruct dev as [dev|]; [|over Hrun]. destruct i as [i|]; [|over Hrun]. destruct us as [us|]; [|over Hrun].
  destruct (find_wallet _ ws) as [x|]; [|over Hrun].
  along Hrun. intros u2 w10 _ _ Hrun. along Hrun. intros role w11 _ _ Hrun. along Hrun. intros u4 w12 _ _ Hrun.
  destruct (open_session_step _ _ _ _ _ _ _ _ Hrun). by apply challenge_same.
Qed.

Lemma keeps_validateSession t : keeps challenge_state (validateSession t : M exn W _).
Proof. unfold validateSession. rframe. Qed.

Lemma auth_call_step c (w w' : W) r : run_auth c w = (r, w') -> challenge_step w w'.
Proof.
  assert (Hret : forall A (m : M exn W A) r0, (forall r1, m w = (r1, w') -> challenge_step w w') ->
    (m;; mret tt) w = (r0, w') -> challenge_step w w').
  { intros A m r0 Hm [(e & -> & E)|(a & w1 & E & [-> ->]%mret_inv)]%bind_inv; eauto. }
  destruct c; simpl; intros Hrun; try (eapply Hret; [|exact Hrun]; clear Hrun; intros r1 Hrun).
  - by eapply request_step.
  - by eapply request_fresh_step.
  - by eapply verify_fresh_step.
  - destruct input; [by eapply login_credential_step|by eapply login_proof_step].
  - by eapply kept_challenge_step; [apply keeps_validateSession|].
  - injection Hrun as <- <-. apply challenge_same; [done|]. simpl. lia.
Qed.

Lemma auth_steps_used id (w w' : W) :
  rtc auth_step w w' -> challenges_drawn w -> challenge_used id w -> challenge_used id w'.
Proof.
  induction 1 as [|w w1 w' Hstep _ IH]; intros Hd Hu; [done|].
  assert (Hcs : challenge_step w w1) by (destruct Hstep as [(c & r & Hrun)|?]; [by eapply auth_call_step|done]).
  apply IH; [by eapply drawn_step|by eapply used_step].
Qed.

Lemma challenge_state_challenges (w w' : W) : challenge_state w' = challenge_state w -> w_challenges w' = w_challenges w.
Proof. by intros [= -> _]. Qed.

Lemma consumed_used id t (w w' : W) :
  consumeIfUnused id (toISOString t) w = (inr true, w') -> challenge_used id w'.
Proof.
  intros E%consumeIfUnused_inv. destruct (get id (w_challenges w)) as [c|]; [|by destruct E].
  destruct (truthy_string _); [by destruct E|]. destruct E as [_ ->]. unfold challenge_used. simpl. rewrite get_put_eq.
  eexists. split; [done|]. simpl. apply negb_true_iff, bool_decide_eq_false, toISOString_nonempty.
Qed.

(** What a successful proof login has checked, and that it leaves the
    challenge used. *)
Lemma login_proof_success inp (w w' : W) res :
  loginWithProof inp w = (inr res, w') ->
  exists ch, get (LoginProofInput.challengeId inp) (w_challenges w) = Some ch /\
    ProvisioningChallenge.purpose ch = AUTHENTICATION /\ truthy_string (ProvisioningChallenge.usedAt ch) = false /\
    ProvisioningChallenge.deviceId ch = LoginProofInput.deviceId inp /\
    challenge_used (ProvisioningChallenge.challengeId ch) w'.
Proof.
  unfold loginWithProof. intros Hrun.
  apply bind_inr in Hrun as (f & w1 & [<- <-]%gets_inr & Hrun).
  apply bind_inr in Hrun as (ch & w1 & [Hch <-]%require_inr & Hrun).
  apply bind_inr in Hrun as (u & w1 & [Hok <-]%throw_if_inr & Hrun).
  apply bind_inr in Hrun as (t & w2 & [_ ->]%now_inv & Hrun).
  apply bind_inr in Hrun as (u1 & w3 & [_ <-]%throw_if_inr & Hrun).
  rinv. destruct (get _ (w_devices w)); [|done].
  repeat match goal with E : ?m _ = (inr ?x, ?w0) |- _ => match m with identity_of_device _ => idtac | user_of _ => idtac | wallets_of_identity _ => idtac end;
    kept challenge_state E; clear E end.
  repeat match goal with
  | E : match ?o with Some _ => _ | None => _ end _ = (inr _, _) |- _ => destruct o eqn:?; [|done]
  end.
  rinv.
  match goal with E : consumeIfUnused _ _ _ = (inr ?b, _) |- _ => rename E into Hcons; destruct b; [|done] end.
  match goal with E : open_session _ _ _ _ _ _ = _ |- _ => apply open_session_step in E as [Hopen _] end.
  bool_to_prop. exists ch. repeat split; try done.
  { by apply String.eqb_eq. }
  unfold challenge_used. rewrite Hopen. by eapply consumed_used.
Qed.

Lemma require_session_success token (w w' : W) s :
  require_session token w = (inr s, w') ->
  get token (w_sessions w) = Some s /\
  num_le (SessionRecord.expiresAt s) (num_of_Z (Date_now (w_clockReads w))) = false /\ stored w' = stored w.
Proof.
  intros Hrun. assert (Hst : stored w' = stored w).
  { eapply keeps_run; [|exact Hrun]. unfold require_session. rframe. }
  unfold require_session in Hrun. rinv. done.
Qed.

(** What a successful fresh authentication has checked. *)
Lemma verify_fresh_success token inp op rid (w w' : W) u :
  verifyFreshAuthentication token inp op rid w = (inr u, w') ->
  exists s ch d i x, get token (w_sessions w) = Some s /\
    get (FreshAuthProofInput.challengeId inp) (w_challenges w) = Some ch /\
    fresh_challenge_ok ch s token op rid = true /\
    get (SessionRecord.deviceId s) (w_devices w) = Some d /\ Device.status d = ACTIVE /\
    get (Device.identityId d) (w_identities w) = Some i /\ Identity.status i = Identity_ACTIVE /\
    In x (wallets_of (Identity.identityId i) w) /\ Wallet.address x = SessionRecord.walletAddress s /\ Wallet.status x = ACTIVE /\
    verifyProof (ProvisioningChallenge.challenge ch) (FreshAuthProofInput.publicKey inp) (FreshAuthProofInput.signature inp) = true /\
    Device.publicKey d = Some (FreshAuthProofInput.publicKey inp) /\
    challenge_used (ProvisioningChallenge.challengeId ch) w'.
Proof.
  unfold verifyFreshAuthentication. intros Hrun.
  apply bind_inr in Hrun as (s & w1 & (Hs & _ & Hw1)%require_session_success & Hrun).
  apply bind_inr in Hrun as (f & w2 & [<- <-]%gets_inr & Hrun).
  apply bind_inr in Hrun as (ch & w2 & [Hch <-]%require_inr & Hrun).
  apply bind_inr in Hrun as (v & w2 & [Hok <-]%throw_if_inr & Hrun).
  apply bind_inr in Hrun as (t & w2 & [_ ->]%now_inv & Hrun).
  apply bind_inr in Hrun as (u1 & w3 & [_ <-]%throw_if_inr & Hrun).
  apply bind_inr in Hrun as (d & w3 & [<- <-]%gets_inr & Hrun). simpl in Hrun.
  unfold stored in Hw1. injection Hw1 as Hi _ Hd Hwa _ _ _ Hc _ _ _ _ _ _ _ _ _ _. rewrite Hd, Hc in *.
  destruct (get (SessionRecord.deviceId s) (w_devices w)) as [d|] eqn:Ed; [|by rinv].
  apply bind_inr in Hrun as (i & w3 & [<- <-]%gets_inr & Hrun). simpl in Hrun. rewrite Hi in Hrun.
  destruct (get (Device.identityId d) (w_identities w)) as [i|] eqn:Ei; [|by rinv].
  apply bind_inr in Hrun as (ws & w3 & [<- <-]%gets_inr & Hrun). simpl in Hrun.
  destruct (find_wallet _ _) as [x|] eqn:Ex; [|done].
  rinv. match goal with E : consumeIfUnused _ _ _ = (inr ?b, _) |- _ => rename E into Hcons; destruct b; [|done] end.
  apply find_some in Ex as [Hx Hp]. unfold wallet_active in *. bool_to_prop.
  match goal with E : Device.publicKey d = _ |- _ => rewrite E in *; rename E into Hkey end. simpl in *.
  exists s, ch, d, i, x. unfold wallets_of in *. simpl in Hx. rewrite Hwa in Hx.
  apply consumed_used in Hcons. repeat (split; [first [done|by apply String.eqb_eq]|]). done.
Qed.
End Facts.

(** ** The theorems *)

Section Theorems.
Context `{PF : Platform} {C : Type} `{!PlatformLaws PF}.
Abbreviation W := (World C).

(** A challenge works once: after it has carried a login or a fresh
    authentication, no sequence of calls makes it usable again, for either
    purpose and for any caller. *)
Theorem challenge_single_use (w w1 w2 : W) id :
  challenges_drawn w ->
  (exists inp res, LoginProofInput.challengeId inp = id /\ loginWithProof inp w = (inr res, w1)) \/
  (exists token inp op rid, FreshAuthProofInput.challengeId inp = id /\
     verifyFreshAuthentication token inp op rid w = (inr tt, w1)) ->
  rtc auth_step w1 w2 ->
  (forall inp, LoginProofInput.challengeId inp = id -> exists e w3, loginWithProof inp w2 = (inl e, w3)) /\
  (forall token inp op rid, FreshAuthProofInput.challengeId inp = id ->
     exists e w3, verifyFreshAuthentication token inp op rid w2 = (inl e, w3)).
Proof.
  intros Hd Huse Hsteps.
  assert (Hu : challenges_drawn w1 /\ challenge_used id w1) .
  { destruct Huse as [(inp & res & <- & Hrun)|(token & inp & op & rid & <- & Hrun)].
    - split; [eapply drawn_step; [by eapply login_proof_step|done]|].
      apply login_proof_success in Hrun as (ch & Hch & _ & _ & _ & Hu). by destruct (Hd _ _ Hch) as [<- _].
    - split; [eapply drawn_step; [by eapply verify_fresh_step|done]|].
      apply verify_fresh_success in Hrun as (s & ch & d & i & x & _ & Hch & _ & _ & _ & _ & _ & _ & _ & _ & _ & _ & Hu).
      by destruct (Hd _ _ Hch) as [<- _]. }
  destruct Hu as [Hd1 Hu1]. destruct (auth_steps_used _ _ _ Hsteps Hd1 Hu1) as (ch & Hch & Ht). split.
  - intros inp <-. destruct (loginWithProof inp w2) as [[e|res] w3] eqn:E; [by eexists _, _|].
    apply login_proof_success in E as (ch' & Hch' & _ & Hn & _). congruence.
  - intros token inp op rid <-. destruct (verifyFreshAuthentication token inp op rid w2) as [[e|res] w3] eqn:E; [by eexists _, _|].
    apply verify_fresh_success in E as (s & ch' & d & i & x & _ & Hch' & Hok & _). unfold fresh_challenge_ok in Hok.
    bool_to_prop. congruence.
Qed.

(** A fresh authentication is bound to the session, the operation and
    the resource it was requested for, to the session's device and active
    wallet, and to a proof by that device's registered key. *)
Theorem fresh_auth_bound token inp op rid (w w' : W) :
  verifyFreshAuthentication token inp op rid w = (inr tt, w') ->
  exists s ch d m, get token (w_sessions w) = Some s /\
    get (FreshAuthProofInput.challengeId inp) (w_challenges w) = Some ch /\
    ProvisioningChallenge.metadata ch = Some m /\
    field "sessionHash" m = VStr (sha256_hex token) /\ field "operation" m = VStr op /\
    null_of (field "resourceId" m) = nullable rid /\
    ProvisioningChallenge.deviceId ch = SessionRecord.deviceId s /\
    get (SessionRecord.deviceId s) (w_devices w) = Some d /\ Device.status d = ACTIVE /\
    Device.publicKey d = Some (FreshAuthProofInput.publicKey inp) /\
    verifyProof (ProvisioningChallenge.challenge ch) (FreshAuthProofInput.publicKey inp) (FreshAuthProofInput.signature inp) = true.
Proof.
  intros (s & ch & d & i & x & Hs & Hch & Hok & Hd & Hda & _ & _ & _ & _ & _ & Hpf & Hk & _)%verify_fresh_success.
  unfold fresh_challenge_ok in Hok. destruct (ProvisioningChallenge.metadata ch) as [m|] eqn:Em; bool_to_prop; [|done].
  exists s, ch, d, m. unfold is_string, is_nullable in *.
  destruct (field "sessionHash" m); try done. destruct (field "operation" m); try done.
  destruct (null_of (field "resourceId" m)), rid; try done;
    repeat match goal with E : String.eqb _ _ = true |- _ => apply String.eqb_eq in E; subst end;
    repeat (split; [done|]); done.
Qed.
End Theorems.

Section Sessions.
Context `{PF : Platform} {C : Type}.
Abbreviation W := (World C).

(** When a session opened at instant [t] ends. *)
Definition session_end (t : Z) : num := num_add (num_of_Z t) (num_scale (num_max (num_of_Z 60) session_ttl) 1000).

Lemma session_end_NaN t now : session_ttl = NaN -> num_le (session_end t) (num_of_Z now) = false.
Proof. unfold session_end. intros ->. done. Qed.

Lemma session_end_floor t now :
  session_ttl <> NaN -> (now < t + 60000)%Z -> num_le (session_end t) (num_of_Z now) = false.
Proof.
  unfold session_end. intros Hn Hnow.
  assert (Hq : forall q, (60 <= q)%Q -> num_le (Num (inject_Z t + q * inject_Z 1000)) (num_of_Z now) = false).
  { intros q Hq. simpl. apply not_true_is_false. rewrite Qle_bool_iff. intros Hle.
    assert (Hz : (inject_Z now < inject_Z t + 60000)%Q).
    { change 60000%Q with (inject_Z 60000). rewrite <- inject_Z_plus, <- Zlt_Qlt. done. }
    change (inject_Z 1000) with 1000%Q in Hle. lra. }
  destruct session_ttl as [| | |q]; try done; unfold num_max, num_of_Z.
  - apply Hq. change (inject_Z 60) with 60%Q. lra.
  - simpl num_le. destruct (Qle_bool (inject_Z 60) q) eqn:E; apply Hq.
    + by apply Qle_bool_iff in E.
    + change (inject_Z 60) with 60%Q. lra.
Qed.

Lemma open_session_inr u i role d x (w w' : W) v token :
  open_session u i role d x w = (inr (v, token), w') ->
  exists s, get token (w_sessions w') = Some s /\ SessionRecord.expiresAt s = session_end (Date_now (w_clockReads w)) /\
    SessionRecord.identityId s = Identity.identityId i /\ w_clockReads w' = S (w_clockReads w).
Proof.
  intros Hrun. unfold open_session in Hrun. rinv.
  match goal with E : (_, _) = (_, _) |- _ => injection E as <- <- end. simpl. rewrite get_put_eq.
  eexists. split; [done|]. done.
Qed.

Lemma login_opens input (w w' : W) u token :
  login input w = (inr (u, token), w') ->
  exists usr i role d x w1, open_session usr i role d x w1 = (inr (u, token), w').
Proof.
  destruct input as [cr|inp]; simpl; unfold login_credential, loginWithProof; intros Hrun.
  all: repeat match type of Hrun with
    | (_ ≫= _) _ = _ => apply bind_inr in Hrun as (? & ? & ? & Hrun)
    | match ?o with Some _ => _ | None => _ end _ = _ => destruct o; [|done]
    end.
  all: by eexists _, _, _, _, _, _.
Qed.

(** The lifetime of a login session: read at the last clock reading of
    the call, it lasts at least a minute whenever the configured lifetime is
    a number; when the configured lifetime does not parse, the session never
    expires. *)
Theorem login_session_expiry input (w w' : W) u token :
  login input w = (inr (u, token), w') ->
  exists s n, get token (w_sessions w') = Some s /\ w_clockReads w' = S n /\
    (session_ttl = NaN -> forall now, num_le (SessionRecord.expiresAt s) (num_of_Z now) = false) /\
    (session_ttl <> NaN -> forall now, (now < Date_now n + 60000)%Z ->
       num_le (SessionRecord.expiresAt s) (num_of_Z now) = false).
Proof.
  intros (usr & i & role & d & x & w1 & Hrun)%login_opens.
  apply open_session_inr in Hrun as (s & Hs & He & _ & Hc). exists s, (w_clockReads w1). rewrite He.
  repeat split; try done; intros; [by apply session_end_NaN|by apply session_end_floor].
Qed.

(** What stands behind a session that is honoured. *)
Definition session_stands (w : W) (s : SessionRecord.t) (u : User.t) : Prop :=
  exists i d x role,
    get (SessionRecord.identityId s) (w_identities w) = Some i /\ Identity.status i = Identity_ACTIVE /\
    identity_complete i = true /\ Identity.role i = Some role /\
    get (SessionRecord.deviceId s) (w_devices w) = Some d /\ Device.status d = ACTIVE /\
    get (SessionRecord.walletAddress s) (w_wallets w) = Some x /\ Wallet.status x = ACTIVE /\
    Wallet.deviceId x = Device.deviceId d /\
    (evmCryptoEnabled = true -> exists key, Device.publicKey d = Some key /\ is_Some (assertWalletMatchesPublicKey (Wallet.address x) key)) /\
    User.role u = role /\ User.walletAddress u = Wallet.address x /\ User.status u = Identity_ACTIVE.

Lemma validateSession_inr token (w w' : W) u :
  validateSession token w = (inr (Some u), w') ->
  exists s, get token (w_sessions w) = Some s /\
    num_le (SessionRecord.expiresAt s) (num_of_Z (Date_now (w_clockReads w))) = false /\
    session_stands w s u /\ stored w' = stored w.
Proof.
  intros Hrun. unfold validateSession in Hrun. apply bind_inr in Hrun as (f & w1 & [Hs <-]%gets_inr & Hrun).
  destruct f as [s|]; [|by rinv]. apply bind_inr in Hrun as (t & w2 & [[= ->] ->]%now_inv & Hrun).
  destruct (num_le _ _) eqn:Ele; [by rinv|].
  apply bind_inr in Hrun as (i & w3 & [Hi <-]%gets_inr & Hrun). apply bind_inr in Hrun as (d & w3 & [Hd <-]%gets_inr & Hrun).
  apply bind_inr in Hrun as (x & w3 & [Hx <-]%gets_inr & Hrun). apply bind_inr in Hrun as (us & w3 & Hus & Hrun).
  assert (Hw : stored w3 = stored (upd_clockReads S w)).
  { eapply keeps_run; [|exact Hus]. unfold user_of. rframe. }
  destruct (session_user i d x us) as [u'|] eqn:Esu; [|by rinv]. apply mret_inr in Hrun as [[= ->] ->].
  unfold session_user in Esu. destruct i as [i|], d as [d|], x as [x|], us as [us|]; try done.
  destruct (Identity.role i) as [role|] eqn:Er; [|done].
  destruct (_ && _) eqn:Eb in Esu; [|done]. injection Esu as <-. unfold wallet_active in *. bool_to_prop.
  exists s. split; [done|]. split; [done|]. split; [|done]. exists i, d, x, role.
  repeat (split; [first [done|by apply String.eqb_eq]|]). split; [|done].
  intros Hevm. rewrite Hevm in *. simpl in *. bool_to_prop.
  destruct (Device.publicKey d) as [key|]; [|done]. eauto.
Qed.

Lemma never_throws_validateSession token : never_throws (validateSession token : M exn W _).
Proof.
  unfold validateSession, user_of. calm_tail.
Qed.

(** A token is honoured only while everything behind it is active: the
    session is stored and unexpired, its identity is active, verified and has
    a role, its device is active, its wallet is active on that device and, on
    the EVM chain, derived from the device's key; the user the request then
    acts as carries that wallet, role and status; nothing is written. *)
Theorem session_sound token (w w' : W) u :
  validateSession token w = (inr (Some u), w') ->
  exists s, get token (w_sessions w) = Some s /\
    num_le (SessionRecord.expiresAt s) (num_of_Z (Date_now (w_clockReads w))) = false /\
    session_stands w s u /\ stored w' = stored w.
Proof. apply validateSession_inr. Qed.

(** A token that is presented and not honoured is removed for good, and
    no other session is touched. *)
Theorem rejected_session_deleted token (w w' : W) :
  wf (w_sessions w) -> validateSession token w = (inr None, w') ->
  get token (w_sessions w') = None /\
  forall other, other <> token -> get other (w_sessions w') = get other (w_sessions w).
Proof.
  intros Hwf Hrun. unfold validateSession in Hrun. apply bind_inr in Hrun as (f & w1 & [Hs <-]%gets_inr & Hrun).
  destruct f as [s|]; [|by apply mret_inr in Hrun as [_ <-]]. apply bind_inr in Hrun as (t & w2 & [_ ->]%now_inv & Hrun).
  assert (Hdel : w_sessions w' = JsMap.remove token (w_sessions w)).
  { destruct (num_le _ _); [by rinv|]. apply bind_inr in Hrun as (i & w3 & [Hi <-]%gets_inr & Hrun).
    apply bind_inr in Hrun as (d & w3 & [Hd <-]%gets_inr & Hrun). apply bind_inr in Hrun as (x & w3 & [Hx <-]%gets_inr & Hrun).
    apply bind_inr in Hrun as (us & w3 & Hus & Hrun).
    assert (Hw : w_sessions w3 = w_sessions w).
    { eapply (keeps_run w_sessions) in Hus; [exact Hus|]. unfold user_of. rframe. }
    destruct (session_user i d x us); [by rinv|]. rinv. by rewrite Hw. }
  rewrite Hdel. split; [by apply get_remove_eq|]. intros other Ho. by apply get_remove_ne.
Qed.
End Sessions.

(** ** Concrete runs *)

#[local] Existing Instance dev.

(** One person with an active device and wallet. *)
Definition auth_world : World MockChain :=
  upd_identities (put "ID" (Identity.mk "ID" (Some "E1") "Ada" (Some ENGINEER) (Some "OPS") Identity_ACTIVE "t" None None))
  (upd_users (put "E1" (User.mk "E1" "ID" "0xw" ENGINEER "OPS" Identity_ACTIVE))
  (upd_devices (put "D" (Device.mk "D" "ID" ACTIVE "t" None None (Some "key") None))
  (upd_wallets (put "0xw" (Wallet.mk "0xw" "ID" "D" ACTIVE None None None (Some "key"))) empty_world))).

(** The first challenge and the login that answers it: the demo platform
    accepts the challenge itself as its signature. *)
Definition challenged_world : World MockChain := snd (run_auth (Auth_request "D") auth_world).
Definition demo_proof : LoginProofInput.t :=
  LoginProofInput.mk "D" (randomUUID_at 0) "key" (randomBytes_at 0).
Definition logged_in_world : World MockChain := snd (run_auth (Auth_login (Proof_of demo_proof)) challenged_world).
Definition demo_token : string := "bel_" +:+ randomUUID_at 1.

Lemma demo_login_ok : exists res, loginWithProof demo_proof challenged_world = (inr res, logged_in_world).
Proof. vm_compute. eauto. Qed.

Lemma auth_world_drawn : challenges_drawn auth_world.
Proof. intros id ch. vm_compute. discriminate. Qed.
Lemma challenged_world_drawn : challenges_drawn challenged_world.
Proof.
  eapply drawn_step; [|apply auth_world_drawn].
  apply (auth_call_step (Auth_request "D") auth_world challenged_world (inr tt)). vm_compute. reflexivity.
Qed.

Lemma challenge_single_use_witness :
  exists e w3, loginWithProof demo_proof (snd (run_auth (Auth_validate demo_token) logged_in_world)) = (inl e, w3).
Proof.
  destruct demo_login_ok as [res Hres].
  refine (proj1 (challenge_single_use challenged_world logged_in_world
    (snd (run_auth (Auth_validate demo_token) logged_in_world)) (randomUUID_at 0) challenged_world_drawn _ _) demo_proof eq_refl).
  - left. exists demo_proof, res. split; [reflexivity|exact Hres].
  - apply rtc_once. left. exists (Auth_validate demo_token), (inr tt). vm_compute. reflexivity.
Defined.

Lemma session_sound_witness :
  exists u, fst (validateSession demo_token logged_in_world) = inr (Some u) /\ User.role u = ENGINEER.
Proof.
  destruct (validateSession demo_token logged_in_world) as [[e|[u|]] w'] eqn:E; [by vm_compute in E| |by vm_compute in E].
  exists u. split; [reflexivity|].
  destruct (session_sound demo_token logged_in_world w' u E) as (s & Hs & _ & (i & d & x & role & Hi & _ & _ & Hr & _ & _ & _ & _ & _ & _ & Hu & _) & _).
  vm_compute in Hs. injection Hs as <-. vm_compute in Hi. injection Hi as <-. rewrite Hu. vm_compute in Hr. by injection Hr as <-.
Defined.

Lemma rejected_session_deleted_witness :
  let w := upd_devices (put "D" (Device.mk "D" "ID" REVOKED "t" None None (Some "key") None)) logged_in_world in
  get demo_token (w_sessions w) <> None /\ get demo_token (w_sessions (snd (validateSession demo_token w))) = None.
Proof.
  split; [vm_compute; discriminate|].
  destruct (validateSession demo_token (upd_devices (put "D" (Device.mk "D" "ID" REVOKED "t" None None (Some "key") None)) logged_in_world))
    as [[e|[u|]] w'] eqn:E; [by vm_compute in E|by vm_compute in E|].
  refine (proj1 (rejected_session_deleted demo_token _ w' _ E)).
  vm_compute. repeat constructor. intros [].
Defined.

Lemma fresh_auth_bound_witness :
  let w := snd (run_auth (Auth_request_fresh demo_token "WALLET_REVOKE" (Some "E1")) logged_in_world) in
  exists m, field "operation" m = VStr "WALLET_REVOKE" /\
    null_of (field "resourceId" m) = VStr "E1".
Proof.
  set (w := snd (run_auth (Auth_request_fresh demo_token "WALLET_REVOKE" (Some "E1")) logged_in_world)).
  destruct (verifyFreshAuthentication demo_token (FreshAuthProofInput.mk (randomUUID_at 2) "key" (randomBytes_at 1)) "WALLET_REVOKE" (Some "E1") w)
    as [[e|[]] w'] eqn:E; [by vm_compute in E|].
  destruct (fresh_auth_bound _ _ _ _ _ _ E) as (s & ch & d & m & _ & _ & _ & _ & Ho & Hr & _). exists m. split; [exact Ho|exact Hr].
Defined.

Lemma login_session_expiry_witness :
  exists s n, get demo_token (w_sessions logged_in_world) = Some s /\ w_clockReads logged_in_world = S n /\
    num_le (SessionRecord.expiresAt s) (num_of_Z (Date_now n + 59999)) = false.
Proof.
  destruct (loginWithProof demo_proof challenged_world) as [[e|[u tok]] w'] eqn:E; [by vm_compute in E|].
  destruct (login_session_expiry (Proof_of demo_proof) challenged_world w' u tok E) as (s & n & Hs & Hn & _ & Hf).
  vm_compute in E. injection E as <- <- <-. exists s, n. split; [exact Hs|]. split; [exact Hn|].
  apply Hf; [vm_compute; discriminate|lia].
Defined.
