(* ===== verification/UsersCorrect.v ===== *)
(** * UsersCorrect: what the identity service guarantees *)
From S2P Require Import Prelude Effects JsString JsMap JsValue Crypto Shared Errors World Repositories Integrity Auth MockChain Concrete Users AuthCorrect.
From stdpp Require Import relations.
From Stdlib Require Import Sorting.Permutation.
Local Open Scope string_scope.
Local Open Scope list_scope.

(** The calls that change something, with their arguments. *)
Inductive users_call :=
| Users_createUser (input : CreateIdentityInput.t) (actorId : option string)
| Users_requestChallenge (deviceId : string) (metadata : value)
| Users_initialize (input : InitializeAccountRequest.t)
| Users_verify (actorId userId employeeId department : string)
| Users_activate (actorId userId : string)
| Users_registerDevice (userId deviceId : string) (credential publicKey : option string)
| Users_revokeDevice (deviceId : string) (actorId : option string)
| Users_registerWallet (userId deviceId address : string)
| Users_revokeWallet (userId reason : string) (actorId : option string)
| Users_activateWallet (userId deviceId address : string) (actorId : option string)
| Users_assignRole (actorId userId : string) (role : option Role)
| Users_createGrant (actorId targetId : string) (input : GrantInput.t)
| Users_revokeGrant (actorId grantId : string)
| Users_validateGrant (grantId actorId resourceId : string) (action : Action).

(** The two calls that write before the chain has confirmed everything. *)
Definition writes_early (c : users_call) : bool :=
  match c with Users_createUser _ _ | Users_activateWallet _ _ _ _ => true | _ => false end.

Section Spec.
Context `{Platform} {C : Type} `{BlockchainService C} `{DeviceAttestationAdapter} `{IntegrityWiring}.
Abbreviation W := (World C).

Definition run_users (c : users_call) : M exn W unit :=
  match c with
  | Users_createUser i a => createUser i a;; mret tt
  | Users_requestChallenge d m => requestProvisioningChallenge d m;; mret tt
  | Users_initialize i => initializeAccount i;; mret tt
  | Users_verify a u e d => verifyRegistration a u e d;; mret tt
  | Users_activate a u => activateRegistration a u;; mret tt
  | Users_registerDevice u d c k => registerDevice u d c k;; mret tt
  | Users_revokeDevice d a => revokeDevice d a;; mret tt
  | Users_registerWallet u d x => registerWallet u d x;; mret tt
  | Users_revokeWallet u r a => revokeWallet u r a;; mret tt
  | Users_activateWallet u d x a => activateWallet u d x a;; mret tt
  | Users_assignRole a u r => assignRole a u r;; mret tt
  | Users_createGrant a t i => createGrant a t i;; mret tt
  | Users_revokeGrant a g => revokeGrant a g;; mret tt
  | Users_validateGrant g a r x => validateGrant g a r x;; mret tt
  end.

(** The versions committed for one entity, oldest first. *)
Definition versions_of (id : string) (w : W) : list Z :=
  map IntegrityCommitment.version
    (List.filter (fun c => String.eqb (IntegrityCommitment.entityId c) id) (w_commitments w)).
(** They count 1, 2, 3, … and the counter holds the last one. *)
Definition versions_ok (w : W) : Prop :=
  forall id, versions_of id w = map (fun n => Z.of_nat (S n)) (seq 0 (length (versions_of id w))) /\
    default 0%Z (get id (w_versions w)) = Z.of_nat (length (versions_of id w)).
End Spec.

Section Frames.
Context `{PF : Platform} {C : Type} `{BlockchainService C} `{DeviceAttestationAdapter} `{IntegrityWiring}.
Abbreviation W := (World C).

Lemma keeps_resolveIdentity {T} (p : W -> T) id : keeps p (resolveIdentity id).
Proof. unfold resolveIdentity. rframe. Qed.
Lemma keeps_the_identity {T} (p : W -> T) id : keeps p (the_identity id).
Proof. unfold the_identity, requireIdentity. apply keeps_bind; [apply keeps_resolveIdentity|rframe]. Qed.
Lemma keeps_attestDevice {T} (p : W -> T) d m : keeps p (attestDevice d m).
Proof. unfold attestDevice. rframe. Qed.
Lemma keeps_requireAttestation {T} (p : W -> T) r : keeps p (requireAttestation r).
Proof. unfold requireAttestation. rframe. Qed.
Lemma keeps_requireActive {T} (p : W -> T) i : keeps p (requireActiveIdentity i).
Proof. unfold requireActiveIdentity. rframe. Qed.
Lemma keeps_binding {T} (p : W -> T) a k : keeps p (validateEvmWalletBinding a k).
Proof. unfold validateEvmWalletBinding. rframe. Qed.
Lemma keeps_active_device {T} (p : W -> T) i d : keeps p (active_device i d).
Proof. unfold active_device. rframe. Qed.
Lemma keeps_users_submit {T} (p : W -> T) ty a pl : ambient_free p -> chain_free p -> keeps p (submit ty a pl).
Proof. intros. unfold submit. rframe. Qed.
Hint Resolve keeps_resolveIdentity keeps_the_identity keeps_attestDevice keeps_requireAttestation keeps_requireActive
  keeps_binding keeps_active_device keeps_users_submit : bel.
Lemma keeps_ensureIdentity {T} (p : W -> T) a i x : ambient_free p -> chain_free p -> keeps p (ensureIdentityCreated a i x).
Proof. intros. unfold ensureIdentityCreated. rframe. Qed.
Lemma keeps_ensureRole {T} (p : W -> T) a i x : ambient_free p -> chain_free p -> keeps p (ensureRoleAssigned a i x).
Proof. intros. unfold ensureRoleAssigned. rframe. Qed.
Lemma keeps_ensureActive {T} (p : W -> T) a x d i : ambient_free p -> chain_free p -> keeps p (ensureWalletActive a x d i).
Proof. intros. unfold ensureWalletActive. rframe. Qed.
Lemma keeps_ensureRevoked {T} (p : W -> T) a x r : ambient_free p -> chain_free p -> keeps p (ensureWalletRevoked a x r).
Proof. intros. unfold ensureWalletRevoked. rframe. Qed.
Lemma keeps_grantIsExpired {T} (p : W -> T) g : ambient_free p -> keeps p (grantIsExpired g).
Proof. intros. unfold grantIsExpired. rframe. Qed.

Lemma never_throws_commit e id ev a st : never_throws (commit e id ev a st : M exn W unit).
Proof.
  unfold commit, commitState, adapter_commit. destruct integrity_wired; [|auto with bel].
  apply never_throws_bind; [auto with bel|intros]. apply never_throws_bind; [auto with bel|intros].
  apply never_throws_bind; [|auto with bel]. apply never_throws_bind; [auto with bel|intros]. apply never_throws_bind; auto with bel.
Qed.
End Frames.

#[export] Hint Resolve keeps_resolveIdentity keeps_the_identity keeps_attestDevice keeps_requireAttestation keeps_requireActive
  keeps_binding keeps_active_device keeps_users_submit keeps_ensureIdentity keeps_ensureRole keeps_ensureActive
  keeps_ensureRevoked keeps_grantIsExpired never_throws_commit : bel.

(** Checks first, writes last. *)
Ltac checks_then_writes :=
  repeat first
    [ apply fails_clean_guard; [solve [rframe]|intros ?]
    | apply fails_clean_never; solve [calm_tail]
    | apply fails_clean_keeps; solve [rframe]
    | match goal with
      | |- fails_clean _ (match ?o with _ => _ end) => destruct o
      end ].

Section Atomicity.
Context `{PF : Platform} {C : Type} `{BlockchainService C} `{DeviceAttestationAdapter} `{IntegrityWiring}.
Abbreviation W := (World C).

Lemma fails_clean_ret {A} (m : M exn W A) : fails_clean stored m -> fails_clean stored (m;; mret tt).
Proof.
  intros Hm w e w' [E|(a & w1 & E & [=])]%bind_inl. by eapply Hm.
Qed.

Lemma consume_clean {A} id t e (k : M exn W A) :
  never_throws k -> fails_clean stored (b ← consumeIfUnused id t; throw_if (negb b) e;; k).
Proof.
  intros Hk w e' w' [E|(b & w1 & E & Hrun)]%bind_inl.
  { unfold consumeIfUnused in E. destruct (get id (w_challenges w)); [destruct (truthy_string _)|]; done. }
  destruct b; cbn [negb] in Hrun.
  { destruct (Hk w1) as (? & ? & Hok). rewrite guard_pass in Hrun. congruence. }
  rewrite guard_fail in Hrun. injection Hrun as _ <-.
  unfold consumeIfUnused in E. destruct (get id (w_challenges w)); [destruct (truthy_string _)|]; congruence.
Qed.

Lemma initialize_clean i : fails_clean stored (initializeAccount i : M exn W _).
Proof.
  unfold initializeAccount.
  repeat (apply fails_clean_guard; [solve [rframe]|intros ?]). apply consume_clean. calm_tail.
Qed.

Lemma users_fails_clean c : writes_early c = false -> fails_clean stored (run_users c : M exn W unit).
Proof.
  destruct c; intros He; try discriminate; apply fails_clean_ret; try apply initialize_clean;
    unfold requestProvisioningChallenge, verifyRegistration, activateRegistration, registerDevice, revokeDevice,
      registerWallet, revokeWallet, revokeWalletObject, assignRole, createGrant, revokeGrant, validateGrant; checks_then_writes.
Qed.
End Atomicity.

(** ** Commitment versions *)

Section Versions.
Context `{PF : Platform} {C : Type} `{BlockchainService C} `{DeviceAttestationAdapter} `{IntegrityWiring}.
Abbreviation W := (World C).

Definition stable {A} (m : M exn W A) : Prop := preserves versions_ok m.
Definition integrity_state (w : W) := (w_commitments w, w_versions w).

Lemma stable_keeps {A} (m : M exn W A) : keeps integrity_state m -> stable m.
Proof.
  apply preserves_keeps. intros w w' [= Hc Hv] Hok id. specialize (Hok id). unfold versions_of in *. by rewrite Hc, Hv.
Qed.
Lemma stable_bind {A B} (m : M exn W A) (k : A -> M exn W B) : stable m -> (forall a, stable (k a)) -> stable (m ≫= k).
Proof. apply preserves_bind. Qed.
Lemma stable_for_each {A} (l : list A) (f : A -> M exn W unit) : (forall x, stable (f x)) -> stable (for_each l f).
Proof. apply preserves_for_each. Qed.

Lemma stable_commit e id ev a st : stable (commit e id ev a st : M exn W unit).
Proof.
  intros w r w' Hok E. unfold commit in E. destruct integrity_wired; [|by injection E as _ <-].
  unfold commitState, adapter_commit in E. injection E as _ <-. intros k. specialize (Hok k). unfold versions_of in *. simpl.
  rewrite List.filter_app, map_app, length_app. simpl. rewrite get_put, (String.eqb_sym id k).
  destruct (String.eqb_spec k id) as [->|Hne]; simpl; [|by rewrite app_nil_r, Nat.add_0_r].
  destruct Hok as [Hl Hv]. rewrite Hv, Nat.add_1_r, seq_S, map_app. simpl. split; [|lia].
  rewrite <- Hl. f_equal. f_equal. lia.
Qed.
End Versions.

#[export] Hint Resolve stable_commit : bel.
Ltac stabilise :=
  repeat first
    [ progress intros
    | lazymatch goal with
      | |- stable (commit _ _ _ _ _) => apply stable_commit
      | |- stable (mbind _ _) => apply stable_bind
      | |- stable (for_each _ _) => apply stable_for_each
      | |- stable (consumeIfUnused _ _) => apply stable_keeps, keeps_consumeIfUnused; reflexivity
      | |- stable (if ?b then _ else _) => destruct b
      | |- stable (match ?o with _ => _ end) => destruct o
      end
    | apply stable_keeps; solve [rframe] ].

Section VersionTheorem.
Context `{PF : Platform} {C : Type} `{BlockchainService C} `{DeviceAttestationAdapter} `{IntegrityWiring}.
Abbreviation W := (World C).

Lemma users_call_stable c : stable (run_users c : M exn W unit).
Proof.
  destruct c; (apply stable_bind; [|intros; by apply stable_keeps]);
    unfold createUser, requestProvisioningChallenge, initializeAccount, verifyRegistration, activateRegistration,
      registerDevice, revokeDevice, registerWallet, revokeWallet, activateWallet, revokeWalletObject, assignRole,
      createGrant, revokeGrant, validateGrant; stabilise.
Qed.
End VersionTheorem.

(** ** Revoking a device *)

Section Revocation.
Context `{PF : Platform} {C : Type} `{BlockchainService C} `{DeviceAttestationAdapter} `{IntegrityWiring}.
Abbreviation W := (World C).

Definition devices_keyed (w : W) : Prop := forall k d, get k (w_devices w) = Some d -> Device.deviceId d = k.
Definition wallets_keyed (w : W) : Prop := forall k x, get k (w_wallets w) = Some x -> Wallet.address x = k.

Lemma keeps_commit {T} (p : W -> T) e id ev a st :
  ambient_free p -> (forall f w, p (upd_versions f w) = p w) -> (forall f w, p (upd_commitments f w) = p w) ->
  keeps p (commit e id ev a st).
Proof.
  intros Hp Hv Hc. unfold commit, commitState, adapter_commit. destruct integrity_wired; [|auto with bel].
  apply keeps_bind; [auto with bel|intros]. apply keeps_bind; [by apply keeps_modify|intros].
  apply keeps_bind; [|auto with bel]. apply keeps_bind; [auto with bel|intros]. apply keeps_bind; [by apply keeps_modify|auto with bel].
Qed.
Hint Extern 2 (keeps _ (commit _ _ _ _ _)) => apply keeps_commit; [solve_free|reflexivity|reflexivity] : bel.

Lemma revokeDevice_success id actorId (w w' : W) d' :
  revokeDevice id actorId w = (inr d', w') -> devices_keyed w ->
  exists d, get id (w_devices w') = Some d /\ Device.status d = REVOKED.
Proof.
  unfold revokeDevice. intros Hrun Hk.
  apply bind_inr in Hrun as (f & w1 & [<- <-]%gets_inr & Hrun). apply bind_inr in Hrun as (d & w1 & [Hd <-]%require_inr & Hrun).
  apply bind_inr in Hrun as (actor & w1 & E1 & Hrun). kept (@w_devices C) E1.
  apply bind_inr in Hrun as (ws & w2 & [_ <-]%gets_inr & Hrun).
  apply bind_inr in Hrun as (u & w2 & E2 & Hrun). kept (@w_devices C) E2.
  apply bind_inr in Hrun as (now & w3 & E3 & Hrun). kept (@w_devices C) E3.
  apply bind_inr in Hrun as (u1 & w4 & E4 & Hrun).
  assert (Hw4 : exists d, get id (w_devices w4) = Some d /\ Device.status d = REVOKED).
  { case_bool_decide as Hst.
    - injection E4 as _ <-. exists d. split; [congruence|done].
    - injection E4 as _ <-. simpl. rewrite (Hk _ _ Hd), get_put_eq. by eexists. }
  apply bind_inr in Hrun as (u2 & w5 & E5 & Hrun). kept (@w_devices C) E5.
  apply bind_inr in Hrun as (u3 & w6 & E6 & Hrun). kept (@w_devices C) E6.
  apply bind_inr in Hrun as (u4 & w7 & E7 & [_ <-]%mret_inr). kept (@w_devices C) E7.
  by rewrite K4, K3, K2.
Qed.

(** Revocation takes effect at once: after [revokeDevice] has returned,
    every session that was opened on the device is refused. *)
Theorem revoked_device_sessions_die id actorId (w w' : W) d token s :
  devices_keyed w -> revokeDevice id actorId w = (inr d, w') ->
  get token (w_sessions w') = Some s -> SessionRecord.deviceId s = id ->
  exists w'', validateSession token w' = (inr None, w'').
Proof.
  intros Hk Hrun Hs Hid. destruct (revokeDevice_success _ _ _ _ _ Hrun Hk) as (d' & Hd & Hst).
  destruct (never_throws_validateSession token w') as ([u|] & w'' & E); [|by exists w''].
  apply validateSession_inr in E as (s' & Hs' & _ & (i & d1 & x & role & _ & _ & _ & _ & Hd1 & Ha & _) & _).
  rewrite Hs in Hs'. injection Hs' as <-. rewrite Hid, Hd in Hd1. congruence.
Qed.

(** The wallets the replacement loop still has to look at. *)
Definition others_pending (id target : string) (rest : list Wallet.t) (w : W) : Prop :=
  wallets_keyed w /\ forall k x, get k (w_wallets w) = Some x -> Wallet.identityId x = id ->
    Wallet.status x = ACTIVE -> k <> target -> In x rest.

Lemma replace_loop id target actor rest (w w' : W) u :
  others_pending id target rest w ->
  for_each rest (fun current =>
    if wallet_active current && negb (String.eqb (Wallet.address current) target) then
      submit WALLET_REVOKE actor [("address", VStr (Wallet.address current)); ("reason", VStr "Replaced by wallet activation")];;
      current' ← revokeWalletObject current "Replaced by wallet activation";
      commit E_WALLET (Wallet.address current) "WALLET_REVOKE" (Identity.identityId actor)
        (wallet_state current' ++ [("reason", VStr "Replaced by wallet activation")])
    else mret tt) w = (inr u, w') ->
  others_pending id target [] w'.
Proof.
  revert w. induction rest as [|c rest IH]; intros w [Hk Hp] Hrun; simpl in Hrun.
  { by apply mret_inr in Hrun as [_ <-]. }
  apply bind_inr in Hrun as (u1 & w1 & E & Hrun). apply (IH w1); [|exact Hrun]. clear IH Hrun.
  destruct (wallet_active c && negb (String.eqb (Wallet.address c) target)) eqn:Ec.
  - apply bind_inr in E as (u2 & w2 & E2 & E). kept (@w_wallets C) E2.
    apply bind_inr in E as (c' & w3 & E3 & E). kept (@w_wallets C) E.
    unfold revokeWalletObject in E3. rinv. rewrite K in K0. split.
    + intros k x. rewrite K0, get_put. destruct (String.eqb_spec k (Wallet.address c)) as [->|]; [by intros [= <-]|apply Hk].
    + intros k x. rewrite K0, get_put. destruct (String.eqb_spec k (Wallet.address c)) as [->|Hne]; [by intros [= <-]|].
      intros Hx Hi Ha Ht. destruct (Hp _ _ Hx Hi Ha Ht) as [<-|]; [|done]. by apply Hk in Hx.
  - apply mret_inr in E as [_ <-]. split; [done|]. intros k x Hx Hi Ha Ht.
    destruct (Hp _ _ Hx Hi Ha Ht) as [<-|]; [|done]. apply Hk in Hx as Hkx. unfold wallet_active in Ec.
    rewrite bool_decide_eq_true_2 in Ec by done. simpl in Ec. apply negb_false_iff, String.eqb_eq in Ec. congruence.
Qed.

(** Replacing a wallet leaves exactly one: when [activateWallet] returns,
    the stored wallet of the requested address is active and no other wallet
    of that identity is. *)
Theorem activateWallet_single_active userId deviceId address actorId (w w' : W) x :
  wallets_keyed w -> activateWallet userId deviceId address actorId w = (inr x, w') ->
  Wallet.status x = ACTIVE /\ Wallet.address x = trim address /\ Wallet.deviceId x = deviceId /\
  get (Wallet.address x) (w_wallets w') = Some x /\
  forall k y, get k (w_wallets w') = Some y -> Wallet.identityId y = Wallet.identityId x -> Wallet.status y = ACTIVE -> y = x.
Proof.
  intros Hk Hrun. unfold activateWallet in Hrun.
  apply bind_inr in Hrun as (u & w1 & [_ <-]%throw_if_inr & Hrun).
  apply bind_inr in Hrun as (i & w1 & E1 & Hrun). kept (@w_wallets C) E1. clear E1.
  apply bind_inr in Hrun as (u1 & w2 & E2 & Hrun). kept (@w_wallets C) E2. clear E2.
  apply bind_inr in Hrun as (dev & w3 & E3 & Hrun). kept (@w_wallets C) E3. clear E3.
  apply bind_inr in Hrun as (ex & w4 & [Hex <-]%gets_inr & Hrun).
  apply bind_inr in Hrun as (u2 & w4 & [Hown <-]%throw_if_inr & Hrun).
  apply bind_inr in Hrun as (wal & w4 & [-> <-]%require_inr & Hrun).
  apply bind_inr in Hrun as (u3 & w4 & [_ <-]%throw_if_inr & Hrun).
  apply bind_inr in Hrun as (u4 & w4 & [_ <-]%throw_if_inr & Hrun).
  apply bind_inr in Hrun as (u5 & w4 & E4 & Hrun). kept (@w_wallets C) E4. clear E4.
  apply bind_inr in Hrun as (actor & w5 & E5 & Hrun). kept (@w_wallets C) E5. clear E5.
  apply bind_inr in Hrun as (all & w6 & [Hall <-]%gets_inr & Hrun).
  rewrite K1, K0, K in Hex. rewrite K1, K0, K in K2. rewrite K2 in K3.
  apply negb_false_iff, String.eqb_eq in Hown.
  apply bind_inr in Hrun as (u6 & w6 & E6 & Hrun).
  apply (replace_loop (Identity.identityId i) (Wallet.address wal)) in E6.
  2: { split; [intros k y; rewrite K3; apply Hk|]. intros k y Hy Hi Ha _. rewrite <- Hall. apply filter_In.
       split; [by eapply get_values|]. by apply String.eqb_eq. }
  destruct E6 as [Hk6 Hnone].
  apply bind_inr in Hrun as (u7 & w7 & E7 & Hrun). kept (@w_wallets C) E7. clear E7.
  apply bind_inr in Hrun as (u8 & w8 & E8 & Hrun). kept (@w_wallets C) E8. clear E8.
  apply bind_inr in Hrun as (now & w9 & E9 & Hrun). kept (@w_wallets C) E9. clear E9.
  apply bind_inr in Hrun as (u9 & w10 & E10 & Hrun). apply modify_inr in E10 as <-.
  apply bind_inr in Hrun as (usr & w11 & [_ <-]%gets_inr & Hrun).
  apply bind_inr in Hrun as (u10 & w11 & E11 & Hrun). kept (@w_wallets C) E11. clear E11.
  apply bind_inr in Hrun as (u11 & w12 & E12 & [<- <-]%mret_inr). kept (@w_wallets C) E12. clear E12.
  simpl in K7. rewrite K6, K5, K4 in K7. rewrite K7 in K8. simpl. rewrite K8, get_put_eq.
  repeat split; [by apply Hk in Hex|]. intros k y. rewrite get_put.
  destruct (String.eqb_spec k (Wallet.address wal)) as [->|Hne]; [by intros [= <-]|].
  intros Hy Hi Ha. exfalso. eapply Hnone; [exact Hy|congruence|done|done].
Qed.
End Revocation.

#[export] Hint Extern 2 (keeps _ (commit _ _ _ _ _)) => apply keeps_commit; [solve_free|reflexivity|reflexivity] : bel.

(** ** Grants *)

Section Grants.
Context `{PF : Platform} {C : Type} `{BlockchainService C} `{DeviceAttestationAdapter} `{IntegrityWiring}.
Abbreviation W := (World C).

(** A grant is in force at instant [t]. *)
Definition grant_valid (g : AuthorizationGrant.t) (actorId resourceId : string) (action : Action) (t : Z) : Prop :=
  AuthorizationGrant.status g = Grant_ACTIVE /\ AuthorizationGrant.actorIdentityId g = actorId /\
  AuthorizationGrant.resourceId g = resourceId /\ AuthorizationGrant.action g = action /\
  forall e t', AuthorizationGrant.expiresAt g = Some e -> e <> "" -> Date_parse e = Some t' -> (t < t')%Z.

Lemma grantMatches_iff g a r x :
  grantMatches g a r x = true <-> AuthorizationGrant.actorIdentityId g = a /\ AuthorizationGrant.resourceId g = r /\ AuthorizationGrant.action g = x.
Proof. unfold grantMatches. rewrite !andb_true_iff, !String.eqb_eq, bool_decide_eq_true. tauto. Qed.

Lemma grantIsExpired_run g (w : W) :
  exists w', grantIsExpired g w =
    (inr (match AuthorizationGrant.expiresAt g with
          | Some e => negb (bool_decide (e = "")) && expired e (Date_now (w_clockReads w))
          | None => false
          end), w') /\ stored w' = stored w.
Proof.
  unfold grantIsExpired. destruct (AuthorizationGrant.expiresAt g) as [e|]; [|by eexists].
  case_bool_decide; by eexists.
Qed.

(** [validateGrant] is exact: it answers true precisely for a stored,
    active grant of that actor, resource and action that has not passed its
    expiry; a grant it finds expired is stored as EXPIRED, and otherwise
    nothing is written. *)
Theorem validateGrant_exact gid a r x (w : W) g :
  get gid (w_grants w) = Some g -> AuthorizationGrant.authorizationGrantId g = gid ->
  exists b w', validateGrant gid a r x w = (inr b, w') /\
    (b = true <-> grant_valid g a r x (Date_now (w_clockReads w))) /\
    (b = true \/ AuthorizationGrant.status g <> Grant_ACTIVE \/ grantMatches g a r x = false -> stored w' = stored w) /\
    (b = false -> AuthorizationGrant.status g = Grant_ACTIVE -> grantMatches g a r x = true ->
       get gid (w_grants w') = Some (AuthorizationGrant.with_status Grant_EXPIRED g)).
Proof.
  intros Hg Hid. unfold validateGrant. unfold mbind at 1, M_bind at 1, grants_findById, gets. rewrite Hg.
  destruct (grantMatches g a r x) eqn:Em; simpl.
  2: { exists false, w. split; [done|]. split; [|done]. split; [done|].
       intros (_ & ? & ? & ? & _). assert (grantMatches g a r x = true) by (by apply grantMatches_iff). congruence. }
  apply grantMatches_iff in Em as (Ha & Hr & Hx).
  case_bool_decide as Hst; simpl.
  2: { exists false, w. split; [done|]. split; [|done]. split; [done|]. by intros [? _]. }
  destruct (grantIsExpired_run g w) as (w1 & Hrun & Hw1). rewrite (bind_run _ _ _ _ _ Hrun).
  assert (Hv : (match AuthorizationGrant.expiresAt g with
    | Some e => negb (bool_decide (e = "")) && expired e (Date_now (w_clockReads w)) | None => false end) = false <->
    grant_valid g a r x (Date_now (w_clockReads w))).
  { unfold grant_valid, expired. destruct (AuthorizationGrant.expiresAt g) as [e|]; [|split; [intros _; repeat split; done|done]].
    case_bool_decide as He; simpl.
    - split; [intros _; repeat split; try done; by intros ? ? [= ->]|done].
    - destruct (Date_parse e) as [t|] eqn:Et.
      + rewrite Z.leb_gt. split; [intros ?; repeat split; try done; intros ? ? [= <-] _; congruence|].
        intros (_ & _ & _ & _ & Hlt). by eapply Hlt.
      + split; [intros _; repeat split; try done; intros ? ? [= <-] _; congruence|done]. }
  destruct (match AuthorizationGrant.expiresAt g with Some _ => _ | None => false end) eqn:Ee.
  - eexists false, _. split; [done|]. split; [split; [done|]|].
    { intros Hgv. apply Hv in Hgv. congruence. }
    split; [intros [?|[?|Hm]]; [done|done|]|intros _ _ _; simpl; by rewrite Hid, get_put_eq].
    assert (grantMatches g a r x = true) by (by apply grantMatches_iff). congruence.
  - exists true, w1. split; [done|]. split; [split; [intros _; by apply Hv|done]|]. done.
Qed.
End Grants.

(** ** Claims over whole calls *)

Section Calls.
Context `{PF : Platform} {C : Type} `{BlockchainService C} `{DeviceAttestationAdapter} `{IntegrityWiring}.
Abbreviation W := (World C).

(** C24: Every call of the identity service other than [createUser] and
    [activateWallet] is atomic towards the stores: when it throws, whatever
    the reason (a failed check, a rejected or failing chain call), no
    repository, session, challenge or commitment has changed. *)
Theorem users_calls_atomic c (w w' : W) e :
  writes_early c = false -> run_users c w = (inl e, w') -> stored w' = stored w.
Proof. intros Hc. by apply users_fails_clean. Qed.

(** One call, successful or not. *)
Definition users_step (w w' : W) : Prop := exists c r, run_users c w = (r, w').

Lemma users_steps_stable (w w' : W) : rtc users_step w w' -> versions_ok w -> versions_ok w'.
Proof.
  induction 1 as [|w w1 w2 (c & r & E) _ IH]; [done|]. intros Hok. apply IH. by eapply users_call_stable.
Qed.

(** Commitments are numbered without gaps: after any sequence of
    identity-service calls from a state without commitments, the versions
    committed for an entity are exactly 1, 2, ..., n in the order they were
    recorded, failed calls included. *)
Theorem commitment_versions_dense (w w' : W) id :
  rtc users_step w w' -> w_commitments w = [] -> w_versions w = [] ->
  versions_of id w' = map (fun n => Z.of_nat (S n)) (seq 0 (length (versions_of id w'))).
Proof.
  intros Hsteps Hc Hv. apply (users_steps_stable _ _ Hsteps).
  intros k. unfold versions_of. by rewrite Hc, Hv.
Qed.

(** ** Private keys in metadata *)

(** [k] is the name of a field of [v], at some depth. *)
Inductive mentions (k : string) : value -> Prop :=
| mentions_here v fields : In (k, v) fields -> mentions k (VObj fields)
| mentions_field k' v fields : In (k', v) fields -> mentions k v -> mentions k (VObj fields)
| mentions_item v l : In v l -> mentions k v -> mentions k (VArr l).

Lemma containsSensitiveKey_complete k v : mentions k v -> sensitiveKey k = true -> containsSensitiveKey v = true.
Proof.
  intros Hm Hs. induction Hm as [v fields Hin|k' v fields Hin _ IH|v l Hin _ IH]; simpl; apply existsb_exists.
  - exists (k, v). simpl. by rewrite Hs.
  - exists (k', v). simpl. by rewrite IH, orb_true_r.
  - by exists v.
Qed.

(** Members of a value are smaller than the value. *)
Fixpoint containsSensitiveKey_sound v : containsSensitiveKey v = true -> exists k, mentions k v /\ sensitiveKey k = true.
Proof.
  destruct v as [| | | | | |l|fields]; simpl; try discriminate.
  - induction l as [|x l IH]; simpl; [discriminate|]. intros [Hx|Hl]%orb_true_iff.
    + destruct (containsSensitiveKey_sound x Hx) as (k & Hm & Hs). exists k. split; [|done]. eapply mentions_item; [by left|done].
    + destruct (IH Hl) as (k & Hm & Hs). exists k. split; [|done]. inversion Hm; subst. eapply mentions_item; [by right|done].
  - induction fields as [|[k' x] fields IH]; simpl; [discriminate|]. intros [[Hk|Hx]%orb_true_iff|Hl]%orb_true_iff.
    + exists k'. split; [|done]. eapply mentions_here. by left.
    + destruct (containsSensitiveKey_sound x Hx) as (k & Hm & Hs). exists k. split; [|done]. eapply mentions_field; [by left|done].
    + destruct (IH Hl) as (k & Hm & Hs). exists k. split; [|done].
      inversion Hm; subst; [eapply mentions_here; by right|eapply mentions_field; [by right|done]].
Defined.

(** Device metadata is refused exactly for private-key material: the
    check passes iff no field name, at any depth of nested objects and
    arrays, is a sensitive one; when it fails the attestation adapter is not
    consulted and nothing changes. *)
Theorem metadata_check_exact deviceId metadata (w : W) :
  attestDevice deviceId metadata w =
    (if containsSensitiveKey metadata then inl (ValidationError ["private-key material is not accepted"])
     else inr (attest deviceId metadata), w) /\
  (containsSensitiveKey metadata = true <-> exists k, mentions k metadata /\ sensitiveKey k = true).
Proof.
  split; [unfold attestDevice; by destruct (containsSensitiveKey metadata)|].
  split; [apply containsSensitiveKey_sound|]. intros (k & Hm & Hs). by eapply containsSensitiveKey_complete.
Qed.

(** ** An account whose chain transaction was rejected *)

Definition employee_taken (employeeId : string) (w : W) : Prop :=
  exists i, In i (values (w_identities w)) /\ Identity.employeeId i = Some employeeId.

Lemma createUser_taken input actorId (w : W) :
  CreateIdentityInput.employeeId input <> "" -> is_Some (CreateIdentityInput.role input) ->
  employee_taken (CreateIdentityInput.employeeId input) w ->
  createUser input actorId w = (inl (ConflictError ("Employee " +:+ CreateIdentityInput.employeeId input +:+ " already exists")), w).
Proof.
  intros He [role Hr] (i & Hin & Hi). unfold createUser. rewrite Hr, bool_decide_eq_false_2 by done.
  rewrite bind_ret. unfold identities_findByEmployeeId. unfold mbind at 1, M_bind at 1, gets.
  destruct (proj1 (find_Some_iff_exists (fun i => bool_decide (Identity.employeeId i = Some (CreateIdentityInput.employeeId input))) _)
    (ex_intro _ i (conj Hin (bool_decide_eq_true_2 _ Hi)))) as [j ->]. done.
Qed.

Lemma saved_taken i (w w1 : W) : w_identities w1 = put (Identity.identityId i) i (w_identities w) ->
  forall e, Identity.employeeId i = Some e -> employee_taken e w1.
Proof. intros Hp e He. exists i. split; [|done]. rewrite Hp. apply (get_values (Identity.identityId i)), get_put_eq. Qed.

(** An account the chain refused cannot be created again: off the EVM
    chain the rows are written before the transaction is sent, so when
    [createUser] fails because of the chain, the employee number is taken
    and every retry is refused as a conflict. *)
Theorem createUser_not_retriable input actorId actorId' (w w' : W) kind message :
  evmCryptoEnabled = false -> createUser input actorId w = (inl (BlockchainError kind message), w') ->
  employee_taken (CreateIdentityInput.employeeId input) w' /\
  createUser input actorId' w' =
    (inl (ConflictError ("Employee " +:+ CreateIdentityInput.employeeId input +:+ " already exists")), w').
Proof.
  intros Hevm Hrun. unfold createUser in Hrun. rewrite Hevm in Hrun.
  destruct (CreateIdentityInput.role input) as [role|] eqn:Er; [|done].
  destruct (bool_decide (CreateIdentityInput.employeeId input = "")) eqn:Ee; [done|].
  apply bool_decide_eq_false in Ee.
  enough (Ht : employee_taken (CreateIdentityInput.employeeId input) w').
  { split; [done|]. apply createUser_taken; [done|by rewrite Er|done]. }
  rewrite bind_ret in Hrun. apply bind_inl in Hrun as [[=]|(f & w1 & [_ <-]%gets_inr & Hrun)].
  apply bind_inl in Hrun as [(_ & [=] & _)%throw_if_inl|(u & w1 & [_ <-]%throw_if_inr & Hrun)].
  apply bind_inl in Hrun as [E|(u1 & w1 & _ & Hrun)].
  { destruct (truthy_string _); [|done]. apply bind_inl in E as [[=]|(g & w1 & _ & (_ & [=] & _)%throw_if_inl)]. }
  apply bind_inl in Hrun as [E|(id & w2 & _ & Hrun)]; [by destruct (CreateIdentityInput.identityId input)|].
  apply bind_inl in Hrun as [E|(at' & w3 & _ & Hrun)]; [by destruct (CreateIdentityInput.createdAt input)|].
  rewrite bind_ret, guard_pass, bind_ret in Hrun.
  apply bind_inl in Hrun as [[=]|(u2 & w4 & <-%modify_inr & Hrun)].
  match type of Hrun with ?m ?w = _ => assert (Hk : keeps (@w_identities C) m) by (apply keeps_bind; [rframe|intros; rframe]) end.
  pose proof (keeps_run _ _ _ _ _ Hk Hrun) as Hi. cbn [w_identities upd_identities] in Hi.
  eapply saved_taken; [exact Hi|reflexivity].
Qed.
End Calls.

(** ** Concrete runs *)

#[local] Existing Instance dev.
#[local] Instance demo_attestation : DeviceAttestationAdapter := MockDeviceAttestationAdapter ["D"].
#[local] Instance demo_integrity : IntegrityWiring := true.

Lemma revoked_device_sessions_die_witness :
  get demo_token (w_sessions (snd (revokeDevice "D" None logged_in_world))) <> None /\
  exists w, validateSession demo_token (snd (revokeDevice "D" None logged_in_world)) = (inr None, w).
Proof.
  split; [vm_compute; discriminate|].
  destruct (revokeDevice "D" None logged_in_world) as [[e|d] w'] eqn:E; [by vm_compute in E|].
  destruct (get demo_token (w_sessions w')) as [s|] eqn:Es.
  2: { vm_compute in E. injection E as <- <-. by vm_compute in Es. }
  refine (revoked_device_sessions_die "D" None logged_in_world w' d demo_token s _ E Es _).
  - intros k x Hg. refine (get_Forall (fun kv => Device.deviceId (snd kv) = fst kv) _ _ k x Hg). vm_compute. repeat constructor.
  - vm_compute in E. injection E as <- <-. vm_compute in Es. by injection Es as <-.
Defined.

(** A second wallet on the same device waits to replace the first. *)
Definition replacing_world : World MockChain :=
  upd_wallets (put "0xv" (Wallet.mk "0xv" "ID" "D" PENDING None None None (Some "key"))) auth_world.

Lemma activateWallet_single_active_witness :
  let w' := snd (activateWallet "E1" "D" "0xv" None replacing_world) in
  exists x, Wallet.address x = "0xv" /\ get "0xv" (w_wallets w') = Some x /\ Wallet.status x = ACTIVE.
Proof.
  destruct (activateWallet "E1" "D" "0xv" None replacing_world) as [[e|x] w'] eqn:E; [by vm_compute in E|].
  destruct (activateWallet_single_active "E1" "D" "0xv" None replacing_world w' x) as (Hs & Ha & _ & Hg & _); [|exact E|].
  - intros k y Hg. refine (get_Forall (fun kv => Wallet.address (snd kv) = fst kv) _ _ k y Hg). vm_compute. repeat constructor.
  - exists x. rewrite Ha in Hg. split; [exact Ha|]. split; [exact Hg|exact Hs].
Defined.

Definition demo_grant : AuthorizationGrant.t :=
  AuthorizationGrant.mk "G" "ID" ASSET "A" TRANSFER_ASSET "ADM" "t" (Some (toISOString 5000)) Grant_ACTIVE.

Lemma validateGrant_exact_witness :
  exists w', validateGrant "G" "ID" "A" TRANSFER_ASSET (upd_grants (put "G" demo_grant) auth_world) = (inr true, w').
Proof.
  destruct (validateGrant_exact "G" "ID" "A" TRANSFER_ASSET (upd_grants (put "G" demo_grant) auth_world) demo_grant eq_refl eq_refl)
    as (b & w' & E & Hiff & _). exists w'. rewrite E. f_equal. f_equal. apply Hiff. repeat split.
  intros e t' [= <-] _ Hp. vm_compute in Hp. injection Hp as <-. vm_compute. reflexivity.
Defined.

Lemma users_calls_atomic_witness :
  let w' := snd (run_users (Users_activate "ID" "ID") auth_world) in stored w' = stored auth_world.
Proof.
  destruct (run_users (Users_activate "ID" "ID") auth_world) as [[e|u] w'] eqn:E; [|by vm_compute in E].
  exact (users_calls_atomic (Users_activate "ID" "ID") auth_world w' e eq_refl E).
Defined.

Lemma commitment_versions_dense_witness :
  let w1 := snd (run_users (Users_registerDevice "ID" "D2" None None) auth_world) in
  let w2 := snd (run_users (Users_revokeDevice "D2" None) w1) in
  versions_of "D2" w2 = [1%Z; 2%Z].
Proof.
  intros w1 w2. rewrite (commitment_versions_dense auth_world w2 "D2"); [vm_compute; reflexivity| |reflexivity|reflexivity].
  apply (rtc_l _ _ w1); [|apply (rtc_l _ _ w2); [|apply rtc_refl]].
  - exists (Users_registerDevice "ID" "D2" None None), (fst (run_users (Users_registerDevice "ID" "D2" None None) auth_world)).
    apply surjective_pairing.
  - exists (Users_revokeDevice "D2" None), (fst (run_users (Users_revokeDevice "D2" None) w1)). apply surjective_pairing.
Defined.

(** A chain that reverts every transaction. *)
#[local] Instance RevertingChain : BlockchainService unit := {|
  submitTransaction tx := mret (TxResult.mk (Transaction.txId tx) TX_REJECTED None None None None None);
  submitTransactionDetailed := None;
  prepareTransaction := None;
  chain_getIdentity _ := mret None;
  chain_getWallet _ := mret None;
  chain_getAsset _ := mret None;
  chain_getStatus := mret (BlockchainStatus.mk 0 true 0 0);
  chain_getValidators := mret [];
  chain_getCommittee _ := mret [];
  getAuditTrail := None;
|}.

Lemma createUser_not_retriable_witness :
  let input := CreateIdentityInput.mk "E9" (Some ENGINEER) None None None None None in
  let w0 : World unit := mkWorld [] [] [] [] [] [] [] [] [] [] [] [] [] [] [] [] [] [] tt 0 0 0 in
  let w1 := snd (createUser input None w0) in
  fst (createUser input None w1) = inl (ConflictError "Employee E9 already exists").
Proof.
  intros input w0. destruct (createUser input None w0) as [[e|u] w1] eqn:E; [|by vm_compute in E].
  assert (He : e = BlockchainError REVERTED "Blockchain rejected IDENTITY_CREATE") by (vm_compute in E; by injection E as <- _).
  rewrite He in E. assert (Hevm : evmCryptoEnabled = false) by (vm_compute; reflexivity).
  cbv zeta. cbn [snd]. by rewrite (proj2 (createUser_not_retriable input None None w0 w1 _ _ Hevm E)).
Defined.

Lemma canonical_hash_order_independent_witness :
  canonicalStateHash [("b", VNull); ("a", VBool true)] = canonicalStateHash [("a", VBool true); ("b", VNull)].
Proof.
  apply canonical_hash_order_independent.
  - repeat constructor; simpl; [intros [[=]|[]]|intros []].
  - apply perm_swap.
Defined.
