(* ===== verification/Assets.v ===== *)
(** * Assets: the asset service of [backend/src/assets/assets.service.ts]

    The chain is authoritative; the service's map ([w_assetCache]) and the
    repository are metadata caches.  [assertNoCycle] walks the hierarchy
    through [getById] with a visited set; the model gives the loop fuel. *)
From S2P Require Import Prelude Effects JsString JsMap JsValue Shared Errors World Repositories.
Local Open Scope string_scope.
Local Open Scope list_scope.

(** [Partial<Asset>] as the create request carries it. *)
Module PartialAsset.
Record t := mk {
  assetId : option string; assetType : option string; ownerId : option string;
  custodianId : option string; parentAssetId : option string }.
End PartialAsset.

(** [AssetMutation] *)
Inductive AssetMutation := A_TRANSFER | A_STATE_CHANGE | A_ATTACH | A_REMOVE.
#[export] Instance AssetMutation_eq_dec : EqDecision AssetMutation.
Proof. solve_decision. Defined.
Definition asset_mutation_type (m : AssetMutation) : TransactionType :=
  match m with
  | A_TRANSFER => ASSET_TRANSFER | A_STATE_CHANGE => ASSET_STATE_CHANGE
  | A_ATTACH => COMPONENT_ATTACH | A_REMOVE => COMPONENT_REMOVE
  end.

(** The table inside [assertStateTransition]. *)
Definition allowed_states (s : AssetStatus) : list AssetStatus :=
  match s with
  | Asset_ACTIVE => [IN_MAINTENANCE; DECOMMISSIONED]
  | IN_MAINTENANCE => [Asset_ACTIVE; DECOMMISSIONED]
  | DECOMMISSIONED => []
  end.

(** [a || b || ""] *)
Definition first_nonempty (a b : string) : string := if bool_decide (a = "") then b else a.

Definition mergeAsset (onChain : OnChainAsset.t) (cached : option Asset.t) : Asset.t :=
  let a := OnChainAsset.asset onChain in
  Asset.mk (first_nonempty (Asset.assetId a) (default "" (Asset.assetId <$> cached)))
    (Asset.nftId a)
    (first_nonempty (Asset.assetType a) (default "" (Asset.assetType <$> cached)))
    (Asset.ownerId a) (Asset.custodianId a)
    (if OnChainAsset.parent_undefined onChain then cached ≫= Asset.parentAssetId else Asset.parentAssetId a)
    (Asset.status a).

Definition states_message : string :=
  "newState must be one of " +:+ join_strings ", " (map AssetStatus_string ASSET_STATUSES).
Definition transfer_custody_message : string :=
  "newCustodianId must equal newOwnerId because the frozen transferAsset interface moves custody with ownership".
Definition mint_custody_message : string :=
  "custodianId must equal ownerId because the frozen mintAsset interface mints custody to the owner".

Section AssetsService.
Context `{Platform} {C : Type} `{BlockchainService C} `{Wiring}.
Abbreviation W := (World C).
Abbreviation MW := (M exn (World C)).

Definition cache_set (id : string) (a : Asset.t) : MW unit := modify (upd_assetCache (put id a)).
Definition cache_get (id : string) : MW (option Asset.t) := gets (fun w => get id (w_assetCache w)).

Definition getById (id : string) : MW (option Asset.t) :=
  inCache ← cache_get id;
  cached ← (match inCache with Some a => mret (Some a) | None => assets_findById id end);
  onChain ← on_chain (chain_getAsset id);
  match onChain with
  | Some a =>
      let reconciled := mergeAsset a cached in
      cache_set id reconciled;;
      mret (Some reconciled)
  | None => mret cached
  end.

(** [list()]: the lookups run concurrently in the program; each touches
    only its own cache entry, so the model runs them in list order. *)
Definition list_assets : MW (list Asset.t) :=
  stored ← assets_list;
  cachedIds ← gets (fun w => keys (w_assetCache w));
  assets ← map_all getById (dedup (map Asset.assetId stored ++ cachedIds));
  mret (omap id assets).

Definition requiredString (v : value) (field : string) : MW string :=
  match v with
  | VStr s => if blank s then throw (ValidationError [field +:+ " is required"]) else mret (trim s)
  | _ => throw (ValidationError [field +:+ " is required"])
  end.
Definition opt_value (o : option string) : value := match o with Some s => VStr s | None => VUndefined end.

Definition requireAsset (id field : string) : MW Asset.t :=
  asset ← getById id;
  match asset with
  | Some a => mret a
  | None =>
      if String.eqb field "assetId" then throw (NotFoundError ("No asset " +:+ id))
      else throw (ValidationError [field +:+ " " +:+ id +:+ " does not exist"])
  end.

Definition requireActor (actor : option Actor.t) : MW Actor.t :=
  identityId ← requiredString (opt_value (Actor.identityId <$> actor)) "actorIdentity";
  walletAddress ← requiredString (opt_value (Actor.walletAddress <$> actor)) "actorWallet";
  mret (Actor.mk identityId walletAddress (trim <$> (actor ≫= Actor.signature))).

Definition transaction (type : TransactionType) (actor : option Actor.t) (p : payload) : MW Transaction.t :=
  signer ← requireActor actor;
  let signature := trim <$> Actor.signature signer in
  throw_if (evmCryptoEnabled && (negb (truthy_string signature) || bool_decide (signature = Some "development")))
    (BlockchainError SIGNER ("A device-signed raw transaction is required for EVM " +:+ TransactionType_string type));;
  txId ← randomUUID;
  timestamp ← nowISO;
  mret (Transaction.mk txId type (Actor.identityId signer) (Actor.walletAddress signer) p timestamp
    (if truthy_string signature then default "" signature else "development")).

Definition submit (tx : Transaction.t) : MW TxResult.t :=
  result ← on_chain (match submitTransactionDetailed with
                     | Some detailed => detailed tx
                     | None => submitTransaction tx
                     end);
  throw_if (negb (bool_decide (TxResult.status result = SUCCESS)))
    (TransactionRejectedError (TransactionType_string (Transaction.type tx)));;
  mret result.

Definition reconcileAfterWrite (assetId : string) (result : TxResult.t) (fallback : Asset.t) : MW Asset.t :=
  onChain ← on_chain (chain_getAsset assetId);
  match onChain with
  | Some a => mret (mergeAsset a (Some fallback))
  | None =>
      if truthy_string (TxResult.nftId result)
      then mret (Asset.with_nftId (default "" (TxResult.nftId result)) fallback)
      else throw (BlockchainStateUnavailableError assetId (TxResult.txId result))
  end.

(** The tail every write shares: send, read back, remember. *)
Definition submit_and_store (id : string) (type : TransactionType) (actor : option Actor.t) (p : payload)
    (fallback : Asset.t) : MW Asset.t :=
  tx ← transaction type actor p;
  result ← submit tx;
  reconciled ← reconcileAfterWrite id result fallback;
  cache_set id reconciled;;
  assets_save reconciled;;
  mret reconciled.

Definition identity_exists (id : string) : MW bool :=
  o ← identities_findById id; mret (bool_decide (is_Some o)).

Definition create (input : PartialAsset.t) (actor : option Actor.t) : MW Asset.t :=
  assetType ← requiredString (opt_value (PartialAsset.assetType input)) "assetType";
  ownerId ← requiredString (opt_value (PartialAsset.ownerId input)) "ownerId";
  custodianId ← requiredString (opt_value (PartialAsset.custodianId input)) "custodianId";
  (if wired_identityExists
   then ownerExists ← identity_exists ownerId;
        custodianExists ← (match ownerExists with true => identity_exists custodianId | false => mret false end);
        throw_if (negb custodianExists) (NotFoundError "Asset owner and custodian identities must exist")
   else mret tt);;
  throw_if (negb (String.eqb custodianId ownerId)) (ValidationError [mint_custody_message]);;
  assetId ← (let given := trim <$> PartialAsset.assetId input in
             if truthy_string given then mret (default "" given) else u ← randomUUID; mret ("AST-" +:+ u));
  existing ← getById assetId;
  throw_if (bool_decide (is_Some existing)) (ValidationError ["assetId " +:+ assetId +:+ " already exists"]);;
  (match PartialAsset.parentAssetId input with
   | Some p => requireAsset p "parentAssetId";; mret tt
   | None => mret tt
   end);;
  submit_and_store assetId ASSET_MINT actor
    [("assetId", VStr assetId); ("assetType", VStr assetType); ("ownerId", VStr ownerId);
     ("custodianId", VStr custodianId); ("parentAssetId", nullable (PartialAsset.parentAssetId input))]
    (Asset.mk assetId "" assetType ownerId custodianId (PartialAsset.parentAssetId input) Asset_ACTIVE).

Definition transfer (id newOwnerId : string) (newCustodianId : option string) (actor : option Actor.t) : MW Asset.t :=
  asset ← requireAsset id "assetId";
  ownerId ← requiredString (VStr newOwnerId) "newOwnerId";
  (if wired_identityExists
   then ok ← identity_exists ownerId; throw_if (negb ok) (NotFoundError ("No identity " +:+ ownerId))
   else mret tt);;
  custodianId ← (match newCustodianId with
                 | None => mret ownerId
                 | Some c => requiredString (VStr c) "newCustodianId"
                 end);
  throw_if (negb (String.eqb custodianId ownerId)) (ValidationError [transfer_custody_message]);;
  throw_if (bool_decide (Asset.status asset = DECOMMISSIONED))
    (ValidationError ["Asset " +:+ id +:+ " is decommissioned and cannot be transferred"]);;
  throw_if (bool_decide (is_Some (Asset.parentAssetId asset)))
    (ValidationError ["Component " +:+ id +:+ " must be detached before transfer"]);;
  throw_if (String.eqb (Asset.ownerId asset) ownerId)
    (ValidationError ["Asset " +:+ id +:+ " is already owned by " +:+ ownerId]);;
  submit_and_store id ASSET_TRANSFER actor
    [("assetId", VStr (Asset.assetId asset)); ("nftId", VStr (Asset.nftId asset));
     ("newOwnerId", VStr ownerId); ("newCustodianId", VStr custodianId)]
    (Asset.with_owner ownerId custodianId asset).

Definition assertStateTransition (current next : AssetStatus) : MW unit :=
  throw_if (negb (bool_decide (next ∈ allowed_states current)))
    (ValidationError ["Invalid asset state transition: " +:+ AssetStatus_string current +:+ " -> " +:+ AssetStatus_string next]).

Definition changeAssetState (id newState : string) (actor : option Actor.t) : MW Asset.t :=
  next ← require (parse_AssetStatus newState) (ValidationError [states_message]);
  asset ← requireAsset id "assetId";
  assertStateTransition (Asset.status asset) next;;
  submit_and_store id ASSET_STATE_CHANGE actor
    [("assetId", VStr (Asset.assetId asset)); ("nftId", VStr (Asset.nftId asset));
     ("previousState", VStr (AssetStatus_string (Asset.status asset))); ("newState", VStr newState)]
    (Asset.with_status next asset).

(** [while (current?.parentAssetId)] *)
Fixpoint assertNoCycle_loop (fuel : nat) (componentId : string) (current : option Asset.t) (visited : list string) : MW unit :=
  match fuel with
  | O => throw OutOfFuel
  | S fuel' =>
      match current with
      | None => mret tt
      | Some a =>
          if truthy_string (Asset.parentAssetId a) then
            let parent := default "" (Asset.parentAssetId a) in
            throw_if (bool_decide (Asset.assetId a ∈ visited)) (ValidationError ["Asset component hierarchy contains a cycle"]);;
            throw_if (String.eqb parent componentId) (ValidationError ["Component attachment would create a cycle"]);;
            next ← getById parent;
            assertNoCycle_loop fuel' componentId next (Asset.assetId a :: visited)
          else mret tt
      end
  end.
Definition assertNoCycle (fuel : nat) (parentAssetId componentId : string) : MW unit :=
  current ← getById parentAssetId;
  assertNoCycle_loop fuel componentId current [].

Definition attachComponent (fuel : nat) (parentAssetId componentId : string) (actor : option Actor.t) : MW Asset.t :=
  parent ← requireAsset parentAssetId "parentAssetId";
  component ← requireAsset componentId "componentId";
  throw_if (String.eqb parentAssetId componentId) (ValidationError ["An asset cannot be attached to itself"]);;
  throw_if (bool_decide (Asset.status parent = DECOMMISSIONED) || bool_decide (Asset.status component = DECOMMISSIONED))
    (ValidationError ["Decommissioned assets cannot be attached"]);;
  throw_if (bool_decide (is_Some (Asset.parentAssetId component)))
    (ValidationError ["Component " +:+ componentId +:+ " is already attached"]);;
  assertNoCycle fuel parentAssetId componentId;;
  submit_and_store componentId COMPONENT_ATTACH actor
    [("parentAssetId", VStr parentAssetId); ("parentNftId", VStr (Asset.nftId parent));
     ("componentId", VStr componentId); ("componentNftId", VStr (Asset.nftId component))]
    (Asset.with_parent (Some parentAssetId) component).

Definition removeComponent (parentAssetId componentId : string) (actor : option Actor.t) : MW Asset.t :=
  parent ← requireAsset parentAssetId "parentAssetId";
  component ← requireAsset componentId "componentId";
  throw_if (negb (bool_decide (Asset.parentAssetId component = Some parentAssetId)))
    (ValidationError ["Component " +:+ componentId +:+ " is not attached to " +:+ parentAssetId]);;
  submit_and_store componentId COMPONENT_REMOVE actor
    [("parentAssetId", VStr parentAssetId); ("parentNftId", VStr (Asset.nftId parent));
     ("componentId", VStr componentId); ("componentNftId", VStr (Asset.nftId component))]
    (Asset.with_parent None component).

(** The payload [prepare] builds, after the checks of the mutation. *)
Definition prepare_payload (fuel : nat) (type : AssetMutation) (input : payload) : MW payload :=
  match type with
  | A_TRANSFER =>
      id ← requiredString (field "assetId" input) "assetId";
      asset ← requireAsset id "assetId";
      ownerId ← requiredString (field "newOwnerId" input) "newOwnerId";
      (if wired_identityExists
       then ok ← identity_exists ownerId; throw_if (negb ok) (NotFoundError ("No identity " +:+ ownerId))
       else mret tt);;
      custodianId ← (match field "newCustodianId" input with
                     | VUndefined => mret ownerId
                     | c => requiredString c "newCustodianId"
                     end);
      throw_if (negb (String.eqb custodianId ownerId)) (ValidationError [transfer_custody_message]);;
      throw_if (bool_decide (Asset.status asset = DECOMMISSIONED))
        (ValidationError ["Asset " +:+ id +:+ " is decommissioned and cannot be transferred"]);;
      throw_if (bool_decide (is_Some (Asset.parentAssetId asset)))
        (ValidationError ["Component " +:+ id +:+ " must be detached before transfer"]);;
      throw_if (String.eqb (Asset.ownerId asset) ownerId)
        (ValidationError ["Asset " +:+ id +:+ " is already owned by " +:+ ownerId]);;
      mret [("assetId", VStr (Asset.assetId asset)); ("nftId", VStr (Asset.nftId asset));
            ("newOwnerId", VStr ownerId); ("newCustodianId", VStr custodianId)]
  | A_STATE_CHANGE =>
      id ← requiredString (field "assetId" input) "assetId";
      let newState := field "newState" input in
      next ← require (match newState with VStr s => parse_AssetStatus s | _ => None end) (ValidationError [states_message]);
      asset ← requireAsset id "assetId";
      assertStateTransition (Asset.status asset) next;;
      mret [("assetId", VStr (Asset.assetId asset)); ("nftId", VStr (Asset.nftId asset));
            ("previousState", VStr (AssetStatus_string (Asset.status asset))); ("newState", newState)]
  | A_ATTACH | A_REMOVE =>
      parentAssetId ← requiredString (field "parentAssetId" input) "parentAssetId";
      componentId ← requiredString (field "componentId" input) "componentId";
      parent ← requireAsset parentAssetId "parentAssetId";
      component ← requireAsset componentId "componentId";
      (if decide (type = A_ATTACH) then
         throw_if (String.eqb parentAssetId componentId) (ValidationError ["An asset cannot be attached to itself"]);;
         throw_if (bool_decide (Asset.status parent = DECOMMISSIONED) || bool_decide (Asset.status component = DECOMMISSIONED))
           (ValidationError ["Decommissioned assets cannot be attached"]);;
         throw_if (bool_decide (is_Some (Asset.parentAssetId component)))
           (ValidationError ["Component " +:+ componentId +:+ " is already attached"]);;
         assertNoCycle fuel parentAssetId componentId
       else
         throw_if (negb (bool_decide (Asset.parentAssetId component = Some parentAssetId)))
           (ValidationError ["Component " +:+ componentId +:+ " is not attached to " +:+ parentAssetId]));;
      mret [("parentAssetId", VStr parentAssetId); ("parentNftId", VStr (Asset.nftId parent));
            ("componentId", VStr componentId); ("componentNftId", VStr (Asset.nftId component))]
  end.

Definition prepare (fuel : nat) (type : AssetMutation) (input : payload) (actor : Actor.t) : MW PreparedTransaction.t :=
  p ← prepare_payload fuel type input;
  match prepareTransaction with
  | None => throw (HttpError 501 "Device transaction preparation is unavailable" "NOT_IMPLEMENTED")
  | Some prepareTransaction =>
      txId ← randomUUID;
      timestamp ← nowISO;
      on_chain (prepareTransaction (Transaction.mk txId (asset_mutation_type type) (Actor.identityId actor)
        (Actor.walletAddress actor) p timestamp "development"))
  end.
End AssetsService.
