(* ===== verification/AssetsCorrect.v ===== *)
(** * AssetsCorrect: what the asset service guarantees

    Part one holds for every chain whose [getAsset] is a lookup in a finite
    map ([ReadableChain]): reading an asset changes no later reading, and the
    cycle check terminates and is exact.  Part two runs the service on the
    mock chain and shows that every call is one step of the abstract registry
    [asset_change], from which the lifecycle and hierarchy invariants follow. *)
From S2P Require Import Prelude Effects JsString JsMap JsValue Shared Errors World Repositories MockChain Concrete Assets.
From stdpp Require Import relations.
Local Open Scope string_scope.
Local Open Scope list_scope.

(** [getAsset] reads a finite map and always gives a parent. *)
Class ReadableChain (C : Type) `{BlockchainService C} := {
  chain_assets : C -> jsmap Asset.t;
  getAsset_reads : forall id c,
    chain_getAsset id c = (inr ((fun a => OnChainAsset.mk a false) <$> get id (chain_assets c)), c) }.

#[export] Instance mock_readable `{Platform} : ReadableChain MockChain :=
  { chain_assets := m_assets; getAsset_reads := fun _ _ => eq_refl }.

(** ** The registry as clients see it *)

Section View.
Context `{Platform} {C : Type} `{RC : ReadableChain C}.
Abbreviation W := (World C).

Definition cached (id : string) (w : W) : option Asset.t :=
  match get id (w_assetCache w) with Some a => Some a | None => get id (w_assetRecords w) end.
Definition view (w : W) (id : string) : option Asset.t :=
  match get id (chain_assets (w_chain w)) with
  | Some a => Some (mergeAsset (OnChainAsset.mk a false) (cached id w))
  | None => cached id w
  end.

(** The number of places an asset id can come from. *)
Definition known_ids (w : W) : nat :=
  length (chain_assets (w_chain w)) + length (w_assetCache w) + length (w_assetRecords w).
End View.

(** [b] is the parent of [a]. *)
Definition parent_of (v : string -> option Asset.t) (a b : string) : Prop :=
  exists x, v a = Some x /\ Asset.parentAssetId x = Some b /\ b <> "".

(** Every asset is found under its own, non-empty id; parents exist; no
    asset is above itself. *)
Definition well_keyed (v : string -> option Asset.t) : Prop :=
  forall id a, v id = Some a -> Asset.assetId a = id /\ id <> "".
Definition hierarchy_ok (v : string -> option Asset.t) : Prop :=
  (forall a b, parent_of v a b -> is_Some (v b)) /\ (forall a, ~ tc (parent_of v) a a).

Definition overwrite (id : string) (a : Asset.t) (v : string -> option Asset.t) (k : string) : option Asset.t :=
  if String.eqb k id then Some a else v k.

(** What one call may do to the registry. *)
Inductive asset_change (v v' : string -> option Asset.t) : Prop :=
| change_none :
    (forall k, v' k = v k) -> asset_change v v'
| change_mint id nft ty o parent :
    v id = None -> id <> "" -> (forall p, parent = Some p -> is_Some (v p)) ->
    (forall k, v' k = overwrite id (Asset.mk id nft ty o o parent Asset_ACTIVE) v k) -> asset_change v v'
| change_owner id a o :
    v id = Some a -> Asset.status a <> DECOMMISSIONED -> Asset.parentAssetId a = None -> Asset.ownerId a <> o ->
    (forall k, v' k = overwrite id (Asset.with_owner o o a) v k) -> asset_change v v'
| change_status id a s :
    v id = Some a -> s ∈ allowed_states (Asset.status a) ->
    (forall k, v' k = overwrite id (Asset.with_status s a) v k) -> asset_change v v'
| change_attach p c pa ca :
    v p = Some pa -> v c = Some ca -> p <> c -> Asset.status pa <> DECOMMISSIONED ->
    Asset.status ca <> DECOMMISSIONED -> Asset.parentAssetId ca = None -> ~ tc (parent_of v) p c ->
    (forall k, v' k = overwrite c (Asset.with_parent (Some p) ca) v k) -> asset_change v v'
| change_remove p c ca :
    v c = Some ca -> Asset.parentAssetId ca = Some p ->
    (forall k, v' k = overwrite c (Asset.with_parent None ca) v k) -> asset_change v v'.

(** The calls a client can make. *)
Inductive asset_call :=
| Asset_list
| Asset_get (id : string)
| Asset_create (input : PartialAsset.t)
| Asset_transfer (id newOwnerId : string) (newCustodianId : option string)
| Asset_state (id newState : string)
| Asset_attach (p c : string)
| Asset_remove (p c : string)
| Asset_prepare (type : AssetMutation) (input : payload).

Section Calls.
Context `{Platform} {C : Type} `{BlockchainService C} `{Wiring}.
Definition run_asset_call (fuel : nat) (c : asset_call) (actor : Actor.t) : M exn (World C) unit :=
  match c with
  | Asset_list => list_assets;; mret tt
  | Asset_get id => getById id;; mret tt
  | Asset_create input => create input (Some actor);; mret tt
  | Asset_transfer id o c => transfer id o c (Some actor);; mret tt
  | Asset_state id s => changeAssetState id s (Some actor);; mret tt
  | Asset_attach p c => attachComponent fuel p c (Some actor);; mret tt
  | Asset_remove p c => removeComponent p c (Some actor);; mret tt
  | Asset_prepare type input => prepare fuel type input actor;; mret tt
  end.
End Calls.

(** ** Reading *)

Section Reading.
Context `{Platform} {C : Type} `{RC : ReadableChain C} `{Wiring}.
Abbreviation W := (World C).

(** [getById] writes back the merged record. *)
Definition refresh (id : string) (w : W) : W :=
  match get id (chain_assets (w_chain w)) with
  | Some a => upd_assetCache (put id (mergeAsset (OnChainAsset.mk a false) (cached id w))) w
  | None => w
  end.

Lemma getById_run id (w : W) : getById id w = (inr (view w id), refresh id w).
Proof.
  unfold getById, cache_get, gets, mbind, M_bind, on_chain, zoom.
  assert (Hw : upd_chain (fun _ => w_chain w) w = w) by (by destruct w).
  unfold view, refresh, cached. destruct (get id (w_assetCache w)) as [a|] eqn:Ec;
    [|unfold assets_findById, gets]; simpl; rewrite getAsset_reads, Hw;
    by destruct (get id (chain_assets _)).
Qed.

Lemma merge_again a o :
  mergeAsset (OnChainAsset.mk a false) (Some (mergeAsset (OnChainAsset.mk a false) o))
  = mergeAsset (OnChainAsset.mk a false) o.
Proof. unfold mergeAsset, first_nonempty. simpl. f_equal; by case_bool_decide. Qed.

Lemma view_refresh id (w : W) k : view (refresh id w) k = view w k.
Proof.
  unfold refresh. destruct (get id (chain_assets (w_chain w))) as [a|] eqn:E; [|done].
  unfold view, cached. simpl. rewrite !get_put. destruct (String.eqb_spec k id) as [->|]; [|done].
  rewrite E. unfold cached. by rewrite merge_again.
Qed.

(** The state looks the same to every reader, and the chain is untouched. *)
Definition calm (w w' : W) : Prop := w_chain w' = w_chain w /\ forall k, view w' k = view w k.

#[export] Instance calm_preorder : PreOrder calm.
Proof.
  split; [by split|]. intros w1 w2 w3 [Hc1 Hv1] [Hc2 Hv2]. split; [congruence|].
  intros k. by rewrite Hv2, Hv1.
Qed.

Definition quiet {A} (m : M exn W A) : Prop := forall w r w', m w = (r, w') -> calm w w'.

Lemma quiet_getById id : quiet (getById id).
Proof.
  intros w r w'. rewrite getById_run. intros [= _ <-]. split; [|apply view_refresh].
  unfold refresh. by destruct (get id _).
Qed.
Lemma quiet_bind {A B} (m : M exn W A) (k : A -> M exn W B) :
  quiet m -> (forall a, quiet (k a)) -> quiet (m ≫= k).
Proof.
  intros Hm Hk w r w' [(e & -> & E)|(a & w1 & E1 & E2)]%bind_inv; [by eapply Hm|].
  etransitivity; [by eapply Hm|by eapply Hk].
Qed.
Lemma quiet_ret {A} (a : A) : quiet (mret a).
Proof. by intros w r w' [= _ <-]. Qed.
Lemma quiet_throw {A} e : quiet (throw e : M exn W A).
Proof. by intros w r w' [= _ <-]. Qed.
Lemma quiet_throw_if b e : quiet (throw_if b e : M exn W unit).
Proof. destruct b; [apply quiet_throw|apply quiet_ret]. Qed.
Lemma quiet_require {A} (o : option A) e : quiet (require o e).
Proof. destruct o; [apply quiet_ret|apply quiet_throw]. Qed.
Lemma quiet_gets {A} (f : W -> A) : quiet (gets f).
Proof. by intros w r w' [= _ <-]. Qed.
Lemma quiet_nowISO : quiet nowISO.
Proof. intros w r w' [_ ->]%nowISO_inv. done. Qed.
Lemma quiet_randomUUID : quiet randomUUID.
Proof. intros w r w' [_ ->]%randomUUID_inv. done. Qed.
Lemma quiet_map_all {A B} (f : A -> M exn W B) l : (forall a, quiet (f a)) -> quiet (map_all f l).
Proof.
  intros Hf. induction l as [|x l IH]; simpl; [apply quiet_ret|].
  apply quiet_bind; [auto|intros y]. apply quiet_bind; [auto|intros; apply quiet_ret].
Qed.
End Reading.

#[export] Hint Resolve quiet_getById quiet_ret quiet_throw quiet_throw_if quiet_require quiet_gets
  quiet_nowISO quiet_randomUUID quiet_map_all : bel.

(** Prove [quiet] by walking the computation. *)
Ltac hush :=
  repeat first
    [ progress intros
    | solve [auto with bel]
    | apply quiet_bind | apply quiet_map_all
    | match goal with
      | |- quiet (if ?b then _ else _) => destruct b
      | |- quiet (match ?o with _ => _ end) => destruct o
      end ].

(** ** The cycle check *)

Lemma parent_of_fun v a b b' : parent_of v a b -> parent_of v a b' -> b = b'.
Proof. intros (x & ? & ? & _) (y & ? & ? & _). congruence. Qed.

Lemma parent_of_ext v v' a b : (forall k, v' k = v k) -> parent_of v' a b <-> parent_of v a b.
Proof. intros E. unfold parent_of. by rewrite E. Qed.
Lemma tc_parent_ext v v' a b : (forall k, v' k = v k) -> tc (parent_of v') a b <-> tc (parent_of v) a b.
Proof.
  intros E. split; induction 1 as [? ? Hs|? ? ? Hs _ IH]; apply (parent_of_ext _ _ _ _ E) in Hs; eauto using tc_once, tc_l.
Qed.
Lemma tc_parent_inv v a b c : parent_of v a b -> tc (parent_of v) a c <-> b = c \/ tc (parent_of v) b c.
Proof.
  intros Hab. split.
  - intros Hac. destruct Hac as [a c Hac|a b' c Hab' Hbc].
    + left. by eapply parent_of_fun.
    + right. by rewrite (parent_of_fun _ _ _ _ Hab Hab').
  - intros [->|Hbc]; [by apply tc_once|by eapply tc_l].
Qed.

Section Cycles.
Context `{Platform} {C : Type} `{RC : ReadableChain C} `{Wiring}.
Abbreviation W := (World C).

(** The ids under which the visible assets identify themselves. *)
Definition own_ids (w : W) : list string :=
  map Asset.assetId (omap (view w)
    (keys (chain_assets (w_chain w)) ++ keys (w_assetCache w) ++ keys (w_assetRecords w))).

Lemma own_ids_bound w : (length (own_ids w) <= known_ids w)%nat.
Proof.
  unfold own_ids, known_ids. rewrite length_map.
  assert (Hl : forall l, (length (omap (view w) l) <= length l)%nat).
  { induction l as [|x l IH]; [done|]. change (omap (view w) (x :: l))
      with (match view w x with Some y => y :: omap (view w) l | None => omap (view w) l end).
    destruct (view w x); simpl length; lia. }
  etransitivity; [apply Hl|]. unfold keys. rewrite !length_app, !length_map. lia.
Qed.

Lemma own_ids_view w id a : view w id = Some a -> In (Asset.assetId a) (own_ids w).
Proof.
  intros Hv. unfold own_ids. apply in_map, list_elem_of_In, list_elem_of_omap. exists id. split; [|done].
  apply list_elem_of_In. unfold view, cached in Hv. rewrite !in_app_iff.
  destruct (get id (chain_assets (w_chain w))) eqn:E1; [left|destruct (get id (w_assetCache w)) eqn:E2;
    [right; left|right; right]]; by eapply get_keys.
Qed.

(** The loop stops within the fuel, whatever the stored hierarchy is. *)
Lemma loop_terminates L fuel c cur visited (w : W) r w' :
  (forall id a, view w id = Some a -> In (Asset.assetId a) L) ->
  List.NoDup visited -> incl visited L -> (length L < fuel + length visited)%nat ->
  (cur = None \/ exists id, view w id = cur) ->
  assertNoCycle_loop fuel c cur visited w = (r, w') -> r <> inl OutOfFuel.
Proof.
  revert cur visited w. induction fuel as [|fuel IH]; intros cur visited w HL Hnd Hincl Hf Hcur Hrun.
  { pose proof (NoDup_incl_length Hnd Hincl). simpl in *. lia. }
  simpl in Hrun. destruct cur as [a|]; [|by injection Hrun as <- _].
  destruct (truthy_string (Asset.parentAssetId a)); [|by injection Hrun as <- _].
  apply bind_inv in Hrun as [(e & -> & [_ [<- _]]%throw_if_inl)|(? & w1 & [Hnew <-]%throw_if_inr & Hrun)]; [done|].
  apply bind_inv in Hrun as [(e & -> & [_ [<- _]]%throw_if_inl)|(? & w1 & [_ <-]%throw_if_inr & Hrun)]; [done|].
  rewrite (bind_run _ _ _ _ _ (getById_run _ _)) in Hrun. bool_to_prop.
  destruct Hcur as [[=]|[id Hid]].
  eapply IH in Hrun; [done|..].
  - intros k b. rewrite view_refresh. apply HL.
  - constructor; [|done]. by rewrite <- list_elem_of_In.
  - unfold incl. intros y [<-|Hy]; [by eapply HL|by apply Hincl].
  - simpl. lia.
  - right. eexists. by rewrite view_refresh.
Qed.

(** In a sound hierarchy the loop answers "is [c] above [id]?". *)
Lemma loop_exact L v fuel c id visited (w : W) :
  (forall k, view w k = v k) -> well_keyed v -> hierarchy_ok v ->
  (forall id a, v id = Some a -> In (Asset.assetId a) L) ->
  (forall x, In x visited -> tc (parent_of v) x id /\ In x L) -> List.NoDup visited ->
  (length L < fuel + length visited)%nat ->
  exists r w', assertNoCycle_loop fuel c (v id) visited w = (r, w') /\
    (r = inr tt <-> ~ tc (parent_of v) id c).
Proof.
  intros Hv Hk Hok HL. revert id visited w Hv.
  induction fuel as [|fuel IH]; intros id visited w Hv Hvis Hnd Hf.
  { assert (length visited <= length L)%nat; [|simpl in *; lia].
    apply NoDup_incl_length; [done|]. intros x Hx. by apply Hvis. }
  simpl. destruct (v id) as [a|] eqn:Ea.
  2: { eexists _, _. split; [done|]. split; [|done]. intros _ Htc.
       destruct Htc as [? ? (? & ? & _)|? ? ? (? & ? & _)]; congruence. }
  destruct (truthy_string (Asset.parentAssetId a)) eqn:Ht.
  2: { eexists _, _. split; [done|]. split; [|done]. intros _ Htc.
       assert (exists b, parent_of v id b) as (b & x & Hx & Hp & Hb) by (destruct Htc; eauto).
       rewrite Ea in Hx. injection Hx as <-. rewrite Hp in Ht. simpl in Ht. by bool_to_prop. }
  apply truthy_string_Some in Ht as (q & Hq & Hq0). rewrite Hq. simpl.
  destruct (Hk _ _ Ea) as [Hid Hid0].
  assert (Hpar : parent_of v id q) by (by exists a).
  assert (Hfresh : ~ In id visited) by (intros Hin; by apply Hok with id, Hvis).
  rewrite Hid, bool_decide_eq_false_2, guard_pass by (by rewrite list_elem_of_In). destruct (String.eqb_spec q c) as [->|Hqc].
  - eexists _, _. split; [done|]. split; [done|]. intros Hn. exfalso. by apply Hn, tc_once.
  - rewrite guard_pass, (bind_run _ _ _ _ _ (getById_run _ _)), Hv.
    destruct (IH q (id :: visited) (refresh q w)) as (r & w' & Hrun & Hr).
    + intros k. by rewrite view_refresh.
    + intros x [<-|Hx].
      * split; [by apply tc_once|]. rewrite <- Hid. by eapply HL.
      * destruct (Hvis _ Hx). split; [by eapply tc_r|done].
    + by constructor.
    + simpl. lia.
    + exists r, w'. split; [done|]. rewrite Hr. rewrite (tc_parent_inv _ _ _ _ Hpar). tauto.
Qed.
End Cycles.

Section Walk.
Context `{Platform} {C : Type} `{RC : ReadableChain C} `{Wiring}.
Abbreviation W := (World C).

(** The check passes only when [c] is not above [id], whatever the fuel. *)
Lemma loop_sound v fuel c id visited (w w' : W) u :
  (forall k, view w k = v k) -> assertNoCycle_loop fuel c (v id) visited w = (inr u, w') -> ~ tc (parent_of v) id c.
Proof.
  revert id visited w. induction fuel as [|fuel IH]; intros id visited w Hv Hrun; [done|]. simpl in Hrun.
  destruct (v id) as [a|] eqn:Ea.
  2: { intros Htc. destruct Htc as [? ? (? & ? & _)|? ? ? (? & ? & _)]; congruence. }
  destruct (truthy_string (Asset.parentAssetId a)) eqn:Ht.
  2: { intros Htc. assert (exists b, parent_of v id b) as (b & x & Hx & Hp & Hb) by (destruct Htc; eauto).
       rewrite Ea in Hx. injection Hx as <-. rewrite Hp in Ht. simpl in Ht. by bool_to_prop. }
  apply truthy_string_Some in Ht as (q & Hq & Hq0). rewrite Hq in Hrun. simpl in Hrun.
  apply bind_inr in Hrun as (? & w1 & [_ <-]%throw_if_inr & Hrun).
  apply bind_inr in Hrun as (? & w1 & [Hqc <-]%throw_if_inr & Hrun).
  rewrite (bind_run _ _ _ _ _ (getById_run _ _)), Hv in Hrun. apply IH in Hrun; [|by intros; rewrite view_refresh].
  assert (Hpar : parent_of v id q) by (by exists a).
  rewrite (tc_parent_inv _ _ _ _ Hpar). apply String.eqb_neq in Hqc. tauto.
Qed.

Lemma quiet_loop fuel c cur visited : quiet (assertNoCycle_loop fuel c cur visited).
Proof. revert cur visited. induction fuel as [|fuel IH]; intros; simpl; hush. Qed.
Lemma quiet_assertNoCycle fuel p c : quiet (assertNoCycle fuel p c).
Proof. unfold assertNoCycle. hush; apply quiet_loop. Qed.
Lemma quiet_requireAsset id f : quiet (requireAsset id f).
Proof. unfold requireAsset. hush. Qed.
Lemma quiet_requiredString v f : quiet (requiredString v f).
Proof. unfold requiredString. hush. Qed.
Hint Resolve quiet_loop quiet_assertNoCycle quiet_requireAsset quiet_requiredString : bel.
Lemma quiet_identity_exists id : quiet (identity_exists id).
Proof. unfold identity_exists, identities_findById. hush. Qed.
Hint Resolve quiet_identity_exists : bel.
Lemma quiet_transaction ty actor p : quiet (transaction ty actor p).
Proof. unfold transaction, requireActor. hush. Qed.
Lemma quiet_prepare_payload fuel m p : quiet (prepare_payload fuel m p).
Proof. unfold prepare_payload, assertStateTransition. destruct m; hush. Qed.
Lemma quiet_list : quiet list_assets.
Proof. unfold list_assets, assets_list. hush. Qed.

Lemma requireAsset_inr id f (w w' : W) a :
  requireAsset id f w = (inr a, w') -> view w id = Some a /\ calm w w'.
Proof.
  intros Hrun. split; [|by eapply quiet_requireAsset]. unfold requireAsset in Hrun.
  rewrite (bind_run _ _ _ _ _ (getById_run _ _)) in Hrun.
  destruct (view w id); [by injection Hrun as ->|]. by destruct (String.eqb f "assetId").
Qed.

Lemma requiredString_inr v f (w w' : W) s :
  requiredString v f w = (inr s, w') -> exists s0, v = VStr s0 /\ s = trim s0 /\ s <> "" /\ w' = w.
Proof.
  unfold requiredString. destruct v; try done. destruct (blank s0) eqn:E; [done|]. intros [= <- <-].
  exists s0. by pose proof (not_blank_trim_nonempty _ E).
Qed.
End Walk.

#[export] Hint Resolve quiet_loop quiet_assertNoCycle quiet_requireAsset quiet_requiredString
  quiet_identity_exists quiet_transaction quiet_prepare_payload quiet_list : bel.

(** ** Writing through the mock chain *)

Section Writing.
Context `{Platform} `{Wiring}.
Abbreviation W := (World MockChain).

Definition same_view (w w' : W) : Prop := forall k, view w' k = view w k.

(** The chain after one transaction. *)
Definition after_tx (tx : Transaction.t) (c : MockChain) : MockChain := record tx (log_tx tx c).

(** A transaction that rewrites at most the asset [id] on the chain. *)
Definition rewrites (c : MockChain) (id : string) (f : option Asset.t -> option Asset.t) (ty : TransactionType) (p : payload) : Prop :=
  forall tx, Transaction.type tx = ty -> Transaction.payload tx = p ->
    forall k, get k (m_assets (after_tx tx c)) = if String.eqb k id then f (get id (m_assets c)) else get k (m_assets c).

Lemma submit_and_store_mock id f ty actor p fb (w w' : W) r :
  rewrites (w_chain w) id f ty p ->
  (f (get id (m_assets (w_chain w))) = None -> get id (m_assets (w_chain w)) = None) ->
  (forall a, f (get id (m_assets (w_chain w))) = Some a ->
     Asset.assetId (mergeAsset (OnChainAsset.mk a false) (Some fb)) = id) ->
  submit_and_store id ty actor p fb w = (r, w') ->
  (exists e, r = inl e /\ same_view w w') \/
  exists a, f (get id (m_assets (w_chain w))) = Some a /\
    r = inr (mergeAsset (OnChainAsset.mk a false) (Some fb)) /\
    forall k, view w' k = overwrite id (mergeAsset (OnChainAsset.mk a false) (Some fb)) (view w) k.
Proof.
  intros Hrw Hnone Hid Hrun. unfold submit_and_store in Hrun.
  apply bind_inv in Hrun as [(e & -> & E)|(tx & w1 & E & Hrun)].
  { left. exists e. split; [done|]. by destruct (quiet_transaction _ _ _ _ _ _ E). }
  destruct (quiet_transaction _ _ _ _ _ _ E) as [Hch Hvw].
  assert (Htx : Transaction.type tx = ty /\ Transaction.payload tx = p).
  { unfold transaction in E. apply bind_inr in E as (? & ? & _ & E). winv. done. }
  destruct Htx as [Hty Hp]. clear E.
  assert (Hsub : submit tx w1 = (inr (TxResult.mk
     (if bool_decide (Transaction.txId tx = "") then "mock-tx-" +:+ pretty (txCounter (after_tx tx (w_chain w1))) else Transaction.txId tx)
     SUCCESS (Some ("0xmock" +:+ pretty (txCounter (after_tx tx (w_chain w1)))))
     (Some (42 + txCounter (after_tx tx (w_chain w1)))%Z) (mock_event (Transaction.type tx)) None None),
     upd_chain (fun _ => after_tx tx (w_chain w1)) w1)) by done.
  rewrite (bind_run _ _ _ _ _ Hsub) in Hrun. clear Hsub.
  rewrite !Hch in Hrun. pose proof (Hrw tx Hty Hp) as Hget. revert Hget Hrun.
  generalize (after_tx tx (w_chain w)). intros c1 Hget Hrun.
  unfold reconcileAfterWrite in Hrun. unfold mbind, M_bind, on_chain, zoom in Hrun. simpl in Hrun.
  pose proof (Hget id) as Hgid. rewrite String.eqb_refl in Hgid. rewrite Hgid in Hrun.
  destruct (f (get id (m_assets (w_chain w)))) as [a|] eqn:Ef; simpl in Hrun.
  - right. exists a. split; [done|]. specialize (Hid _ eq_refl).
    injection Hrun as <- <-. split; [done|]. intros k. unfold view, cached, overwrite. simpl in *. rewrite Hget, !get_put, Hid.
    destruct (String.eqb_spec k id) as [->|Hne].
    + f_equal. exact (merge_again a (Some fb)).
    + specialize (Hvw k). unfold view, cached in Hvw. by rewrite Hch in Hvw.
  - left. eexists. injection Hrun as <- <-. split; [done|]. intros k.
    rewrite <- Hvw. unfold view, cached. simpl. rewrite Hget, Hch. destruct (String.eqb_spec k id) as [->|]; [|done].
    by rewrite (Hnone eq_refl).
Qed.

Lemma rewrites_mint c id ty o parent :
  id <> "" -> ty <> "" -> o <> "" -> (forall p, parent = Some p -> p <> "") ->
  rewrites c id (fun a => match a with
      | Some a => Some a
      | None => Some (Asset.mk id (pretty (nftCounter c + 1)%Z) ty o o parent Asset_ACTIVE)
      end) ASSET_MINT
    [("assetId", VStr id); ("assetType", VStr ty); ("ownerId", VStr o); ("custodianId", VStr o);
     ("parentAssetId", nullable parent)].
Proof.
  intros Hid Hty Ho Hpar tx Htype Hp k. unfold after_tx, record. rewrite Htype, Hp.
  rewrite (sfield_get _ "assetId" id), (sfield_get _ "assetType" ty), (sfield_get _ "ownerId" o),
    (sfield_get _ "custodianId" o) by done.
  replace (sfield _ "parentAssetId") with parent.
  2: { destruct parent as [p|]; [|done]. symmetry. by apply sfield_get, Hpar. }
  simpl. destruct (get id (m_assets c)) as [a|] eqn:Ea; simpl; [|by rewrite get_put].
  by destruct (String.eqb_spec k id) as [->|].
Qed.

Lemma rewrites_with_asset c id f ty p :
  id <> "" -> field "assetId" p = VStr id ->
  (forall tx c', Transaction.type tx = ty -> Transaction.payload tx = p -> record tx c' = with_asset p f c') ->
  rewrites c id (fmap f) ty p.
Proof.
  intros Hid Hp Hrec tx Hty Hpl k. unfold after_tx. rewrite (Hrec _ _ Hty Hpl). unfold with_asset.
  rewrite (sfield_get _ _ _ Hp Hid). simpl. destruct (get id (m_assets c)) as [a|] eqn:Ea; simpl.
  - by rewrite get_put.
  - by destruct (String.eqb_spec k id) as [->|].
Qed.

Lemma rewrites_component c attach p pn comp cn :
  p <> "" -> comp <> "" ->
  rewrites c comp (fmap (Asset.with_parent (if attach : bool then Some p else None)))
    (if attach then COMPONENT_ATTACH else COMPONENT_REMOVE)
    [("parentAssetId", VStr p); ("parentNftId", VStr pn); ("componentId", VStr comp); ("componentNftId", VStr cn)].
Proof.
  intros Hp Hc tx Hty Hpl k. unfold after_tx, record. rewrite Hty, Hpl.
  rewrite (sfield_get _ "parentAssetId" p), (sfield_get _ "componentId" comp) by done.
  destruct attach; simpl; (destruct (get comp (m_assets c)) as [a|] eqn:Ea; simpl;
    [by rewrite get_put|by destruct (String.eqb_spec k comp) as [->|]]).
Qed.

(** An update of one visible asset, mirrored by the chain. *)
Lemma submit_update_mock id f ty actor p v (w w' : W) r :
  rewrites (w_chain w) id (fmap f) ty p -> view w id = Some v -> Asset.assetId v = id ->
  (forall a o, mergeAsset (OnChainAsset.mk (f a) false) (Some (f (mergeAsset (OnChainAsset.mk a false) o)))
     = f (mergeAsset (OnChainAsset.mk a false) o)) ->
  (forall a, Asset.assetId (f a) = Asset.assetId a) ->
  submit_and_store id ty actor p (f v) w = (r, w') ->
  (exists e, r = inl e /\ same_view w w') \/
  r = inr (f v) /\ forall k, view w' k = overwrite id (f v) (view w) k.
Proof.
  intros Hrw Hv Hid Hf Hfid Hrun.
  assert (Hm : forall a, get id (m_assets (w_chain w)) = Some a ->
    mergeAsset (OnChainAsset.mk (f a) false) (Some (f v)) = f v).
  { intros a Ea. unfold view in Hv. simpl in Hv. rewrite Ea in Hv. injection Hv as <-. apply Hf. }
  eapply submit_and_store_mock in Hrun; [|exact Hrw|by destruct (get id (m_assets (w_chain w)))|].
  - destruct Hrun as [?|(a & Ea & -> & Hvw)]; [by left|right].
    apply fmap_Some in Ea as (a0 & Ea & ->). by rewrite (Hm _ Ea) in *.
  - intros a Ea. apply fmap_Some in Ea as (a0 & Ea & ->). by rewrite (Hm _ Ea), Hfid.
Qed.

Lemma merge_with_owner o cu a x :
  mergeAsset (OnChainAsset.mk (Asset.with_owner o cu a) false) (Some (Asset.with_owner o cu (mergeAsset (OnChainAsset.mk a false) x)))
  = Asset.with_owner o cu (mergeAsset (OnChainAsset.mk a false) x).
Proof. unfold mergeAsset, Asset.with_owner, first_nonempty. simpl. f_equal; by case_bool_decide. Qed.
Lemma merge_with_status s a x :
  mergeAsset (OnChainAsset.mk (Asset.with_status s a) false) (Some (Asset.with_status s (mergeAsset (OnChainAsset.mk a false) x)))
  = Asset.with_status s (mergeAsset (OnChainAsset.mk a false) x).
Proof. unfold mergeAsset, Asset.with_status, first_nonempty. simpl. f_equal; by case_bool_decide. Qed.
Lemma merge_with_parent p a x :
  mergeAsset (OnChainAsset.mk (Asset.with_parent p a) false) (Some (Asset.with_parent p (mergeAsset (OnChainAsset.mk a false) x)))
  = Asset.with_parent p (mergeAsset (OnChainAsset.mk a false) x).
Proof. unfold mergeAsset, Asset.with_parent, first_nonempty. simpl. f_equal; by case_bool_decide. Qed.
End Writing.

(** ** Every call is one step of the abstract registry *)

Section Simulation.
Context `{Platform} `{Wiring}.
Abbreviation W := (World MockChain).

(** Walk past a computation that changes nothing a reader sees. *)
Lemma sim_bind {A B} (m : M exn W A) (k : A -> M exn W B) (w0 w w' : W) r :
  quiet m -> calm w0 w -> (m ≫= k) w = (r, w') ->
  (forall a w1, m w = (inr a, w1) -> calm w0 w1 -> k a w1 = (r, w') -> asset_change (view w0) (view w')) ->
  asset_change (view w0) (view w').
Proof.
  intros Hq Hc [(e & -> & E)|(a & w1 & E & Hrun)]%bind_inv Hk.
  - apply change_none. intros j. destruct (Hq _ _ _ E) as [_ Hv]. destruct Hc as [_ Hc]. by rewrite Hv, Hc.
  - eapply Hk; [exact E| |exact Hrun]. etransitivity; [exact Hc|by eapply Hq].
Qed.

Lemma same_after (w0 w w' : W) : calm w0 w -> same_view w w' -> asset_change (view w0) (view w').
Proof. intros [_ Hc] Hs. apply change_none. intros k. by rewrite Hs, Hc. Qed.

Lemma overwrite_calm (w0 w w' : W) id a :
  calm w0 w -> (forall k, view w' k = overwrite id a (view w) k) -> forall k, view w' k = overwrite id a (view w0) k.
Proof. intros [_ Hc] Hv k. rewrite Hv. unfold overwrite. by destruct (String.eqb k id); rewrite ?Hc. Qed.

Ltac past Hrun := eapply sim_bind; [| |exact Hrun|]; [hush|done|]; clear Hrun.
Ltac assure Hrun G :=
  apply bind_inv in Hrun as [(e & -> & [_ [_ ->]]%throw_if_inl)|(? & ? & [G <-]%throw_if_inr & Hrun)];
  [by eapply same_after|].
(** The write itself: it failed and nothing changed, or one asset did. *)
Ltac commits Hrun := destruct Hrun as [(e & -> & Hs)|[-> Hs]]; [by eapply same_after|].

Lemma transfer_simulates id o c actor (w w' : W) r :
  well_keyed (view w) -> transfer id o c actor w = (r, w') -> asset_change (view w) (view w').
Proof.
  intros Hk Hrun. unfold transfer in Hrun.
  past Hrun. intros a w1 [Ha _]%requireAsset_inr Hc1 Hrun.
  past Hrun. intros ow w2 (o0 & _ & -> & Ho & ->)%requiredString_inr _ Hrun.
  past Hrun. intros u w3 _ Hc3 Hrun. past Hrun. intros cu w4 _ Hc4 Hrun.
  assure Hrun Hcu. assure Hrun Hde. assure Hrun Hpa. assure Hrun How.
  apply negb_false_iff, String.eqb_eq in Hcu. apply String.eqb_neq in How. bool_to_prop. subst cu.
  destruct (Hk _ _ Ha) as [Hid Hid0]. rewrite Hid in Hrun.
  eapply submit_update_mock in Hrun; [| |by destruct Hc4 as [_ ->]|done|apply merge_with_owner|done].
  - commits Hrun. eapply change_owner; [exact Ha|done| |exact How|by eapply overwrite_calm].
    destruct (Asset.parentAssetId a); [exfalso; eauto|done].
  - apply rewrites_with_asset; [done|done|]. intros tx c' Hty Hp. unfold record. rewrite Hty, Hp.
    rewrite (sfield_get _ "newOwnerId" (trim o0)), (sfield_get _ "newCustodianId" (trim o0)) by done. done.
Qed.

Lemma state_simulates id st actor (w w' : W) r :
  well_keyed (view w) -> changeAssetState id st actor w = (r, w') -> asset_change (view w) (view w').
Proof.
  intros Hk Hrun. unfold changeAssetState in Hrun.
  past Hrun. intros next w0 [Hst <-]%require_inr _ Hrun.
  past Hrun. intros a w1 [Ha _]%requireAsset_inr Hc1 Hrun.
  unfold assertStateTransition in Hrun. assure Hrun Hal. bool_to_prop.
  destruct (Hk _ _ Ha) as [Hid Hid0]. rewrite Hid in Hrun.
  eapply submit_update_mock in Hrun; [| |by destruct Hc1 as [_ ->]|done|apply merge_with_status|done].
  - commits Hrun. eapply change_status; [exact Ha|exact Hal|by eapply overwrite_calm].
  - apply rewrites_with_asset; [done|done|]. intros tx c' Hty Hp. unfold record. rewrite Hty, Hp.
    rewrite (sfield_get _ "newState" st); [|done|by intros ->]. simpl. by rewrite Hst.
Qed.

Lemma attach_simulates fuel p c actor (w w' : W) r :
  well_keyed (view w) -> attachComponent fuel p c actor w = (r, w') -> asset_change (view w) (view w').
Proof.
  intros Hk Hrun. unfold attachComponent in Hrun.
  past Hrun. intros pa w1 [Hpa _]%requireAsset_inr Hc1 Hrun.
  past Hrun. intros ca w2 [Hca _]%requireAsset_inr Hc2 Hrun.
  destruct Hc1 as [_ Hc1]. rewrite Hc1 in Hca.
  assure Hrun Hne. assure Hrun Hde. assure Hrun Hat. past Hrun. intros u w3 Hcy Hc3 Hrun.
  unfold assertNoCycle in Hcy. rewrite (bind_run _ _ _ _ _ (getById_run _ _)) in Hcy.
  destruct Hc2 as [_ Hc2]. rewrite Hc2 in Hcy.
  eapply loop_sound in Hcy; [|by intros; rewrite view_refresh].
  bool_to_prop. apply String.eqb_neq in Hne. destruct (Hk _ _ Hpa), (Hk _ _ Hca).
  eapply submit_update_mock in Hrun; [|by apply (rewrites_component _ true)|by destruct Hc3 as [_ ->]|done
    |apply merge_with_parent|done].
  commits Hrun. eapply change_attach; [exact Hpa|exact Hca|done..| |done|by eapply overwrite_calm].
  destruct (Asset.parentAssetId ca); [exfalso; eauto|done].
Qed.

Lemma remove_simulates p c actor (w w' : W) r :
  well_keyed (view w) -> removeComponent p c actor w = (r, w') -> asset_change (view w) (view w').
Proof.
  intros Hk Hrun. unfold removeComponent in Hrun.
  past Hrun. intros pa w1 [Hpa _]%requireAsset_inr Hc1 Hrun.
  past Hrun. intros ca w2 [Hca _]%requireAsset_inr Hc2 Hrun.
  destruct Hc1 as [_ Hc1]. rewrite Hc1 in Hca. assure Hrun Hat. bool_to_prop.
  destruct (Hk _ _ Hpa), (Hk _ _ Hca).
  eapply submit_update_mock in Hrun; [|by apply (rewrites_component _ false)|by destruct Hc2 as [_ ->]|done
    |apply merge_with_parent|done].
  commits Hrun. eapply change_remove; [exact Hca|exact Hat|by eapply overwrite_calm].
Qed.

Lemma create_simulates input actor (w w' : W) r :
  well_keyed (view w) -> create input actor w = (r, w') -> asset_change (view w) (view w').
Proof.
  intros Hk Hrun. unfold create in Hrun.
  past Hrun. intros ty w1 (ty0 & _ & _ & Hty & ->)%requiredString_inr _ Hrun.
  past Hrun. intros o w1 (o0 & _ & _ & Ho & ->)%requiredString_inr _ Hrun.
  past Hrun. intros cu w1 _ Hc1 Hrun. past Hrun. intros u w2 _ Hc2 Hrun. assure Hrun Hcu.
  apply negb_false_iff, String.eqb_eq in Hcu. subst cu.
  past Hrun. intros id w3 Hid Hc3 Hrun.
  assert (Hid0 : id <> "").
  { destruct (truthy_string (trim <$> PartialAsset.assetId input)) eqn:Et.
    - apply mret_inr in Hid as [<- _]. apply truthy_string_Some in Et as (s & -> & ?). done.
    - by winv. }
  past Hrun. intros ex w4 Hex Hc4 Hrun. rewrite getById_run in Hex. injection Hex as Hex _.
  assure Hrun Hno. bool_to_prop. past Hrun. intros u' w5 Hpar Hc5 Hrun.
  assert (Hv : view w id = None).
  { destruct Hc3 as [_ Hc3]. rewrite <- Hc3, Hex. apply eq_None_not_Some. intros Hs. by apply Hno. }
  assert (Hpa : forall p, PartialAsset.parentAssetId input = Some p -> is_Some (view w p)).
  { intros p Hp. rewrite Hp in Hpar. apply bind_inr in Hpar as (pa & ? & [Hpa _]%requireAsset_inr & _).
    destruct Hc4 as [_ Hc4]. rewrite Hc4 in Hpa. eauto. }
  eapply submit_and_store_mock in Hrun; [|apply rewrites_mint; try done| |].
  - destruct Hrun as [(e & -> & Hs)|(a & Ea & -> & Hs)]; [by eapply same_after|].
    assert (Hg : get id (m_assets (w_chain w5)) = None).
    { destruct Hc5 as [_ Hc5]. specialize (Hc5 id). rewrite Hv in Hc5. unfold view in Hc5. simpl in Hc5.
      by destruct (get id (m_assets (w_chain w5))). }
    rewrite Hg in Ea. injection Ea as <-.
    eapply change_mint; [exact Hv|exact Hid0|exact Hpa|]. intros k.
    rewrite (overwrite_calm _ _ _ _ _ Hc5 Hs k). unfold overwrite, mergeAsset, first_nonempty. simpl.
    by rewrite !bool_decide_eq_false_2.
  - intros p Hp. destruct (Hpa _ Hp) as [pa Hpp]. by destruct (Hk _ _ Hpp).
  - by destruct (get id _).
  - intros a Ea. unfold mergeAsset, first_nonempty. simpl.
    destruct (get id (m_assets (w_chain w5))) as [a0|] eqn:Eg.
    + destruct Hc5 as [_ Hc5]. specialize (Hc5 id). rewrite Hv in Hc5. unfold view in Hc5. simpl in Hc5. by rewrite Eg in Hc5.
    + injection Ea as <-. simpl. by case_bool_decide.
Qed.

Lemma call_simulates fuel c actor (w w' : W) r :
  well_keyed (view w) -> run_asset_call fuel c actor w = (r, w') -> asset_change (view w) (view w').
Proof.
  intros Hk Hrun.
  assert (Hq : forall A (m : M exn W A) r0, quiet m -> (m;; mret tt) w = (r0, w') -> asset_change (view w) (view w')).
  { intros A m r0 Hm Hrun0. apply change_none. intros k.
    assert (Hmt : quiet (m;; mret tt)) by hush. by destruct (Hmt _ _ _ Hrun0) as [_ ->]. }
  destruct c; simpl in Hrun.
  1, 2: eapply Hq; [|exact Hrun]; hush.
  6: { eapply Hq; [|exact Hrun]. unfold prepare. cbn [prepareTransaction MockBlockchainAdapter]. hush. }
  all: apply bind_inv in Hrun as [(e & -> & E)|(? & ? & E & [-> ->]%mret_inv)].
  all: eauto using create_simulates, transfer_simulates, state_simulates, attach_simulates, remove_simulates.
Qed.
End Simulation.

(** ** Invariants of the abstract registry *)

Lemma overwrite_parent id a v x y :
  parent_of (overwrite id a v) x y <->
  (x = id /\ Asset.parentAssetId a = Some y /\ y <> "") \/ (x <> id /\ parent_of v x y).
Proof.
  unfold parent_of, overwrite. destruct (String.eqb_spec x id) as [->|Hne]; split.
  - intros (b & [= <-] & ?). tauto.
  - intros [(_ & ?)|[? _]]; [eauto|done].
  - eauto.
  - intros [[? _]|[_ ?]]; [done|eauto].
Qed.

Lemma hierarchy_ext v v' : (forall k, v' k = v k) -> hierarchy_ok v -> hierarchy_ok v'.
Proof.
  intros E [Hp Ha]. split.
  - intros a b Hab%(parent_of_ext _ _ _ _ E). rewrite E. eauto.
  - intros a Htc%(tc_parent_ext _ _ _ _ E). by apply Ha with a.
Qed.

(** Rewriting an asset without giving it a new parent. *)
Lemma hierarchy_sub v v' :
  (forall a b, parent_of v' a b -> parent_of v a b) -> (forall k, is_Some (v k) -> is_Some (v' k)) ->
  hierarchy_ok v -> hierarchy_ok v'.
Proof.
  intros Hsub Hdom [Hp Ha]. split; [eauto|]. intros a Htc. apply (Ha a).
  revert Htc. generalize a at 1 3 as x. generalize a as y.
  induction 1 as [x y Hxy|x z y Hxz _ IH]; [by apply tc_once, Hsub|eapply tc_l; eauto].
Qed.

Lemma overwrite_dom id a v k : is_Some (v k) -> is_Some (overwrite id a v k).
Proof. unfold overwrite. destruct (String.eqb k id); eauto. Qed.

Lemma hierarchy_mint id a v :
  v id = None -> (forall p, Asset.parentAssetId a = Some p -> is_Some (v p)) ->
  hierarchy_ok v -> hierarchy_ok (overwrite id a v).
Proof.
  intros Hid Hpar [Hp Ha]. split.
  - intros x y [(-> & Hy & _)|[_ Hxy]]%overwrite_parent; apply overwrite_dom; eauto.
  - assert (Hold : forall x y, tc (parent_of (overwrite id a v)) x y -> x <> id -> y <> id /\ tc (parent_of v) x y).
    { intros x y. induction 1 as [x y Hxy|x z y Hxz _ IH]; intros Hx; apply overwrite_parent in Hxy || apply overwrite_parent in Hxz.
      - destruct Hxy as [[? _]|[_ Hxy]]; [done|]. split; [|by apply tc_once].
        intros ->. destruct (Hp _ _ Hxy). congruence.
      - destruct Hxz as [[? _]|[_ Hxz]]; [done|]. destruct IH as [? ?]; [|split; [done|by eapply tc_l]].
        intros ->. destruct (Hp _ _ Hxz). congruence. }
    intros x Htc. destruct (decide (x = id)) as [->|Hx]; [|apply (Ha x); by apply Hold].
    assert (Hstep : exists z, parent_of (overwrite id a v) id z /\ (z = id \/ tc (parent_of (overwrite id a v)) z id)).
    { inversion Htc; subst; eauto. }
    destruct Hstep as (z & [(_ & Hz & _)|[? _]]%overwrite_parent & Hcase); [|done].
    destruct (Hpar _ Hz) as [b Hb]. assert (z <> id) by congruence.
    destruct Hcase as [?|Hcase]; [done|]. by destruct (Hold _ _ Hcase).
Qed.

Lemma hierarchy_attach p c ca v :
  v c = Some ca -> is_Some (v p) -> Asset.parentAssetId ca = None -> p <> c -> ~ tc (parent_of v) p c ->
  hierarchy_ok v -> hierarchy_ok (overwrite c (Asset.with_parent (Some p) ca) v).
Proof.
  intros Hc Hpv Hnone Hne Hno [Hp Ha]. split.
  - intros x y [(-> & [= <-] & _)|[_ Hxy]]%overwrite_parent; apply overwrite_dom; eauto.
  - assert (Hsplit : forall x y, tc (parent_of (overwrite c (Asset.with_parent (Some p) ca) v)) x y ->
      tc (parent_of v) x y \/ (rtc (parent_of v) x c /\ rtc (parent_of v) p y)).
    { intros x y. induction 1 as [x y Hxy|x z y Hxz _ IH]; apply overwrite_parent in Hxy || apply overwrite_parent in Hxz.
      - destruct Hxy as [(-> & [= <-] & _)|[_ Hxy]]; [right; done|left; by apply tc_once].
      - destruct Hxz as [(-> & [= <-] & _)|[_ Hxz]].
        + right. split; [done|]. destruct IH as [?|[_ ?]]; [by apply tc_rtc|done].
        + destruct IH as [?|[? ?]]; [left; by eapply tc_l|right; split; [by eapply rtc_l|done]]. }
    intros x [Htc|[Hxc Hpx]]%Hsplit; [by apply (Ha x)|].
    assert (Hpc : rtc (parent_of v) p c) by (by etransitivity).
    apply rtc_tc in Hpc as [->|?]; done.
Qed.

Lemma asset_change_hierarchy v v' :
  asset_change v v' -> well_keyed v -> hierarchy_ok v -> hierarchy_ok v'.
Proof.
  intros Hch Hk Hok. destruct Hch as [E|id nft ty o parent Hid Hid0 Hpar E|id a o Ha _ Hnp _ E|id a s Ha _ E
    |p c pa ca Hpa Hca Hne _ _ Hnp Hno E|p c ca Hca _ E].
  - by eapply hierarchy_ext.
  - eapply hierarchy_ext; [exact E|]. by apply hierarchy_mint.
  - eapply hierarchy_ext; [exact E|]. eapply (hierarchy_sub v); [|intros; by apply overwrite_dom|done].
    intros x y [(-> & Hy & _)|[_ ?]]%overwrite_parent; [simpl in Hy; congruence|done].
  - eapply hierarchy_ext; [exact E|]. eapply (hierarchy_sub v); [|intros; by apply overwrite_dom|done].
    intros x y [(-> & Hy & ?)|[_ ?]]%overwrite_parent; [by exists a|done].
  - eapply hierarchy_ext; [exact E|]. eapply hierarchy_attach; eauto.
  - eapply hierarchy_ext; [exact E|]. eapply (hierarchy_sub v); [|intros; by apply overwrite_dom|done].
    intros x y [(-> & Hy & ?)|[_ ?]]%overwrite_parent; done.
Qed.

Lemma asset_change_keyed v v' : asset_change v v' -> well_keyed v -> well_keyed v'.
Proof.
  intros Hch Hk. assert (Hov : forall id a, Asset.assetId a = id -> id <> "" -> well_keyed (overwrite id a v)).
  { intros id a Hid Hid0 k b. unfold overwrite. destruct (String.eqb_spec k id) as [->|]; [by intros [= <-]|apply Hk]. }
  destruct Hch as [E|id nft ty o parent Hid Hid0 Hpar E|id a o Ha _ Hnp _ E|id a s Ha _ E
    |p c pa ca Hpa Hca Hne _ _ Hnp Hno E|p c ca Hca _ E];
    intros k b; rewrite E; [apply Hk|by apply Hov| | | |];
    (destruct (Hk _ _ Ha) || destruct (Hk _ _ Hca)); by apply Hov.
Qed.

(** A decommissioned asset keeps its status, its owner and its type. *)
Definition retired (a a' : Asset.t) : Prop :=
  Asset.status a' = DECOMMISSIONED /\ Asset.ownerId a' = Asset.ownerId a /\
  Asset.custodianId a' = Asset.custodianId a /\ Asset.assetType a' = Asset.assetType a /\ Asset.nftId a' = Asset.nftId a.

Lemma asset_change_retired v v' id a :
  asset_change v v' -> v id = Some a -> Asset.status a = DECOMMISSIONED ->
  exists a', v' id = Some a' /\ retired a a'.
Proof.
  intros Hch Ha Hde. unfold retired.
  destruct Hch as [E|id' nft ty o parent Hid Hid0 Hpar E|id' b o Hb ? Hnp _ E|id' b s Hb Hal E
    |p c pa ca Hpa Hca Hne _ ? Hnp Hno E|p c ca Hca _ E]; setoid_rewrite E; unfold overwrite; [by eauto 10|..];
    match goal with |- context [String.eqb id ?k] => destruct (String.eqb_spec id k) as [->|] end; try by eauto 10.
  - congruence.
  - congruence.
  - rewrite Ha in Hb. injection Hb as <-. rewrite Hde in Hal. by apply list_elem_of_In in Hal.
  - congruence.
  - rewrite Ha in Hca. injection Hca as <-. eexists. split; [done|]. done.
Qed.

(** ** The theorems *)

Section Theorems.
Context `{Platform} {C : Type} `{RC : ReadableChain C} `{Wiring}.
Abbreviation W := (World C).

(** Reading is stable: [getById] returns the merged view of chain and
    caches, and although it rewrites the cache, no later read of any asset
    gives a different answer. *)
Theorem getById_stable id (w : W) :
  exists w', getById id w = (inr (view w id), w') /\ w_chain w' = w_chain w /\
    w_assetRecords w' = w_assetRecords w /\ forall k, view w' k = view w k.
Proof.
  exists (refresh id w). rewrite getById_run. split; [done|].
  split; [|split; [|apply view_refresh]]; unfold refresh; by destruct (get id (chain_assets _)).
Qed.

(** The cycle check terminates on every state, even one whose stored
    hierarchy is itself cyclic: more fuel than known asset ids is enough. *)
Theorem cycle_check_terminates fuel p c (w w' : W) r :
  (known_ids w < fuel)%nat -> assertNoCycle fuel p c w = (r, w') -> r <> inl OutOfFuel.
Proof.
  intros Hf Hrun. unfold assertNoCycle in Hrun. rewrite (bind_run _ _ _ _ _ (getById_run _ _)) in Hrun.
  pose proof (own_ids_bound w). eapply (loop_terminates (own_ids w)) in Hrun; [done| |apply List.NoDup_nil|intros ? []| |].
  - intros id a. rewrite view_refresh. apply own_ids_view.
  - simpl. lia.
  - right. exists p. by rewrite view_refresh.
Qed.

(** In a sound hierarchy the cycle check lets a component through exactly
    when it is not above the intended parent. *)
Theorem cycle_check_exact fuel p c (w : W) :
  (known_ids w < fuel)%nat -> well_keyed (view w) -> hierarchy_ok (view w) ->
  (exists w', assertNoCycle fuel p c w = (inr tt, w')) <-> ~ tc (parent_of (view w)) p c.
Proof.
  intros Hf Hk Hok. pose proof (own_ids_bound w).
  destruct (loop_exact (own_ids w) (view w) fuel c p [] (refresh p w)) as (r & w' & Hrun & Hr); try done.
  - intros k. apply view_refresh.
  - intros id a. apply own_ids_view.
  - apply List.NoDup_nil.
  - simpl. lia.
  - unfold assertNoCycle. rewrite (bind_run _ _ _ _ _ (getById_run _ _)), Hrun, <- Hr. split.
    + by intros [? [= -> ->]].
    + intros ->. eauto.
Qed.

(** What a request to prepare carries, and the mutation it stands for. *)
Definition mutation_request (m : AssetMutation) (a b : string) (cu : option string) : payload :=
  match m with
  | A_TRANSFER => [("assetId", VStr a); ("newOwnerId", VStr b); ("newCustodianId", opt_value cu)]
  | A_STATE_CHANGE => [("assetId", VStr a); ("newState", VStr b)]
  | A_ATTACH | A_REMOVE => [("parentAssetId", VStr a); ("componentId", VStr b)]
  end.
Definition run_asset_mutation (fuel : nat) (m : AssetMutation) (a b : string) (cu : option string)
    (actor : option Actor.t) : M exn W Asset.t :=
  match m with
  | A_TRANSFER => transfer a b cu actor
  | A_STATE_CHANGE => changeAssetState a b actor
  | A_ATTACH => attachComponent fuel a b actor
  | A_REMOVE => removeComponent a b actor
  end.
Definition written_asset (m : AssetMutation) (a b : string) : string :=
  match m with A_TRANSFER | A_STATE_CHANGE => a | A_ATTACH | A_REMOVE => b end.

Lemma requiredString_trimmed s f (w : W) :
  blank s = false -> trim s = s -> requiredString (VStr s) f w = (inr s, w).
Proof. unfold requiredString. intros -> ->. done. Qed.

(** Run the common first computation of both sides. *)
Ltac in_step :=
  match goal with |- exists _, (?m ≫= _) ?w = _ =>
    let E := fresh "E" in destruct (m w) as [[?|?] ?] eqn:E;
    [exists (Asset.mk "" "" "" "" "" None Asset_ACTIVE); rewrite !(bind_throw _ _ _ _ _ E); reflexivity
    |rewrite !(bind_run _ _ _ _ _ E); clear E]
  end.

(** Preparing an asset mutation decides as the mutation does: for trimmed
    ids, the mutation is [prepare]'s checks and payload followed by the
    submission of exactly that payload. *)
Theorem asset_prepare_agrees fuel m a b cu actor (w : W) :
  blank a = false -> trim a = a -> (m = A_ATTACH \/ m = A_REMOVE -> blank b = false /\ trim b = b) ->
  exists fallback, run_asset_mutation fuel m a b cu actor w =
    match prepare_payload fuel m (mutation_request m a b cu) w with
    | (inl e, w') => (inl e, w')
    | (inr p, w') => submit_and_store (written_asset m a b) (asset_mutation_type m) actor p fallback w'
    end.
Proof.
  intros Hb Ht Hcomp. set (dummy := Asset.mk "" "" "" "" "" None Asset_ACTIVE).
  destruct m; unfold run_asset_mutation, prepare_payload, mutation_request, written_asset, asset_mutation_type.
  - change (field "assetId" _) with (VStr a). change (field "newOwnerId" _) with (VStr b).
    change (field "newCustodianId" _) with (opt_value cu).
    rewrite (bind_run _ _ _ _ _ (requiredString_trimmed _ _ _ Hb Ht)). unfold transfer.
    destruct cu as [cu|]; cbn [opt_value]; do 8 in_step; by eexists.
  - change (field "assetId" _) with (VStr a). change (field "newState" _) with (VStr b).
    rewrite (bind_run _ _ _ _ _ (requiredString_trimmed _ _ _ Hb Ht)). unfold changeAssetState.
    do 3 in_step. by eexists.
  - change (field "parentAssetId" _) with (VStr a). change (field "componentId" _) with (VStr b).
    destruct Hcomp as [Hb' Ht']; [tauto|]. rewrite (bind_run _ _ _ _ _ (requiredString_trimmed _ _ _ Hb Ht)),
      (bind_run _ _ _ _ _ (requiredString_trimmed _ _ _ Hb' Ht')). unfold attachComponent.
    do 2 in_step. rewrite decide_True by done. rewrite !bind_assoc. in_step. rewrite !bind_assoc. in_step.
    rewrite !bind_assoc. do 2 in_step. by eexists.
  - change (field "parentAssetId" _) with (VStr a). change (field "componentId" _) with (VStr b).
    destruct Hcomp as [Hb' Ht']; [tauto|]. rewrite (bind_run _ _ _ _ _ (requiredString_trimmed _ _ _ Hb Ht)),
      (bind_run _ _ _ _ _ (requiredString_trimmed _ _ _ Hb' Ht')). unfold removeComponent.
    do 2 in_step. rewrite decide_False by done. in_step. by eexists.
Qed.
End Theorems.

Section MockTheorems.
Context `{Platform} `{Wiring}.
Abbreviation W := (World MockChain).

(** A step of the process: a call to the asset service, whether it returns
    or throws, or any activity that leaves the registry as it is. *)
Definition asset_step (w w' : W) : Prop :=
  (exists fuel c actor r, run_asset_call fuel c actor w = (r, w')) \/ same_view w w'.

Lemma asset_step_change (w w' : W) :
  well_keyed (view w) -> asset_step w w' -> asset_change (view w) (view w').
Proof. intros Hk [(fuel & c & actor & r & Hrun)|Hs]; [by eapply call_simulates|by apply change_none]. Qed.

Lemma asset_steps_keyed (w w' : W) : rtc asset_step w w' -> well_keyed (view w) -> well_keyed (view w').
Proof. induction 1; intros Hk; eauto using asset_change_keyed, asset_step_change. Qed.

(** C12: Read-after-write refinement: on the mock chain every call of the
    service, whether it returns or throws, is one step of the abstract
    registry: nothing changed, or exactly one asset was minted, transferred,
    moved along the state table, attached without closing a cycle, or
    detached. *)
Theorem registry_refinement fuel c actor (w w' : W) r :
  well_keyed (view w) -> run_asset_call fuel c actor w = (r, w') -> asset_change (view w) (view w').
Proof. apply call_simulates. Qed.

Lemma empty_registry_ok (w : W) : (forall k, view w k = None) -> well_keyed (view w) /\ hierarchy_ok (view w).
Proof.
  intros Hempty. assert (Hno : forall a b, ~ parent_of (view w) a b) by (intros a b (x & Hx & _); by rewrite Hempty in Hx).
  split; [intros k a; by rewrite Hempty|]. split; [intros a b Hab; by apply Hno in Hab|].
  intros a Htc. destruct Htc as [? ? Hab|? ? ? Hab]; by apply Hno in Hab.
Qed.

Lemma asset_steps_sound (w w' : W) :
  rtc asset_step w w' -> well_keyed (view w) -> hierarchy_ok (view w) -> well_keyed (view w') /\ hierarchy_ok (view w').
Proof.
  induction 1 as [w|w w1 w' Hstep _ IH]; intros Hk Hh; [done|].
  apply asset_step_change in Hstep; [|done].
  apply IH; eauto using asset_change_keyed, asset_change_hierarchy.
Qed.

(** C13: On the mock chain, whatever asset calls are made on an empty registry
    one after the other, each to its end, each asset is found under its own
    non-empty id, every parent exists and no asset is, directly or through
    others, a component of itself.  (Two calls at once can close a cycle there,
    [AssetRaces.mock_attached_both].) *)
Theorem hierarchy_invariant (w w' : W) :
  (forall k, view w k = None) -> rtc asset_step w w' -> well_keyed (view w') /\ hierarchy_ok (view w').
Proof.
  intros Hempty Hsteps. destruct (empty_registry_ok _ Hempty). by eapply asset_steps_sound.
Qed.

(** DECOMMISSIONED is final: whatever calls follow, the asset stays
    decommissioned with the same owner, custodian, type and token. *)
Theorem decommissioned_is_final (w w' : W) id a :
  well_keyed (view w) -> rtc asset_step w w' -> view w id = Some a -> Asset.status a = DECOMMISSIONED ->
  exists a', view w' id = Some a' /\ retired a a'.
Proof.
  intros Hk Hsteps. revert a. induction Hsteps as [w|w w1 w' Hstep _ IH]; intros a Ha Hde.
  - by exists a.
  - pose proof (asset_step_change _ _ Hk Hstep) as Hch.
    destruct (asset_change_retired _ _ _ _ Hch Ha Hde) as (a1 & Ha1 & Hr).
    destruct (IH (asset_change_keyed _ _ Hch Hk) a1 Ha1) as (a' & Ha' & Hr'); [apply Hr|].
    exists a'. split; [done|]. unfold retired in *. intuition congruence.
Qed.
End MockTheorems.

(** ** Concrete runs *)

#[local] Existing Instance dev.
#[local] Instance asset_wiring : Wiring := {| wired_assets := true; wired_identityExists := false |}.

Fixpoint run_asset_calls (l : list asset_call) (w : World MockChain) : World MockChain :=
  match l with
  | [] => w
  | c :: l' => run_asset_calls l' (snd (run_asset_call 10 c (Actor.mk "mia" "w-mia" None) w))
  end.
Lemma run_asset_calls_steps l w : rtc asset_step w (run_asset_calls l w).
Proof.
  revert w. induction l as [|c l IH]; intros w; simpl; [done|].
  destruct (run_asset_call 10 c (Actor.mk "mia" "w-mia" None) w) as [r w1] eqn:E.
  eapply rtc_l; [|apply IH]. left. by eexists _, _, _, _.
Qed.
Lemma run_asset_calls_app l k w : run_asset_calls (l ++ k) w = run_asset_calls k (run_asset_calls l w).
Proof. revert w. induction l as [|c l IH]; intros w; simpl; auto. Qed.

Definition mint (id : string) (parent : option string) : asset_call :=
  Asset_create (PartialAsset.mk (Some id) (Some "pump") (Some "mia") (Some "mia") parent).
Definition demo_hierarchy : list asset_call :=
  [mint "A" None; mint "B" None; mint "C" None; Asset_attach "A" "B"; Asset_attach "B" "C"; Asset_attach "C" "A"].
Definition demo_retire : list asset_call := [Asset_remove "A" "B"; Asset_state "B" "DECOMMISSIONED"].
Definition demo_revive : list asset_call :=
  [Asset_state "B" "ACTIVE"; Asset_transfer "B" "bob" None; Asset_attach "A" "B"; Asset_remove "B" "C"].

Lemma view_empty k : view empty_world k = None.
Proof. reflexivity. Qed.

Lemma hierarchy_invariant_witness :
  let w := run_asset_calls demo_hierarchy empty_world in
  (well_keyed (view w) /\ hierarchy_ok (view w)) /\
  (view w "B" ≫= Asset.parentAssetId) = Some "A" /\ (view w "C" ≫= Asset.parentAssetId) = Some "B" /\
  (view w "A" ≫= Asset.parentAssetId) = None.
Proof.
  split; [|vm_compute; auto].
  apply (hierarchy_invariant empty_world); [apply view_empty|apply run_asset_calls_steps].
Defined.

Lemma demo_keyed l : well_keyed (view (run_asset_calls l empty_world)).
Proof. eapply asset_steps_keyed; [apply run_asset_calls_steps|]. intros k a. by rewrite view_empty. Qed.

Lemma decommissioned_is_final_witness :
  exists a a', view (run_asset_calls (demo_hierarchy ++ demo_retire) empty_world) "B" = Some a /\
    view (run_asset_calls ((demo_hierarchy ++ demo_retire) ++ demo_revive) empty_world) "B" = Some a' /\ retired a a'.
Proof.
  destruct (view (run_asset_calls (demo_hierarchy ++ demo_retire) empty_world) "B") as [a|] eqn:Ea; [|by vm_compute in Ea].
  exists a. rewrite run_asset_calls_app.
  destruct (decommissioned_is_final (run_asset_calls (demo_hierarchy ++ demo_retire) empty_world)
    (run_asset_calls demo_revive (run_asset_calls (demo_hierarchy ++ demo_retire) empty_world)) "B" a) as (a' & ? & ?).
  - apply demo_keyed.
  - apply run_asset_calls_steps.
  - exact Ea.
  - vm_compute in Ea. by injection Ea as <-.
  - exists a'. split; [reflexivity|split; assumption].
Defined.

Lemma registry_refinement_witness :
  let w := run_asset_calls demo_hierarchy empty_world in
  asset_change (view w) (view (snd (run_asset_call 10 (Asset_remove "B" "C") (Actor.mk "mia" "w-mia" None) w))) /\
  (Asset.parentAssetId <$> view (snd (run_asset_call 10 (Asset_remove "B" "C") (Actor.mk "mia" "w-mia" None) w)) "C") = Some None.
Proof.
  split; [|vm_compute; reflexivity].
  destruct (run_asset_call 10 (Asset_remove "B" "C") (Actor.mk "mia" "w-mia" None) (run_asset_calls demo_hierarchy empty_world)) as [r w'] eqn:E.
  apply (registry_refinement 10 (Asset_remove "B" "C") (Actor.mk "mia" "w-mia" None) _ _ r); [apply demo_keyed|exact E].
Defined.

(** A stored hierarchy with a cycle, as a restored backup could hold it. *)
Definition cyclic_world : World MockChain :=
  upd_assetRecords (fun _ => [("A", Asset.mk "A" "1" "pump" "m" "m" (Some "B") Asset_ACTIVE);
                              ("B", Asset.mk "B" "2" "pump" "m" "m" (Some "A") Asset_ACTIVE)]) empty_world.
Lemma cycle_check_terminates_witness :
  fst (assertNoCycle 3 "A" "Z" cyclic_world) = inl (ValidationError ["Asset component hierarchy contains a cycle"]) /\
  fst (assertNoCycle 3 "A" "Z" cyclic_world) <> inl OutOfFuel.
Proof.
  split; [vm_compute; reflexivity|].
  destruct (assertNoCycle 3 "A" "Z" cyclic_world) as [r w'] eqn:E.
  apply (cycle_check_terminates 3 "A" "Z" cyclic_world w' r); [vm_compute; lia|exact E].
Defined.

Lemma cycle_check_exact_witness :
  let w := run_asset_calls demo_hierarchy empty_world in
  (exists w', assertNoCycle 10 "A" "C" w = (inr tt, w')) /\ ~ (exists w', assertNoCycle 10 "C" "A" w = (inr tt, w')) /\
  ~ tc (parent_of (view w)) "A" "C".
Proof.
  assert (Hsound : well_keyed (view (run_asset_calls demo_hierarchy empty_world)) /\
                   hierarchy_ok (view (run_asset_calls demo_hierarchy empty_world))).
  { destruct (empty_registry_ok empty_world view_empty). by eapply asset_steps_sound; [apply run_asset_calls_steps|..]. }
  split; [|split].
  - destruct (assertNoCycle 10 "A" "C" (run_asset_calls demo_hierarchy empty_world)) as [r w'] eqn:E.
    assert (r = inr tt) as -> by (vm_compute in E; by injection E as <- _). eauto.
  - intros [w' E]. vm_compute in E. discriminate.
  - apply (cycle_check_exact 10 "A" "C" (run_asset_calls demo_hierarchy empty_world)); [vm_compute; lia|apply Hsound|apply Hsound|].
    destruct (assertNoCycle 10 "A" "C" (run_asset_calls demo_hierarchy empty_world)) as [r w'] eqn:E.
    assert (r = inr tt) as -> by (vm_compute in E; by injection E as <- _). eauto.
Defined.

Lemma asset_prepare_agrees_witness :
  exists fallback, run_asset_mutation 5 A_TRANSFER "A" "bob" None (Some (Actor.mk "mia" "w" None)) (run_asset_calls demo_hierarchy empty_world) =
    match prepare_payload 5 A_TRANSFER (mutation_request A_TRANSFER "A" "bob" None) (run_asset_calls demo_hierarchy empty_world) with
    | (inl e, w') => (inl e, w')
    | (inr p, w') => submit_and_store "A" ASSET_TRANSFER (Some (Actor.mk "mia" "w" None)) p fallback w'
    end.
Proof.
  apply (asset_prepare_agrees 5 A_TRANSFER "A" "bob" None (Some (Actor.mk "mia" "w" None)));
    [reflexivity|reflexivity|intros [?|?]; discriminate].
Defined.
