(* ===== verification/Jobs.v ===== *)
(** * Jobs: the maintenance-job service of [backend/src/jobs/jobs.service.ts]

    Every method is a computation over the [World]; the blockchain service is
    any implementation of the interface, so nothing is assumed about which
    transactions it accepts. *)
From S2P Require Import Prelude Effects JsString JsMap JsValue Shared Errors World Repositories.
From stdpp Require Import relations.
Local Open Scope string_scope.
Local Open Scope list_scope.

(** The statically typed view of [Partial<Job>]. *)
Module PartialJob.
Record t := mk {
  jobId : option string; assetId : option string; createdBy : option string;
  verifierId : option string; priority : option JobPriority }.
End PartialJob.

Definition ALLOWED_TRANSITIONS (s : JobStatus) : list JobStatus :=
  match s with
  | CREATED => [ASSIGNED]
  | ASSIGNED => [IN_PROGRESS]
  | IN_PROGRESS => [COMPLETED]
  | COMPLETED => [VERIFIED; REJECTED]
  | VERIFIED => []
  | REJECTED => [ASSIGNED]
  end.

(** [JobMutation] *)
Inductive JobMutation := M_ASSIGN | M_START | M_COMPLETE | M_APPROVE | M_REJECT.
Definition mutation_type (m : JobMutation) : TransactionType :=
  match m with
  | M_ASSIGN => JOB_ASSIGN | M_START => JOB_START | M_COMPLETE => JOB_COMPLETE
  | M_APPROVE => JOB_APPROVE | M_REJECT => JOB_REJECT
  end.

(** [/^[0-9a-f]{64}$/i.test(evidenceHash)] *)
Definition valid_evidence_hash (s : string) : bool := is_hex_of_length 64 s.

Section JobsService.
Context `{Platform} {C : Type} `{BlockchainService C} `{Wiring}.
Abbreviation W := (World C).
Abbreviation MW := (M exn (World C)).

Definition assertTransition (current next : JobStatus) : MW unit :=
  throw_if (negb (bool_decide (next ∈ ALLOWED_TRANSITIONS current)))
    (Error ("Invalid job transition: " +:+ JobStatus_string current +:+ " -> " +:+ JobStatus_string next)).

Definition requireAssignedTechnician (job : Job.t) (actor : Actor.t) : MW unit :=
  throw_if (bool_decide (Job.assignedTo job = "") || negb (String.eqb (Job.assignedTo job) (Actor.identityId actor)))
    (ForbiddenError "Only the assigned technician may perform maintenance").

Definition requireIndependentVerifier (job : Job.t) (actor : Actor.t) : MW unit :=
  throw_if (String.eqb (Job.assignedTo job) (Actor.identityId actor))
    (ForbiddenError "The assigned technician cannot verify their own work");;
  throw_if (truthy_string (Job.verifierId job) &&
            negb (bool_decide (Job.verifierId job = Some (Actor.identityId actor))))
    (ForbiddenError "Only the assigned verifier may verify this job").

(** [Boolean(await repositories.identities.findById(id))], when wired. *)
Definition check_identity (id : string) : MW unit :=
  if wired_identityExists
  then o ← identities_findById id; throw_if (negb (bool_decide (is_Some o))) (NotFoundError ("No identity " +:+ id))
  else mret tt.

Definition revert_detail (r : option DecodedRevert.t) : string :=
  match r with
  | None => ""
  | Some v => ": " +:+ DecodedRevert.name v +:+ "(" +:+ join_strings ", " (DecodedRevert.args v) +:+ ") — " +:+ DecodedRevert.message v
  end.

Definition submit (type : TransactionType) (actor : Actor.t) (p : payload) : MW unit :=
  let signature := trim <$> Actor.signature actor in
  throw_if (evmCryptoEnabled && (negb (truthy_string signature) || bool_decide (signature = Some "development")))
    (BlockchainError SIGNER ("A device-signed raw transaction is required for EVM " +:+ TransactionType_string type));;
  txId ← randomUUID;
  timestamp ← nowISO;
  result ← on_chain (submitTransaction (Transaction.mk txId type (Actor.identityId actor)
    (Actor.walletAddress actor) p timestamp
    (if truthy_string signature then default "" signature else "development")));
  throw_if (negb (bool_decide (TxResult.status result = SUCCESS)))
    (Error ("Blockchain rejected " +:+ TransactionType_string type +:+ revert_detail (TxResult.revert result))).

Definition list_jobs : MW (list Job.t) := jobs_list.

Definition required (o : option string) (message : string) : list string :=
  match o with
  | None => [message]
  | Some s => if blank s then [message] else []
  end.

Definition create (input : PartialJob.t) (actor : Actor.t) : MW Job.t :=
  let errors := required (PartialJob.assetId input) "assetId is required"
    ++ required (PartialJob.createdBy input) "createdBy is required"
    ++ (match PartialJob.priority input with None => ["priority is required"] | Some _ => [] end) in
  throw_if (negb (bool_decide (errors = []))) (ValidationError errors);;
  jobId ← (match PartialJob.jobId input with
           | Some s => if blank s then n ← jobs_list; mret ("JOB-" +:+ pretty (length n + 1)%nat) else mret (trim s)
           | None => n ← jobs_list; mret ("JOB-" +:+ pretty (length n + 1)%nat)
           end);
  createdAt ← nowISO;
  let job := Job.mk jobId (default "" (PartialJob.assetId input)) (default "" (PartialJob.createdBy input))
    "" (PartialJob.verifierId input) CREATED (default MEDIUM (PartialJob.priority input)) createdAt None in
  (if wired_assets
   then a ← assets_findById (Job.assetId job);
        throw_if (negb (bool_decide (is_Some a))) (NotFoundError ("No asset " +:+ Job.assetId job))
   else mret tt);;
  check_identity (Job.createdBy job);;
  dup ← jobs_findById (Job.jobId job);
  throw_if (bool_decide (is_Some dup)) (ValidationError ["jobId " +:+ Job.jobId job +:+ " already exists"]);;
  submit JOB_CREATE actor [("jobId", VStr (Job.jobId job)); ("assetId", VStr (Job.assetId job))];;
  jobs_save job;;
  mret job.

Definition assign (id technicianId : string) (actor : Actor.t) : MW Job.t :=
  found ← jobs_findById id;
  job ← require found (NotFoundError ("No job " +:+ id));
  throw_if (blank technicianId) (ValidationError ["technicianId is required"]);;
  check_identity technicianId;;
  assertTransition (Job.status job) ASSIGNED;;
  submit JOB_ASSIGN actor [("jobId", VStr (Job.jobId job)); ("technicianId", VStr technicianId)];;
  let job' := Job.assigned technicianId job in
  jobs_save job';;
  mret job'.

Definition start (id : string) (actor : Actor.t) : MW Job.t :=
  found ← jobs_findById id;
  job ← require found (NotFoundError ("No job " +:+ id));
  assertTransition (Job.status job) IN_PROGRESS;;
  requireAssignedTechnician job actor;;
  submit JOB_START actor [("jobId", VStr (Job.jobId job))];;
  let job' := Job.started job in
  jobs_save job';;
  mret job'.

Definition complete (id evidenceHash : string) (actor : Actor.t) : MW Job.t :=
  found ← jobs_findById id;
  job ← require found (NotFoundError ("No job " +:+ id));
  throw_if (negb (valid_evidence_hash evidenceHash))
    (ValidationError ["evidenceHash must be a 64-character SHA-256 hex digest"]);;
  assertTransition (Job.status job) COMPLETED;;
  requireAssignedTechnician job actor;;
  submit JOB_COMPLETE actor [("jobId", VStr (Job.jobId job)); ("evidenceHash", VStr evidenceHash)];;
  completedAt ← nowISO;
  let job' := Job.completed completedAt job in
  jobs_save job';;
  mret job'.

Definition approve (id : string) (actor : Actor.t) : MW Job.t :=
  found ← jobs_findById id;
  job ← require found (NotFoundError ("No job " +:+ id));
  assertTransition (Job.status job) VERIFIED;;
  requireIndependentVerifier job actor;;
  submit JOB_APPROVE actor [("jobId", VStr (Job.jobId job))];;
  let job' := Job.judged VERIFIED (Actor.identityId actor) job in
  jobs_save job';;
  mret job'.

Definition reject (id reason : string) (actor : Actor.t) : MW Job.t :=
  found ← jobs_findById id;
  job ← require found (NotFoundError ("No job " +:+ id));
  throw_if (blank reason) (ValidationError ["reason is required"]);;
  assertTransition (Job.status job) REJECTED;;
  requireIndependentVerifier job actor;;
  submit JOB_REJECT actor [("jobId", VStr (Job.jobId job)); ("reason", VStr reason)];;
  let job' := Job.judged REJECTED (Actor.identityId actor) job in
  jobs_save job';;
  mret job'.

(** The checks of [prepare], per mutation type, on the raw payload. *)
Definition prepare_checks (type : JobMutation) (job : Job.t) (p : payload) (actor : Actor.t) : MW unit :=
  match type with
  | M_ASSIGN =>
      match field "technicianId" p with
      | VStr technicianId =>
          throw_if (blank technicianId) (ValidationError ["technicianId is required"]);;
          check_identity technicianId;;
          assertTransition (Job.status job) ASSIGNED
      | _ => throw (ValidationError ["technicianId is required"])
      end
  | M_START =>
      assertTransition (Job.status job) IN_PROGRESS;;
      requireAssignedTechnician job actor
  | M_COMPLETE =>
      match field "evidenceHash" p with
      | VStr h =>
          throw_if (negb (valid_evidence_hash h)) (ValidationError ["evidenceHash must be a 64-character SHA-256 hex digest"]);;
          assertTransition (Job.status job) COMPLETED;;
          requireAssignedTechnician job actor
      | _ => throw (ValidationError ["evidenceHash must be a 64-character SHA-256 hex digest"])
      end
  | M_APPROVE =>
      assertTransition (Job.status job) VERIFIED;;
      requireIndependentVerifier job actor
  | M_REJECT =>
      match field "reason" p with
      | VStr reason =>
          throw_if (blank reason) (ValidationError ["reason is required"]);;
          assertTransition (Job.status job) REJECTED;;
          requireIndependentVerifier job actor
      | _ => throw (ValidationError ["reason is required"])
      end
  end.

Definition prepare (type : JobMutation) (id : string) (p : payload) (actor : Actor.t) : MW PreparedTransaction.t :=
  found ← jobs_findById id;
  job ← require found (NotFoundError ("No job " +:+ id));
  prepare_checks type job p actor;;
  match prepareTransaction with
  | None => throw (NotImplementedError "Device transaction preparation is unavailable")
  | Some prepareTransaction =>
      txId ← randomUUID;
      timestamp ← nowISO;
      on_chain (prepareTransaction (Transaction.mk txId (mutation_type type) (Actor.identityId actor)
        (Actor.walletAddress actor) (spread [("jobId", VStr id)] p) timestamp "development"))
  end.
End JobsService.

(** ** Abstract view: one mutation as a guarded update of one job *)

Definition mutation_target (m : JobMutation) : JobStatus :=
  match m with
  | M_ASSIGN => ASSIGNED | M_START => IN_PROGRESS | M_COMPLETE => COMPLETED
  | M_APPROVE => VERIFIED | M_REJECT => REJECTED
  end.

(** What the actor must be to the job. *)
Definition authorised (m : JobMutation) (j : Job.t) (actor : Actor.t) : Prop :=
  match m with
  | M_ASSIGN => True
  | M_START | M_COMPLETE => Job.assignedTo j <> "" /\ Job.assignedTo j = Actor.identityId actor
  | M_APPROVE | M_REJECT =>
      Job.assignedTo j <> Actor.identityId actor /\
      (truthy_string (Job.verifierId j) = true -> Job.verifierId j = Some (Actor.identityId actor))
  end.

Definition arg_ok (m : JobMutation) (arg : string) : Prop :=
  match m with
  | M_ASSIGN | M_REJECT => blank arg = false
  | M_COMPLETE => valid_evidence_hash arg = true
  | _ => True
  end.

Definition mutation_effect (m : JobMutation) (arg now : string) (actor : Actor.t) (j : Job.t) : Job.t :=
  match m with
  | M_ASSIGN => Job.assigned arg j
  | M_START => Job.started j
  | M_COMPLETE => Job.completed now j
  | M_APPROVE => Job.judged VERIFIED (Actor.identityId actor) j
  | M_REJECT => Job.judged REJECTED (Actor.identityId actor) j
  end.

(** The payload of the transaction a mutation submits. *)
Definition mutation_payload (m : JobMutation) (jobId arg : string) : payload :=
  match m with
  | M_ASSIGN => [("jobId", VStr jobId); ("technicianId", VStr arg)]
  | M_COMPLETE => [("jobId", VStr jobId); ("evidenceHash", VStr arg)]
  | M_REJECT => [("jobId", VStr jobId); ("reason", VStr arg)]
  | M_START | M_APPROVE => [("jobId", VStr jobId)]
  end.
(** The payload the routes hand to [prepare]. *)
Definition request_payload (m : JobMutation) (arg : string) : payload :=
  match m with
  | M_ASSIGN => [("technicianId", VStr arg)]
  | M_COMPLETE => [("evidenceHash", VStr arg)]
  | M_REJECT => [("reason", VStr arg)]
  | M_START | M_APPROVE => []
  end.

Section JobsFacts.
Context `{PF : Platform} {C : Type} `{BlockchainService C} `{Wiring}.
Abbreviation W := (World C).

Definition run_mutation (m : JobMutation) (id arg : string) (actor : Actor.t) : M exn W Job.t :=
  match m with
  | M_ASSIGN => assign id arg actor
  | M_START => start id actor
  | M_COMPLETE => complete id arg actor
  | M_APPROVE => approve id actor
  | M_REJECT => reject id arg actor
  end.

Lemma assertTransition_inr cur next (w w' : W) u :
  assertTransition cur next w = (inr u, w') <-> next ∈ ALLOWED_TRANSITIONS cur /\ w = w'.
Proof.
  unfold assertTransition. rewrite throw_if_inr, negb_false_iff, bool_decide_eq_true. done.
Qed.

Lemma requireAssignedTechnician_inr j actor (w w' : W) u :
  requireAssignedTechnician j actor w = (inr u, w') <-> authorised M_START j actor /\ w = w'.
Proof.
  unfold requireAssignedTechnician. rewrite throw_if_inr, orb_false_iff, negb_false_iff,
    bool_decide_eq_false, String.eqb_eq. done.
Qed.

Lemma requireIndependentVerifier_inr j actor (w w' : W) u :
  requireIndependentVerifier j actor w = (inr u, w') <-> authorised M_APPROVE j actor /\ w = w'.
Proof.
  unfold requireIndependentVerifier. rewrite bind_inr. setoid_rewrite throw_if_inr. simpl. split.
  - intros (_ & w1 & [?%String.eqb_neq ->] & Hv & ->). split; [|done]. split; [done|].
    intros Ht. rewrite Ht in Hv. simpl in Hv. by bool_to_prop.
  - intros [[Hne Hv] ->]. exists tt, w'. rewrite String.eqb_neq. split; [done|]. split; [|done].
    destruct (truthy_string _) eqn:Ht; [|done]. simpl.
    apply negb_false_iff, bool_decide_eq_true. auto.
Qed.

Lemma keeps_check_identity {T} (p : W -> T) id : keeps p (check_identity id).
Proof. unfold check_identity. rframe. Qed.
Lemma keeps_assertTransition {T} (p : W -> T) a b : keeps p (assertTransition a b).
Proof. unfold assertTransition. rframe. Qed.
Lemma keeps_requireAssigned {T} (p : W -> T) j a : keeps p (requireAssignedTechnician j a).
Proof. unfold requireAssignedTechnician. rframe. Qed.
Lemma keeps_requireVerifier {T} (p : W -> T) j a : keeps p (requireIndependentVerifier j a).
Proof. unfold requireIndependentVerifier. rframe. Qed.
Lemma keeps_submit {T} (p : W -> T) ty a pl :
  ambient_free p -> chain_free p -> keeps p (submit ty a pl).
Proof. intros. unfold submit. rframe. Qed.
Hint Resolve keeps_check_identity keeps_assertTransition keeps_requireAssigned
  keeps_requireVerifier keeps_submit : bel.

(** Every effect of a job mutation, when it returns. *)
Lemma mutation_success m id arg actor (w w' : W) j' :
  run_mutation m id arg actor w = (inr j', w') ->
  exists j now, get id (w_jobs w) = Some j /\ mutation_target m ∈ ALLOWED_TRANSITIONS (Job.status j) /\
    authorised m j actor /\ arg_ok m arg /\ j' = mutation_effect m arg now actor j /\
    w_jobs w' = put (Job.jobId j) j' (w_jobs w).
Proof.
  destruct m; simpl; intros Hrun; [unfold assign in Hrun | unfold start in Hrun | unfold complete in Hrun
    | unfold approve in Hrun | unfold reject in Hrun]; rinv; bool_to_prop;
  repeat match goal with
  | E : check_identity _ ?a = (_, ?b) |- _ => kept (@w_jobs C) E; clear E
  | E : submit _ _ _ ?a = (_, ?b) |- _ => kept (@w_jobs C) E; clear E
  | E : assertTransition _ _ _ = (inr _, _) |- _ => apply assertTransition_inr in E as [? ->]
  | E : requireAssignedTechnician _ _ _ = (inr _, _) |- _ => apply requireAssignedTechnician_inr in E as [? ->]
  | E : requireIndependentVerifier _ _ _ = (inr _, _) |- _ => apply requireIndependentVerifier_inr in E as [? ->]
  end; eexists _, _; (repeat split; [..|]); eauto; simpl in *; try congruence.
  all: try tauto.
  Unshelve. all: exact "".
Qed.

Lemma create_success input actor (w w' : W) j :
  create input actor w = (inr j, w') ->
  get (Job.jobId j) (w_jobs w) = None /\ w_jobs w' = put (Job.jobId j) j (w_jobs w) /\
  Job.status j = CREATED /\ Job.assignedTo j = "" /\ Job.completedAt j = None /\ Job.jobId j <> "".
Proof.
  unfold create. intros Hrun.
  apply bind_inr in Hrun as (? & w1 & E1 & Hrun). kept (@w_jobs C) E1. clear E1.
  apply bind_inr in Hrun as (jobId & w2 & E2 & Hrun). kept (@w_jobs C) E2.
  assert (Hid : jobId <> "").
  { destruct (PartialJob.jobId input) as [s|]; [destruct (blank s) eqn:Hb|]; rinv; try done.
    by apply not_blank_trim_nonempty. }
  clear E2.
  apply bind_inr in Hrun as (cr & w3 & E3 & Hrun). kept (@w_jobs C) E3. clear E3.
  apply bind_inr in Hrun as (? & w4 & E4 & Hrun). kept (@w_jobs C) E4. clear E4.
  apply bind_inr in Hrun as (? & w5 & E5 & Hrun). kept (@w_jobs C) E5. clear E5.
  rinv. bool_to_prop. apply eq_None_not_Some in H2.
  match goal with E : submit _ _ _ _ = _ |- _ => kept (@w_jobs C) E; clear E end.
  repeat split; try done; congruence.
Qed.

Lemma keeps_jobs_list_jobs {T} (p : W -> T) : keeps p list_jobs.
Proof. unfold list_jobs. rframe. Qed.

(** A mutation that throws has written no job, whatever the chain did. *)
Lemma fails_clean_save {T} (p : W -> T) {A} (v : Job.t) (a : A) : fails_clean p (jobs_save v;; mret a).
Proof. apply fails_clean_never. calm_tail. Qed.

Lemma mutation_fails_clean {T} (p : W -> T) m id arg actor :
  ambient_free p -> chain_free p -> fails_clean p (run_mutation m id arg actor).
Proof.
  intros Hp Hc. destruct m; simpl; unfold assign, start, complete, approve, reject;
    repeat (apply fails_clean_guard; [solve [rframe]|intros ?]); apply fails_clean_save.
Qed.

Lemma create_fails_clean {T} (p : W -> T) input actor :
  ambient_free p -> chain_free p -> fails_clean p (create input actor).
Proof.
  intros Hp Hc. unfold create. repeat (apply fails_clean_guard; [solve [rframe]|intros ?]). apply fails_clean_save.
Qed.
End JobsFacts.

#[export] Hint Resolve keeps_check_identity keeps_assertTransition keeps_requireAssigned
  keeps_requireVerifier keeps_submit : bel.
