(* ===== verification/JobsCorrect.v ===== *)
(** * JobsCorrect: what the maintenance-job service guarantees

    The five mutations refine one guarded update ([mutation_guard]); over any
    sequence of service calls, interleaved with anything that leaves the job
    store alone, every job keeps the lifecycle invariant [job_ok] and moves
    along [ALLOWED_TRANSITIONS] only. *)
From S2P Require Import Prelude Effects JsString JsMap JsValue Shared Errors World Repositories MockChain Concrete Jobs.
From stdpp Require Import relations.
Local Open Scope string_scope.
Local Open Scope list_scope.

(** ** Abstract specification *)

(** What is true of a stored job in each status. *)
Definition job_ok (j : Job.t) : Prop :=
  match Job.status j with
  | CREATED => Job.assignedTo j = "" /\ Job.completedAt j = None
  | ASSIGNED | IN_PROGRESS => Job.assignedTo j <> ""
  | COMPLETED => Job.assignedTo j <> "" /\ is_Some (Job.completedAt j)
  | VERIFIED | REJECTED =>
      Job.assignedTo j <> "" /\ is_Some (Job.completedAt j) /\
      exists v, Job.verifierId j = Some v /\ v <> Job.assignedTo j
  end.

(** Every job is stored under its own id and satisfies [job_ok]. *)
Definition store_ok (m : jsmap Job.t) : Prop :=
  wf m /\ forall id j, get id m = Some j -> Job.jobId j = id /\ job_ok j.

(** The fields no operation changes. *)
Definition same_job (j j' : Job.t) : Prop :=
  Job.jobId j' = Job.jobId j /\ Job.assetId j' = Job.assetId j /\ Job.createdBy j' = Job.createdBy j /\
  Job.priority j' = Job.priority j /\ Job.createdAt j' = Job.createdAt j.

Definition allowed (s s' : JobStatus) : Prop := s' ∈ ALLOWED_TRANSITIONS s.

(** The calls a client can make. *)
Inductive job_call :=
| Call_list
| Call_create (input : PartialJob.t)
| Call_mutate (m : JobMutation) (id arg : string)
| Call_prepare (m : JobMutation) (id : string) (p : payload).

(** The job store as an abstract state machine: a job appears, or one stored
    job is updated by a mutation its actor may perform. *)
Inductive store_step : jsmap Job.t -> jsmap Job.t -> Prop :=
| store_same s : store_step s s
| store_new s j :
    get (Job.jobId j) s = None -> Job.status j = CREATED -> Job.assignedTo j = "" ->
    Job.completedAt j = None -> store_step s (put (Job.jobId j) j s)
| store_update s m id arg now actor j :
    get id s = Some j -> allowed (Job.status j) (mutation_target m) -> authorised m j actor ->
    arg_ok m arg -> store_step s (put (Job.jobId j) (mutation_effect m arg now actor j) s).

Section Spec.
Context `{PF : Platform} {C : Type} `{BlockchainService C} `{Wiring}.
Abbreviation W := (World C).

Definition run_call (c : job_call) (actor : Actor.t) : M exn W unit :=
  match c with
  | Call_list => list_jobs;; mret tt
  | Call_create input => create input actor;; mret tt
  | Call_mutate m id arg => run_mutation m id arg actor;; mret tt
  | Call_prepare m id p => prepare m id p actor;; mret tt
  end.

(** A step of the process: a call to the job service, whether it returns or
    throws, or any activity that does not write the job store. *)
Definition job_step (w w' : W) : Prop :=
  (exists c actor r, run_call c actor w = (r, w')) \/ w_jobs w' = w_jobs w.

(** The checks of a mutation, as a pure function of the state: the error
    thrown, or the job found. *)
Definition guard_argument (m : JobMutation) (arg : string) (w : W) : option exn :=
  match m with
  | M_ASSIGN =>
      if blank arg then Some (ValidationError ["technicianId is required"])
      else if wired_identityExists && bool_decide (get arg (w_identities w) = None)
           then Some (NotFoundError ("No identity " +:+ arg)) else None
  | M_COMPLETE =>
      if valid_evidence_hash arg then None
      else Some (ValidationError ["evidenceHash must be a 64-character SHA-256 hex digest"])
  | M_REJECT => if blank arg then Some (ValidationError ["reason is required"]) else None
  | M_START | M_APPROVE => None
  end.

Definition guard_actor (m : JobMutation) (job : Job.t) (actor : Actor.t) : option exn :=
  match m with
  | M_ASSIGN => None
  | M_START | M_COMPLETE =>
      if decide (Job.assignedTo job <> "" /\ Job.assignedTo job = Actor.identityId actor) then None
      else Some (ForbiddenError "Only the assigned technician may perform maintenance")
  | M_APPROVE | M_REJECT =>
      if decide (Job.assignedTo job = Actor.identityId actor)
      then Some (ForbiddenError "The assigned technician cannot verify their own work")
      else match Job.verifierId job with
           | Some v =>
               if decide (v <> "" /\ v <> Actor.identityId actor)
               then Some (ForbiddenError "Only the assigned verifier may verify this job") else None
           | None => None
           end
  end.

Definition mutation_guard (m : JobMutation) (id arg : string) (actor : Actor.t) (w : W) : exn + Job.t :=
  match get id (w_jobs w) with
  | None => inl (NotFoundError ("No job " +:+ id))
  | Some job =>
      match guard_argument m arg w with
      | Some e => inl e
      | None =>
          if decide (mutation_target m ∈ ALLOWED_TRANSITIONS (Job.status job))
          then match guard_actor m job actor with Some e => inl e | None => inr job end
          else inl (Error ("Invalid job transition: " +:+ JobStatus_string (Job.status job)
                             +:+ " -> " +:+ JobStatus_string (mutation_target m)))
      end
  end.

(** What follows once the checks have passed and the chain has confirmed. *)
Definition commit (m : JobMutation) (arg : string) (actor : Actor.t) (job : Job.t) : M exn W Job.t :=
  now ← (match m with M_COMPLETE => nowISO | _ => mret "" end);
  jobs_save (mutation_effect m arg now actor job);;
  mret (mutation_effect m arg now actor job).

Definition guarded_mutation (m : JobMutation) (id arg : string) (actor : Actor.t) : M exn W Job.t := fun w =>
  match mutation_guard m id arg actor w with
  | inl e => (inl e, w)
  | inr job => (submit (mutation_type m) actor (mutation_payload m (Job.jobId job) arg);; commit m arg actor job) w
  end.

(** The signature a transaction carries, when [submit] lets it through. *)
Definition device_signature (actor : Actor.t) : option string :=
  match trim <$> Actor.signature actor with
  | Some s =>
      if decide (s = "") then (if evmCryptoEnabled then None else Some "development")
      else if evmCryptoEnabled && String.eqb s "development" then None else Some s
  | None => if evmCryptoEnabled then None else Some "development"
  end.

(** The transaction a call submits in a given state. *)
Definition job_transaction (type : TransactionType) (actor : Actor.t) (p : payload) (signature : string) (w : W) : Transaction.t :=
  Transaction.mk (randomUUID_at (w_uuidReads w)) type (Actor.identityId actor) (Actor.walletAddress actor) p
    (toISOString (Date_now (w_clockReads w))) signature.
End Spec.

(** A small deployment for the examples: the mock chain, asset and identity
    checks wired in, one asset and four people. *)
#[export] Instance demo_wiring : Wiring := {| wired_assets := true; wired_identityExists := true |}.
Definition demo_identity (id : string) : Identity.t :=
  Identity.mk id (Some id) id None None Identity_ACTIVE "t0" None None.
Definition demo_world : World MockChain :=
  upd_assetRecords (put "A1" (Asset.mk "A1" "1" "pump" "mia" "mia" None Asset_ACTIVE))
    (upd_identities (fun m => fold_right (fun id => put id (demo_identity id)) m ["mia"; "tom"; "vic"; "eve"]) empty_world).
Definition demo_actor (id : string) : Actor.t := Actor.mk id ("w-" +:+ id) None.
Definition demo_hash : string := "0123456789abcdef0123456789ABCDEF0123456789abcdef0123456789abcdef".
Definition demo_input (jobId verifier : option string) : PartialJob.t :=
  PartialJob.mk jobId (Some "A1") (Some "mia") verifier (Some HIGH).

(** Run a list of calls; an exception does not stop the caller. *)
Fixpoint run_calls `{Platform} {C} `{BlockchainService C} `{Wiring} (l : list (job_call * Actor.t)) (w : World C) : World C :=
  match l with
  | [] => w
  | (c, a) :: l' => run_calls l' (snd (run_call c a w))
  end.

(** Create, assign to tom, start, complete. *)
Definition demo_work (verifier : option string) : list (job_call * Actor.t) :=
  [(Call_create (demo_input (Some "J") verifier), demo_actor "mia");
   (Call_mutate M_ASSIGN "J" "tom", demo_actor "mia");
   (Call_mutate M_START "J" "", demo_actor "tom");
   (Call_mutate M_COMPLETE "J" demo_hash, demo_actor "tom")].

(** ** Helper lemmas *)

Create Rewrite HintDb guards.

Section Facts.
Context `{PF : Platform} {C : Type} `{BlockchainService C} `{Wiring}.
Abbreviation W := (World C).

Lemma check_identity_run id (w : W) :
  check_identity id w =
  if wired_identityExists && bool_decide (get id (w_identities w) = None)
  then (inl (NotFoundError ("No identity " +:+ id)), w) else (inr tt, w).
Proof.
  unfold check_identity. destruct wired_identityExists; [|done]. simpl.
  unfold identities_findById, gets, mbind, M_bind. by destruct (get id (w_identities w)).
Qed.

Lemma assertTransition_run s s' (w : W) :
  assertTransition s s' w =
  if decide (s' ∈ ALLOWED_TRANSITIONS s) then (inr tt, w)
  else (inl (Error ("Invalid job transition: " +:+ JobStatus_string s +:+ " -> " +:+ JobStatus_string s')), w).
Proof.
  unfold assertTransition, throw_if. case_bool_decide as E; destruct (decide _); by try done.
Qed.

Lemma requireAssignedTechnician_run j actor (w : W) :
  requireAssignedTechnician j actor w =
  match guard_actor M_START j actor with Some e => (inl e, w) | None => (inr tt, w) end.
Proof.
  unfold requireAssignedTechnician, guard_actor, throw_if.
  destruct (String.eqb_spec (Job.assignedTo j) (Actor.identityId actor)), (decide _) as [D|D];
    case_bool_decide; simpl; try done; tauto.
Qed.

Lemma requireIndependentVerifier_run j actor (w : W) :
  requireIndependentVerifier j actor w =
  match guard_actor M_APPROVE j actor with Some e => (inl e, w) | None => (inr tt, w) end.
Proof.
  unfold requireIndependentVerifier, guard_actor, throw_if, mbind, M_bind.
  destruct (String.eqb_spec (Job.assignedTo j) (Actor.identityId actor)), (decide _); try done. simpl.
  destruct (Job.verifierId j) as [v|]; [|done]. simpl.
  destruct (decide (v <> "" /\ _)) as [[]|D]; repeat case_bool_decide; simplify_eq; simpl; try done; try tauto.
  by destruct D; split; congruence.
Qed.
Hint Rewrite check_identity_run assertTransition_run requireAssignedTechnician_run
  requireIndependentVerifier_run : guards.

Lemma run_mutation_guarded m id arg actor (w : W) :
  run_mutation m id arg actor w = guarded_mutation m id arg actor w.
Proof.
  destruct m; unfold guarded_mutation, mutation_guard; simpl;
    unfold assign, start, complete, approve, reject, commit, jobs_findById, gets, require, mbind, M_bind;
    (destruct (get id (w_jobs w)) as [job|]; [simpl|done]); unfold throw_if;
    try (destruct (blank arg); [done|]); try (destruct (valid_evidence_hash arg); [|done]); simpl;
    autorewrite with guards; try (destruct (wired_identityExists && _); [done|]);
    autorewrite with guards; (destruct (decide (_ ∈ ALLOWED_TRANSITIONS _)); [|done]);
    autorewrite with guards; simpl guard_actor;
    repeat match goal with |- context [match match ?d with _ => _ end with _ => _ end] => destruct d end;
    try done.
Qed.

(** [prepare] checks what the mutation checks. *)
Lemma prepare_checks_guard m id arg job actor (w : W) :
  get id (w_jobs w) = Some job ->
  prepare_checks m job (request_payload m arg) actor w =
  match mutation_guard m id arg actor w with inl e => (inl e, w) | inr _ => (inr tt, w) end.
Proof.
  unfold mutation_guard, prepare_checks. intros ->.
  destruct m; simpl; unfold field, throw_if; simpl;
    try (destruct (blank arg); [done|]); try (destruct (valid_evidence_hash arg); [|done]); simpl;
    unfold mbind, M_bind, mret, M_ret; autorewrite with guards; try (destruct (wired_identityExists && _); [done|]);
    autorewrite with guards; (destruct (decide (_ ∈ ALLOWED_TRANSITIONS _)); [|done]);
    autorewrite with guards; simpl guard_actor;
    repeat match goal with |- context [match match ?d with _ => _ end with _ => _ end] => destruct d end;
    done.
Qed.

(** The state after a transaction has been sent, and the error message of
    one the chain refused. *)
Definition after_submit (c : C) (w : W) : W :=
  upd_chain (fun _ => c) (upd_clockReads S (upd_uuidReads S w)).
Definition rejection (type : TransactionType) (r : TxResult.t) : exn :=
  Error ("Blockchain rejected " +:+ TransactionType_string type +:+ revert_detail (TxResult.revert r)).
Definition signer_missing (type : TransactionType) : exn :=
  BlockchainError SIGNER ("A device-signed raw transaction is required for EVM " +:+ TransactionType_string type).

Lemma submit_run type actor p (w : W) :
  submit type actor p w =
  match device_signature actor with
  | None => (inl (signer_missing type), w)
  | Some sig =>
      match submitTransaction (job_transaction type actor p sig w) (w_chain w) with
      | (inl e, c) => (inl e, after_submit c w)
      | (inr r, c) =>
          (if decide (TxResult.status r = SUCCESS) then inr tt else inl (rejection type r), after_submit c w)
      end
  end.
Proof.
  unfold submit, device_signature, job_transaction.
  destruct (trim <$> Actor.signature actor) as [s|]; simpl.
  - destruct (decide (s = "")) as [->|Hs].
    + rewrite andb_true_r || rewrite orb_true_l. destruct evmCryptoEnabled; [done|].
      unfold throw_if, nowISO, now, randomUUID, on_chain, zoom, mbind, M_bind; simpl.
      destruct (submitTransaction _ _) as [[e|r] c]; [done|]. by case_bool_decide; destruct (decide _).
    + rewrite (bool_decide_eq_false_2 (s = "")) by done. simpl.
      rewrite (bool_decide_ext (Some s = Some "development") (s = "development"))
        by (split; congruence).
      destruct (String.eqb_spec s "development") as [E|E];
        [rewrite (bool_decide_eq_true_2 _ E)|rewrite (bool_decide_eq_false_2 _ E)];
        destruct evmCryptoEnabled; simpl; try done;
        unfold throw_if, nowISO, now, randomUUID, on_chain, zoom, mbind, M_bind; simpl;
        destruct (submitTransaction _ _) as [[e|r] c]; try done; by case_bool_decide; destruct (decide _).
  - destruct evmCryptoEnabled; [done|].
    unfold throw_if, nowISO, now, randomUUID, on_chain, zoom, mbind, M_bind; simpl.
    destruct (submitTransaction _ _) as [[e|r] c]; [done|]. by case_bool_decide; destruct (decide _).
Qed.

Lemma commit_run m arg actor job (w : W) :
  exists now w', commit m arg actor job w = (inr (mutation_effect m arg now actor job), w') /\
    w_chain w' = w_chain w.
Proof. destruct m; unfold commit; eexists _, _; (split; [reflexivity|done]). Qed.

Lemma guard_inr m id arg actor (w : W) j :
  mutation_guard m id arg actor w = inr j <->
  get id (w_jobs w) = Some j /\ guard_argument m arg w = None /\
  allowed (Job.status j) (mutation_target m) /\ guard_actor m j actor = None.
Proof.
  unfold mutation_guard, allowed. destruct (get id (w_jobs w)) as [job|]; [|split; [done|by intros [? _]]].
  destruct (guard_argument m arg w); [split; [done|by intros (_ & ? & _)]|].
  destruct (decide _) as [D|D]; [|split; [done|intros ([= ->] & _ & ? & _); done]].
  destruct (guard_actor m job actor) eqn:E; split; try done.
  - by intros ([= ->] & _ & _ & ?); congruence.
  - by intros [= ->].
  - by intros ([= ->] & _).
Qed.

Lemma keeps_prepare m id p actor : keeps w_jobs (prepare m id p actor : M exn W _).
Proof.
  unfold prepare. apply keeps_bind; [rframe|intros found]. apply keeps_bind; [rframe|intros job].
  apply keeps_bind; [|intros _; rframe].
  unfold prepare_checks, assertTransition, requireAssignedTechnician, requireIndependentVerifier, check_identity.
  destruct m; rframe.
Qed.

(** Simulation: every step of the process is a step of the abstract store. *)
Lemma job_step_store (w w' : W) : job_step w w' -> store_step (w_jobs w) (w_jobs w').
Proof.
  intros [(c & actor & r & Hrun)| ->]; [|constructor].
  destruct r as [e|[]].
  - replace (w_jobs w') with (w_jobs w); [constructor|]. symmetry.
    destruct c; simpl in Hrun; apply bind_inl in Hrun as [E|(? & ? & _ & [=])].
    + done.
    + by eapply (create_fails_clean w_jobs); [solve_free..|].
    + by eapply (mutation_fails_clean w_jobs); [solve_free..|].
    + eapply (keeps_run w_jobs); [apply keeps_prepare|exact E].
  - destruct c; simpl in Hrun; apply bind_inr in Hrun as (x & w1 & E & [_ ->]%mret_inr).
    + injection E as _ ->. constructor.
    + apply create_success in E as (? & -> & ? & ? & ? & ?). by constructor.
    + apply mutation_success in E as (j & now & ? & ? & ? & ? & -> & ->). by econstructor.
    + rewrite (keeps_run w_jobs _ _ _ _ (keeps_prepare _ _ _ _) E). constructor.
Qed.

Lemma job_steps_store (w w' : W) : rtc job_step w w' -> rtc store_step (w_jobs w) (w_jobs w').
Proof. induction 1; [done|]. eapply rtc_l; [by apply job_step_store|done]. Qed.
End Facts.

Lemma mutation_effect_ok m arg now actor j :
  job_ok j -> allowed (Job.status j) (mutation_target m) -> authorised m j actor -> arg_ok m arg ->
  job_ok (mutation_effect m arg now actor j).
Proof.
  unfold job_ok, allowed. destruct m, (Job.status j) eqn:Es; simpl; intros Hok Hal Hau Harg;
    try (apply list_elem_of_In in Hal; simpl in Hal; intuition discriminate); destruct_ex; rewrite ?Es; eauto using not_blank_nonempty.
Qed.

Lemma mutation_effect_same m arg now actor j :
  same_job j (mutation_effect m arg now actor j) /\
  Job.status (mutation_effect m arg now actor j) = mutation_target m.
Proof. by destruct m. Qed.

Lemma store_step_ok s s' : store_step s s' -> store_ok s -> store_ok s'.
Proof.
  intros Hstep [Hwf Hok]. destruct Hstep as [s|s j Hnew Hst Has Hco|s m id arg now actor j Hg Hal Hau Harg];
    [done| |]; (split; [by apply wf_put|]); intros k j'; rewrite get_put;
    (destruct (String.eqb_spec k (Job.jobId j)) as [->|]; [intros [= <-]|by intros ?%Hok]).
  - split; [done|]. unfold job_ok. by rewrite Hst.
  - destruct (Hok _ _ Hg) as [<- Hj]. split; [by destruct m|]. by apply mutation_effect_ok.
Qed.

Lemma store_steps_ok s s' : rtc store_step s s' -> store_ok s -> store_ok s'.
Proof. induction 1; eauto using store_step_ok. Qed.

(** What one step does to one stored job. *)
Lemma store_step_job s s' id j :
  store_step s s' -> store_ok s -> get id s = Some j ->
  exists j', get id s' = Some j' /\
    (j' = j \/ exists m arg now actor, j' = mutation_effect m arg now actor j /\
      allowed (Job.status j) (mutation_target m) /\ authorised m j actor /\ arg_ok m arg).
Proof.
  intros Hstep [Hwf Hok] Hj. destruct Hstep as [s|s j1 Hnew|s m k arg now actor j1 Hg Hal Hau Harg]; [by eauto| |].
  - exists j. rewrite get_put_ne by congruence. auto.
  - rewrite get_put. destruct (Hok _ _ Hg) as [<- _]. destruct (String.eqb_spec id (Job.jobId j1)) as [->|].
    + simplify_eq. eexists. split; [done|]. right. by eexists _, _, _, _.
    + eauto.
Qed.

Lemma same_job_trans a b c : same_job a b -> same_job b c -> same_job a c.
Proof. unfold same_job. intuition congruence. Qed.

(** A property of one stored job that every permitted mutation keeps holds
    for as long as the store evolves. *)
Lemma store_steps_keep (P : Job.t -> Prop) s s' id :
  (forall m arg now actor j, job_ok j -> P j -> allowed (Job.status j) (mutation_target m) ->
    authorised m j actor -> arg_ok m arg -> P (mutation_effect m arg now actor j)) ->
  rtc store_step s s' -> store_ok s ->
  (exists j, get id s = Some j /\ P j) -> exists j, get id s' = Some j /\ P j.
Proof.
  intros HP. induction 1 as [|s s1 s' Hstep _ IH]; [done|]. intros Hok (j & Hj & Pj).
  apply IH; [by eapply store_step_ok|].
  destruct (store_step_job _ _ _ _ Hstep Hok Hj) as (j' & Hj' & [->|(m & arg & now & actor & -> & ? & ? & ?)]);
    eexists; (split; [done|]); [done|].
  apply HP; auto. by destruct Hok as [_ Hok]; destruct (Hok _ _ Hj).
Qed.

Lemma run_calls_steps `{Platform} {C} `{BlockchainService C} `{Wiring} l (w : World C) :
  rtc job_step w (run_calls l w).
Proof.
  revert w. induction l as [|[c a] l IH]; intros w; simpl; [done|].
  destruct (run_call c a w) as [r w1] eqn:E. eapply rtc_l; [|apply IH]. left. by exists c, a, r.
Qed.

Lemma run_calls_app `{Platform} {C} `{BlockchainService C} `{Wiring} l k (w : World C) :
  run_calls (l ++ k) w = run_calls k (run_calls l w).
Proof. revert w. induction l as [|[c a] l IH]; intros w; simpl; auto. Qed.

Lemma store_ok_empty : store_ok [].
Proof. split; [constructor|done]. Qed.

(** ** The theorems *)

Section Theorems.
Context `{PF : Platform} {C : Type} `{BlockchainService C} `{Wiring}.
Abbreviation W := (World C).

(** Separation of duties as an invariant: in every state reachable from
    an empty job store, by any sequence of service calls by any actors on any
    chain, each job is stored under its id and a judged job has a completion
    time and a verifier other than its assigned technician. *)
Theorem jobs_invariant (w w' : W) :
  w_jobs w = [] -> rtc job_step w w' -> store_ok (w_jobs w').
Proof.
  intros Hw Hsteps. eapply store_steps_ok; [by apply job_steps_store|].
  rewrite Hw. apply store_ok_empty.
Qed.

(** A job never disappears, never changes its id, asset, creator,
    priority or creation time, and its status only moves along
    [ALLOWED_TRANSITIONS]. *)
Theorem job_lifecycle (w w' : W) id j :
  store_ok (w_jobs w) -> rtc job_step w w' -> get id (w_jobs w) = Some j ->
  exists j', get id (w_jobs w') = Some j' /\ same_job j j' /\
    rtc allowed (Job.status j) (Job.status j').
Proof.
  intros Hok Hsteps Hj.
  refine (store_steps_keep (fun j' => same_job j j' /\ rtc allowed (Job.status j) (Job.status j'))
    _ _ id _ (job_steps_store _ _ Hsteps) Hok _); [|by exists j].
  intros m arg now actor k _ [Hs Ht] Hal _ _. destruct (mutation_effect_same m arg now actor k) as [Hs' ->].
  split; [by eapply same_job_trans|]. by eapply rtc_r.
Qed.

(** C4: Each of the five mutations is exactly the guarded update of the
    specification: same checks in the same order, same errors with the state
    untouched, same transaction, same stored job. *)
Theorem mutation_refines m id arg actor (w : W) :
  run_mutation m id arg actor w = guarded_mutation m id arg actor w.
Proof. apply run_mutation_guarded. Qed.

(** A mutation returns if and only if its checks pass, the signature is
    acceptable and the chain answers SUCCESS to the one transaction it
    submits, of the type and with the payload of that mutation. *)
Theorem mutation_succeeds_iff m id arg actor (w : W) :
  (exists j' w', run_mutation m id arg actor w = (inr j', w')) <->
  exists j sig r c, mutation_guard m id arg actor w = inr j /\ device_signature actor = Some sig /\
    submitTransaction (job_transaction (mutation_type m) actor (mutation_payload m (Job.jobId j) arg) sig w) (w_chain w)
      = (inr r, c) /\ TxResult.status r = SUCCESS.
Proof.
  rewrite run_mutation_guarded. unfold guarded_mutation.
  destruct (mutation_guard m id arg actor w) as [e|j].
  { split; [by intros (? & ? & [=])|by intros (? & ? & ? & ? & [=] & _)]. }
  unfold mbind at 1, M_bind at 1. rewrite submit_run. split.
  - intros (j' & w' & Hrun). destruct (device_signature actor) as [sig|]; [|done].
    destruct (submitTransaction _ _) as [[e|r] c] eqn:Es; [done|].
    destruct (decide _) as [Hs|]; [|done]. by exists j, sig, r, c.
  - intros (j1 & sig & r & c & [= <-] & -> & -> & Hs). rewrite decide_True by done.
    destruct (commit_run m arg actor j (after_submit c w)) as (now & w' & -> & _). by eexists _, _.
Qed.

(** When a create or a mutation throws, whatever the reason and wherever
    it happens, nothing the backend stores has changed. *)
Theorem throw_changes_nothing (w w' : W) e actor :
  (forall input, create input actor w = (inl e, w') -> stored w' = stored w) /\
  (forall m id arg, run_mutation m id arg actor w = (inl e, w') -> stored w' = stored w).
Proof.
  split; intros *; [apply create_fails_clean|apply mutation_fails_clean]; solve_free.
Qed.

(** Preparing a mutation makes the same decision as performing it: the
    same error, or a request for the very transaction the mutation submits. *)
Theorem prepare_agrees m id arg actor (w : W) :
  store_ok (w_jobs w) ->
  prepare m id (request_payload m arg) actor w =
  match mutation_guard m id arg actor w with
  | inl e => (inl e, w)
  | inr j =>
      match prepareTransaction with
      | None => (inl (NotImplementedError "Device transaction preparation is unavailable"), w)
      | Some prepareTransaction =>
          let '(r, c) := prepareTransaction (job_transaction (mutation_type m) actor
            (mutation_payload m (Job.jobId j) arg) "development" w) (w_chain w) in
          (r, after_submit c w)
      end
  end.
Proof.
  intros [_ Hok]. unfold prepare, mutation_guard, jobs_findById, gets, require.
  unfold mbind at 1, M_bind at 1. destruct (get id (w_jobs w)) as [job|] eqn:Ej; [|done].
  destruct (Hok _ _ Ej) as [<- _]. rewrite bind_ret.
  unfold mbind at 1, M_bind at 1.
  rewrite (prepare_checks_guard _ (Job.jobId job)) by done.
  unfold mutation_guard. rewrite Ej. destruct (guard_argument m arg w); [done|].
  destruct (decide _); [|done]. destruct (guard_actor m job actor); [done|].
  destruct prepareTransaction as [pt|]; [|done].
  unfold randomUUID, nowISO, now, mbind, M_bind, on_chain, zoom, job_transaction, after_submit. simpl.
  replace (spread _ _) with (mutation_payload m (Job.jobId job) arg) by (by destruct m).
  by destruct (pt _ _).
Qed.

(** C40: A job whose pre-selected verifier has been assigned as its technician
    can never be judged: whatever anyone does next, it stays in ASSIGNED,
    IN_PROGRESS or COMPLETED.  [assign] does not refuse that technician. *)
Theorem self_verifier_deadlock (w w' : W) id j v :
  store_ok (w_jobs w) -> rtc job_step w w' -> get id (w_jobs w) = Some j ->
  v <> "" -> Job.verifierId j = Some v -> Job.assignedTo j = v ->
  Job.status j ∈ [ASSIGNED; IN_PROGRESS; COMPLETED] ->
  exists j', get id (w_jobs w') = Some j' /\ Job.status j' ∈ [ASSIGNED; IN_PROGRESS; COMPLETED].
Proof.
  intros Hok Hsteps Hj Hv Hver Hass Hst.
  destruct (store_steps_keep (fun k => Job.verifierId k = Some v /\ Job.assignedTo k = v /\
    Job.status k ∈ [ASSIGNED; IN_PROGRESS; COMPLETED]) (w_jobs w) (w_jobs w') id)
    as (j' & ? & ? & ? & ?); [|by apply job_steps_store|done|by exists j|by exists j'].
  intros m arg now actor k _ (Hkv & Hka & Hks) Hal Hau _. unfold allowed in Hal.
  destruct m, (Job.status k); simpl in *; rewrite ?Hkv, ?Hka in *; simpl in *;
    rewrite ?list_elem_of_In in *; simpl in *; try (repeat split; tauto);
    try (exfalso; intuition discriminate).
  all: destruct Hau as [Hne Hpre]; exfalso; apply Hne.
  all: rewrite (bool_decide_eq_false_2 _ Hv) in Hpre; specialize (Hpre eq_refl); congruence.
Qed.

(** The automatic id is the number of jobs plus one; when that id is
    taken, every create without an explicit id throws and stores nothing, so
    the service cannot get unstuck by itself. *)
Theorem auto_id_stuck (w : W) input actor :
  is_Some (get ("JOB-" +:+ pretty (length (values (w_jobs w)) + 1)%nat) (w_jobs w)) ->
  match PartialJob.jobId input with None => True | Some s => blank s = true end ->
  exists e w', create input actor w = (inl e, w') /\ stored w' = stored w.
Proof.
  intros Htaken Hid. destruct (create input actor w) as [[e|j] w'] eqn:Hrun.
  { exists e, w'. split; [done|]. by eapply (create_fails_clean stored); [solve_free..|]. }
  exfalso. unfold create in Hrun.
  apply bind_inr in Hrun as (? & w1 & [_ <-]%throw_if_inr & Hrun).
  assert (Hauto : (match PartialJob.jobId input with
    | Some s => if blank s then n ← jobs_list; mret ("JOB-" +:+ pretty (length n + 1)%nat) else mret (trim s)
    | None => n ← jobs_list; mret ("JOB-" +:+ pretty (length n + 1)%nat) end : M exn W string) w
    = (inr ("JOB-" +:+ pretty (length (values (w_jobs w)) + 1)%nat), w)).
  { destruct (PartialJob.jobId input) as [s|]; [rewrite Hid|]; done. }
  rewrite (bind_run _ _ _ _ _ Hauto) in Hrun. clear Hauto. apply bind_inr in Hrun as (cr & w3 & E3 & Hrun). kept (@w_jobs C) E3. clear E3.
  apply bind_inr in Hrun as (? & w4 & E4 & Hrun). kept (@w_jobs C) E4. clear E4.
  apply bind_inr in Hrun as (? & w5 & E5 & Hrun). kept (@w_jobs C) E5. clear E5.
  rinv. bool_to_prop. rewrite K1, K0, K in *. done.
Qed.
End Theorems.

(** ** Concrete runs *)

#[local] Existing Instance dev.

(** The whole life of a job: rejected once, reworked, then approved by an
    independent verifier. *)
Definition demo_life : list (job_call * Actor.t) :=
  demo_work None ++
  [(Call_mutate M_REJECT "J" "leaks", demo_actor "vic"); (Call_mutate M_ASSIGN "J" "eve", demo_actor "mia");
   (Call_mutate M_START "J" "", demo_actor "eve"); (Call_mutate M_COMPLETE "J" demo_hash, demo_actor "eve");
   (Call_mutate M_APPROVE "J" "", demo_actor "eve"); (Call_mutate M_APPROVE "J" "", demo_actor "vic")].

Lemma jobs_invariant_witness :
  let w := run_calls demo_life demo_world in
  store_ok (w_jobs w) /\
  (Job.status <$> get "J" (w_jobs w)) = Some VERIFIED /\ (Job.assignedTo <$> get "J" (w_jobs w)) = Some "eve" /\
  (get "J" (w_jobs w) ≫= Job.verifierId) = Some "vic".
Proof.
  split; [|vm_compute; auto].
  apply (jobs_invariant demo_world); [reflexivity|apply run_calls_steps].
Defined.

Lemma job_lifecycle_witness :
  exists j j', get "J" (w_jobs (run_calls (demo_work None) demo_world)) = Some j /\
    get "J" (w_jobs (run_calls demo_life demo_world)) = Some j' /\ same_job j j' /\
    rtc allowed (Job.status j) (Job.status j').
Proof.
  destruct (get "J" (w_jobs (run_calls (demo_work None) demo_world))) as [j|] eqn:Ej; [|by vm_compute in Ej].
  exists j. destruct (job_lifecycle (run_calls (demo_work None) demo_world) (run_calls demo_life demo_world) "J" j)
    as (j' & ? & ? & ?).
  - eapply store_steps_ok; [apply job_steps_store, run_calls_steps|apply store_ok_empty].
  - unfold demo_life. rewrite run_calls_app. apply run_calls_steps.
  - exact Ej.
  - exists j'. auto.
Defined.

Lemma throw_changes_nothing_witness :
  exists e w', run_mutation M_START "J" "" (demo_actor "tom") demo_world = (inl e, w') /\ stored w' = stored demo_world.
Proof.
  destruct (run_mutation M_START "J" "" (demo_actor "tom") demo_world) as [[e|j] w'] eqn:E; [|by vm_compute in E].
  exists e, w'. split; [done|]. by eapply (throw_changes_nothing demo_world w' e (demo_actor "tom")).
Defined.

Lemma prepare_agrees_witness :
  let w := run_calls (demo_work None) demo_world in
  prepare M_APPROVE "J" (request_payload M_APPROVE "") (demo_actor "vic") w
    = (inl (NotImplementedError "Device transaction preparation is unavailable"), w) /\
  prepare M_APPROVE "J" (request_payload M_APPROVE "") (demo_actor "tom") w
    = (inl (ForbiddenError "The assigned technician cannot verify their own work"), w).
Proof.
  assert (Hok : store_ok (w_jobs (run_calls (demo_work None) demo_world))).
  { eapply store_steps_ok; [apply job_steps_store, run_calls_steps|apply store_ok_empty]. }
  split; (etransitivity; [exact (prepare_agrees M_APPROVE "J" "" _ _ Hok)|vm_compute; reflexivity]).
Defined.

Lemma self_verifier_deadlock_witness :
  exists j', get "J" (w_jobs (run_calls (demo_work (Some "tom")
    ++ [(Call_mutate M_APPROVE "J" "", demo_actor "vic"); (Call_mutate M_APPROVE "J" "", demo_actor "tom")]) demo_world))
    = Some j' /\ Job.status j' ∈ [ASSIGNED; IN_PROGRESS; COMPLETED].
Proof.
  rewrite run_calls_app.
  destruct (get "J" (w_jobs (run_calls (demo_work (Some "tom")) demo_world))) as [j|] eqn:Ej; [|by vm_compute in Ej].
  eapply (self_verifier_deadlock (run_calls (demo_work (Some "tom")) demo_world) _ "J" j "tom").
  - eapply store_steps_ok; [apply job_steps_store, run_calls_steps|apply store_ok_empty].
  - apply run_calls_steps.
  - exact Ej.
  - done.
  - vm_compute in Ej. by injection Ej as <-.
  - vm_compute in Ej. by injection Ej as <-.
  - vm_compute in Ej. injection Ej as <-. apply list_elem_of_In. simpl. tauto.
Defined.

Lemma auto_id_stuck_witness :
  let w := run_calls [(Call_create (demo_input (Some "JOB-2") None), demo_actor "mia")] demo_world in
  exists e w', create (demo_input None None) (demo_actor "mia") w = (inl e, w') /\ stored w' = stored w.
Proof. apply auto_id_stuck; [vm_compute; eauto|exact I]. Defined.
