(* ===== verification/Validators.v ===== *)
(** * Validators: the validator registry service,
    [backend/src/validators/validator.service.ts], with
    [notifications/notification.service.ts] and [notifications/email.provider.ts] *)
From S2P Require Import Prelude Effects JsString JsMap JsValue Shared Errors World Repositories Users.
Local Open Scope string_scope.
Local Open Scope list_scope.

(** ** Notifications *)

Module ValidatorEmail.
Record t := mk { toIdentityId : string; subject : string; body : string }.
End ValidatorEmail.

(** The injected mail port: a message is sent, or sending throws. *)
Class EmailNotificationProvider := email_send : ValidatorEmail.t -> exn + unit.

(** The adapter the service is built with: it sends nothing on the console
    setting and otherwise only checks the configuration. *)
Definition ConsoleEmailNotificationProvider `{Platform} : EmailNotificationProvider := fun _ =>
  if String.eqb (default "console" (process_env "BEL_EMAIL_PROVIDER")) "console" then inr tt
  else if negb (truthy_string (process_env "BEL_SMTP_HOST")) || negb (truthy_string (process_env "BEL_EMAIL_FROM"))
  then inl (Error "Email provider is not configured")
  else inr tt.

Definition mail_subject (t : TransactionType) : string :=
  match t with
  | VALIDATOR_ADD => "BEL Validator Added"
  | VALIDATOR_REMOVE => "BEL Validator Removed"
  | VALIDATOR_RESTORE => "BEL Validator Restored"
  | _ => "BEL Validator Removal Cancelled"
  end.
Definition mail_action (t : TransactionType) : string :=
  match t with
  | VALIDATOR_ADD => "added"
  | VALIDATOR_REMOVE => "removed"
  | VALIDATOR_RESTORE => "restored"
  | _ => "had its scheduled removal cancelled"
  end.
Definition mail_body (t : TransactionType) (v : ValidatorRegistration.t) (actor : Identity.t) : string :=
  "A validator was " +:+ mail_action t +:+ " in the BEL network. Validator: " +:+ ValidatorRegistration.validatorId v
  +:+ ". Performed by: " +:+ Identity.identityId actor +:+ ". Transaction: " +:+ default "pending" (ValidatorRegistration.txHash v)
  +:+ ". Block: " +:+ match ValidatorRegistration.blockNumber v with Some b => pretty b | None => "unknown" end +:+ ".".

Section NotificationService.
Context `{Platform} {C : Type} `{EmailNotificationProvider}.
Abbreviation MW := (M exn (World C)).

Definition notify (eventType : TransactionType) (validatorId recipient : string) (channel : NotificationChannel)
    (status : DeliveryStatus) : MW unit :=
  u ← randomUUID;
  createdAt ← nowISO;
  notifications_append (NotificationDelivery.mk ("N:" +:+ u) eventType validatorId eventType recipient channel createdAt status).

Definition notify_recipient (eventType : TransactionType) (v : ValidatorRegistration.t) (actor : Identity.t) (recipient : string) : MW unit :=
  let validatorId := ValidatorRegistration.validatorId v in
  notify eventType validatorId recipient IN_APP DELIVERED;;
  try_catch
    (lift_result (email_send (ValidatorEmail.mk recipient (mail_subject eventType) (mail_body eventType v actor)));;
     notify eventType validatorId recipient EMAIL DELIVERED)
    (fun _ => notify eventType validatorId recipient EMAIL FAILED).

Definition validatorChanged (eventType : TransactionType) (v : ValidatorRegistration.t) (actor : Identity.t) : MW unit :=
  active ← identities_listByStatus Identity_ACTIVE;
  users ← map_all (fun identity => users_findByIdentityId (Identity.identityId identity)) active;
  for_each (dedup (map User.identityId (omap id users))) (notify_recipient eventType v actor).
End NotificationService.

(** ** The service *)

Module ValidatorRemovalInput.
(** [removalHeight] is whatever the request body holds. *)
Record t := mk { removalHeight : value; reason : option string }.
End ValidatorRemovalInput.

(** [Number.isSafeInteger(v)], with the integer *)
Definition safe_integer (v : value) : option Z := match v with VNum n => as_safe_integer n | _ => None end.

(** [/private|secret|mnemonic|seed/i.test(key)] *)
Definition secret_key_name (key : string) : bool :=
  let k := toLowerCase key in includes "private" k || includes "secret" k || includes "mnemonic" k || includes "seed" k.

Definition trimmed_field (k : string) (input : payload) : string := trim (string_of (field k input)).

Section ValidatorService.
Context `{Platform} {C : Type} `{BlockchainService C} `{EmailNotificationProvider}.
Abbreviation W := (World C).
Abbreviation MW := (M exn (World C)).

Definition metadata_errors (input : payload) : list string :=
  flat_map (fun k => if missing (field k input) then [k +:+ " is required"] else [])
    ["validatorId"; "nodeAddress"; "publicKey"; "signingPublicKey"] ++
  (match field "validatorId" input with
   | VStr s => if isAddress (trim s) then [] else ["validatorId must be a valid EVM address"]
   | _ => []
   end) ++
  (if existsb secret_key_name (keys input) then ["private key material must never be submitted"] else []).
Definition assertMetadata (input : payload) : MW unit :=
  throw_if (negb (bool_decide (metadata_errors input = []))) (ValidationError (metadata_errors input)).

Definition activeIdentity (id : string) : MW Identity.t :=
  found ← identities_findById id;
  value ← require found (ForbiddenError "An active identity is required");
  throw_if (negb (bool_decide (Identity.status value = Identity_ACTIVE))) (ForbiddenError "An active identity is required");;
  mret value.
Definition admin (id : string) : MW Identity.t :=
  identity ← activeIdentity id;
  throw_if (negb (bool_decide (Identity.role identity = Some ADMIN))) (ForbiddenError "Only an active admin may manage validators");;
  mret identity.

Definition effective_status (v : ValidatorRegistration.t) (head : Z) : ValidatorRegistrationStatus :=
  match ValidatorRegistration.status v with
  | VR_PENDING => if (ValidatorRegistration.activationHeight v <=? head)%Z then VR_ACTIVE else VR_PENDING
  | VR_REMOVAL_SCHEDULED =>
      match ValidatorRegistration.removalHeight v with
      | Some h => if (h <=? head)%Z then VR_REMOVED else VR_REMOVAL_SCHEDULED
      | None => VR_REMOVAL_SCHEDULED
      end
  | s => s
  end.
Definition effectiveRegistration (v : ValidatorRegistration.t) (head : Z) : ValidatorRegistration.t :=
  ValidatorRegistration.with_status (effective_status v head) v.

Definition head_of_chain : MW Z := s ← on_chain chain_getStatus; mret (BlockchainStatus.height s).

Definition get_registration (id : string) : MW ValidatorRegistration.t :=
  direct ← validators_findById id;
  found ← (match direct with Some v => mret (Some v) | None => validators_findByValidatorId id end);
  value ← require found (NotFoundError ("Validator " +:+ id +:+ " was not found"));
  head ← head_of_chain;
  mret (effectiveRegistration value head).

Definition envelopeSignature : MW string :=
  if is_production
  then throw (ForbiddenError "Production validator transactions require the configured device-signed transaction provider")
  else mret "development".

Definition expected_event (type : TransactionType) : string :=
  match type with
  | VALIDATOR_ADD => "ValidatorAdded"
  | VALIDATOR_REMOVE => "ValidatorRemoved"
  | VALIDATOR_RESTORE => "ValidatorRestored"
  | _ => "ValidatorRemovalCancelled"
  end.

Definition registration_payload (r : ValidatorRegistration.t) : payload :=
  [("validatorId", VStr (ValidatorRegistration.validatorId r)); ("nodeAddress", VStr (ValidatorRegistration.nodeAddress r));
   ("publicKey", VStr (ValidatorRegistration.publicKey r)); ("signingPublicKey", VStr (ValidatorRegistration.signingPublicKey r));
   ("activationHeight", VNum (num_of_Z (ValidatorRegistration.activationHeight r)))].

(** [user?.walletAddress ?? SYSTEM_WALLET] *)
Definition wallet_or_system (user : option User.t) : string := default SYSTEM_WALLET (User.walletAddress <$> user).
Definition reason_of (extra : payload) : option string := match field "reason" extra with VStr s => Some s | _ => None end.

(** The chain did not confirm: not SUCCESS, or an event that is not the expected one. *)
Definition unconfirmed (type : TransactionType) (result : TxResult.t) : bool :=
  negb (bool_decide (TxResult.status result = SUCCESS)) ||
  (truthy_string (TxResult.event result) && negb (bool_decide (TxResult.event result = Some (expected_event type)))).

Definition send (type : TransactionType) (actor : Identity.t) (user : option User.t) (registration : ValidatorRegistration.t) (extra : payload) : MW TxResult.t :=
  txId ← randomUUID;
  timestamp ← nowISO;
  signature ← envelopeSignature;
  result ← on_chain (submitTransaction (Transaction.mk txId type
    (if bool_decide (Identity.identityId actor = "") then SYSTEM_IDENTITY else Identity.identityId actor)
    (wallet_or_system user) (spread (registration_payload registration) extra) timestamp signature));
  throw_if (unconfirmed type result) (Error ("Blockchain did not confirm " +:+ expected_event type));;
  mret result.

Definition submit (type : TransactionType) (actor : Identity.t) (registration : ValidatorRegistration.t) (extra : payload) : MW TxResult.t :=
  user ← users_findByIdentityId (Identity.identityId actor);
  try_catch (send type actor user registration extra)
    (fun error =>
       u ← randomUUID;
       timestamp ← nowISO;
       validatorHistory_append (ValidatorHistoryRecord.mk ("VH:" +:+ u) (ValidatorRegistration.validatorId registration) type
         (Identity.identityId actor) (wallet_or_system user) timestamp None None (Some (ValidatorRegistration.status registration))
         (ValidatorRegistration.status registration) (reason_of extra) History_FAILED None);;
       throw error).

(** [result.transactionHash ?? result.txId] *)
Definition hash_of (result : TxResult.t) : string := default (TxResult.txId result) (TxResult.transactionHash result).

Definition recordHistory (registration : ValidatorRegistration.t) (actor : Identity.t) (operation : TransactionType)
    (previousState : option ValidatorRegistrationStatus) (newState : ValidatorRegistrationStatus) (reason : option string)
    (result : TxResult.t) : MW unit :=
  u ← randomUUID;
  user ← users_findByIdentityId (Identity.identityId actor);
  timestamp ← nowISO;
  validatorHistory_append (ValidatorHistoryRecord.mk ("VH:" +:+ u) (ValidatorRegistration.validatorId registration) operation
    (Identity.identityId actor) (wallet_or_system user) timestamp (TxResult.blockNumber result) (Some (hash_of result))
    previousState newState reason History_SUCCESS None).

(** The tail of every operation: the registration with its transaction, the
    history row and the notifications. *)
Definition finish (registration : ValidatorRegistration.t) (actor : Identity.t) (operation : TransactionType)
    (previousState : option ValidatorRegistrationStatus) (reason : option string) (result : TxResult.t) : MW ValidatorRegistration.t :=
  validators_save registration;;
  recordHistory registration actor operation previousState (ValidatorRegistration.status registration) reason result;;
  validatorChanged operation registration actor;;
  mret registration.

Definition addValidator (actorId : string) (input : payload) : MW ValidatorRegistration.t :=
  actor ← admin actorId;
  assertMetadata input;;
  let validatorId := trimmed_field "validatorId" input in
  existing ← validators_findByValidatorId validatorId;
  throw_if (match existing with Some e => negb (bool_decide (ValidatorRegistration.status e = VR_REMOVED)) | None => false end)
    (ConflictError "Validator is already active or scheduled");;
  head ← head_of_chain;
  let too_low := ValidationError ["activationHeight must be greater than current chain height " +:+ pretty head] in
  activationHeight ← require (safe_integer (field "activationHeight" input)) too_low;
  throw_if (activationHeight <=? head)%Z too_low;;
  user ← users_findByIdentityId (Identity.identityId actor);
  registrationId ← (match existing with
                    | Some e => mret (ValidatorRegistration.registrationId e)
                    | None => u ← randomUUID; mret ("VREG:" +:+ u)
                    end);
  requestedAt ← (match existing with Some e => mret (ValidatorRegistration.requestedAt e) | None => nowISO end);
  let registration := ValidatorRegistration.mk registrationId validatorId (Identity.identityId actor) (wallet_or_system user)
    validatorId (trimmed_field "nodeAddress" input) (trimmed_field "publicKey" input) (trimmed_field "signingPublicKey" input)
    (if (head <? activationHeight)%Z then VR_PENDING else VR_ACTIVE) requestedAt activationHeight None None None None in
  result ← submit VALIDATOR_ADD actor registration [];
  finish (ValidatorRegistration.with_removal (ValidatorRegistration.status registration) None None (Some (hash_of result)) (TxResult.blockNumber result) registration)
    actor VALIDATOR_ADD None None result.

Definition removeValidator (actorId id : string) (input : ValidatorRemovalInput.t) : MW ValidatorRegistration.t :=
  actor ← admin actorId;
  let bad_height := ValidationError ["removalHeight must be a positive integer"] in
  removalHeight ← require (safe_integer (ValidatorRemovalInput.removalHeight input)) bad_height;
  throw_if (removalHeight <? 1)%Z bad_height;;
  let reason := trim (default "" (ValidatorRemovalInput.reason input)) in
  throw_if (bool_decide (reason = "")) (ValidationError ["reason is required"]);;
  registration ← get_registration id;
  throw_if (negb (bool_decide (ValidatorRegistration.status registration ∈ [VR_PENDING; VR_ACTIVE])))
    (ConflictError "Validator is not removable in its current state");;
  head ← head_of_chain;
  throw_if ((removalHeight <=? head)%Z || (removalHeight <=? ValidatorRegistration.activationHeight registration)%Z)
    (ValidationError ["removalHeight must be greater than current chain height " +:+ pretty head +:+ " and activation height"]);;
  result ← submit VALIDATOR_REMOVE actor registration [("removalHeight", VNum (num_of_Z removalHeight)); ("reason", VStr reason)];
  finish (ValidatorRegistration.with_removal VR_REMOVAL_SCHEDULED (Some removalHeight) (Some reason) (Some (hash_of result)) (TxResult.blockNumber result) registration)
    actor VALIDATOR_REMOVE (Some (ValidatorRegistration.status registration)) (Some reason) result.

(** The registration back in service: no removal any more. *)
Definition reinstated (registration : ValidatorRegistration.t) (result : TxResult.t) : ValidatorRegistration.t :=
  ValidatorRegistration.with_removal VR_ACTIVE None None (Some (hash_of result)) (TxResult.blockNumber result) registration.

Definition restoreValidator (actorId id : string) (reason : option string) : MW ValidatorRegistration.t :=
  actor ← admin actorId;
  let reason := trim (default "" reason) in
  throw_if (bool_decide (reason = "")) (ValidationError ["reason is required"]);;
  registration ← get_registration id;
  head ← head_of_chain;
  let effectiveStatus := match ValidatorRegistration.status registration, ValidatorRegistration.removalHeight registration with
                         | VR_REMOVAL_SCHEDULED, Some h => if (h <=? head)%Z then VR_REMOVED else VR_REMOVAL_SCHEDULED
                         | s, _ => s
                         end in
  throw_if (negb (bool_decide (effectiveStatus = VR_REMOVED)) ||
            match ValidatorRegistration.removalHeight registration with
            | Some h => (h =? 0)%Z || (head <? h)%Z
            | None => true
            end)
    (ConflictError "Only a validator whose removal is effective can be restored; cancel a scheduled removal instead");;
  result ← submit VALIDATOR_RESTORE actor registration [("reason", VStr reason)];
  finish (reinstated registration result) actor VALIDATOR_RESTORE (Some VR_REMOVED) (Some reason) result.

Definition cancelScheduledRemoval (actorId id : string) (reason : option string) : MW ValidatorRegistration.t :=
  actor ← admin actorId;
  let reason := trim (default "" reason) in
  throw_if (bool_decide (reason = "")) (ValidationError ["reason is required"]);;
  registration ← get_registration id;
  throw_if (negb (bool_decide (ValidatorRegistration.status registration = VR_REMOVAL_SCHEDULED)))
    (ConflictError "Only a scheduled removal can be cancelled");;
  result ← submit VALIDATOR_REMOVE_CANCEL actor registration [("reason", VStr reason)];
  finish (reinstated registration result) actor VALIDATOR_REMOVE_CANCEL (Some VR_REMOVAL_SCHEDULED) (Some reason) result.

Definition list_validators : MW (list ValidatorRegistration.t) :=
  head ← head_of_chain;
  all ← validators_list;
  mret (map (fun v => effectiveRegistration v head) all).
End ValidatorService.
