(* ===== verification/ValidatorsCorrect.v ===== *)
(** * ValidatorsCorrect: what the validator registry guarantees *)
From S2P Require Import Prelude Effects JsString JsMap JsValue Shared Errors World Repositories MockChain Concrete Users UsersCorrect Validators.
From stdpp Require Import relations.
Local Open Scope string_scope.
Local Open Scope list_scope.

Inductive validator_call :=
| Validator_add (input : payload)
| Validator_remove (id : string) (input : ValidatorRemovalInput.t)
| Validator_restore (id : string) (reason : option string)
| Validator_cancel (id : string) (reason : option string).

Definition call_operation (c : validator_call) : TransactionType :=
  match c with
  | Validator_add _ => VALIDATOR_ADD | Validator_remove _ _ => VALIDATOR_REMOVE
  | Validator_restore _ _ => VALIDATOR_RESTORE | Validator_cancel _ _ => VALIDATOR_REMOVE_CANCEL
  end.

(** ** The abstract registry *)

Definition registry := jsmap ValidatorRegistration.t.

(** A stored registration: never REMOVED, with a removal height and a reason
    exactly while a removal is scheduled, and that height after activation. *)
Definition registration_ok (k : string) (v : ValidatorRegistration.t) : Prop :=
  ValidatorRegistration.registrationId v = k /\ ValidatorRegistration.status v <> VR_REMOVED /\
  match ValidatorRegistration.removalHeight v, ValidatorRegistration.removalReason v with
  | Some h, Some reason =>
      ValidatorRegistration.status v = VR_REMOVAL_SCHEDULED /\ (ValidatorRegistration.activationHeight v < h <= MAX_SAFE_INTEGER)%Z /\ reason <> ""
  | None, None => ValidatorRegistration.status v <> VR_REMOVAL_SCHEDULED
  | _, _ => False
  end.
(** Every validator is registered once. *)
Definition registry_ok (m : registry) : Prop :=
  wf m /\ (forall k v, get k m = Some v -> registration_ok k v) /\
  forall k1 k2 v1 v2, get k1 m = Some v1 -> get k2 m = Some v2 ->
    ValidatorRegistration.validatorId v1 = ValidatorRegistration.validatorId v2 -> k1 = k2.

(** One change of the registry. *)
Inductive registry_step (m : registry) : registry -> Prop :=
| registry_same : registry_step m m
| registry_add v :
    (forall k v', get k m = Some v' -> ValidatorRegistration.validatorId v' <> ValidatorRegistration.validatorId v) ->
    ValidatorRegistration.status v = VR_PENDING -> ValidatorRegistration.removalHeight v = None -> ValidatorRegistration.removalReason v = None ->
    registry_step m (put (ValidatorRegistration.registrationId v) v m)
| registry_schedule v h reason tx b :
    get (ValidatorRegistration.registrationId v) m = Some v ->
    ValidatorRegistration.status v ∈ [VR_PENDING; VR_ACTIVE] -> reason <> "" ->
    (ValidatorRegistration.activationHeight v < h <= MAX_SAFE_INTEGER)%Z ->
    registry_step m (put (ValidatorRegistration.registrationId v)
      (ValidatorRegistration.with_removal VR_REMOVAL_SCHEDULED (Some h) (Some reason) tx b v) m)
| registry_reinstate v tx b :
    get (ValidatorRegistration.registrationId v) m = Some v -> ValidatorRegistration.status v = VR_REMOVAL_SCHEDULED ->
    registry_step m (put (ValidatorRegistration.registrationId v)
      (ValidatorRegistration.with_removal VR_ACTIVE None None tx b v) m).

Lemma registry_put m k v v' :
  registry_ok m -> get k m = Some v -> ValidatorRegistration.validatorId v' = ValidatorRegistration.validatorId v ->
  registration_ok k v' -> registry_ok (put k v' m).
Proof.
  intros (Hwf & Hok & Hu) Hg Hid Hv'. split; [by apply wf_put|]. split.
  - intros k1 v1. rewrite get_put. destruct (String.eqb_spec k1 k) as [->|]; [by intros [= <-]|apply Hok].
  - intros k1 k2 v1 v2. rewrite !get_put.
    destruct (String.eqb_spec k1 k) as [->|], (String.eqb_spec k2 k) as [->|]; try done.
    + intros [= <-] H2 He. eapply Hu; [exact Hg|exact H2|congruence].
    + intros H1 [= <-] He. eapply Hu; [exact H1|exact Hg|congruence].
    + apply Hu.
Qed.

Lemma registry_step_ok m m' : registry_ok m -> registry_step m m' -> registry_ok m'.
Proof.
  intros Hm Hs. destruct Hs as [|v Hnew Hst Hh Hr|v h reason tx b Hg Hst Hre Hh|v tx b Hg Hst]; [done|..].
  - destruct Hm as (Hwf & Hok & Hu). split; [by apply wf_put|]. split.
    + intros k1 v1. rewrite get_put. destruct (String.eqb_spec k1 (ValidatorRegistration.registrationId v)) as [->|]; [|apply Hok].
      intros [= <-]. split; [done|]. rewrite Hh, Hr, Hst. done.
    + intros k1 k2 v1 v2. rewrite !get_put.
      destruct (String.eqb_spec k1 (ValidatorRegistration.registrationId v)) as [->|], (String.eqb_spec k2 (ValidatorRegistration.registrationId v)) as [->|]; try done.
      * intros [= <-] H2 He. by destruct (Hnew _ _ H2).
      * intros H1 [= <-] He. by destruct (Hnew _ _ H1).
      * apply Hu.
  - eapply registry_put; [done|exact Hg|done|]. repeat split; simpl; try done; lia.
  - eapply registry_put; [done|exact Hg|done|]. repeat split; done.
Qed.

Section Registry.
Context `{PF : Platform} {C : Type} `{BlockchainService C} `{EmailNotificationProvider}.
Abbreviation W := (World C).
Abbreviation MW := (M exn (World C)).

Definition run_validator (c : validator_call) (actorId : string) : MW ValidatorRegistration.t :=
  match c with
  | Validator_add i => addValidator actorId i
  | Validator_remove id i => removeValidator actorId id i
  | Validator_restore id r => restoreValidator actorId id r
  | Validator_cancel id r => cancelScheduledRemoval actorId id r
  end.

(** ** Frames *)

Lemma keeps_admin {T} (p : W -> T) id : keeps p (admin id).
Proof. unfold admin, activeIdentity. rframe. Qed.
Lemma keeps_head {T} (p : W -> T) : chain_free p -> keeps p head_of_chain.
Proof. intros. unfold head_of_chain. rframe. Qed.
Lemma keeps_send {T} (p : W -> T) t a u r x : ambient_free p -> chain_free p -> keeps p (send t a u r x).
Proof. intros. unfold send, envelopeSignature. rframe. Qed.
Hint Resolve keeps_admin keeps_head keeps_send : bel.
Lemma keeps_get_registration {T} (p : W -> T) id : chain_free p -> keeps p (get_registration id).
Proof. intros. unfold get_registration. rframe. Qed.
Lemma keeps_notify {T} (p : W -> T) t v r c s : ambient_free p -> (forall f w, p (upd_notifications f w) = p w) -> keeps p (notify t v r c s).
Proof. intros Ha Hp. unfold notify, notifications_append. do 2 (apply keeps_bind; [auto with bel|intros]). by apply keeps_modify. Qed.
Lemma keeps_validatorChanged {T} (p : W -> T) t v a :
  ambient_free p -> (forall f w, p (upd_notifications f w) = p w) -> keeps p (validatorChanged t v a).
Proof.
  intros Ha Hp. unfold validatorChanged. apply keeps_bind; [rframe|intros]. apply keeps_bind; [rframe|intros].
  apply keeps_for_each. intros. unfold notify_recipient. apply keeps_bind; [by apply keeps_notify|intros].
  apply keeps_try; [apply keeps_bind; [rframe|]|]; intros; by apply keeps_notify.
Qed.

Lemma never_throws_notify t v r c s : never_throws (notify t v r c s : MW unit).
Proof. unfold notify. calm_tail. Qed.
Lemma never_throws_validatorChanged t v a : never_throws (validatorChanged t v a : MW unit).
Proof.
  unfold validatorChanged. apply never_throws_bind; [calm_tail|intros l]. apply never_throws_bind.
  { induction l; simpl; calm_tail. }
  intros. apply never_throws_for_each. intros x w. unfold notify_recipient.
  destruct (never_throws_notify t (ValidatorRegistration.validatorId v) x IN_APP DELIVERED w) as ([] & w1 & E1).
  rewrite (bind_run _ _ _ _ _ E1). unfold try_catch, lift_result, mbind, M_bind.
  destruct (email_send _) as [e|[]].
  - apply never_throws_notify.
  - destruct (never_throws_notify t (ValidatorRegistration.validatorId v) x EMAIL DELIVERED w1) as (u & w2 & ->). eauto.
Qed.

(** ** Every attempt is recorded *)

(** The row that records an attempt. *)
Definition row_for (op : TransactionType) (actor : Identity.t) (validatorId : string) (h : ValidatorHistoryRecord.t) : Prop :=
  ValidatorHistoryRecord.operation h = op /\ ValidatorHistoryRecord.actorIdentityId h = Identity.identityId actor /\
  ValidatorHistoryRecord.validatorId h = validatorId.

(** An attempt that reached the chain either failed and left a FAILED row and
    nothing else, or left the registration, a SUCCESS row and notifications. *)
Inductive settled (op : TransactionType) (w w' : W) : exn + ValidatorRegistration.t -> Prop :=
| settled_failed e h actor v :
    w_validators w' = w_validators w -> w_notifications w' = w_notifications w ->
    w_validatorHistory w' = put (ValidatorHistoryRecord.historyId h) h (w_validatorHistory w) ->
    row_for op actor v h -> ValidatorHistoryRecord.status h = History_FAILED ->
    ValidatorHistoryRecord.previousState h = Some (ValidatorHistoryRecord.newState h) ->
    settled op w w' (inl e)
| settled_done v h actor :
    w_validators w' = put (ValidatorRegistration.registrationId v) v (w_validators w) ->
    w_validatorHistory w' = put (ValidatorHistoryRecord.historyId h) h (w_validatorHistory w) ->
    row_for op actor (ValidatorRegistration.validatorId v) h -> ValidatorHistoryRecord.status h = History_SUCCESS ->
    ValidatorHistoryRecord.newState h = ValidatorRegistration.status v ->
    settled op w w' (inr v).

Definition registry_part (w : W) := (w_validators w, w_validatorHistory w, w_notifications w).

Lemma submit_failed op actor reg extra (w w' : W) e :
  submit op actor reg extra w = (inl e, w') -> settled op w w' (inl e).
Proof.
  unfold submit. intros [[=]|(user & w1 & [_ <-]%gets_inr & Hrun)]%bind_inl. unfold try_catch in Hrun.
  destruct (send op actor user reg extra w) as [[e1|res] w1] eqn:E; [|done].
  pose proof (keeps_run registry_part _ _ _ _ (keeps_send registry_part op actor user reg extra ltac:(solve_free) ltac:(solve_free)) E) as Hk.
  injection Hk as Hv Hh Hn. apply bind_inl in Hrun as [[=]|(u & w2 & [_ ->]%randomUUID_inv & Hrun)].
  apply bind_inl in Hrun as [[=]|(t & w3 & [_ ->]%nowISO_inv & Hrun)].
  apply bind_inl in Hrun as [[=]|([] & w4 & <-%modify_inr & Hrun)]. injection Hrun as <- <-.
  match goal with |- context [upd_validatorHistory (put _ ?row)] => apply (settled_failed _ _ _ _ row actor (ValidatorRegistration.validatorId reg)) end;
    simpl; try done. by rewrite Hh.
Qed.
Lemma submit_done op actor reg extra (w w' : W) res :
  submit op actor reg extra w = (inr res, w') -> registry_part w' = registry_part w.
Proof.
  unfold submit. intros (user & w1 & [_ <-]%gets_inr & Hrun)%bind_inr. unfold try_catch in Hrun.
  destruct (send op actor user reg extra w) as [[e1|res'] w1] eqn:E; [done|]. injection Hrun as <- <-.
  exact (keeps_run registry_part _ _ _ _ (keeps_send registry_part op actor user reg extra ltac:(solve_free) ltac:(solve_free)) E).
Qed.

Lemma finish_done reg actor op prev reason res (w w' : W) r :
  finish reg actor op prev reason res w = (r, w') -> r = inr reg /\ settled op w w' (inr reg).
Proof.
  unfold finish, recordHistory. intros Hrun. apply bind_inv in Hrun as [(e & _ & [=])|([] & w1 & <-%modify_inr & Hrun)].
  rewrite bind_assoc in Hrun. apply bind_inv in Hrun as [(e & _ & [=])|(u & w2 & [_ ->]%randomUUID_inv & Hrun)].
  rewrite bind_assoc in Hrun. apply bind_inv in Hrun as [(e & _ & [=])|(user & w2 & [_ <-]%gets_inr & Hrun)].
  rewrite bind_assoc in Hrun. apply bind_inv in Hrun as [(e & _ & [=])|(t & w3 & [_ ->]%nowISO_inv & Hrun)].
  apply bind_inv in Hrun as [(e & _ & [=])|([] & w4 & <-%modify_inr & Hrun)].
  match type of Hrun with (_ ≫= _) ?w4 = _ => destruct (never_throws_validatorChanged op reg actor w4) as ([] & w5 & E5) end.
  rewrite (bind_run _ _ _ _ _ E5) in Hrun. injection Hrun as <- <-. split; [done|].
  assert (Hkeep : keeps (fun w : W => (w_validators w, w_validatorHistory w)) (validatorChanged op reg actor)).
  { apply keeps_validatorChanged; [solve_free|reflexivity]. }
  pose proof (keeps_run _ _ _ _ _ Hkeep E5) as Hk. injection Hk as Hv Hh.
  match type of Hh with context [put _ ?row] => apply (settled_done _ _ _ _ row actor) end; done.
Qed.

Lemma settled_from op (w w1 w' : W) r : registry_part w1 = registry_part w -> settled op w1 w' r -> settled op w w' r.
Proof.
  intros Hp Hs. injection Hp as Hv Hh Hn. destruct Hs as [e h actor v Hv' Hn' Hh' Hrow Hst Hpr|v h actor Hv' Hh' Hrow Hst Hnew].
  - eapply settled_failed; [congruence|congruence|rewrite Hh', Hh; reflexivity|done..].
  - eapply settled_done; [rewrite Hv', Hv; reflexivity|rewrite Hh', Hh; reflexivity|done..].
Qed.

Lemma submit_finish op actor reg extra prev reason f (w w' : W) r :
  (result ← submit op actor reg extra; finish (f result) actor op prev reason result) w = (r, w') -> settled op w w' r.
Proof.
  intros [(e & -> & E)|(res & w1 & E & Hrun)]%bind_inv; [by eapply submit_failed|].
  apply finish_done in Hrun as [-> Hs]. eapply settled_from; [by eapply submit_done|done].
Qed.

(** Reading the chain height is a query: it leaves the chain as it is. *)
Definition height_is_a_query : Prop := forall c : C, snd (chain_getStatus c) = c.

Definition observed (w : W) := (stored w, w_chain w).
Definition attempts (op : TransactionType) (m : MW ValidatorRegistration.t) : Prop := forall w r w', m w = (r, w') ->
  (exists e, r = inl e /\ observed w' = observed w) \/ settled op w w' r.

Lemma attempts_guard {A} op (m : MW A) k : keeps observed m -> (forall a, attempts op (k a)) -> attempts op (m ≫= k).
Proof.
  intros Hm Hk w r w' [(e & -> & E)|(a & w1 & E & Hrun)]%bind_inv.
  { left. exists e. split; [done|]. by eapply keeps_run. }
  pose proof (keeps_run _ _ _ _ _ Hm E) as Ho. apply Hk in Hrun as [(e & -> & Ho')|Hs].
  - left. exists e. split; [done|congruence].
  - right. eapply settled_from; [|exact Hs]. unfold observed in Ho. unfold registry_part. injection Ho as Hst _. congruence.
Qed.
Lemma attempts_settle op actor reg extra prev reason f :
  attempts op (result ← submit op actor reg extra; finish (f result) actor op prev reason result).
Proof. intros w r w' Hrun. right. by eapply submit_finish. Qed.

Lemma keeps_height : height_is_a_query -> keeps observed head_of_chain.
Proof.
  intros Hq w. unfold head_of_chain, on_chain, zoom, mbind, M_bind. specialize (Hq (w_chain w)).
  destruct (chain_getStatus (w_chain w)) as [[e|s] c]; simpl in *; unfold observed; simpl; by rewrite Hq.
Qed.

Lemma call_attempts c actorId : height_is_a_query -> attempts (call_operation c) (run_validator c actorId).
Proof.
  intros Hq. pose proof (keeps_height Hq) as Hh.
  assert (Hg : forall id, keeps observed (get_registration id)).
  { intros id. unfold get_registration. repeat (apply keeps_bind; [rframe|intros]). rframe. }
  destruct c; simpl; unfold addValidator, removeValidator, restoreValidator, cancelScheduledRemoval, assertMetadata;
    repeat (apply attempts_guard; [solve [rframe]|intros]); apply attempts_settle.
Qed.

(** Nothing about validators happens off the record.  A call either
    stops before the chain, with every store and the chain as they were, or
    leaves exactly one history row naming the operation, the administrator
    and the validator: FAILED, with the registrations and notifications
    unchanged, when it throws, SUCCESS with the new state when it returns. *)
Theorem every_attempt_recorded c actorId (w w' : W) r :
  height_is_a_query -> run_validator c actorId w = (r, w') ->
  (exists e, r = inl e /\ observed w' = observed w) \/ settled (call_operation c) w w' r.
Proof. intros Hq. by apply call_attempts. Qed.

(** ** The registry under any sequence of calls *)

Lemma admin_inr actorId (w w' : W) i :
  admin actorId w = (inr i, w') -> w' = w /\ get actorId (w_identities w) = Some i /\ is_admin i = true.
Proof.
  unfold admin, activeIdentity. intros Hrun. rinv. unfold is_admin. bool_to_prop.
  by rewrite !bool_decide_eq_true_2 by done.
Qed.

Lemma get_registration_inr id (w w' : W) v :
  registry_ok (w_validators w) -> get_registration id w = (inr v, w') ->
  w_validators w' = w_validators w /\ exists v0 head, get (ValidatorRegistration.registrationId v0) (w_validators w) = Some v0 /\
    v = effectiveRegistration v0 head.
Proof.
  intros (Hwf & Hok & _) Hrun. split; [eapply (keeps_run w_validators); [by apply keeps_get_registration|exact Hrun]|].
  unfold get_registration in Hrun. apply bind_inr in Hrun as (d & w1 & [Hd <-]%gets_inr & Hrun).
  apply bind_inr in Hrun as (f & w1 & E & Hrun). apply bind_inr in Hrun as (v0 & w2 & [-> <-]%require_inr & Hrun).
  apply bind_inr in Hrun as (head & w3 & _ & [<- _]%mret_inr). exists v0, head. split; [|done].
  destruct d as [d|].
  - apply mret_inr in E as [[= ->] <-]. by rewrite (proj1 (Hok _ _ Hd)).
  - apply gets_inr in E as [Hf%List.find_some _]. destruct Hf as [(k & Hk)%values_get _]; [|done].
    by rewrite (proj1 (Hok _ _ Hk)).
Qed.

Lemma keeps_submit_validators op a r x : keeps (@w_validators C) (submit op a r x).
Proof. unfold submit. rframe. Qed.
Hint Resolve keeps_get_registration keeps_submit_validators : bel.

Lemma call_fails_clean c actorId : fails_clean (@w_validators C) (run_validator c actorId).
Proof.
  destruct c; simpl; unfold addValidator, removeValidator, restoreValidator, cancelScheduledRemoval, assertMetadata;
    repeat (apply fails_clean_guard; [solve [rframe]|intros ?]);
    apply fails_clean_never; intros w; edestruct finish as [r' w'] eqn:E; apply finish_done in E as [-> _]; eauto.
Qed.

Lemma finish_registry reg actor op prev reason res (w w' : W) r :
  finish reg actor op prev reason res w = (r, w') -> w_validators w' = put (ValidatorRegistration.registrationId reg) reg (w_validators w).
Proof. intros [-> Hs]%finish_done. by inversion Hs. Qed.

Lemma add_simulates actorId input (w w' : W) v :
  registry_ok (w_validators w) -> addValidator actorId input w = (inr v, w') -> registry_step (w_validators w) (w_validators w').
Proof.
  intros (Hwf & Hok & Hu) Hrun. unfold addValidator in Hrun. apply bind_inr in Hrun as (actor & w1 & (-> & _)%admin_inr & Hrun).
  apply bind_inr in Hrun as (u & w1 & [_ <-]%throw_if_inr & Hrun). apply bind_inr in Hrun as (ex & w1 & [Hex <-]%gets_inr & Hrun).
  apply bind_inr in Hrun as (u1 & w1 & [Hc <-]%throw_if_inr & Hrun).
  destruct ex as [e|].
  { apply List.find_some in Hex as [(k & Hk)%values_get _]; [|done]. destruct (Hok _ _ Hk) as (_ & Hrem & _).
    bool_to_prop. done. }
  apply bind_inr in Hrun as (head & w1 & E1 & Hrun). kept (@w_validators C) E1. clear E1.
  apply bind_inr in Hrun as (ah & w2 & [Hah <-]%require_inr & Hrun). apply bind_inr in Hrun as (u2 & w2 & [Hlt <-]%throw_if_inr & Hrun).
  apply bind_inr in Hrun as (user & w2 & [_ <-]%gets_inr & Hrun). apply bind_inr in Hrun as (rid & w2 & E2 & Hrun). kept (@w_validators C) E2. clear E2.
  apply bind_inr in Hrun as (at' & w3 & E3 & Hrun). kept (@w_validators C) E3. clear E3.
  apply bind_inr in Hrun as (res & w4 & E4 & Hrun). kept (@w_validators C) E4. clear E4.
  apply finish_registry in Hrun. rewrite Hrun, K2, K1, K0, K. apply registry_add; simpl; try done.
  - intros k v' Hk He. pose proof (find_none _ _ Hex v' ltac:(by eapply get_values)) as Hn. simpl in Hn.
    by rewrite He, String.eqb_refl in Hn.
  - apply Z.leb_gt in Hlt. by rewrite (proj2 (Z.ltb_lt _ _) Hlt).
Qed.

Lemma validator_remove_simulates actorId id input (w w' : W) v :
  registry_ok (w_validators w) -> removeValidator actorId id input w = (inr v, w') -> registry_step (w_validators w) (w_validators w').
Proof.
  intros Hr Hrun. unfold removeValidator in Hrun. apply bind_inr in Hrun as (actor & w1 & (-> & _)%admin_inr & Hrun).
  apply bind_inr in Hrun as (h & w1 & [Hh <-]%require_inr & Hrun). apply bind_inr in Hrun as (u & w1 & [_ <-]%throw_if_inr & Hrun).
  apply bind_inr in Hrun as (u1 & w1 & [Hre <-]%throw_if_inr & Hrun).
  apply bind_inr in Hrun as (v1 & w1 & (Hw1 & v0 & hd & Hv0 & ->)%get_registration_inr & Hrun); [|done].
  apply bind_inr in Hrun as (u2 & w2 & [Hst <-]%throw_if_inr & Hrun).
  apply bind_inr in Hrun as (head & w2 & E2 & Hrun). kept (@w_validators C) E2. clear E2.
  apply bind_inr in Hrun as (u3 & w3 & [Hgt <-]%throw_if_inr & Hrun).
  apply bind_inr in Hrun as (res & w3 & E3 & Hrun). kept (@w_validators C) E3. clear E3.
  apply finish_registry in Hrun. rewrite Hrun, K0, K, Hw1. simpl.
  assert (Hsafe : (Z.abs h <= MAX_SAFE_INTEGER)%Z).
  { unfold safe_integer in Hh. destruct (ValidatorRemovalInput.removalHeight input); try done. by apply as_safe_integer_bound in Hh as [_ ?]. }
  apply orb_false_iff in Hgt as [Hg1 Hg2]. apply Z.leb_gt in Hg2. simpl in Hg2. bool_to_prop.
  apply (registry_schedule _ v0); [done| |done|lia].
  simpl in Hst. unfold effective_status in Hst. destruct Hr as (_ & Hok & _). destruct (Hok _ _ Hv0) as (_ & Hnr & _).
  destruct (ValidatorRegistration.status v0) eqn:Es; [apply list_elem_of_In; simpl; tauto..| |done].
  exfalso. destruct (ValidatorRegistration.removalHeight v0) as [h0|]; [destruct (_ <=? _)%Z|];
    apply list_elem_of_In in Hst; simpl in Hst; destruct Hst as [|[|[]]]; done.
Qed.

Lemma restore_simulates actorId id reason (w w' : W) v :
  registry_ok (w_validators w) -> restoreValidator actorId id reason w = (inr v, w') -> registry_step (w_validators w) (w_validators w').
Proof.
  intros Hr Hrun. unfold restoreValidator in Hrun. apply bind_inr in Hrun as (actor & w1 & (-> & _)%admin_inr & Hrun).
  apply bind_inr in Hrun as (u1 & w1 & [Hre <-]%throw_if_inr & Hrun).
  apply bind_inr in Hrun as (v1 & w1 & (Hw1 & v0 & hd & Hv0 & ->)%get_registration_inr & Hrun); [|done].
  apply bind_inr in Hrun as (head & w2 & E2 & Hrun). kept (@w_validators C) E2. clear E2.
  apply bind_inr in Hrun as (u2 & w3 & [Hst <-]%throw_if_inr & Hrun).
  apply bind_inr in Hrun as (res & w3 & E3 & Hrun). kept (@w_validators C) E3. clear E3.
  apply finish_registry in Hrun. rewrite Hrun, K0, K, Hw1. simpl. apply (registry_reinstate _ v0); [done|].
  apply orb_false_iff in Hst as [_ Hh]. simpl in Hh. destruct Hr as (_ & Hok & _). destruct (Hok _ _ Hv0) as (_ & _ & Hm).
  destruct (ValidatorRegistration.removalHeight v0); [|done]. destruct (ValidatorRegistration.removalReason v0); [tauto|done].
Qed.

Lemma cancel_simulates actorId id reason (w w' : W) v :
  registry_ok (w_validators w) -> cancelScheduledRemoval actorId id reason w = (inr v, w') -> registry_step (w_validators w) (w_validators w').
Proof.
  intros Hr Hrun. unfold cancelScheduledRemoval in Hrun. apply bind_inr in Hrun as (actor & w1 & (-> & _)%admin_inr & Hrun).
  apply bind_inr in Hrun as (u1 & w1 & [Hre <-]%throw_if_inr & Hrun).
  apply bind_inr in Hrun as (v1 & w1 & (Hw1 & v0 & hd & Hv0 & ->)%get_registration_inr & Hrun); [|done].
  apply bind_inr in Hrun as (u2 & w3 & [Hst <-]%throw_if_inr & Hrun).
  apply bind_inr in Hrun as (res & w3 & E3 & Hrun). kept (@w_validators C) E3. clear E3.
  apply finish_registry in Hrun. rewrite Hrun, K, Hw1. simpl. apply (registry_reinstate _ v0); [done|].
  bool_to_prop. simpl in Hst. unfold effective_status in Hst. destruct (ValidatorRegistration.status v0); try done. by destruct (_ <=? _)%Z.
Qed.

Lemma call_simulates_registry c actorId (w w' : W) r :
  registry_ok (w_validators w) -> run_validator c actorId w = (r, w') -> registry_step (w_validators w) (w_validators w').
Proof.
  intros Hr Hrun. destruct r as [e|v].
  { rewrite (call_fails_clean _ _ _ _ _ Hrun). apply registry_same. }
  destruct c; [by eapply add_simulates|by eapply validator_remove_simulates|by eapply restore_simulates|by eapply cancel_simulates].
Qed.

Definition validator_step (w w' : W) : Prop := exists c actorId r, run_validator c actorId w = (r, w').

(** C18: Every call of the validator service, returning or throwing, is one
    step of the abstract registry: nothing, a new PENDING registration of a
    validator that had none, a removal scheduled after activation for a
    pending or active one, or a scheduled removal taken back. *)
Theorem validator_calls_refine c actorId (w w' : W) r :
  registry_ok (w_validators w) -> run_validator c actorId w = (r, w') -> registry_step (w_validators w) (w_validators w').
Proof. apply call_simulates_registry. Qed.

(** In every reachable state each validator address is registered once,
    under its registration id; a removal height and a reason are stored
    exactly while a removal is scheduled, the height lies after activation
    and is a safe integer; REMOVED is never stored. *)
Theorem validator_registry_invariant (w w' : W) :
  w_validators w = [] -> rtc validator_step w w' -> registry_ok (w_validators w').
Proof.
  intros He Hs. assert (Hok : registry_ok (w_validators w)) by (rewrite He; split; [constructor|done]).
  clear He. induction Hs as [|w w1 w2 (c & a & r & E) _ IH]; [done|].
  apply IH. eapply registry_step_ok; [done|by eapply call_simulates_registry].
Qed.

(** A registered validator can never be added again, not even after its
    removal took effect: the stored status is never REMOVED, so the branch
    of [addValidator] that would reuse a removed registration is dead. *)
Theorem registered_never_readded actorId input (w : W) k v :
  registry_ok (w_validators w) -> get k (w_validators w) = Some v ->
  ValidatorRegistration.validatorId v = trimmed_field "validatorId" input ->
  exists e, addValidator actorId input w = (inl e, w).
Proof.
  intros (Hwf & Hok & _) Hk Hid. unfold addValidator.
  destruct (admin actorId w) as [[e|actor] w1] eqn:Ea.
  { assert (w1 = w) as -> by exact (keeps_run (fun w => w) _ _ _ _ (keeps_admin (fun w => w) _) Ea). rewrite (bind_throw _ _ _ _ _ Ea). eauto. }
  rewrite (bind_run _ _ _ _ _ Ea). apply admin_inr in Ea as (-> & _). unfold assertMetadata.
  destruct (negb _); [rewrite guard_fail; eauto|rewrite guard_pass].
  unfold validators_findByValidatorId. unfold mbind at 1, M_bind at 1, gets.
  destruct (proj1 (find_Some_iff_exists (fun v => String.eqb (ValidatorRegistration.validatorId v) (trimmed_field "validatorId" input)) (values (w_validators w)))) as [v' Hf].
  { exists v. split; [by eapply get_values|by apply String.eqb_eq]. }
  rewrite Hf. apply List.find_some in Hf as [(k' & Hk')%values_get _]; [|done].
  destruct (Hok _ _ Hk') as (_ & Hnr & _). rewrite bool_decide_eq_false_2 by done. simpl negb. rewrite guard_fail. eauto.
Qed.

(** Only an active administrator gets anywhere: for every other caller
    each of the four operations is refused as forbidden at once. *)
Theorem validators_admin_only c actorId (w : W) :
  match get actorId (w_identities w) with Some i => is_admin i = false | None => True end ->
  exists message, run_validator c actorId w = (inl (ForbiddenError message), w).
Proof.
  intros Hn. enough (Ha : exists message, admin actorId w = (inl (ForbiddenError message), w)).
  { destruct Ha as [message Ha]. exists message. by destruct c; apply bind_throw. }
  unfold admin, activeIdentity, identities_findById. destruct (get actorId (w_identities w)) as [i|] eqn:Ei.
  - unfold mbind, M_bind, gets. rewrite Ei. simpl. unfold is_admin in Hn.
    destruct (bool_decide (Identity.status i = Identity_ACTIVE)); simpl in *; [|eauto]. rewrite Hn. simpl. eauto.
  - unfold mbind, M_bind, gets. rewrite Ei. simpl. eauto.
Qed.

Definition always_throws {A} (m : MW A) : Prop := forall w, exists e w', m w = (inl e, w').
Lemma always_throws_bind {A B} (m : MW A) (k : A -> MW B) : (forall a, always_throws (k a)) -> always_throws (m ≫= k).
Proof.
  intros Hk w. destruct (m w) as [[e|a] w1] eqn:E; [rewrite (bind_throw _ _ _ _ _ E); eauto|].
  rewrite (bind_run _ _ _ _ _ E). apply Hk.
Qed.
Lemma always_throws_first {A B} (m : MW A) (k : A -> MW B) : always_throws m -> always_throws (m ≫= k).
Proof. intros Hm w. destruct (Hm w) as (e & w1 & E). rewrite (bind_throw _ _ _ _ _ E). eauto. Qed.
Lemma submit_production op actor reg extra : is_production = true -> always_throws (submit op actor reg extra).
Proof.
  intros Hp. unfold submit. apply always_throws_bind. intros user w. unfold try_catch, send, envelopeSignature. rewrite Hp. simpl. eauto.
Qed.

(** With BEL_ENV=production the validator set is frozen: no operation
    of this service can succeed, whoever calls it and whatever the chain
    would answer, and no registration changes. *)
Theorem production_validators_frozen c actorId (w : W) :
  is_production = true ->
  exists e w', run_validator c actorId w = (inl e, w') /\ w_validators w' = w_validators w.
Proof.
  intros Hp. assert (Ht : always_throws (run_validator c actorId)).
  { destruct c; simpl; unfold addValidator, removeValidator, restoreValidator, cancelScheduledRemoval; 
      repeat first [apply always_throws_first, submit_production, Hp | apply always_throws_bind; intros ?]. }
  destruct (Ht w) as (e & w' & E). exists e, w'. split; [done|]. by eapply call_fails_clean.
Qed.

(** Cancelling a removal activates: the registration comes back ACTIVE
    and counts as active at every height, also below the activation height
    it had not reached when the removal was scheduled. *)
Theorem cancelled_removal_is_active actorId id reason (w w' : W) v :
  cancelScheduledRemoval actorId id reason w = (inr v, w') -> forall head, effective_status v head = VR_ACTIVE.
Proof.
  unfold cancelScheduledRemoval. intros Hrun head.
  repeat (apply bind_inr in Hrun as (? & ? & _ & Hrun)). by apply mret_inr in Hrun as [<- _].
Qed.
End Registry.

(** ** Concrete runs *)

#[local] Existing Instance dev.
#[local] Existing Instance ConsoleEmailNotificationProvider.

Definition admin_world : World MockChain :=
  upd_identities (put "ADM" (Identity.mk "ADM" (Some "E0") "Root" (Some ADMIN) (Some "OPS") Identity_ACTIVE "t" None None)) empty_world.
Definition new_validator : payload :=
  [("validatorId", VStr "0xval"); ("nodeAddress", VStr "10.0.0.1"); ("publicKey", VStr "pk"); ("signingPublicKey", VStr "spk");
   ("activationHeight", VNum (num_of_Z 1000))].
Definition added_world : World MockChain := snd (run_validator (Validator_add new_validator) "ADM" admin_world).
Definition removal : ValidatorRemovalInput.t := ValidatorRemovalInput.mk (VNum (num_of_Z 2000)) (Some "maintenance").
Definition scheduled_world : World MockChain := snd (run_validator (Validator_remove "0xval" removal) "ADM" added_world).

Lemma mock_height_is_a_query : @height_is_a_query MockChain _.
Proof. intros c. reflexivity. Qed.

Lemma reached_scheduled : rtc validator_step admin_world scheduled_world.
Proof.
  apply (rtc_l _ _ added_world); [|apply rtc_once].
  - exists (Validator_add new_validator), "ADM", (fst (run_validator (Validator_add new_validator) "ADM" admin_world)). apply surjective_pairing.
  - exists (Validator_remove "0xval" removal), "ADM", (fst (run_validator (Validator_remove "0xval" removal) "ADM" added_world)). apply surjective_pairing.
Qed.

Lemma every_attempt_recorded_witness :
  exists h, w_validatorHistory added_world = [(ValidatorHistoryRecord.historyId h, h)] /\ ValidatorHistoryRecord.status h = History_SUCCESS.
Proof.
  destruct (run_validator (Validator_add new_validator) "ADM" admin_world) as [r w'] eqn:E.
  assert (Hw : added_world = w') by (unfold added_world; by rewrite E).
  destruct (every_attempt_recorded (Validator_add new_validator) "ADM" admin_world w' r mock_height_is_a_query E) as [(e & -> & _)|Hs].
  - by vm_compute in E.
  - rewrite Hw. revert E. destruct Hs as [e h actor v|v h actor _ Hh _ Hst _]; intros E; [by vm_compute in E|].
    exists h. split; [exact Hh|exact Hst].
Defined.

Lemma validator_calls_refine_witness : registry_step (w_validators admin_world) (w_validators added_world).
Proof.
  apply (validator_calls_refine (Validator_add new_validator) "ADM" admin_world added_world
    (fst (run_validator (Validator_add new_validator) "ADM" admin_world))).
  - split; [constructor|done].
  - apply surjective_pairing.
Defined.

Lemma validator_registry_invariant_witness : w_validators scheduled_world <> [] /\ registry_ok (w_validators scheduled_world).
Proof.
  split; [vm_compute; discriminate|].
  apply (validator_registry_invariant admin_world scheduled_world); [reflexivity|apply reached_scheduled].
Defined.

Lemma scheduled_world_ok : registry_ok (w_validators scheduled_world).
Proof.
  assert (H0 : registry_ok (w_validators admin_world)) by (split; [constructor|done]).
  assert (H1 : registry_ok (w_validators added_world)).
  { eapply registry_step_ok; [exact H0|]. eapply (call_simulates_registry (Validator_add new_validator) "ADM"); [exact H0|apply surjective_pairing]. }
  eapply registry_step_ok; [exact H1|]. eapply (call_simulates_registry (Validator_remove "0xval" removal) "ADM"); [exact H1|apply surjective_pairing].
Qed.

Lemma registered_never_readded_witness : exists e, addValidator "ADM" new_validator scheduled_world = (inl e, scheduled_world).
Proof.
  destruct (get ("VREG:" +:+ randomUUID_at 0) (w_validators scheduled_world)) as [v|] eqn:E; [|by vm_compute in E].
  apply (registered_never_readded "ADM" new_validator scheduled_world _ v scheduled_world_ok E).
  vm_compute in E. injection E as <-. reflexivity.
Defined.

Lemma validators_admin_only_witness :
  exists message, run_validator (Validator_add new_validator) "nobody" admin_world = (inl (ForbiddenError message), admin_world).
Proof. apply (validators_admin_only (Validator_add new_validator) "nobody" admin_world). exact I. Defined.

Lemma production_validators_frozen_witness :
  exists e w', @run_validator production_env _ _ (@ConsoleEmailNotificationProvider production_env) (Validator_add new_validator) "ADM" admin_world = (inl e, w')
    /\ w_validators w' = w_validators admin_world.
Proof. apply production_validators_frozen. vm_compute. reflexivity. Defined.

Lemma cancelled_removal_is_active_witness :
  exists v, fst (cancelScheduledRemoval "ADM" "0xval" (Some "needed") scheduled_world) = inr v /\
    ValidatorRegistration.activationHeight v = 1000%Z /\ effective_status v 42 = VR_ACTIVE.
Proof.
  destruct (cancelScheduledRemoval "ADM" "0xval" (Some "needed") scheduled_world) as [[e|v] w'] eqn:E; [by vm_compute in E|].
  exists v. split; [reflexivity|]. split; [vm_compute in E; by injection E as <- _|].
  apply (cancelled_removal_is_active "ADM" "0xval" (Some "needed") scheduled_world w' v E).
Defined.
