(* ===== verification/Schemas.v ===== *)
(** * Schemas: the shape checks of [shared/schemas/index.ts]

    Each check returns the list of what is wrong with a value of type
    [any]; reading a property of anything but an object gives [undefined]. *)
From S2P Require Import Prelude JsString JsMap JsValue Shared.
Local Open Scope string_scope.
Local Open Scope list_scope.

(** [obj?.k] *)
Definition prop (k : string) (obj : value) : value := match obj with VObj p => field k p | _ => VUndefined end.

(** The member of a string union a value denotes: [isOneOf(v, ALL)]. *)
Definition one_of {A} (literal : A -> string) (all : list A) (v : value) : option A :=
  match v with
  | VStr s => List.find (fun x => String.eqb (literal x) s) all
  | _ => None
  end.
Definition isOneOf {A} (literal : A -> string) (all : list A) (v : value) : bool := bool_decide (is_Some (one_of literal all v)).

Definition parse_Role : value -> option Role := one_of Role_string ROLES.
Definition isValidRole (v : value) : bool := isOneOf Role_string ROLES v.

(** [typeof v === "string"] and [v === null] *)
Definition typeof_string (v : value) : bool := match v with VStr _ => true | _ => false end.
Definition is_null (v : value) : bool := match v with VNull => true | _ => false end.
(** [if (bad) errors.push(message)] *)
Definition complain (bad : bool) (message : string) : list string := if bad then [message] else [].

Definition validateIdentity (obj : value) : list string :=
  complain (negb (typeof_string (prop "identityId" obj))) "identityId must be a string" ++
  complain (negb (is_null (prop "employeeId" obj)) && negb (typeof_string (prop "employeeId" obj))) "employeeId must be a string or null" ++
  complain (negb (is_null (prop "role" obj)) && negb (isValidRole (prop "role" obj)))
    ("role must be one of " +:+ join_strings ", " (map Role_string ROLES) +:+ " or null") ++
  complain (negb (isOneOf IdentityStatus_string IDENTITY_STATUSES (prop "status" obj))) "status is invalid".

Definition validateWallet (obj : value) : list string :=
  complain (negb (typeof_string (prop "address" obj))) "address must be a string" ++
  complain (negb (typeof_string (prop "identityId" obj))) "identityId must be a string" ++
  complain (negb (isOneOf WalletStatus_string WALLET_STATUSES (prop "status" obj))) "status is invalid".

Definition validateAuthorizationGrant (obj : value) : list string :=
  complain (negb (typeof_string (prop "authorizationGrantId" obj))) "authorizationGrantId must be a string" ++
  complain (negb (typeof_string (prop "actorIdentityId" obj))) "actorIdentityId must be a string" ++
  complain (negb (typeof_string (prop "resourceId" obj))) "resourceId must be a string" ++
  complain (negb (typeof_string (prop "grantedByIdentityId" obj))) "grantedByIdentityId must be a string" ++
  complain (negb (typeof_string (prop "issuedAt" obj))) "issuedAt must be an ISO 8601 string".

Definition validateAsset (obj : value) : list string :=
  complain (negb (typeof_string (prop "assetId" obj))) "assetId must be a string" ++
  complain (negb (typeof_string (prop "nftId" obj))) "nftId must be a string" ++
  complain (negb (typeof_string (prop "ownerId" obj))) "ownerId must be a string" ++
  complain (negb (isOneOf AssetStatus_string ASSET_STATUSES (prop "status" obj))) "status is invalid".

Definition validateJob (obj : value) : list string :=
  complain (negb (typeof_string (prop "jobId" obj))) "jobId must be a string" ++
  complain (negb (typeof_string (prop "assetId" obj))) "assetId must be a string" ++
  complain (negb (isOneOf JobStatus_string JOB_STATUSES (prop "status" obj))) "status is invalid" ++
  complain (negb (isOneOf JobPriority_string JOB_PRIORITIES (prop "priority" obj))) "priority is invalid".
