(* ===== verification/Result.v ===== *)
(** * Result: synchronous functions that throw

    A function of the source that has no state and either returns or throws
    is a value of the sum type; [exn] are the errors of the program. *)
From S2P Require Import Prelude Effects Errors.

Abbreviation Result := (sum exn).
#[global] Instance Result_ret : MRet Result := fun A a => inr a.
#[global] Instance Result_bind : MBind Result := fun A B k m => match m with inl e => inl e | inr a => k a end.

Section Result.
Context {A B : Type}.

Definition fail (e : exn) : Result A := inl e.
(** [if (!ok) throw e;] *)
Definition ensure (ok : bool) (e : exn) : Result unit := if ok then mret tt else inl e.
(** [o ?? (throw e)] *)
Definition from_some (o : option A) (e : exn) : Result A := match o with Some a => inr a | None => inl e end.
(** [l.map(f)] where [f] takes the element and its index and may throw. *)
Fixpoint map_results (f : nat -> A -> Result B) (i : nat) (l : list A) : Result (list B) :=
  match l with
  | [] => mret []
  | a :: l' => b ← f i a; bs ← map_results f (S i) l'; mret (b :: bs)
  end.

Lemma bind_ok (m : Result A) (k : A -> Result B) b : (m ≫= k) = inr b <-> exists a, m = inr a /\ k a = inr b.
Proof.
  unfold mbind, Result_bind. destruct m as [e|a]; split; [done|by intros (a & [=] & _)|eauto|by intros (a' & [= <-] & E)].
Qed.
Lemma bind_failed (m : Result A) (k : A -> Result B) e :
  (m ≫= k) = inl e <-> m = inl e \/ exists a, m = inr a /\ k a = inl e.
Proof.
  unfold mbind, Result_bind. destruct m as [e'|a].
  - split; [by intros [= ->]; left|]. by intros [[= ->]|(a & [=] & _)].
  - split; [eauto|]. by intros [E|(a' & [= <-] & E)].
Qed.
Lemma from_some_ok (o : option A) e a : from_some o e = inr a <-> o = Some a.
Proof. destruct o; simpl; split; by intros [= ->]. Qed.
End Result.

Lemma ensure_ok b e u : ensure b e = inr u <-> b = true.
Proof. by destruct b, u. Qed.
Lemma ret_ok {A} (a a' : A) : (mret a : Result A) = inr a' <-> a = a'.
Proof. unfold mret, Result_ret. split; [by intros [= ->]|by intros ->]. Qed.

Section Maps.
Context {A B : Type} (f : nat -> A -> Result B).
Lemma map_results_ok (P : A -> B -> Prop) i l r :
  (forall i a b, f i a = inr b <-> P a b) -> map_results f i l = inr r <-> Forall2 P l r.
Proof.
  intros Hf. revert i r. induction l as [|a l IH]; intros i r; simpl.
  - rewrite ret_ok. split; [intros <-; constructor|by inversion 1].
  - rewrite bind_ok. split.
    + intros (b & Hb & (bs & Hbs & <-%ret_ok)%bind_ok). constructor; [by eapply Hf|by eapply IH].
    + inversion_clear 1. exists y. split; [by apply Hf|]. apply bind_ok. exists l'. split; [by apply IH|done].
Qed.
Lemma map_results_failed i l e : map_results f i l = inl e -> exists j a, f j a = inl e /\ In a l.
Proof.
  revert i. induction l as [|a l IH]; intros i; simpl; [done|].
  intros [E|(b & _ & [E|(bs & _ & E)]%bind_failed)]%bind_failed; [eauto| |done].
  apply IH in E as (j & a' & E & Hin). eauto.
Qed.
End Maps.

(** Only errors with a property are thrown. *)
Definition fails_with {A} (P : exn -> Prop) (m : Result A) : Prop := forall e, m = inl e -> P e.
Lemma fails_with_bind {A B} P (m : Result A) (k : A -> Result B) :
  fails_with P m -> (forall a, fails_with P (k a)) -> fails_with P (m ≫= k).
Proof. intros Hm Hk e [E|(a & _ & E)]%bind_failed; [by apply Hm|by eapply Hk]. Qed.
Lemma fails_with_ret {A} P (a : A) : fails_with P (mret a).
Proof. by intros e. Qed.
Lemma fails_with_fail {A} (P : exn -> Prop) e : P e -> fails_with P (inl e : Result A).
Proof. by intros H e' [= <-]. Qed.
Lemma fails_with_ensure (P : exn -> Prop) b e : P e -> fails_with P (ensure b e).
Proof. intros H e'. destruct b; [done|by intros [= <-]]. Qed.
Lemma fails_with_from_some {A} (P : exn -> Prop) (o : option A) e : P e -> fails_with P (from_some o e).
Proof. intros H e'. destruct o; [done|by intros [= <-]]. Qed.
Lemma fails_with_map {A B} P (f : nat -> A -> Result B) i l : (forall j a, fails_with P (f j a)) -> fails_with P (map_results f i l).
Proof. intros Hf e (j & a & E & _)%map_results_failed. by eapply Hf. Qed.

(** Descends through a computation, leaving the errors it throws. *)
Ltac failures :=
  repeat first
    [ progress intros
    | lazymatch goal with
      | |- fails_with _ (mret _) => apply fails_with_ret
      | |- fails_with _ (inl _) => apply fails_with_fail
      | |- fails_with _ (ensure _ _) => apply fails_with_ensure
      | |- fails_with _ (from_some _ _) => apply fails_with_from_some
      | |- fails_with _ (map_results _ _ _) => apply fails_with_map
      | |- fails_with _ (mbind _ _) => apply fails_with_bind
      | |- fails_with _ (match ?x with _ => _ end) => destruct x
      end
    | solve [auto with bel] ].
