(* ===== verification/Payloads.v ===== *)
(** * Payloads: from a transaction envelope to a contract call,
    [backend/src/blockchain/payloads.ts] *)
From S2P Require Import Prelude Effects JsString JsMap JsValue Shared Errors.
From Stdlib Require Import Ascii.
Local Open Scope string_scope.
Local Open Scope list_scope.

(** [ContractName] of [blockchain/config.ts] *)
Inductive ContractName := IdentityRegistry | RoleRegistry | AssetRegistry | JobManager | AuditRegistry | ValidatorRegistry.
#[export] Instance ContractName_eq_dec : EqDecision ContractName.
Proof. solve_decision. Defined.

Module CallPlan.
Record t := mk { contract : ContractName; method : string; args : list value }.
End CallPlan.

(** The on-chain lookups that resolve references; [L] is the state they read. *)
Class ChainLookups (L : Type) := {
  (** 0 when the asset was never minted *)
  nftIdOf : string -> M exn L Z;
  walletOfIdentity : string -> bool -> M exn L (option string);
}.

Section Payloads.
Context `{Platform} {L : Type} `{ChainLookups L}.
Abbreviation ML := (M exn L).

Definition invalid {A} (type : TransactionType) (message : string) : ML A :=
  throw (BlockchainError INVALID_PAYLOAD (TransactionType_string type +:+ ": " +:+ message)).

(** The loop of [str]: the first key that holds a non-blank string. *)
Fixpoint first_string (p : payload) (ks : list string) : option string :=
  match ks with
  | [] => None
  | k :: ks' =>
      match field k p with
      | VStr v => if bool_decide (trim v = "") then first_string p ks' else Some (trim v)
      | _ => first_string p ks'
      end
  end.
Definition head_key (ks : list string) : string := hd "undefined" ks.
(** [str(type, p, keys)], required *)
Definition str (type : TransactionType) (p : payload) (ks : list string) : ML string :=
  match first_string p ks with
  | Some v => mret v
  | None => invalid type ("payload." +:+ head_key ks +:+ " is required")
  end.

Definition to_checksum (v : string) : ML string := require (getAddress v) (Error "invalid address").

Definition optionalAddress (type : TransactionType) (p : payload) (ks : list string) : ML (option string) :=
  match first_string p ks with
  | None => mret None
  | Some v =>
      if isAddress v then a ← to_checksum v; mret (Some a)
      else invalid type ("payload." +:+ head_key ks +:+ " is not a valid address")
  end.
Definition requiredAddress (type : TransactionType) (p : payload) (ks : list string) : ML string :=
  o ← optionalAddress type p ks;
  match o with
  | Some a => mret a
  | None => invalid type ("payload." +:+ head_key ks +:+ " is required")
  end.

(** [Math.floor(n)] for a number, [Math.floor(Date.parse(String(v)) / 1000)] otherwise. *)
Definition expiry_seconds (v : value) : option Z :=
  match v with
  | VNum (Num q) => Some (floor_Z q)
  | VNum _ => None
  | VStr s => (fun ms => (ms / 1000)%Z) <$> Date_parse s
  | _ => (fun ms => (ms / 1000)%Z) <$> Date_parse (String_of v)
  end.
(** The literal [0xffffffffffffffff] is not a double: it denotes 2^64. *)
Definition MAX_EXPIRY : Z := 18446744073709551616.
Definition grantExpiry (type : TransactionType) (p : payload) : ML Z :=
  let given v :=
    match expiry_seconds v with
    | Some s => if (s <? 0)%Z || (MAX_EXPIRY <? s)%Z then invalid type "payload.expiresAt is invalid" else mret s
    | None => invalid type "payload.expiresAt is invalid"
    end in
  match field "expiresAt" p with
  | VUndefined | VNull => mret 0%Z
  | VStr s => if bool_decide (s = "") then mret 0%Z else given (VStr s)
  | v => given v
  end.

Definition party (type : TransactionType) (p : payload) (ks : list string) (requireActive : bool) : ML string :=
  ref ← str type p ks;
  if isAddress ref then to_checksum ref
  else
    wallet ← walletOfIdentity ref requireActive;
    if truthy_string wallet then mret (default "" wallet)
    else throw (BlockchainError NOT_FOUND (TransactionType_string type +:+ ": identity " +:+ ref +:+ " has no "
           +:+ (if requireActive then "ACTIVE " else "") +:+ "wallet on-chain")).

(** A positive integer under one of the nft keys. *)
Definition nft_number (v : value) : option Z :=
  match v with
  | VStr s => if is_decimal s then Some (decimal_value s) else None
  | VNum n => match as_safe_integer n with Some z => if (0 <? z)%Z then Some z else None | None => None end
  | VBigInt z => Some z
  | _ => None
  end.
Fixpoint first_nft (p : payload) (ks : list string) : option Z :=
  match ks with
  | [] => None
  | k :: ks' =>
      match nft_number (field k p) with
      | Some n => if (0 <? n)%Z then Some n else first_nft p ks'
      | None => first_nft p ks'
      end
  end.
Definition nftRef (type : TransactionType) (p : payload) (idKeys nftKeys : list string) : ML Z :=
  match first_nft p nftKeys with
  | Some n => mret n
  | None =>
      match first_string p idKeys with
      | None => invalid type ("payload." +:+ head_key idKeys +:+ " or payload." +:+ head_key nftKeys +:+ " is required")
      | Some assetId =>
          n ← nftIdOf assetId;
          if (n =? 0)%Z
          then throw (BlockchainError NOT_FOUND (TransactionType_string type +:+ ": asset " +:+ assetId +:+ " is not registered on-chain"))
          else mret n
      end
  end.

(** [ROLES.indexOf(role)] *)
Fixpoint index_of (s : string) (l : list string) : option nat :=
  match l with
  | [] => None
  | x :: l' => if String.eqb s x then Some 0%nat else S <$> index_of s l'
  end.
Definition roleIndex (type : TransactionType) (p : payload) : ML nat :=
  role ← str type p ["role"];
  match index_of role (map Role_string ROLES) with
  | Some i => mret i
  | None => invalid type ("unknown role " +:+ role)
  end.

Definition is_zero_char (a : ascii) : bool := Ascii.eqb a "0"%char.
Definition normalizeBytes32 (type : TransactionType) (value : string) : ML string :=
  let hex := if startsWith "0x" value || startsWith "0X" value then slice_from 2 value else value in
  if negb (is_hex_of_length 64 hex) then invalid type "evidenceHash must be a 32-byte hex string (e.g. a SHA-256 digest)"
  else if negb (bool_decide (hex = "")) && all_chars is_zero_char hex then invalid type "evidenceHash must not be zero"
  else mret ("0x" +:+ toLowerCase hex).

(** A positive safe-integer height field. *)
Definition height_field (type : TransactionType) (p : payload) (k : string) : ML value :=
  let bad := invalid type ("payload." +:+ k +:+ " must be a positive integer") in
  match field k p with
  | VNum n => match as_safe_integer n with Some z => if (0 <? z)%Z then mret (VNum n) else bad | None => bad end
  | _ => bad
  end.

Definition wallet_keys : list string := ["walletAddress"; "address"; "wallet"].
Definition validator_keys : list string := ["validatorId"; "validator"; "address"].
Definition newOwner_keys : list string := ["newOwnerId"; "newOwnerWallet"; "newOwner"].
Definition custodian_message : string :=
  "ASSET_TRANSFER: a custodian different from the new owner cannot be recorded on-chain (IAssetRegistry.transferAsset moves both together)".

(** The envelope's type is one of [TRANSACTION_TYPES] by typing, so the
    unknown-type guard has no case here. *)
Definition buildCallPlan (tx : Transaction.t) : ML CallPlan.t :=
  let type := Transaction.type tx in
  let p := Transaction.payload tx in
  match type with
  | VALIDATOR_ADD =>
      validator ← requiredAddress type p validator_keys;
      publicKey ← str type p ["publicKey"];
      signingPublicKey ← str type p ["signingPublicKey"];
      activationHeight ← height_field type p "activationHeight";
      mret (CallPlan.mk ValidatorRegistry "addValidator" [VStr validator; VStr publicKey; VStr signingPublicKey; activationHeight])
  | VALIDATOR_REMOVE =>
      validator ← requiredAddress type p validator_keys;
      removalHeight ← height_field type p "removalHeight";
      reason ← str type p ["reason"];
      mret (CallPlan.mk ValidatorRegistry "removeValidator" [VStr validator; removalHeight; VStr reason])
  | VALIDATOR_RESTORE =>
      validator ← requiredAddress type p validator_keys;
      reason ← str type p ["reason"];
      mret (CallPlan.mk ValidatorRegistry "restoreValidator" [VStr validator; VStr reason])
  | VALIDATOR_REMOVE_CANCEL =>
      validator ← requiredAddress type p validator_keys;
      reason ← str type p ["reason"];
      mret (CallPlan.mk ValidatorRegistry "cancelScheduledRemoval" [VStr validator; VStr reason])
  | IDENTITY_CREATE | IDENTITY_REGISTER | WALLET_REGISTER =>
      wallet ← requiredAddress type p wallet_keys;
      identityId ← str type p ["identityId"; "did"];
      mret (CallPlan.mk IdentityRegistry "createIdentity" [VStr wallet; VStr identityId])
  | WALLET_ACTIVATE =>
      wallet ← requiredAddress type p wallet_keys;
      mret (CallPlan.mk IdentityRegistry "activateWallet" [VStr wallet])
  | WALLET_REVOKE =>
      wallet ← requiredAddress type p wallet_keys;
      reason ← str type p ["reason"];
      mret (CallPlan.mk IdentityRegistry "revokeWallet" [VStr wallet; VStr reason])
  | ROLE_ASSIGN | ROLE_REVOKE =>
      given ← optionalAddress type p wallet_keys;
      target ← (match given with Some a => mret a | None => party type p ["identityId"] false end);
      role ← roleIndex type p;
      mret (CallPlan.mk RoleRegistry (if bool_decide (type = ROLE_ASSIGN) then "assignRole" else "revokeRole")
              [VStr target; VNum (num_of_Z (Z.of_nat role))])
  | ASSET_MINT =>
      assetId ← str type p ["assetId"];
      owner ← party type p ["ownerId"; "ownerWallet"; "owner"] true;
      mret (CallPlan.mk AssetRegistry "mintAsset" [VStr assetId; VStr owner])
  | ASSET_TRANSFER =>
      newOwner ← str type p newOwner_keys;
      throw_if (match first_string p ["newCustodianId"] with Some c => negb (String.eqb c newOwner) | None => false end)
        (BlockchainError UNSUPPORTED_TRANSACTION custodian_message);;
      nft ← nftRef type p ["assetId"] ["nftId"];
      to ← party type p newOwner_keys true;
      mret (CallPlan.mk AssetRegistry "transferAsset" [VBigInt nft; VStr to])
  | GRANT_CREATE | GRANT_REVOKE =>
      str type p ["actorIdentityId"];;
      grantId ← str type p ["authorizationGrantId"];
      nft ← nftRef type p ["resourceId"; "assetId"] ["nftId"];
      grantee ← party type p ["actorIdentityId"] true;
      expiry ← grantExpiry type p;
      mret (CallPlan.mk AssetRegistry "setTransferGrant"
        [VBigInt nft; VStr grantee; VNum (num_of_Z expiry); VBool (bool_decide (type = GRANT_CREATE)); VStr grantId])
  | ASSET_STATE_CHANGE =>
      state ← str type p ["newState"; "status"];
      match parse_AssetStatus state with
      | None => invalid type ("unknown asset state " +:+ state)
      | Some _ =>
          nft ← nftRef type p ["assetId"] ["nftId"];
          mret (CallPlan.mk AssetRegistry "changeAssetState" [VBigInt nft; VStr state])
      end
  | COMPONENT_ATTACH | COMPONENT_REMOVE =>
      parent ← nftRef type p ["parentAssetId"] ["parentNftId"];
      component ← nftRef type p ["componentAssetId"; "componentId"] ["componentNftId"];
      mret (CallPlan.mk AssetRegistry (if bool_decide (type = COMPONENT_ATTACH) then "attachComponent" else "removeComponent")
              [VBigInt parent; VBigInt component])
  | JOB_CREATE =>
      jobId ← str type p ["jobId"];
      nft ← nftRef type p ["assetId"] ["assetNftId"];
      mret (CallPlan.mk JobManager "createJob" [VStr jobId; VBigInt nft])
  | JOB_ASSIGN =>
      jobId ← str type p ["jobId"];
      technician ← party type p ["technicianId"; "technicianWallet"; "technician"] true;
      mret (CallPlan.mk JobManager "assignJob" [VStr jobId; VStr technician])
  | JOB_START =>
      jobId ← str type p ["jobId"];
      mret (CallPlan.mk JobManager "startJob" [VStr jobId])
  | JOB_COMPLETE =>
      jobId ← str type p ["jobId"];
      evidence ← str type p ["evidenceHash"];
      hash ← normalizeBytes32 type evidence;
      mret (CallPlan.mk JobManager "completeJob" [VStr jobId; VStr hash])
  | JOB_APPROVE =>
      jobId ← str type p ["jobId"];
      mret (CallPlan.mk JobManager "approveJob" [VStr jobId])
  | JOB_REJECT =>
      jobId ← str type p ["jobId"];
      reason ← str type p ["reason"];
      mret (CallPlan.mk JobManager "rejectJob" [VStr jobId; VStr reason])
  end.
End Payloads.
