(* ===== verification/PayloadsCorrect.v ===== *)
(** * PayloadsCorrect: contract calls are built faithfully and fail as client errors *)
From S2P Require Import Prelude Effects JsString JsMap JsValue Crypto Shared Errors World Concrete Jobs Payloads.
From Stdlib Require Import Ascii.
Local Open Scope string_scope.
Local Open Scope list_scope.

(** ** Strings of hexadecimal digits *)

Lemma slice_from_0x s : slice_from 2 ("0x" +:+ s) = s.
Proof. done. Qed.

Lemma hex_no_prefix n s : is_hex_of_length n s = true -> startsWith "0x" s || startsWith "0X" s = false.
Proof.
  unfold is_hex_of_length, startsWith. intros [_ Hc]%andb_true_iff. destruct s as [|a s]; [done|]. cbn [String.prefix].
  destruct (ascii_dec "0" a); [|done]. destruct s as [|b s]; [done|]. cbn [String.prefix all_chars] in *. apply andb_true_iff in Hc as [_ [Hb _]%andb_true_iff].
  destruct (ascii_dec "x" b) as [<-|]; [done|]. by destruct (ascii_dec "X" b) as [<-|].
Qed.

Lemma zero_lower s : all_chars is_zero_char (toLowerCase s) = all_chars is_zero_char s.
Proof.
  induction s as [|a s IH]; simpl; [done|]. unfold toLowerCase in IH. rewrite IH. f_equal.
  assert (Hz : Bool.eqb (is_zero_char (lower_char a)) (is_zero_char a) = true); [|by apply Bool.eqb_prop in Hz].
  revert a. apply all_ascii. vm_compute. reflexivity.
Qed.

Lemma map_chars_app f s t : map_chars f (s +:+ t) = map_chars f s +:+ map_chars f t.
Proof. induction s as [|a s IH]; simpl; [done|]. by rewrite IH. Qed.

(** ** References resolve to the caller's strings *)

Section Plans.
Context `{PF : Platform} {L : Type} `{ChainLookups L}.
Abbreviation ML := (M exn L).

(** The digest inside an evidence reference, with or without its prefix. *)
Definition digest_of (v : string) : string := if startsWith "0x" v || startsWith "0X" v then slice_from 2 v else v.

Lemma digest_of_prefixed d : digest_of ("0x" +:+ d) = d.
Proof. by destruct d. Qed.

Lemma normalize_run type v (l : L) :
  normalizeBytes32 type v l =
    if is_hex_of_length 64 (digest_of v) && negb (all_chars is_zero_char (digest_of v))
    then (inr ("0x" +:+ toLowerCase (digest_of v)), l)
    else (inl (BlockchainError INVALID_PAYLOAD (TransactionType_string type +:+ ": " +:+
      if is_hex_of_length 64 (digest_of v) then "evidenceHash must not be zero"
      else "evidenceHash must be a 32-byte hex string (e.g. a SHA-256 digest)")), l).
Proof.
  unfold normalizeBytes32. fold (digest_of v). destruct (is_hex_of_length 64 (digest_of v)) eqn:Eh; simpl; [|done].
  rewrite bool_decide_eq_false_2; simpl; [by destruct (all_chars is_zero_char (digest_of v))|]. intros Hd. by rewrite Hd in Eh.
Qed.

(** Evidence digests are normalised to one canonical form: what
    [normalizeBytes32] returns is 0x and 64 lower-case hexadecimal digits,
    not all zero; it is a fixed point, and two spellings of the same digest
    (with or without prefix, in either case) give the same result. *)
Theorem evidence_digest_canonical type v v' h (l l1 : L) :
  normalizeBytes32 type v l = (inr h, l1) ->
  (exists d, h = "0x" +:+ d /\ is_hex_of_length 64 d = true /\ toLowerCase d = d /\ all_chars is_zero_char d = false) /\
  normalizeBytes32 type h l = (inr h, l) /\
  (toLowerCase (digest_of v') = toLowerCase (digest_of v) -> is_hex_of_length 64 (digest_of v') = true ->
     normalizeBytes32 type v' l = (inr h, l)).
Proof.
  rewrite normalize_run. destruct (_ && _) eqn:E; [|done]. intros [= <- <-]. apply andb_true_iff in E as [Hh Hz%negb_true_iff].
  split; [|split].
  - exists (toLowerCase (digest_of v)). split; [done|]. split; [by apply is_hex_of_length_lower|]. split; [apply toLowerCase_idem|].
    by rewrite zero_lower.
  - rewrite normalize_run. rewrite digest_of_prefixed.
    rewrite is_hex_of_length_lower by done. rewrite zero_lower, Hz, toLowerCase_idem. done.
  - intros Hl Hh'. rewrite normalize_run, Hh'. rewrite <- zero_lower, Hl, zero_lower, Hz. done.
Qed.

(** The job service and the chain disagree on one digest: whatever the
    service accepts as evidence hash can be put in a [completeJob] call,
    except the all-zero digest, which the payload builder refuses. *)
Theorem evidence_hash_gap s (l : L) :
  valid_evidence_hash s = true ->
  (exists h, normalizeBytes32 JOB_COMPLETE s l = (inr h, l)) <-> all_chars is_zero_char s = false.
Proof.
  intros Hv. unfold valid_evidence_hash in Hv. rewrite normalize_run.
  assert (digest_of s = s) as -> by (unfold digest_of; by rewrite (hex_no_prefix _ _ Hv)).
  rewrite Hv. destruct (all_chars is_zero_char s); simpl; split; try done; [by intros [h [=]]|eauto].
Qed.

(** ** Roles *)

Lemma index_of_nth s l i : index_of s l = Some i -> nth_error l i = Some s.
Proof.
  revert i. induction l as [|x l IH]; simpl; intros i; [done|].
  destruct (String.eqb_spec s x) as [->|]; [by intros [= <-]|]. destruct (index_of s l) as [j|]; [|done].
  intros [= <-]. simpl. by apply IH.
Qed.
Lemma index_of_Role r : exists i, index_of (Role_string r) (map Role_string ROLES) = Some i /\ nth_error ROLES i = Some r.
Proof. destruct r; eexists; split; reflexivity. Qed.

(** The role number of a contract call is the position of the named role
    in the shared list, and nothing but the exact name of a role is accepted. *)
Theorem role_index_exact type p (l l' : L) i :
  roleIndex type p l = (inr i, l') <->
  l' = l /\ exists r, first_string p ["role"] = Some (Role_string r) /\ nth_error ROLES i = Some r.
Proof.
  unfold roleIndex, str. destruct (first_string p ["role"]) as [s|].
  2: { split; [done|]. by intros (_ & r & [=] & _). }
  rewrite bind_ret. split.
  - destruct (index_of s (map Role_string ROLES)) as [j|] eqn:E; [|done]. intros [= -> <-]. split; [done|].
    apply index_of_nth in E. rewrite nth_error_map in E. destruct (nth_error ROLES i) as [r|]; [|done]. injection E as <-. eauto.
  - intros (-> & r & [= ->] & Hn). destruct (index_of_Role r) as (j & -> & Hj).
    assert (i = j) as ->; [|done]. eapply NoDup_nth_error; [|apply nth_error_Some; by rewrite Hn|by rewrite Hn, Hj].
    repeat constructor; simpl; intuition discriminate.
Qed.

(** ** Grant expiry *)

(** A grant's expiry is a non-negative number of seconds of at most
    2^64, and 2^64 itself passes: the guard's literal 0xffffffffffffffff
    rounds up to it, one more than a [uint64] can hold. *)
Theorem grant_expiry_range type (l : L) :
  (forall p s l', grantExpiry type p l = (inr s, l') -> (0 <= s <= 2 ^ 64)%Z) /\
  grantExpiry type [("expiresAt", VNum (num_of_Z (2 ^ 64)))] l = (inr (2 ^ 64)%Z, l).
Proof.
  split; [|unfold grantExpiry; simpl; unfold floor_Z; done].
  assert (Hg : forall v (s : Z) (l' : L), (match expiry_seconds v with
    | Some s => if (s <? 0)%Z || (MAX_EXPIRY <? s)%Z then invalid type "payload.expiresAt is invalid" else mret s
    | None => invalid type "payload.expiresAt is invalid" end : ML Z) l = (inr s, l') -> (0 <= s <= 2 ^ 64)%Z).
  { intros v s l'. destruct (expiry_seconds v) as [t|]; [|done]. destruct (_ || _) eqn:E; [done|]. intros [= <- _].
    apply orb_false_iff in E as [E1%Z.ltb_ge E2%Z.ltb_ge]. unfold MAX_EXPIRY in E2. lia. }
  intros p s l'. unfold grantExpiry. destruct (field "expiresAt" p) as [| |b|n|z|t|xs|fs]; try (by intros [= <- _]; lia); try apply Hg.
  case_bool_decide; [by intros [= <- _]; lia|apply Hg].
Qed.

(** ** Errors *)

(** Documented behaviour of [ethers]: a string that passes [isAddress] has a
    checksummed form. *)
Definition addresses_normalise : Prop := forall s, isAddress s = true -> is_Some (getAddress s).
(** The lookups answer. *)
Definition lookups_answer : Prop :=
  (forall id (l : L), exists n l', nftIdOf id l = (inr n, l')) /\
  forall id b (l : L), exists o l', walletOfIdentity id b l = (inr o, l').

Definition client_error (e : exn) : Prop :=
  exists kind message, e = BlockchainError kind message /\ kind ∈ [INVALID_PAYLOAD; NOT_FOUND; UNSUPPORTED_TRANSACTION].
End Plans.

Lemma throws_only_answer {L A} P (m : M exn L A) : (forall l, exists a l', m l = (inr a, l')) -> throws_only P m.
Proof. intros Hm l e l' E. destruct (Hm l) as (? & ? & ?). congruence. Qed.

(** Whatever covers the client errors and the throws of the lookups covers
    the throws of [buildCallPlan]. *)
Section Errors.
Context `{PF : Platform} {L : Type} `{ChainLookups L} (P : exn -> Prop).
Abbreviation ML := (M exn L).
Context (Haddr : addresses_normalise) (HP : forall e, client_error e -> P e)
  (Hnft : forall id, throws_only P (nftIdOf id : ML Z))
  (Hwallet : forall id b, throws_only P (walletOfIdentity id b : ML (option string))).

Lemma client_error_kind kind message : In kind [INVALID_PAYLOAD; NOT_FOUND; UNSUPPORTED_TRANSACTION] -> P (BlockchainError kind message).
Proof. intros Hk. apply HP. exists kind, message. by rewrite list_elem_of_In. Qed.
Lemma throws_only_kind {A} kind message :
  In kind [INVALID_PAYLOAD; NOT_FOUND; UNSUPPORTED_TRANSACTION] -> throws_only P (throw (BlockchainError kind message) : ML A).
Proof. intros. by apply throws_only_throw, client_error_kind. Qed.
Lemma throws_only_invalid {A} type message : throws_only P (invalid type message : ML A).
Proof. apply throws_only_kind. simpl. tauto. Qed.
Hint Resolve throws_only_invalid : bel.
Hint Extern 1 (P (BlockchainError _ _)) => apply client_error_kind; simpl; tauto : bel.
Lemma throws_only_str type p ks : throws_only P (str type p ks : ML string).
Proof. unfold str. throws. Qed.
Lemma throws_only_checksum s : isAddress s = true -> throws_only P (to_checksum s : ML string).
Proof. intros [a Ha]%Haddr. unfold to_checksum. rewrite Ha. apply throws_only_ret. Qed.
Hint Resolve throws_only_str throws_only_checksum Hnft Hwallet : bel.
Lemma throws_only_optionalAddress type p ks : throws_only P (optionalAddress type p ks : ML _).
Proof. unfold optionalAddress. throws. Qed.
Lemma throws_only_requiredAddress type p ks : throws_only P (requiredAddress type p ks : ML _).
Proof. unfold requiredAddress. apply throws_only_bind; [apply throws_only_optionalAddress|throws]. Qed.
Lemma throws_only_party type p ks b : throws_only P (party type p ks b : ML _).
Proof. unfold party. throws. Qed.
Lemma throws_only_nftRef type p ids nfts : throws_only P (nftRef type p ids nfts : ML _).
Proof. unfold nftRef. throws. Qed.
Lemma throws_only_expiry type p : throws_only P (grantExpiry type p : ML _).
Proof. unfold grantExpiry. throws. Qed.
Hint Resolve throws_only_optionalAddress throws_only_requiredAddress throws_only_party throws_only_nftRef throws_only_expiry : bel.

Lemma throws_only_plan tx : throws_only P (buildCallPlan tx : ML _).
Proof.
  unfold buildCallPlan. destruct (Transaction.type tx); unfold height_field, roleIndex, normalizeBytes32; throws.
Qed.
End Errors.

Section Claims.
Context `{PF : Platform} {L : Type} `{ChainLookups L}.

(** A malformed transaction is the client's fault, whatever its payload:
    while the lookups answer, building the call fails only with errors the
    HTTP layer reports as 400 or 404, never as an internal error. *)
Theorem plan_errors_are_client_errors tx (l l' : L) e :
  addresses_normalise -> lookups_answer (L := L) -> buildCallPlan tx l = (inl e, l') ->
  (fst (fst (serialize_error e)) = 400 \/ fst (fst (serialize_error e)) = 404)%Z.
Proof.
  intros Ha [Hn Hw] Hrun. assert (Hc : client_error e).
  { eapply (throws_only_plan client_error Ha); [done|by intros; apply throws_only_answer|by intros; apply throws_only_answer|exact Hrun]. }
  destruct Hc as (k & m & -> & Hk).
  apply list_elem_of_In in Hk. simpl in Hk. destruct Hk as [<-|[<-|[<-|[]]]]; simpl; auto.
Qed.

(** The [JobManager] method behind each mutation. *)
Definition job_method (m : JobMutation) : string :=
  match m with
  | M_ASSIGN => "assignJob" | M_START => "startJob" | M_COMPLETE => "completeJob"
  | M_APPROVE => "approveJob" | M_REJECT => "rejectJob"
  end.
(** Its second argument. *)
Definition job_argument (m : JobMutation) (arg wallet : string) : list value :=
  match m with
  | M_ASSIGN => [VStr wallet] | M_COMPLETE => [VStr ("0x" +:+ toLowerCase arg)] | M_REJECT => [VStr (trim arg)]
  | M_START | M_APPROVE => []
  end.

Lemma first_string_here p k ks s : field k p = VStr s -> blank s = false -> first_string p (k :: ks) = Some (trim s).
Proof. intros Hf Hb. simpl. rewrite Hf. unfold blank in Hb. by rewrite Hb. Qed.

Lemma hex_not_blank n s : is_hex_of_length (S n) s = true -> blank s = false /\ trim s = s.
Proof.
  intros Hh. assert (Ht : trim s = s).
  { unfold is_hex_of_length in Hh. apply andb_true_iff in Hh as [_ Hc]. unfold trim.
    assert (Hs : forall a, is_hex a = true -> is_space a = false).
    { intros a Ha. assert (implb (is_hex a) (negb (is_space a)) = true) as Hi.
      { clear Ha. revert a. apply all_ascii. vm_compute. reflexivity. }
      rewrite Ha in Hi. by apply negb_true_iff. }
    assert (trimStart s = s) as ->.
    { destruct s as [|a s]; [done|]. simpl in *. apply andb_true_iff in Hc as [Ha _]. by rewrite (Hs _ Ha). }
    induction s as [|a s IH]; [done|]. simpl in *. apply andb_true_iff in Hc as [Ha Hc]. rewrite (IH Hc), (Hs _ Ha). by destruct s. }
  split; [|done]. unfold blank. rewrite Ht. apply bool_decide_eq_false. intros ->. done.
Qed.

(** What the job service submits is what the contract gets: for every
    mutation whose checks passed, the call built from its payload is the
    [JobManager] method of that mutation on that job, with the digest in
    canonical form and the technician as the active wallet of the identity. *)
Theorem job_payload_planned m jobId arg tx wallet (l l' : L) :
  Transaction.type tx = mutation_type m -> Transaction.payload tx = mutation_payload m jobId arg ->
  blank jobId = false -> trim jobId = jobId -> arg_ok m arg ->
  (m = M_COMPLETE -> all_chars is_zero_char arg = false) ->
  (m = M_ASSIGN -> isAddress (trim arg) = false /\ wallet <> "" /\ walletOfIdentity (trim arg) true l = (inr (Some wallet), l')) ->
  buildCallPlan tx l =
    (inr (CallPlan.mk JobManager (job_method m) (VStr jobId :: job_argument m arg wallet)), match m with M_ASSIGN => l' | _ => l end).
Proof.
  intros Ht Hp Hb Htr Harg Hz Hw. unfold buildCallPlan. rewrite Ht, Hp.
  assert (Hj : forall type, (str type (mutation_payload m jobId arg) ["jobId"] : M exn L _) = mret jobId).
  { intros type. unfold str. rewrite (first_string_here _ _ _ jobId), Htr by (by destruct m). done. }
  destruct m; cbn [mutation_type]; rewrite Hj, bind_ret; clear Hj.
  - destruct (Hw eq_refl) as (Ha & Hn & Hl). unfold party, str.
    rewrite (first_string_here _ _ _ arg) by done. rewrite bind_assoc, bind_ret, Ha.
    rewrite bind_assoc, (bind_run _ _ _ _ _ Hl). simpl. by rewrite bool_decide_eq_false_2.
  - done.
  - simpl in Harg. unfold valid_evidence_hash in Harg. destruct (hex_not_blank 63 arg Harg) as [Hnb Hta].
    unfold str. rewrite (first_string_here _ _ _ arg), Hta by done. rewrite bind_ret.
    assert (Hn : normalizeBytes32 JOB_COMPLETE arg l = (inr ("0x" +:+ toLowerCase arg), l)).
    { rewrite normalize_run. unfold digest_of. rewrite (hex_no_prefix _ _ Harg), Harg, (Hz eq_refl). done. }
    by rewrite (bind_run _ _ _ _ _ Hn).
  - done.
  - unfold str. rewrite (first_string_here _ _ _ arg) by done. done.
Qed.
End Claims.

(** ** Concrete runs *)

#[local] Existing Instance dev.
(** A chain where every asset has token 7 and every identity the wallet 0xw. *)
#[local] Instance demo_lookups : ChainLookups unit := {|
  nftIdOf _ := mret 7%Z;
  walletOfIdentity _ _ := mret (Some "0xw");
|}.
Definition demo_digest : string := repeat_char "A"%char 64.
Definition demo_tx (t : TransactionType) (p : payload) : Transaction.t := Transaction.mk "tx" t "ID" "0xw" p "now" "development".

Lemma evidence_digest_canonical_witness :
  normalizeBytes32 JOB_COMPLETE ("0x" +:+ repeat_char "a"%char 64) tt = (inr ("0x" +:+ repeat_char "a"%char 64), tt).
Proof.
  refine (proj2 (proj2 (evidence_digest_canonical JOB_COMPLETE demo_digest ("0x" +:+ repeat_char "a"%char 64)
    ("0x" +:+ repeat_char "a"%char 64) tt tt _)) _ _); vm_compute; reflexivity.
Defined.

Lemma evidence_hash_gap_witness :
  (exists h, normalizeBytes32 JOB_COMPLETE (repeat_char "0"%char 64) tt = (inr h, tt)) <-> true = false.
Proof. apply (evidence_hash_gap (repeat_char "0"%char 64) tt). vm_compute. reflexivity. Defined.

Lemma plan_errors_are_client_errors_witness :
  exists e, fst (buildCallPlan (demo_tx ROLE_ASSIGN [("role", VStr "KING"); ("identityId", VStr "ID")]) tt) = inl e /\
    (fst (fst (serialize_error e)) = 400 \/ fst (fst (serialize_error e)) = 404)%Z.
Proof.
  destruct (buildCallPlan (demo_tx ROLE_ASSIGN [("role", VStr "KING"); ("identityId", VStr "ID")]) tt) as [[e|a] []] eqn:E; [|by vm_compute in E].
  exists e. split; [reflexivity|]. refine (plan_errors_are_client_errors _ tt tt e _ _ E).
  - intros s Hs. simpl in *. rewrite Hs. by eexists.
  - split; intros; by repeat eexists.
Defined.

Lemma job_payload_planned_witness :
  buildCallPlan (demo_tx JOB_ASSIGN [("jobId", VStr "J1"); ("technicianId", VStr "ID9")]) tt =
    (inr (CallPlan.mk JobManager "assignJob" [VStr "J1"; VStr "0xw"]), tt).
Proof.
  apply (job_payload_planned M_ASSIGN "J1" "ID9" _ "0xw" tt tt); try reflexivity; try done.
Defined.
