(* ===== verification/Rpc.v ===== *)
(** * Rpc: the JSON-RPC node and the [ethers] codec, as the EVM adapter sees them

    The node, the contracts deployed on it and the [ethers] package are not
    part of the program.  [Node N] is what the adapter asks of a provider: a
    call changes the state of the node as it likes (other clients use it too)
    and may be rejected with a value of unknown type.  [EvmCodec] is the pure
    part: ABI encoding and decoding, parsing of serialized transactions.  The
    functions of [blockchain/evm-adapter.ts] that only look at a rejected
    value follow. *)
From S2P Require Import Prelude Effects JsString JsMap JsValue Shared Errors Payloads.
From Stdlib Require Import Ascii.
Local Open Scope string_scope.
Local Open Scope list_scope.

(** A rejected value: what property reads see of it, and
    [err instanceof Error ? err.message : String(err)]. *)
Module RpcError.
Record t := mk { object : value; message : string }.
End RpcError.

(** What a caller of the node may catch: an error of the program or a value
    of the provider. *)
Abbreviation Thrown := (exn + RpcError.t)%type.
Abbreviation Call := (M RpcError.t).

(** ** The node *)

Module CallRequest.
Record t := mk { from : string; to : string; data : string }.
End CallRequest.
Module Log.
Record t := mk { address : string; topics : list string; data : string; index : Z }.
End Log.
Module Receipt.
Record t := mk { blockNumber : Z; status : Z; logs : list Log.t }.
End Receipt.
Module NodeTransaction.
Record t := mk { from : string; nonce : Z; blockNumber : option Z }.
End NodeTransaction.
Module NodeBlock.
Record t := mk { number : Z; miner : string; transactions : list string; timestamp : Z }.
End NodeBlock.
Inductive BlockTag := Tag_height (height : Z) | Tag_finalized.

(** Answers of the registry contracts, times in seconds. *)
Module WalletRecord.
Record t := mk { status : Z; registeredAt : Z; activatedAt : Z; revokedAt : Z; revokedReason : string }.
End WalletRecord.
Module AssetRecord.
Record t := mk { assetId : string; parent : Z; custodian : string }.
End AssetRecord.
Module JobRecord.
Record t := mk { assetNftId : Z; createdBy : string; technician : string; verifier : string; status : Z; createdAt : Z; completedAt : Z }.
End JobRecord.
Module AuditRecord.
Record t := mk { entityType : AuditEntityType; entityId : string; action : string; actor : string; timestamp : Z }.
End AuditRecord.

Class Node (N : Type) := {
  (** the provider *)
  rpc_chainId : Call N Z;
  rpc_getTransactionCount : string -> string -> Call N Z;
  rpc_estimateGas : CallRequest.t -> Call N Z;
  rpc_call : CallRequest.t -> Call N unit;
  rpc_broadcastTransaction : string -> Call N string;
  (** [wallet.sendTransaction] of the wallet with this address *)
  rpc_sendTransaction : CallRequest.t -> Z -> string -> Call N string;
  rpc_getTransactionReceipt : string -> Call N (option Receipt.t);
  rpc_getTransaction : string -> Call N (option NodeTransaction.t);
  rpc_getBlockNumber : Call N Z;
  rpc_getBlock : BlockTag -> Call N (option NodeBlock.t);
  rpc_send : string -> list value -> Call N value;
  (** the clock and [setTimeout] *)
  node_clock : Call N Z;
  node_sleep : Z -> N -> N;
  (** the registry contracts *)
  IdentityRegistry_walletsOf : string -> Call N (list string);
  IdentityRegistry_getWallet : string -> Call N WalletRecord.t;
  IdentityRegistry_identityOf : string -> Call N string;
  IdentityRegistry_isActiveWallet : string -> Call N bool;
  RoleRegistry_rolesOfIdentity : string -> Call N Z;
  AssetRegistry_nftIdOf : string -> Call N Z;
  AssetRegistry_getAsset : Z -> Call N AssetRecord.t;
  AssetRegistry_ownerOfAsset : Z -> Call N string;
  (** the contract knows the four states only *)
  AssetRegistry_stateOf : Z -> Call N AssetStatus;
  JobManager_jobExists : string -> Call N bool;
  JobManager_getJob : string -> Call N JobRecord.t;
  AuditRegistry_getAuditTrail : string -> Call N (list string);
  AuditRegistry_getAuditRecord : string -> Call N AuditRecord.t;
}.

(** ** The codec *)

(** A parsed serialized transaction, [Transaction.from]. *)
Module EvmTransaction.
Record t := mk { from : option string; to : option string; data : string; chainId : Z; value : Z; signed : bool }.
End EvmTransaction.
Module ParsedError.
Record t := mk { name : string; args : list value }.
End ParsedError.
Module ParsedLog.
Record t := mk { name : string; inputs : list string; args : list value }.
End ParsedLog.

Class EvmCodec := {
  (** [new EvmWallet(key).address] *)
  EvmWallet_address : string -> string;
  encodeFunctionData : ContractName -> string -> list value -> RpcError.t + string;
  (** [None] when it throws *)
  EvmTransaction_from : string -> option EvmTransaction.t;
  (** the reason of [Error(string)] *)
  decodeErrorReason : string -> RpcError.t + string;
  (** [None] when the interface has no such error or event, or throws *)
  parseError : ContractName -> string -> option ParsedError.t;
  parseLog : ContractName -> Log.t -> option ParsedLog.t;
}.

(** ** Looking at a rejected value *)

(** [/^0x[0-9a-fA-F]*$/] *)
Definition is_hex_data (s : string) : bool := startsWith "0x" s && all_chars is_hex (slice_from 2 s).

(** [err[key]] of an object. *)
Definition own (k : string) (v : value) : value := match v with VObj p => field k p | _ => VUndefined end.
Definition NESTED_KEYS : list string := ["error"; "info"; "cause"; "revert"].

(** [extractRevertData(err, depth)], [fuel] the levels left: 7 at depth 0. *)
Fixpoint extract (fuel : nat) (err : value) : option string :=
  match fuel, err with
  | S fuel', VObj _ | S fuel', VArr _ =>
      let nested := fold_right (fun k found => or_else (extract fuel' (own k err)) found) None NESTED_KEYS in
      match own "data" err with
      | VStr d => if is_hex_data d then Some d else nested
      | _ => nested
      end
  | _, _ => None
  end.
Definition extractRevertData (err : RpcError.t) : option string := extract 7 (RpcError.object err).

Definition isCallException (err : RpcError.t) : bool :=
  match own "code" (RpcError.object err) with VStr c => String.eqb c "CALL_EXCEPTION" | _ => false end.

(** A text between double quotes. *)
Definition quoted (s : string) : string := String (ascii_of_nat 34) (s +:+ String (ascii_of_nat 34) "").
Definition LINE_FEED : ascii := "010"%char.
(** [message.split("\n")[0]] *)
Definition first_line (s : string) : string := hd "" (split_char LINE_FEED s).

(** [err.message] of an error of the program. *)
Definition exn_message (e : exn) : string :=
  match http_fields e, e with
  | Some (_, message, _), _ => message
  | None, EvidenceStorageError m | None, Error m => m
  | None, _ => ""
  end.

(** [classifyError(err, context)].  The model's own [OutOfFuel] passes. *)
Definition classifyError (err : Thrown) (context : string) : exn :=
  match err with
  | inl (BlockchainError kind message) => BlockchainError kind message
  | inl OutOfFuel => OutOfFuel
  | inl e => BlockchainError NETWORK (context +:+ ": " +:+ first_line (exn_message e))
  | inr err =>
      match own "code" (RpcError.object err) with
      | VStr "TIMEOUT" => BlockchainError TIMEOUT (context +:+ ": timed out")
      | _ => BlockchainError NETWORK (context +:+ ": " +:+ first_line (RpcError.message err))
      end
  end.

Definition as_thrown {N A} (m : Call N A) : M Thrown N A := rescue m (fun err => throw (inr err)).

(** ** Waiting for a receipt *)

Section Wait.
Context {N : Type} `{Node N}.

Definition sleep (ms : Z) : M Thrown N unit := modify (node_sleep ms).
Definition clock : M Thrown N Z := as_thrown node_clock.

(** Enough blocks on top of the receipt's. *)
Definition confirmed (confirmations : Z) (receipt : Receipt.t) : M Thrown N bool :=
  if (confirmations <=? 1)%Z then mret true
  else head ← as_thrown rpc_getBlockNumber; mret (confirmations <=? head - Receipt.blockNumber receipt + 1)%Z.

(** The [for (;;)] of [waitForReceipt]; one unit of fuel per poll. *)
Fixpoint poll (fuel : nat) (hash : string) (confirmations deadline intervalMs : Z) : M Thrown N (option Receipt.t) :=
  match fuel with
  | O => throw (inl OutOfFuel)
  | S fuel' =>
      receipt ← as_thrown (rpc_getTransactionReceipt hash);
      done ← (match receipt with Some r => confirmed confirmations r | None => mret false end);
      if (done : bool) then mret receipt
      else
        now ← clock;
        if (deadline <=? now)%Z then mret None
        else
          now ← clock;
          sleep (Z.min intervalMs (Z.max 1 (deadline - now)));;
          poll fuel' hash confirmations deadline intervalMs
  end.
Definition waitForReceipt (fuel : nat) (hash : string) (confirmations timeoutMs intervalMs : Z) : M Thrown N (option Receipt.t) :=
  start ← clock;
  poll fuel hash confirmations (start + timeoutMs) intervalMs.
End Wait.
