(* ===== verification/Evm.v ===== *)
(** * Evm: the EVM adapter, [backend/src/blockchain/evm-adapter.ts]

    [EvmBlockchainAdapter] implements the blockchain service of the program
    on the registry contracts.  Its own state is the node it talks to and
    whether the network has been checked.  Requests run one after the other
    here, so the queue that keeps two sends of one wallet apart ([sendQueues])
    is always empty; the [details] an error carries for the error log are not
    part of an [exn]. *)
From S2P Require Import Prelude Effects JsString JsMap JsValue Shared Errors World Payloads Rpc.
From Stdlib Require Import Ascii.
From stdpp Require Import pretty.
Local Open Scope string_scope.
Local Open Scope list_scope.

(** ** Configuration, results, state *)

(** [EvmChainConfig] without the ABIs, which the codec holds, and the URL. *)
Module EvmChainConfig.
Record t := mk {
  network : string; chainId : Z; contracts : ContractName -> string;
  confirmations : Z; txTimeoutMs : Z; pollingIntervalMs : option Z; devSignerKeys : list string }.
End EvmChainConfig.

Definition CONTRACT_NAMES : list ContractName := [IdentityRegistry; RoleRegistry; AssetRegistry; JobManager; AuditRegistry; ValidatorRegistry].
Definition ContractName_string (c : ContractName) : string :=
  match c with
  | IdentityRegistry => "IdentityRegistry" | RoleRegistry => "RoleRegistry" | AssetRegistry => "AssetRegistry"
  | JobManager => "JobManager" | AuditRegistry => "AuditRegistry" | ValidatorRegistry => "ValidatorRegistry"
  end.

Module ChainEvent.
Record t := mk { contract : ContractName; name : string; args : jsmap (string + list string); logIndex : Z }.
End ChainEvent.
Module SubmitResult.
Record t := mk {
  txId : string; status : TxStatus; hash : option string; blockNumber : option Z; events : list ChainEvent.t;
  revert : option DecodedRevert.t; nftId : option string; auditTxIds : list string }.
End SubmitResult.

(** [ConsensusInfoSource] and [OffChainMetadataProvider]; of a [Partial]
    record the fields that the on-chain values do not overwrite. *)
Module ConsensusInfoSource.
Record t (N : Type) := mk { getValidators : M exn N (list Validator.t); getCommittee : Z -> M exn N (list string) }.
End ConsensusInfoSource.
Module IdentityMetadata.
Record t := mk {
  employeeId : option (option string); fullName : option string; department : option (option string);
  status : option IdentityStatus; verifiedAt : option string; verifiedBy : option string }.
Definition empty : t := mk None None None None None None.
End IdentityMetadata.
Module WalletMetadata.
Record t := mk { deviceId : option string; publicKey : option string }.
Definition empty : t := mk None None.
End WalletMetadata.
Module JobMetadata.
Record t := mk { priority : option JobPriority; verifierId : option string }.
Definition empty : t := mk None None.
End JobMetadata.
Module OffChainMetadataProvider.
Record t (N : Type) := mk {
  identity : option (string -> M exn N (option IdentityMetadata.t));
  wallet : option (string -> M exn N (option WalletMetadata.t));
  (** the asset type *)
  asset : option (string -> M exn N (option (option string)));
  job : option (string -> M exn N (option JobMetadata.t)) }.
End OffChainMetadataProvider.

Record Evm (N : Type) := mkEvm { node : N; networkChecked : bool }.
#[global] Arguments mkEvm {N}.
#[global] Arguments node {N}.
#[global] Arguments networkChecked {N}.
Definition set_node {N} (n : N) (w : Evm N) : Evm N := mkEvm n (networkChecked w).
Definition check_network {N} (b : bool) (w : Evm N) : Evm N := mkEvm (node w) b.

(** [WALLET_STATUS] and [JOB_STATUS]; [None] is [null] or [undefined]. *)
Definition WALLET_STATUS (n : Z) : option WalletStatus :=
  match n with 1%Z => Some PENDING | 2%Z => Some ACTIVE | 3%Z => Some REVOKED | _ => None end.
Definition JOB_STATUS (n : Z) : option JobStatus :=
  match n with
  | 1%Z => Some CREATED | 2%Z => Some ASSIGNED | 3%Z => Some IN_PROGRESS | 4%Z => Some COMPLETED
  | 5%Z => Some VERIFIED | 6%Z => Some REJECTED | _ => None
  end.
Definition ZERO : string := "0x0000000000000000000000000000000000000000".

(** The answer of [getJob]: two fields are asserted, not checked, to be present. *)
Module JobView.
Record t := mk {
  jobId : string; assetId : string; createdBy : string; assignedTo : string; verifierId : option string;
  status : option JobStatus; priority : JobPriority; createdAt : option string; completedAt : option string }.
End JobView.

Section Evm.
Context `{Platform} `{EvmCodec}.

(** [iso(seconds)] *)
Definition iso (seconds : Z) : option string := if (0 <? seconds)%Z then Some (toISOString (seconds * 1000)) else None.

(** [plain(v)], and [String(plain(v))] *)
Fixpoint plain_string (v : value) : string :=
  match v with
  | VArr l => join_strings "," (map plain_string l)
  | VBigInt z => pretty z
  | _ => String_of v
  end.
Definition plain (v : value) : string + list string :=
  match v with VArr l => inr (map plain_string l) | _ => inl (plain_string v) end.
(** [String(a)] of a plain value *)
Definition String_plain (a : string + list string) : string :=
  match a with inl s => s | inr l => join_strings "," l end.

(** ** Decoding *)

Fixpoint first_parsed (data : string) (names : list ContractName) : option ParsedError.t :=
  match names with
  | [] => None
  | name :: names' => or_else (parseError name data) (first_parsed data names')
  end.
Definition decodeRevert (data : string) : RpcError.t + DecodedRevert.t :=
  if startsWith "0x08c379a0" data then
    match decodeErrorReason data with
    | inl err => inl err
    | inr reason => inr (DecodedRevert.mk "Error" [reason] reason)
    end
  else
    match first_parsed data CONTRACT_NAMES with
    | Some parsed =>
        let args := map plain_string (ParsedError.args parsed) in
        inr (DecodedRevert.mk (ParsedError.name parsed) args (ParsedError.name parsed +:+ "(" +:+ join_strings ", " args +:+ ")"))
    | None =>
        let bare := String.eqb data "0x" in
        inr (DecodedRevert.mk "UnknownRevert" (if bare then [] else [data]) ("Reverted" +:+ (if bare then "" else " with " +:+ data)))
    end.
Definition decodeRevertFrom (err : RpcError.t) : RpcError.t + option DecodedRevert.t :=
  let data := extractRevertData err in
  if bool_decide (data = None) && negb (isCallException err) then inr None
  else match decodeRevert (default "0x" data) with inl e => inl e | inr d => inr (Some d) end.

(** [parsed.fragment.inputs.forEach((input, i) => { args[input.name || String(i)] = plain(parsed.args[i]) })] *)
Fixpoint event_args (i : nat) (inputs : list string) (args : list value) (acc : jsmap (string + list string)) : jsmap (string + list string) :=
  match inputs with
  | [] => acc
  | name :: inputs' =>
      event_args (S i) inputs' (tl args)
        (put (if String.eqb name "" then pretty i else name) (plain (hd VUndefined args)) acc)
  end.
Fixpoint first_log (log : Log.t) (names : list ContractName) : option ChainEvent.t :=
  match names with
  | [] => None
  | name :: names' =>
      match parseLog name log with
      | Some parsed =>
          Some (ChainEvent.mk name (ParsedLog.name parsed) (event_args 0 (ParsedLog.inputs parsed) (ParsedLog.args parsed) []) (Log.index log))
      | None => first_log log names'
      end
  end.

Context {N : Type} `{Node N} (config : EvmChainConfig.t) (metadata : OffChainMetadataProvider.t N)
  (consensus : option (ConsensusInfoSource.t N)) (fuel : nat).
Abbreviation ME := (M exn (Evm N)).

(** [this.byAddress.get(address)]: the contracts configured at an address. *)
Definition byAddress (address : string) : list ContractName :=
  List.filter (fun name => String.eqb (toLowerCase (EvmChainConfig.contracts config name)) (toLowerCase address)) CONTRACT_NAMES.
Definition parseEvents (logs : list Log.t) : list ChainEvent.t :=
  omap (fun log => first_log log (byAddress (Log.address log))) logs.

(** ** Talking to the node *)

(** A value that leaves the adapter uncaught is no error of the program. *)
Definition foreign (err : RpcError.t) : exn := Error (RpcError.message err).

Definition on_node {X A} (m : M X N A) : M X (Evm N) A := zoom node set_node m.
(** A call whose rejection is not handled. *)
Definition plain_call {A} (m : Call N A) : ME A := rescue (on_node m) (fun err => throw (foreign err)).
(** [catch (err) { throw classifyError(err, context) }] *)
Definition classified {A} (m : M Thrown N A) (context : string) : ME A :=
  rescue (on_node m) (fun err => throw (classifyError err context)).

Definition read {A} (m : Call N A) : ME A :=
  rescue (on_node m) (fun err =>
    if isCallException err then
      match decodeRevertFrom err with
      | inl err' => throw (foreign err')
      | inr revert =>
          throw (BlockchainError NOT_FOUND ("On-chain read failed: " +:+ default "reverted" (DecodedRevert.message <$> revert)))
      end
    else throw (classifyError (inr err) "Blockchain read failed")).

Definition ensureNetwork : ME unit :=
  checked ← gets networkChecked;
  if (checked : bool) then mret tt
  else
    chainId ← classified (as_thrown rpc_chainId) "Cannot reach blockchain RPC";
    throw_if (negb (chainId =? EvmChainConfig.chainId config)%Z)
      (BlockchainError CONFIG ("RPC chainId " +:+ pretty chainId +:+ " does not match deployment "
        +:+ quoted (EvmChainConfig.network config) +:+ " (chainId " +:+ pretty (EvmChainConfig.chainId config) +:+ ")"));;
    modify (check_network true).

Definition actorWallet (tx : Transaction.t) : ME string :=
  throw_if (negb (isAddress (Transaction.actorWallet tx)))
    (BlockchainError INVALID_PAYLOAD (TransactionType_string (Transaction.type tx) +:+ ": actorWallet must be an EVM address"));;
  to_checksum (Transaction.actorWallet tx).

Fixpoint newest_wallet (requireActive : bool) (wallets : list string) : ME (option string) :=
  match wallets with
  | [] => mret None
  | wallet :: wallets' =>
      if requireActive then
        active ← read (IdentityRegistry_isActiveWallet wallet);
        if (active : bool) then a ← to_checksum wallet; mret (Some a) else newest_wallet requireActive wallets'
      else a ← to_checksum wallet; mret (Some a)
  end.
#[local] Instance lookups : ChainLookups (Evm N) := {
  nftIdOf assetId := read (AssetRegistry_nftIdOf assetId);
  walletOfIdentity did requireActive :=
    wallets ← read (IdentityRegistry_walletsOf did);
    newest_wallet requireActive (rev wallets);
}.
Definition plan (tx : Transaction.t) : ME CallPlan.t := buildCallPlan tx.

(** ** Writes *)

Definition buildPreparedTransaction (tx : Transaction.t) (estimateGas : bool) : ME PreparedTransaction.t :=
  from ← actorWallet tx;
  ensureNetwork;;
  plan ← plan tx;
  let to := EvmChainConfig.contracts config (CallPlan.contract plan) in
  data ← lift_result (match encodeFunctionData (CallPlan.contract plan) (CallPlan.method plan) (CallPlan.args plan) with
                      | inl err => inl (foreign err) | inr data => inr data end);
  let prepared nonce gasLimit :=
    PreparedTransaction.mk from to data (EvmChainConfig.chainId config) nonce gasLimit (Some "0")
      (ContractName_string (CallPlan.contract plan)) (CallPlan.method plan) in
  if estimateGas then
    nonce ← plain_call (rpc_getTransactionCount from "pending");
    gas ← plain_call (rpc_estimateGas (CallRequest.mk from to data));
    mret (prepared (Some nonce) (Some (pretty gas)))
  else mret (prepared None None).

(** [prepareTransaction(tx)] *)
Definition evm_prepareTransaction (tx : Transaction.t) : ME PreparedTransaction.t := buildPreparedTransaction tx true.

(** [/^0x[0-9a-fA-F]+$/i] *)
Definition is_raw_hex (s : string) : bool :=
  (startsWith "0x" s || startsWith "0X" s) && negb (String.eqb (slice_from 2 s) "") && all_chars is_hex (slice_from 2 s).
Definition parseSignedTransaction (signature : string) : option EvmTransaction.t :=
  if is_raw_hex (trim signature) then
    parsed ← EvmTransaction_from (trim signature);
    if EvmTransaction.signed parsed then Some parsed else None
  else None.

(** [a?.toLowerCase() === b.toLowerCase()], false for no or an empty address *)
Definition same_address (a : option string) (b : string) : bool :=
  truthy_string a && String.eqb (toLowerCase (default "" a)) (toLowerCase b).
Definition signed_problems (raw : EvmTransaction.t) (prepared : PreparedTransaction.t) : list string :=
  let unless (ok : bool) problem := if ok then [] else [problem] in
  unless (same_address (EvmTransaction.from raw) (PreparedTransaction.from prepared)) "signer is not actorWallet" ++
  unless (same_address (EvmTransaction.to raw) (PreparedTransaction.to prepared))
    ("target is not " +:+ PreparedTransaction.contract prepared) ++
  unless (String.eqb (toLowerCase (EvmTransaction.data raw)) (toLowerCase (PreparedTransaction.data prepared)))
    ("calldata does not match " +:+ PreparedTransaction.method prepared +:+ "(payload)") ++
  unless (EvmTransaction.chainId raw =? PreparedTransaction.chainId prepared)%Z "wrong chainId" ++
  unless (EvmTransaction.value raw =? 0)%Z "value must be 0".
Definition verifySignedTransaction (raw : EvmTransaction.t) (prepared : PreparedTransaction.t) : ME unit :=
  match signed_problems raw prepared with
  | [] => mret tt
  | problems => throw (BlockchainError SIGNER ("Signed transaction rejected: " +:+ join_strings "; " problems))
  end.

(** [this.signers.get(address.toLowerCase())] *)
Definition find_signer (address : string) : option string :=
  List.find (fun signer => String.eqb (toLowerCase signer) (toLowerCase address)) (map EvmWallet_address (EvmChainConfig.devSignerKeys config)).
Definition signerFor (address : string) : ME string :=
  require (find_signer address) (BlockchainError SIGNER ("No signature for " +:+ address
    +:+ ": submit a device-signed raw transaction in tx.signature (see prepareTransaction)")).

Definition sendAs (wallet : string) (p : PreparedTransaction.t) : Call N string :=
  let request := CallRequest.mk wallet (PreparedTransaction.to p) (PreparedTransaction.data p) in
  nonce ← rpc_getTransactionCount wallet "pending";
  gasLimit ← (match PreparedTransaction.gasLimit p with
              | Some gas => mret gas
              | None => gas ← rpc_estimateGas request; mret (pretty gas)
              end);
  rpc_sendTransaction request nonce gasLimit.

(** The decoded revert, if the call would revert. *)
Definition simulate (p : PreparedTransaction.t) : ME (option DecodedRevert.t) :=
  rescue (on_node (rpc_call (CallRequest.mk (PreparedTransaction.from p) (PreparedTransaction.to p) (PreparedTransaction.data p))) ;;
          mret None)
    (fun err =>
      match decodeRevertFrom err with
      | inl err' => throw (foreign err')
      | inr (Some decoded) => mret (Some decoded)
      | inr None => throw (classifyError (inr err) ("Simulating " +:+ PreparedTransaction.method p +:+ " failed"))
      end).

Definition rejected (tx : Transaction.t) (revert : DecodedRevert.t) : SubmitResult.t :=
  SubmitResult.mk (Transaction.txId tx) TX_REJECTED None None [] (Some revert) None [].

(** The hash of the transaction that was handed to the node, or the revert
    with which the node refused it. *)
Definition broadcast (tx : Transaction.t) (send : Call N string) : ME (DecodedRevert.t + string) :=
  rescue (hash ← on_node send; mret (inr hash))
    (fun err =>
      match decodeRevertFrom err with
      | inl err' => throw (foreign err')
      | inr (Some decoded) => mret (inl decoded)
      | inr None => throw (classifyError (inr err) (TransactionType_string (Transaction.type tx) +:+ " submission failed"))
      end).

Definition diagnoseMissingReceipt (hash : string) : Call N string :=
  found ← rpc_getTransaction hash;
  match found with
  | None => mret "the node does not know this transaction (dropped or never broadcast)"
  | Some t =>
      match NodeTransaction.blockNumber t with
      | Some n => mret ("mined in block " +:+ pretty n +:+ " but the receipt was not returned in time")
      | None =>
          next ← rpc_getTransactionCount (NodeTransaction.from t) "latest";
          if (next <? NodeTransaction.nonce t)%Z then
            mret ("still pending with nonce " +:+ pretty (NodeTransaction.nonce t) +:+ ", but " +:+ NodeTransaction.from t
              +:+ " has only mined up to nonce " +:+ pretty (next - 1)%Z +:+ " (nonce gap: an earlier transaction is missing)")
          else mret ("still pending with nonce " +:+ pretty (NodeTransaction.nonce t)
              +:+ " (not yet included in a block; is the chain producing blocks?)")
      end
  end.

Definition event_field (k : string) (e : ChainEvent.t) : string :=
  match get k (ChainEvent.args e) with Some a => String_plain a | None => "undefined" end.
Definition is_event (name : string) (e : ChainEvent.t) : bool := String.eqb (ChainEvent.name e) name.
Definition reverted_on_chain : DecodedRevert.t :=
  DecodedRevert.mk "ExecutionReverted" [] "Transaction reverted on-chain after passing simulation".
Definition settle (tx : Transaction.t) (hash : string) (receipt : Receipt.t) : SubmitResult.t :=
  if negb (Receipt.status receipt =? 1)%Z then
    SubmitResult.mk (Transaction.txId tx) TX_REJECTED (Some hash) (Some (Receipt.blockNumber receipt)) [] (Some reverted_on_chain) None []
  else
    let events := parseEvents (Receipt.logs receipt) in
    SubmitResult.mk (Transaction.txId tx) SUCCESS (Some hash) (Some (Receipt.blockNumber receipt)) events None
      (event_field "nftId" <$> List.find (is_event "AssetMinted") events)
      (map (event_field "txId") (List.filter (is_event "AuditRecorded") events)).
Definition awaitResult (tx : Transaction.t) (hash : string) : ME SubmitResult.t :=
  let what := TransactionType_string (Transaction.type tx) +:+ " (" +:+ hash +:+ ")" in
  receipt ← classified (waitForReceipt fuel hash (EvmChainConfig.confirmations config) (EvmChainConfig.txTimeoutMs config)
              (default 250%Z (EvmChainConfig.pollingIntervalMs config))) ("Waiting for " +:+ what);
  match receipt with
  | Some r => mret (settle tx hash r)
  | None =>
      why ← rescue (on_node (diagnoseMissingReceipt hash)) (fun _ => mret "could not query the node for details");
      throw (BlockchainError TIMEOUT ("No receipt for " +:+ what +:+ " within " +:+ pretty (EvmChainConfig.txTimeoutMs config) +:+ "ms: " +:+ why))
  end.

(** The first half of [submitTransactionDetailed]: how the transaction will be
    sent, once its signature has been checked against [prepared]. *)
Definition sender (tx : Transaction.t) (prepared : PreparedTransaction.t) : ME (Call N string) :=
  if String.eqb (Transaction.signature tx) "development" then
    signer ← signerFor (PreparedTransaction.from prepared); mret (sendAs signer prepared)
  else
    raw ← require (parseSignedTransaction (Transaction.signature tx))
            (BlockchainError SIGNER "Invalid device-signed raw transaction in tx.signature");
    verifySignedTransaction raw prepared;;
    mret (rpc_broadcastTransaction (trim (Transaction.signature tx))).

(** [submitTransactionDetailed(tx)] *)
Definition evm_submitDetailed (tx : Transaction.t) : ME SubmitResult.t :=
  prepared ← buildPreparedTransaction tx false;
  send ← sender tx prepared;
  revert ← simulate prepared;
  match revert with
  | Some revert => mret (rejected tx revert)
  | None =>
      sent ← broadcast tx send;
      match sent with
      | inl revert => mret (rejected tx revert)
      | inr hash => awaitResult tx hash
      end
  end.

(** [submitTransaction(tx)] *)
Definition is_validator_event (e : ChainEvent.t) : bool :=
  bool_decide (ChainEvent.contract e = ValidatorRegistry) && startsWith "Validator" (ChainEvent.name e).
Definition to_result (event : option string) (nftId : option string) (r : SubmitResult.t) : TxResult.t :=
  TxResult.mk (SubmitResult.txId r) (SubmitResult.status r) (SubmitResult.hash r) (SubmitResult.blockNumber r) event
    (SubmitResult.revert r) nftId.
Definition evm_submitTransaction (tx : Transaction.t) : ME TxResult.t :=
  r ← evm_submitDetailed tx;
  mret (to_result (ChainEvent.name <$> List.find is_validator_event (SubmitResult.events r)) None r).

(** ** Reads *)

(** [(await this.options.metadata?.f?.(key)) ?? {}] *)
Definition off_chain {A} (f : option (string -> M exn N (option A))) (empty : A) (key : string) : ME A :=
  match f with
  | Some f => found ← on_node (f key); mret (default empty found)
  | None => mret empty
  end.

Definition identityOrAddress (address : string) : ME string :=
  did ← read (IdentityRegistry_identityOf address);
  if negb (String.eqb did "") then mret did else to_checksum address.

(** The first role whose bit is set. *)
Definition role_of_mask (mask : Z) : option Role :=
  snd <$> List.find (fun ir => Z.testbit mask (Z.of_nat (fst ir))) (imap pair ROLES).
Definition EPOCH : string := toISOString 0.

(** [getIdentity(identityId)] *)
Definition evm_getIdentity (identityId : string) : ME (option Identity.t) :=
  wallets ← read (IdentityRegistry_walletsOf identityId);
  match wallets with
  | [] => mret None
  | _ =>
      mask ← read (RoleRegistry_rolesOfIdentity identityId);
      records ← map_all (fun w => read (IdentityRegistry_getWallet w)) wallets;
      let statuses := map (fun r => WALLET_STATUS (WalletRecord.status r)) records in
      meta ← off_chain (OffChainMetadataProvider.identity _ metadata) IdentityMetadata.empty identityId;
      match role_of_mask mask with
      | None => mret None
      | Some role =>
          let on_chain_status := if bool_decide (Some ACTIVE ∈ statuses) then Identity_ACTIVE else Identity_PENDING in
          mret (Some (Identity.mk identityId (default (Some "") (IdentityMetadata.employeeId meta))
            (default "" (IdentityMetadata.fullName meta)) (Some role) (default (Some "") (IdentityMetadata.department meta))
            (default on_chain_status (IdentityMetadata.status meta))
            (default EPOCH (hd None (map (fun r => iso (WalletRecord.registeredAt r)) records)))
            (IdentityMetadata.verifiedAt meta) (IdentityMetadata.verifiedBy meta)))
      end
  end.

(** [getWallet(address)] *)
Definition evm_getWallet (address : string) : ME (option Wallet.t) :=
  if negb (isAddress address) then mret None
  else
    addr ← to_checksum address;
    r ← read (IdentityRegistry_getWallet addr);
    match WALLET_STATUS (WalletRecord.status r) with
    | None => mret None
    | Some status =>
        identityId ← read (IdentityRegistry_identityOf addr);
        meta ← off_chain (OffChainMetadataProvider.wallet _ metadata) WalletMetadata.empty addr;
        let reason := WalletRecord.revokedReason r in
        mret (Some (Wallet.mk addr identityId (default "" (WalletMetadata.deviceId meta)) status
          (iso (WalletRecord.activatedAt r)) (iso (WalletRecord.revokedAt r))
          (if String.eqb reason "" then None else Some reason) (WalletMetadata.publicKey meta)))
    end.

(** [getAsset(id)] *)
Definition evm_getAsset (id : string) : ME (option OnChainAsset.t) :=
  nftId ← read (AssetRegistry_nftIdOf id);
  if (nftId =? 0)%Z then mret None
  else
    record ← read (AssetRegistry_getAsset nftId);
    owner ← read (AssetRegistry_ownerOfAsset nftId);
    state ← read (AssetRegistry_stateOf nftId);
    let parentId := AssetRecord.parent record in
    parentAssetId ← (if (parentId =? 0)%Z then mret None
                     else parent ← read (AssetRegistry_getAsset parentId); mret (Some (AssetRecord.assetId parent)));
    ownerId ← identityOrAddress owner;
    custodianId ← identityOrAddress (AssetRecord.custodian record);
    meta ← off_chain (OffChainMetadataProvider.asset _ metadata) None id;
    mret (Some (OnChainAsset.mk (Asset.mk id (pretty nftId) (default "" meta) ownerId custodianId parentAssetId state) false)).

(** [getJob(id)] *)
Definition evm_getJob (id : string) : ME (option JobView.t) :=
  exists_ ← read (JobManager_jobExists id);
  if negb exists_ then mret None
  else
    j ← read (JobManager_getJob id);
    asset ← read (AssetRegistry_getAsset (JobRecord.assetNftId j));
    createdBy ← identityOrAddress (JobRecord.createdBy j);
    assignedTo ← (if String.eqb (JobRecord.technician j) ZERO then mret "" else identityOrAddress (JobRecord.technician j));
    verifierId ← (if String.eqb (JobRecord.verifier j) ZERO then mret None
                  else v ← identityOrAddress (JobRecord.verifier j); mret (Some v));
    meta ← off_chain (OffChainMetadataProvider.job _ metadata) JobMetadata.empty id;
    mret (Some (JobView.mk id (AssetRecord.assetId asset) createdBy assignedTo
      (or_else verifierId (JobMetadata.verifierId meta)) (JOB_STATUS (JobRecord.status j))
      (default MEDIUM (JobMetadata.priority meta)) (iso (JobRecord.createdAt j)) (iso (JobRecord.completedAt j)))).

(** [getAuditTrail(entityId)] *)
Definition evm_getAuditTrail (entityId : string) : ME (list AuditEvent.t) :=
  txIds ← read (AuditRegistry_getAuditTrail entityId);
  map_all (fun txId =>
    r ← read (AuditRegistry_getAuditRecord txId);
    actor ← identityOrAddress (AuditRecord.actor r);
    mret (AuditEvent.mk txId txId (AuditRecord.entityType r) (AuditRecord.entityId r) (AuditRecord.action r) actor
      (iso (AuditRecord.timestamp r)))) txIds.

Definition evm_getValidators : ME (list Validator.t) :=
  match consensus with
  | Some c => on_node (ConsensusInfoSource.getValidators _ c)
  | None => throw (NotImplementedError "EvmBlockchainAdapter.getValidators() (needs Person 4 consensus source)")
  end.
Definition evm_getCommittee (height : Z) : ME (list string) :=
  match consensus with
  | Some c => on_node (ConsensusInfoSource.getCommittee _ c height)
  | None => throw (NotImplementedError "EvmBlockchainAdapter.getCommittee() (needs Person 4 consensus source)")
  end.

(** [getBlock(height)]; a height that is no integer gives [null] like a negative one. *)
Definition evm_getBlock (height : num) : ME (option Block.t) :=
  match as_integer height with
  | None => mret None
  | Some height =>
      if (height <? 0)%Z then mret None
      else
        block ← read (rpc_getBlock (Tag_height height));
        match block with
        | None => mret None
        | Some b =>
            committee ← (match consensus with
                         | Some c => on_node (ConsensusInfoSource.getCommittee _ c height)
                         | None => mret []
                         end);
            mret (Some (Block.mk (NodeBlock.number b) (NodeBlock.miner b) committee (NodeBlock.transactions b)
              (default EPOCH (iso (NodeBlock.timestamp b)))))
        end
  end.

Definition unhealthy : BlockchainStatus.t := BlockchainStatus.mk 0 false 0 0.
(** The last finalized height; the head where the node has no such tag. *)
Definition finalized_height (head : Z) : Call N Z :=
  rescue (b ← rpc_getBlock Tag_finalized; mret (from_option NodeBlock.number head b)) (fun _ => mret head).
(** [getStatus()] *)
Definition evm_getStatus : ME BlockchainStatus.t :=
  rescue (on_node (height ← rpc_getBlockNumber;
                   finalized ← finalized_height height;
                   mret (BlockchainStatus.mk height true (Z.max 0 (height - finalized)) finalized)))
    (fun _ => mret unhealthy).

(** [EvmBlockchainAdapter implements BlockchainService] *)
#[local] Instance EvmBlockchainAdapter : BlockchainService (Evm N) := {
  submitTransaction := evm_submitTransaction;
  submitTransactionDetailed := Some (fun tx => r ← evm_submitDetailed tx; mret (to_result None (SubmitResult.nftId r) r));
  prepareTransaction := Some evm_prepareTransaction;
  chain_getIdentity := evm_getIdentity;
  chain_getWallet := evm_getWallet;
  chain_getAsset := evm_getAsset;
  chain_getStatus := evm_getStatus;
  chain_getValidators := evm_getValidators;
  chain_getCommittee := evm_getCommittee;
  getAuditTrail := Some evm_getAuditTrail;
}.
End Evm.
