(* ===== verification/EvmCorrect.v ===== *)
(** * EvmCorrect: what the EVM adapter puts on the chain, and what it reports

    Nothing is published but the call the envelope stands for, signed by its
    actor; success is only reported for a mined transaction; the wait for a
    receipt ends; failures are classified. *)
From S2P Require Import Prelude Effects JsString JsMap JsValue Shared Errors World Payloads PayloadsCorrect Rpc Evm.
From S2P Require Import MockChain Concrete.
From Stdlib Require Import Ascii.
Local Open Scope string_scope.
Local Open Scope list_scope.

Lemma as_thrown_inr {N A} (m : Call N A) n a n' : as_thrown m n = (inr a, n') <-> m n = (inr a, n').
Proof.
  unfold as_thrown. rewrite rescue_inr. split; [|auto]. intros [E|(x & n1 & _ & [=])]. exact E.
Qed.
Lemma as_thrown_inv {N A} (m : Call N A) n r n' :
  as_thrown m n = (r, n') -> exists r0, m n = (r0, n') /\ r = match r0 with inl x => inl (inr x) | inr a => inr a end.
Proof. unfold as_thrown, rescue. destruct (m n) as [[x|a] n1]; intros [= <- <-]; eauto. Qed.

(** ** Waiting *)

(** Documented behaviour of the platform: time does not run backwards, and a
    timer does not fire early. *)
Class Timely {N} `{Node N} (now : N -> Z) := {
  clock_reads : forall n, exists n', node_clock n = (inr (now n'), n') /\ (now n <= now n')%Z;
  sleep_takes : forall ms n, (0 <= ms)%Z -> (now n + ms <= now (node_sleep ms n))%Z;
  receipt_takes : forall hash n, (now n <= now (snd (rpc_getTransactionReceipt hash n)))%Z;
  height_takes : forall n, (now n <= now (snd (rpc_getBlockNumber n)))%Z;
}.

Section Wait.
Context {N : Type} `{Node N} (now : N -> Z) `{!Timely now}.

Lemma clock_run n : exists n', clock n = (inr (now n'), n') /\ (now n <= now n')%Z.
Proof.
  destruct (clock_reads n) as (n' & E & Hle). exists n'. split; [|exact Hle]. unfold clock. by apply as_thrown_inr.
Qed.

(** The look for a confirmed receipt. *)
Definition look (hash : string) (confirmations : Z) : M Thrown N (option Receipt.t * bool) :=
  receipt ← as_thrown (rpc_getTransactionReceipt hash);
  done ← (match receipt with Some r => confirmed confirmations r | None => mret false end);
  mret (receipt, done).
Lemma poll_look fuel hash confirmations deadline intervalMs n :
  poll (S fuel) hash confirmations deadline intervalMs n =
  (rd ← look hash confirmations;
   if (snd rd : bool) then mret (fst rd)
   else
     t ← clock;
     if (deadline <=? t)%Z then mret None
     else
       t ← clock;
       sleep (Z.min intervalMs (Z.max 1 (deadline - t)));;
       poll fuel hash confirmations deadline intervalMs) n.
Proof.
  simpl. unfold look. rewrite bind_assoc. unfold mbind, M_bind. destruct (as_thrown _ n) as [[x|receipt] n1]; [done|].
  by destruct (match receipt with Some r => confirmed confirmations r | None => mret false end n1) as [[x|d] n2].
Qed.
Lemma look_takes hash confirmations n r n' : look hash confirmations n = (r, n') -> (now n <= now n')%Z /\ r <> inl (inl OutOfFuel).
Proof.
  assert (Hr := receipt_takes hash n). intros [(e & -> & E)|(receipt & n1 & E & E2)]%bind_inv.
  - apply as_thrown_inv in E as (r0 & E & Hx). rewrite E in Hr. simpl in Hr. split; [exact Hr|]. destruct r0 as [x|a]; [|done]. by injection Hx as ->.
  - apply as_thrown_inr in E. rewrite E in Hr. simpl in Hr. unfold confirmed, mbind, M_bind, mret, M_ret in E2.
    destruct receipt as [rc|]; [|by injection E2 as <- <-].
    destruct (confirmations <=? 1)%Z; [by injection E2 as <- <-|].
    assert (Hh := height_takes n1). destruct (as_thrown rpc_getBlockNumber n1) as [r1 n2] eqn:E3.
    apply as_thrown_inv in E3 as (r2 & E3 & ->). rewrite E3 in Hh. simpl in Hh.
    destruct r2; injection E2 as <- <-; (split; [lia|done]).
Qed.

(** One unit of fuel per millisecond that is left is enough. *)
Lemma poll_terminates fuel hash confirmations deadline intervalMs n r n' :
  (1 <= intervalMs)%Z -> (deadline - now n < Z.of_nat fuel)%Z ->
  poll (S fuel) hash confirmations deadline intervalMs n = (r, n') -> r <> inl (inl OutOfFuel).
Proof.
  intros Hi. revert n. induction fuel as [|fuel IH]; intros n Hf; rewrite poll_look;
    (intros [(e & -> & E)|([receipt d] & n1 & E & E2)]%bind_inv; [intros [= ->]; by apply look_takes in E as [_ E]|]);
    apply look_takes in E as [Ht _]; simpl in E2; (destruct d; [by injection E2 as <- <-|]);
    destruct (clock_run n1) as (n2 & Ec & H2); rewrite (bind_run _ _ _ _ _ Ec) in E2;
    (destruct (Z.leb_spec deadline (now n2)); [by injection E2 as <- <-|]); [lia|].
  destruct (clock_run n2) as (n3 & Ec' & H3). rewrite (bind_run _ _ _ _ _ Ec') in E2.
  rewrite (bind_run _ _ _ tt (node_sleep (Z.min intervalMs (Z.max 1 (deadline - now n3))) n3)) in E2 by done.
  eapply IH; [|exact E2]. assert (Hs := sleep_takes (Z.min intervalMs (Z.max 1 (deadline - now n3))) n3 ltac:(lia)). lia.
Qed.
End Wait.

(** What a finished wait says about the node. *)
Definition seen {N} `{Node N} (hash : string) (confirmations : Z) (receipt : Receipt.t) : Prop :=
  exists n1 n2, rpc_getTransactionReceipt hash n1 = (inr (Some receipt), n2) /\
    ((confirmations <= 1)%Z \/
     exists head n3, rpc_getBlockNumber n2 = (inr head, n3) /\ (confirmations <= head - Receipt.blockNumber receipt + 1)%Z).

Section Seen.
Context {N : Type} `{Node N}.

Lemma confirmed_inr confirmations receipt (n n' : N) :
  confirmed confirmations receipt n = (inr true, n') ->
  (confirmations <= 1)%Z \/ exists head n3, rpc_getBlockNumber n = (inr head, n3) /\ (confirmations <= head - Receipt.blockNumber receipt + 1)%Z.
Proof.
  unfold confirmed. destruct (Z.leb_spec confirmations 1); [by left|].
  intros (head & n1 & E & [Hle%Z.leb_le <-]%mret_inr)%bind_inr. apply as_thrown_inr in E. right. eauto.
Qed.
Lemma poll_seen fuel hash confirmations deadline intervalMs (n n' : N) receipt :
  poll fuel hash confirmations deadline intervalMs n = (inr receipt, n') ->
  match receipt with
  | Some receipt => seen hash confirmations receipt
  | None => exists t n1 n2, node_clock n1 = (inr t, n2) /\ (deadline <= t)%Z
  end.
Proof.
  revert n. induction fuel as [|fuel IH]; simpl; intros n Hrun; [done|].
  apply bind_inr in Hrun as (found & n1 & E1 & Hrun). apply bind_inr in Hrun as (d & n2 & E2 & Hrun).
  apply as_thrown_inr in E1. destruct d.
  - apply mret_inr in Hrun as [<- _]. destruct found as [rc|]; [|by apply mret_inr in E2 as [? _]].
    exists n, n1. split; [exact E1|]. by eapply confirmed_inr.
  - apply bind_inr in Hrun as (t & n3 & E3 & Hrun). apply as_thrown_inr in E3.
    destruct (Z.leb_spec deadline t); [apply mret_inr in Hrun as [<- _]; eauto|].
    apply bind_inr in Hrun as (t' & n4 & _ & Hrun). apply bind_inr in Hrun as (u & n5 & _ & Hrun). by eapply IH.
Qed.
End Seen.

(** ** Planning only looks things up *)

Section Plan.
Context `{Platform} {L T : Type} `{ChainLookups L} (p : L -> T).
Context (Hnft : forall id, keeps p (nftIdOf id)) (Hwallet : forall id b, keeps p (walletOfIdentity id b)).
Abbreviation ML := (M exn L).

Lemma keeps_invalid {A} type m : keeps p (invalid type m : ML A).
Proof. apply keeps_throw. Qed.
Lemma keeps_str type pl ks : keeps p (str type pl ks : ML string).
Proof. unfold str. destruct (first_string pl ks); [apply keeps_ret|apply keeps_invalid]. Qed.
Hint Resolve keeps_invalid keeps_str Hnft Hwallet : bel.
Lemma keeps_optionalAddress type pl ks : keeps p (optionalAddress type pl ks : ML _).
Proof. unfold optionalAddress, to_checksum. frame. Qed.
Hint Resolve keeps_optionalAddress : bel.
Lemma keeps_requiredAddress type pl ks : keeps p (requiredAddress type pl ks : ML _).
Proof. unfold requiredAddress. frame. Qed.
Lemma keeps_party type pl ks b : keeps p (party type pl ks b : ML _).
Proof. unfold party, to_checksum. frame. Qed.
Lemma keeps_nftRef type pl ids nfts : keeps p (nftRef type pl ids nfts : ML _).
Proof. unfold nftRef. frame. Qed.
Lemma keeps_expiry type pl : keeps p (grantExpiry type pl : ML _).
Proof. unfold grantExpiry. frame. Qed.
Lemma keeps_chain_height type pl k : keeps p (height_field type pl k : ML _).
Proof. unfold height_field. frame. Qed.
Lemma keeps_roleIndex type pl : keeps p (roleIndex type pl : ML _).
Proof. unfold roleIndex. frame. Qed.
Lemma keeps_normalize type v : keeps p (normalizeBytes32 type v : ML _).
Proof. unfold normalizeBytes32. frame. Qed.
Hint Resolve keeps_requiredAddress keeps_party keeps_nftRef keeps_expiry keeps_chain_height keeps_roleIndex keeps_normalize : bel.
Lemma keeps_buildCallPlan tx : keeps p (buildCallPlan tx : ML _).
Proof. unfold buildCallPlan. frame. Qed.
End Plan.

(** ** The observer: what has been handed to the node for publication *)

(** [p] is only changed by publishing a transaction. *)
Class Silent {N T} `{Node N} (p : N -> T) := {
  silent_chainId : keeps p rpc_chainId;
  silent_count : forall a b, keeps p (rpc_getTransactionCount a b);
  silent_gas : forall r, keeps p (rpc_estimateGas r);
  silent_call : forall r, keeps p (rpc_call r);
  silent_nftIdOf : forall id, keeps p (AssetRegistry_nftIdOf id);
  silent_walletsOf : forall id, keeps p (IdentityRegistry_walletsOf id);
  silent_isActive : forall a, keeps p (IdentityRegistry_isActiveWallet a);
  silent_receipt : forall hash, keeps p (rpc_getTransactionReceipt hash);
  silent_height : keeps p rpc_getBlockNumber;
  silent_transaction : forall hash, keeps p (rpc_getTransaction hash);
  silent_clock : keeps p node_clock;
  silent_sleep : forall ms n, p (node_sleep ms n) = p n;
}.
#[export] Hint Resolve silent_receipt silent_height silent_transaction silent_clock silent_sleep silent_chainId silent_count silent_gas silent_call silent_nftIdOf silent_walletsOf silent_isActive : bel.

Section Published.
Context `{PF : Platform} `{EvmCodec} {N : Type} `{Node N} (config : EvmChainConfig.t) (fuel : nat).
Context {T : Type} (p : N -> T) `{!Silent p}.
Abbreviation ME := (M exn (Evm N)).
Abbreviation published := (fun w : Evm N => p (node w)).

Lemma keeps_on_node {X A} (m : M X N A) : keeps p m -> keeps published (on_node m).
Proof. intros Hm w. unfold on_node, zoom. specialize (Hm (node w)). by destruct (m (node w)). Qed.
Lemma keeps_as_thrown {A} (m : Call N A) : keeps p m -> keeps p (as_thrown m).
Proof. intros Hm. apply keeps_rescue; [exact Hm|frame]. Qed.
Lemma keeps_read {A} (m : Call N A) : keeps p m -> keeps published (read m : ME A).
Proof. intros Hm. apply keeps_rescue; [by apply keeps_on_node|]. frame. Qed.
Lemma keeps_classified {A} (m : M Thrown N A) context : keeps p m -> keeps published (classified m context : ME A).
Proof. intros Hm. apply keeps_rescue; [by apply keeps_on_node|]. frame. Qed.
Lemma keeps_plain_call {A} (m : Call N A) : keeps p m -> keeps published (plain_call m : ME A).
Proof. intros Hm. apply keeps_rescue; [by apply keeps_on_node|]. frame. Qed.
Hint Resolve keeps_read keeps_classified keeps_plain_call keeps_on_node keeps_as_thrown : bel.

Lemma keeps_ensureNetwork : keeps published (ensureNetwork config : ME unit).
Proof. unfold ensureNetwork. frame. Qed.
Lemma keeps_checksum s : keeps published (to_checksum s : ME string).
Proof. unfold to_checksum. frame. Qed.
Hint Resolve keeps_checksum : bel.
Lemma keeps_newest b l : keeps published (newest_wallet b l : ME _).
Proof. induction l as [|a l IH]; simpl; frame. Qed.
Lemma keeps_actorWallet tx : keeps published (actorWallet tx : ME string).
Proof. unfold actorWallet. frame. Qed.
Hint Resolve keeps_ensureNetwork keeps_newest keeps_actorWallet : bel.
Lemma keeps_plan tx : keeps published (plan tx : ME _).
Proof. unfold plan. apply keeps_buildCallPlan; intros; simpl; frame. Qed.
Hint Resolve keeps_plan : bel.
Lemma keeps_build tx b : keeps published (buildPreparedTransaction config tx b : ME _).
Proof. unfold buildPreparedTransaction. frame. Qed.
Lemma keeps_simulate prepared : keeps published (simulate prepared : ME _).
Proof. unfold simulate. apply keeps_rescue; frame. Qed.
Lemma keeps_signerFor a : keeps published (signerFor config a : ME _).
Proof. unfold signerFor. frame. Qed.
Lemma keeps_verify raw prepared : keeps published (verifySignedTransaction raw prepared : ME _).
Proof. unfold verifySignedTransaction. frame. Qed.

Lemma keeps_poll k hash c d i : keeps p (poll k hash c d i).
Proof.
  induction k as [|k IH]; simpl; [apply keeps_throw|]. unfold confirmed, clock, sleep.
  frame; apply keeps_modify; intros; apply silent_sleep.
Qed.
Hint Resolve keeps_poll : bel.
Lemma keeps_awaitResult tx hash : keeps published (awaitResult config fuel tx hash : ME _).
Proof.
  unfold awaitResult, waitForReceipt, diagnoseMissingReceipt, clock. apply keeps_bind; [apply keeps_classified; frame|].
  intros [r|]; [apply keeps_ret|]. apply keeps_bind; [|intros; apply keeps_throw].
  apply keeps_rescue; [apply keeps_on_node; frame|frame].
Qed.

(** The fields of a transaction that [buildPreparedTransaction] returns. *)
Definition stands_for (tx : Transaction.t) (prepared : PreparedTransaction.t) : Prop :=
  exists call data (w1 w2 : Evm N), plan tx w1 = (inr call, w2) /\
    encodeFunctionData (CallPlan.contract call) (CallPlan.method call) (CallPlan.args call) = inr data /\
    getAddress (Transaction.actorWallet tx) = Some (PreparedTransaction.from prepared) /\
    PreparedTransaction.to prepared = EvmChainConfig.contracts config (CallPlan.contract call) /\
    PreparedTransaction.data prepared = data /\ PreparedTransaction.chainId prepared = EvmChainConfig.chainId config.
Lemma build_inr tx b (w w' : Evm N) prepared :
  buildPreparedTransaction config tx b w = (inr prepared, w') -> stands_for tx prepared.
Proof.
  unfold buildPreparedTransaction. intros (from & w1 & Ef & Hrun)%bind_inr.
  apply bind_inr in Ef as (u & w2 & _ & Ef). unfold to_checksum in Ef. apply require_inr in Ef as [Ef _].
  apply bind_inr in Hrun as (u2 & w3 & _ & Hrun). apply bind_inr in Hrun as (call & w4 & Ep & Hrun).
  apply bind_inr in Hrun as (data & w5 & Ed & Hrun). apply lift_result_inr in Ed as [Ed <-].
  destruct (encodeFunctionData _ _ _) as [|d] eqn:Een; [done|]. injection Ed as ->.
  exists call, data, w3, w4. repeat (split; [done|]).
  destruct b; [|by apply mret_inr in Hrun as [<- _]].
  apply bind_inr in Hrun as (nonce & w6 & _ & Hrun). apply bind_inr in Hrun as (gas & w7 & _ & Hrun).
  by apply mret_inr in Hrun as [<- _].
Qed.

(** A device-signed transaction that is exactly what the envelope claims. *)
Definition exactly (raw : EvmTransaction.t) (prepared : PreparedTransaction.t) : Prop :=
  (exists from to, EvmTransaction.from raw = Some from /\ toLowerCase from = toLowerCase (PreparedTransaction.from prepared) /\
     EvmTransaction.to raw = Some to /\ toLowerCase to = toLowerCase (PreparedTransaction.to prepared)) /\
  toLowerCase (EvmTransaction.data raw) = toLowerCase (PreparedTransaction.data prepared) /\
  EvmTransaction.chainId raw = PreparedTransaction.chainId prepared /\ EvmTransaction.value raw = 0%Z.
Lemma same_address_Some a b : same_address a b = true -> exists s, a = Some s /\ toLowerCase s = toLowerCase b.
Proof.
  unfold same_address. destruct a as [s|]; simpl; [|done]. intros [_ E%String.eqb_eq]%andb_true_iff. by exists s.
Qed.
Lemma verify_exactly raw prepared (w : Evm N) u w' : verifySignedTransaction raw prepared w = (inr u, w') -> exactly raw prepared.
Proof.
  unfold verifySignedTransaction. destruct (signed_problems raw prepared) eqn:E; [intros _|done]. unfold signed_problems in E.
  destruct (same_address (EvmTransaction.from raw) _) eqn:E1; [|done].
  destruct (same_address (EvmTransaction.to raw) _) eqn:E2; [|done].
  destruct (String.eqb (toLowerCase (EvmTransaction.data raw)) _) eqn:E3; [|done].
  destruct (Z.eqb_spec (EvmTransaction.chainId raw) (PreparedTransaction.chainId prepared)); [|done].
  destruct (Z.eqb_spec (EvmTransaction.value raw) 0); [|done].
  apply same_address_Some in E1 as (f & Hf & Ef), E2 as (t & Ht & Et). apply String.eqb_eq in E3.
  split; [by exists f, t|done].
Qed.

(** [prepared] is handed to the node for [tx]: signed by the device of the
    actor, or in development with a key the backend holds for the actor's
    wallet. *)
Definition sends (tx : Transaction.t) (prepared : PreparedTransaction.t) (n1 : N) (answer : RpcError.t + string) (n2 : N) : Prop :=
  (exists raw, Transaction.signature tx <> "development" /\ EvmTransaction_from (trim (Transaction.signature tx)) = Some raw /\
     exactly raw prepared /\ rpc_broadcastTransaction (trim (Transaction.signature tx)) n1 = (answer, n2)) \/
  (Transaction.signature tx = "development" /\ exists key nonce gas, key ∈ EvmChainConfig.devSignerKeys config /\
     toLowerCase (EvmWallet_address key) = toLowerCase (PreparedTransaction.from prepared) /\
     rpc_sendTransaction (CallRequest.mk (EvmWallet_address key) (PreparedTransaction.to prepared) (PreparedTransaction.data prepared))
       nonce gas n1 = (answer, n2)).
Lemma parse_signed_inr signature raw :
  parseSignedTransaction signature = Some raw -> EvmTransaction_from (trim signature) = Some raw.
Proof.
  unfold parseSignedTransaction. destruct (is_raw_hex _); [|done]. destruct (EvmTransaction_from _) as [parsed|]; simpl; [|done].
  by destruct (EvmTransaction.signed parsed).
Qed.
Lemma broadcast_inv tx (send : Call N string) (w w' : Evm N) r :
  broadcast tx send w = (r, w') -> exists h, send (node w) = (h, node w').
Proof.
  unfold broadcast, rescue, on_node, zoom, mbind, M_bind. destruct (send (node w)) as [[err|hash] n2]; simpl.
  - destruct (decodeRevertFrom err) as [|[|]]; intros [= _ <-]; simpl; eauto.
  - intros [= _ <-]. simpl. eauto.
Qed.
Lemma sendAs_inv signer prepared (n n' : N) h :
  sendAs signer prepared n = (h, n') ->
  p n' = p n \/ exists nonce gas n1, p n1 = p n /\
    rpc_sendTransaction (CallRequest.mk signer (PreparedTransaction.to prepared) (PreparedTransaction.data prepared)) nonce gas n1 = (h, n').
Proof.
  unfold sendAs. intros [(e & _ & E)|(nonce & n1 & E1 & Hrun)]%bind_inv; [left; exact (keeps_run p _ _ _ _ (silent_count _ _) E)|].
  assert (K1 := keeps_run p _ _ _ _ (silent_count _ _) E1).
  apply bind_inv in Hrun as [(e & _ & E)|(gas & n2 & E2 & Hrun)].
  - left. rewrite <- K1. revert E. apply keeps_run. frame.
  - right. exists nonce, gas, n2. split; [|exact Hrun]. rewrite <- K1. revert E2. apply keeps_run. frame.
Qed.
Lemma signerFor_inr a (w : Evm N) signer w' :
  signerFor config a w = (inr signer, w') ->
  exists key, key ∈ EvmChainConfig.devSignerKeys config /\ signer = EvmWallet_address key /\ toLowerCase signer = toLowerCase a.
Proof.
  unfold signerFor. intros [Hf _]%require_inr. unfold find_signer in Hf. apply find_some in Hf as [Hin He%String.eqb_eq].
  apply in_map_iff in Hin as (key & <- & Hk). exists key. by rewrite list_elem_of_In.
Qed.

Lemma keeps_sender tx prepared : keeps published (sender config tx prepared : ME _).
Proof.
  unfold sender. destruct (String.eqb _ _); apply keeps_bind; [apply keeps_signerFor|frame|frame|intros].
  apply keeps_bind; [apply keeps_verify|frame].
Qed.
(** What passes the check of the signature publishes at most that. *)
Lemma sender_sends tx prepared (w w' : Evm N) send :
  sender config tx prepared w = (inr send, w') ->
  forall n h n', send n = (h, n') -> p n' = p n \/ exists n1, p n1 = p n /\ sends tx prepared n1 h n'.
Proof.
  unfold sender. destruct (String.eqb_spec (Transaction.signature tx) "development") as [Hd|Hd].
  - intros (signer & w1 & (key & Hk & -> & Ha)%signerFor_inr & [<- _]%mret_inr)%bind_inr n h n' [K|(nonce & gas & n1 & K & Hs)]%sendAs_inv; [by left|].
    right. exists n1. split; [exact K|]. right. split; [exact Hd|]. by exists key, nonce, gas.
  - intros (raw & w1 & [Ep%parse_signed_inr _]%require_inr & Hrun)%bind_inr.
    apply bind_inr in Hrun as (u & w2 & Ev%verify_exactly & [<- _]%mret_inr).
    intros n h n' E. right. exists n. split; [done|]. left. by exists raw.
Qed.
End Published.

Section Success.
Context `{PF : Platform} `{EvmCodec} {N : Type} `{Node N} (config : EvmChainConfig.t) (fuel : nat).

Lemma sender_sent tx prepared (w w' : Evm N) send n hash n' :
  sender config tx prepared w = (inr send, w') -> send n = (inr hash, n') ->
  exists n1, sends config tx prepared n1 (inr hash) n'.
Proof.
  unfold sender. destruct (String.eqb_spec (Transaction.signature tx) "development") as [Hd|Hd].
  - intros (signer & w1 & (key & Hk & -> & Ha)%signerFor_inr & [<- _]%mret_inr)%bind_inr Hs.
    apply bind_inr in Hs as (nonce & n2 & _ & Hs). apply bind_inr in Hs as (gas & n3 & _ & Hs).
    exists n3. right. split; [exact Hd|]. by exists key, nonce, gas.
  - intros (raw & w1 & [Ep%parse_signed_inr _]%require_inr & Hrun)%bind_inr Hs.
    apply bind_inr in Hrun as (u & w2 & Ev%verify_exactly & [<- _]%mret_inr). exists n. left. by exists raw.
Qed.
Lemma rejected_status tx revert : SubmitResult.status (rejected tx revert) = TX_REJECTED.
Proof. done. Qed.
Lemma broadcast_sent tx send (w w' : Evm N) hash :
  broadcast tx send w = (inr (inr hash), w') -> send (node w) = (inr hash, node w').
Proof.
  unfold broadcast, rescue, on_node, zoom, mbind, M_bind. destruct (send (node w)) as [[err|h] n2]; simpl.
  - by destruct (decodeRevertFrom err) as [|[|]].
  - by intros [= -> <-].
Qed.
Lemma awaitResult_inr tx hash (w w' : Evm N) res :
  awaitResult config fuel tx hash w = (inr res, w') ->
  exists receipt, seen hash (EvmChainConfig.confirmations config) receipt /\ res = settle config tx hash receipt.
Proof.
  unfold awaitResult. intros (found & w1 & Ef & Hrun)%bind_inr.
  unfold classified in Ef. apply rescue_inr in Ef as [Ef|(x & w2 & _ & [=])].
  destruct found as [receipt|].
  - apply mret_inr in Hrun as [<- _]. exists receipt. split; [|done]. unfold on_node, zoom in Ef.
    destruct (waitForReceipt _ _ _ _ _ (node w)) as [r n1] eqn:Ew. injection Ef as -> _.
    unfold waitForReceipt in Ew. apply bind_inr in Ew as (start & n2 & _ & Ew). by apply poll_seen in Ew.
  - by apply bind_inr in Hrun as (why & w2 & _ & Hrun).
Qed.

(** What a result that is not an exception rests on. *)
Lemma submit_inr tx (w w' : Evm N) res :
  evm_submitDetailed config fuel tx w = (inr res, w') ->
  (exists revert, res = rejected tx revert) \/
  exists prepared n1 hash n2 receipt, stands_for config tx prepared /\ sends config tx prepared n1 (inr hash) n2 /\
    seen hash (EvmChainConfig.confirmations config) receipt /\ res = settle config tx hash receipt.
Proof.
  unfold evm_submitDetailed. intros (prepared & w1 & Eb & Hrun)%bind_inr. apply build_inr in Eb.
  apply bind_inr in Hrun as (send & w2 & Es & Hrun). apply bind_inr in Hrun as (revert & w3 & _ & Hrun).
  destruct revert as [revert|]; [left; apply mret_inr in Hrun as [<- _]; eauto|].
  apply bind_inr in Hrun as (sent & w4 & Eh & Hrun).
  destruct sent as [revert|hash]; [left; apply mret_inr in Hrun as [<- _]; eauto|]. right.
  apply broadcast_sent in Eh. destruct (sender_sent _ _ _ _ _ _ _ _ Es Eh) as [n1 Hs].
  apply awaitResult_inr in Hrun as (receipt & Hseen & ->). by exists prepared, n1, hash, (node w4), receipt.
Qed.
Lemma settle_success tx hash receipt : SubmitResult.status (settle config tx hash receipt) = SUCCESS -> Receipt.status receipt = 1%Z.
Proof. unfold settle. by destruct (Z.eqb_spec (Receipt.status receipt) 1). Qed.

(** The contract call was mined: sent in the name of its actor, included and
    confirmed. *)
Definition mined (tx : Transaction.t) (prepared : PreparedTransaction.t) (hash : string) (receipt : Receipt.t) : Prop :=
  (exists n1 n2, stands_for config tx prepared /\ sends config tx prepared n1 (inr hash) n2) /\
  seen hash (EvmChainConfig.confirmations config) receipt /\ Receipt.status receipt = 1%Z.
Lemma submit_success_mined tx (w w' : Evm N) res :
  evm_submitDetailed config fuel tx w = (inr res, w') -> SubmitResult.status res = SUCCESS ->
  exists prepared hash receipt, mined tx prepared hash receipt /\ res = settle config tx hash receipt.
Proof.
  intros [(revert & ->)|(prepared & n1 & hash & n2 & receipt & Hp & Hs & Hseen & ->)]%submit_inr Hok; [done|].
  exists prepared, hash, receipt. split; [|done]. split; [by exists n1, n2|]. split; [exact Hseen|]. by apply settle_success in Hok.
Qed.
End Success.

(** ** Which exceptions leave the adapter *)

Section Errors.
Context `{PF : Platform} `{EvmCodec} {N : Type} `{Node N} (config : EvmChainConfig.t) (fuel : nat).
Abbreviation ME := (M exn (Evm N)).

(** An error with a kind, and so with an HTTP status of its own; or a failure
    of the codec, which the adapter does not catch. *)
Definition mapped (e : exn) : Prop := exists kind message, e = BlockchainError kind message.
Definition codec_failure (e : exn) : Prop :=
  exists err, e = foreign err /\
    ((exists contract method args, encodeFunctionData contract method args = inl err) \/ exists data, decodeErrorReason data = inl err).
Abbreviation reported := (fun e => mapped e \/ codec_failure e).
(** The contracts only name addresses. *)
Definition wallets_are_addresses : Prop :=
  forall did n wallets n', IdentityRegistry_walletsOf did n = (inr wallets, n') -> Forall (fun a => is_Some (getAddress a)) wallets.

Lemma mapped_kind kind message : reported (BlockchainError kind message).
Proof. left. by exists kind, message. Qed.
Hint Resolve mapped_kind : bel.
Lemma classify_mapped err context : err <> inl OutOfFuel -> reported (classifyError err context).
Proof.
  intros Hf. left. destruct err as [e|err]; simpl.
  - destruct e; try (eexists _, _; reflexivity). done.
  - destruct (own "code" _) as [| | | | |c| |]; try (eexists _, _; reflexivity).
    repeat match goal with |- context [match ?x with _ => _ end] => destruct x end; eexists _, _; reflexivity.
Qed.
Lemma decodeRevert_inl data err : decodeRevert data = inl err -> exists d, decodeErrorReason d = inl err.
Proof.
  unfold decodeRevert. destruct (startsWith _ data).
  - destruct (decodeErrorReason data) as [e|] eqn:E; [|done]. intros [= ->]. eauto.
  - by destruct (first_parsed data CONTRACT_NAMES).
Qed.
Lemma decodeRevertFrom_inl err err' : decodeRevertFrom err = inl err' -> reported (foreign err').
Proof.
  unfold decodeRevertFrom. destruct (_ && _); [done|]. destruct (decodeRevert _) as [e|d] eqn:E; [|done].
  intros [= ->]. right. exists err'. split; [done|]. right. by eapply decodeRevert_inl.
Qed.
Ltac reported := first [apply mapped_kind | by eapply decodeRevertFrom_inl | by apply classify_mapped].
Lemma throws_read {A} (m : Call N A) : throws_only reported (read m : ME A).
Proof.
  unfold read. throws; reported.
Qed.
Lemma throws_classified {A} (m : M Thrown N A) context : throws_only (fun t => t <> inl OutOfFuel) m -> throws_only reported (classified m context : ME A).
Proof.
  intros Hm w e w'. unfold classified, rescue, on_node, zoom. specialize (Hm (node w)).
  destruct (m (node w)) as [[t|a] n]; [|done]. intros [= <- _]. by eapply classify_mapped, Hm.
Qed.
Lemma throws_as_thrown {A} (m : Call N A) : throws_only (fun t => t <> inl OutOfFuel) (as_thrown m).
Proof. unfold as_thrown. throws. Qed.
Hint Resolve throws_read : bel.
Lemma throws_ensureNetwork : throws_only reported (ensureNetwork config : ME unit).
Proof. unfold ensureNetwork. throws; first [apply throws_classified, throws_as_thrown|reported]. Qed.
Lemma throws_simulate prepared : throws_only reported (simulate prepared : ME _).
Proof. unfold simulate. throws; reported. Qed.
Lemma throws_broadcast tx send : throws_only reported (broadcast tx send : ME _).
Proof. unfold broadcast. throws; reported. Qed.
Lemma throws_sender tx prepared : throws_only reported (sender config tx prepared : ME _).
Proof. unfold sender, signerFor, verifySignedTransaction, require. throws; reported. Qed.
Hint Resolve throws_ensureNetwork throws_simulate throws_broadcast throws_sender : bel.

Context (Haddr : addresses_normalise) (Hwallets : wallets_are_addresses).
Lemma throws_actorWallet tx : throws_only reported (actorWallet tx : ME string).
Proof.
  unfold actorWallet. destruct (isAddress _) eqn:Ea; simpl negb.
  - throws. by apply throws_only_checksum.
  - intros w e w' [= <- _]. apply mapped_kind.
Qed.
Lemma throws_newest b l : Forall (fun a => is_Some (getAddress a)) l -> throws_only reported (newest_wallet b l : ME _).
Proof.
  induction 1 as [|a l [c Hc] Hl IH]; simpl; [throws|].
  assert (Hck : throws_only reported (to_checksum a : ME string)) by (unfold to_checksum; rewrite Hc; apply throws_only_ret). throws.
Qed.
Lemma throws_walletOf did b : throws_only reported (walletOfIdentity (ChainLookups := lookups) did b : ME _).
Proof.
  intros w e w'. simpl. intros [E|(wallets & w1 & E & Hrun)]%bind_inl; [by eapply throws_read|].
  unfold read in E. apply rescue_inr in E as [E|(x & w2 & _ & E)].
  - unfold on_node, zoom in E. destruct (IdentityRegistry_walletsOf did (node w)) as [r n] eqn:En. injection E as -> _.
    eapply throws_newest; [|exact Hrun]. apply Forall_rev. by eapply Hwallets.
  - destruct (isCallException x); [|done]. by destruct (decodeRevertFrom x).
Qed.
Lemma throws_plan tx : throws_only reported (plan tx : ME _).
Proof.
  unfold plan. apply throws_only_plan; [exact Haddr|by intros e (k & m & -> & _); apply mapped_kind| |apply throws_walletOf].
  intros id. simpl. apply throws_read.
Qed.
Lemma throws_build tx : throws_only reported (buildPreparedTransaction config tx false : ME _).
Proof.
  unfold buildPreparedTransaction. assert (H1 := throws_actorWallet tx). assert (H2 := throws_plan tx). throws.
  unfold lift_result. intros w e w' [= E _]. destruct (encodeFunctionData _ _ _) as [err|] eqn:Ee; [|done]. injection E as <-.
  right. exists err. split; [done|]. left. by repeat eexists.
Qed.
End Errors.

(** The wait as a whole. *)
Lemma receipt_wait {N} `{Node N} (now : N -> Z) `{!Timely now} hash confirmations timeoutMs intervalMs (n n' : N) r k :
  (1 <= intervalMs)%Z -> (0 <= timeoutMs)%Z -> (timeoutMs + 1 < Z.of_nat k)%Z -> waitForReceipt k hash confirmations timeoutMs intervalMs n = (r, n') ->
  r <> inl (inl OutOfFuel) /\
  (r = inr None -> exists start t n1 n2 n3, node_clock n = (inr start, n1) /\ node_clock n2 = (inr t, n3) /\ (start + timeoutMs <= t)%Z) /\
  (forall receipt, r = inr (Some receipt) -> seen hash confirmations receipt).
Proof.
  intros Hi H0' Hk Hrun. unfold waitForReceipt in Hrun. destruct (clock_run now n) as (n1 & Ec & _).
  rewrite (bind_run _ _ _ _ _ Ec) in Hrun. apply as_thrown_inr in Ec. destruct k as [|k]; [lia|]. split; [|split].
  - eapply (poll_terminates now); [exact Hi| |exact Hrun]. lia.
  - intros ->. apply poll_seen in Hrun as (t & n2 & n3 & Et & Hd). by exists (now n1), t, n1, n2, n3.
  - intros receipt ->. by apply poll_seen in Hrun.
Qed.

Section Claims.
Context `{PF : Platform} `{EvmCodec} {N : Type} `{Node N} (config : EvmChainConfig.t) (fuel : nat).

(** What a submission publishes. *)
Lemma submit_publishes {T} (p : N -> T) `{!Silent p} tx (w w' : Evm N) r :
  evm_submitDetailed config fuel tx w = (r, w') ->
  p (node w') = p (node w) \/
  exists prepared n1 answer n2, stands_for config tx prepared /\ sends config tx prepared n1 answer n2 /\
    p n1 = p (node w) /\ p (node w') = p n2.
Proof.
  unfold evm_submitDetailed. intros [(e & _ & E)|(prepared & w1 & Eb & Hrun)]%bind_inv.
  { left. apply (keeps_run _ _ _ _ _ (keeps_build config p tx false) E). }
  assert (K1 := keeps_run _ _ _ _ _ (keeps_build config p tx false) Eb). simpl in K1. rewrite <- K1. clear K1.
  apply build_inr in Eb. apply bind_inv in Hrun as [(e & _ & E)|(send & w2 & E2 & Hrest)];
    [left; exact (keeps_run (fun w => p (node w)) _ _ _ _ (keeps_sender config p tx prepared) E)|].
  assert (K2 := keeps_run (fun w => p (node w)) _ _ _ _ (keeps_sender config p tx prepared) E2). simpl in K2. rewrite <- K2. clear K2.
  assert (Hsend := sender_sends config p _ _ _ _ _ E2).
  apply bind_inv in Hrest as [(e & _ & E)|(revert & w3 & E3 & Hrest)]; [left; exact (keeps_run (fun w => p (node w)) _ _ _ _ (keeps_simulate p prepared) E)|].
  assert (K3 := keeps_run (fun w => p (node w)) _ _ _ _ (keeps_simulate p prepared) E3). simpl in K3. rewrite <- K3. clear K3.
  destruct revert as [revert|]; [by left; apply mret_inv in Hrest as [_ ->]|].
  assert (Hb : exists w4 rb, broadcast tx send w3 = (rb, w4) /\ p (node w') = p (node w4)).
  { apply bind_inv in Hrest as [(e & _ & E)|(sent & w4 & E4 & Hrest)]; [eauto|]. exists w4, (inr sent). split; [exact E4|].
    destruct sent as [revert|hash]; [by apply mret_inv in Hrest as [_ ->]|].
    exact (keeps_run (fun w => p (node w)) _ _ _ _ (keeps_awaitResult config fuel p tx hash) Hrest). }
  destruct Hb as (w4 & rb & E4 & K4). rewrite K4. apply broadcast_inv in E4 as [h E4].
  destruct (Hsend _ _ _ E4) as [K|(n1 & Kn & Hs)]; [by left|]. right. by exists prepared, n1, h, (node w4).
Qed.

(** C7: Whatever the node answers, a submission hands the node at most one
    transaction, and only the contract call its envelope stands for: from the
    wallet of its actor, to the configured contract, on the configured chain,
    without value, in the very bytes the device of the actor signed (or, in
    development, signed with a key held for that wallet). *)
Theorem published_exactly {T} (p : N -> T) `{!Silent p} tx (w w' : Evm N) r :
  evm_submitDetailed config fuel tx w = (r, w') ->
  p (node w') = p (node w) \/
  exists prepared n1 answer n2, stands_for config tx prepared /\ sends config tx prepared n1 answer n2 /\
    p n1 = p (node w) /\ p (node w') = p n2.
Proof. exact (submit_publishes p tx w w' r). Qed.

(** C8: Success is only reported for a transaction that the node has mined: it
    was sent as the call the envelope stands for, and under the hash the node
    gave it there is a receipt with status 1 and the configured number of
    confirmations; block and events of the result are those of the receipt. *)
Theorem success_is_mined tx (w w' : Evm N) res :
  evm_submitDetailed config fuel tx w = (inr res, w') -> SubmitResult.status res = SUCCESS ->
  exists prepared hash receipt, mined config tx prepared hash receipt /\
    SubmitResult.hash res = Some hash /\ SubmitResult.blockNumber res = Some (Receipt.blockNumber receipt) /\
    SubmitResult.events res = parseEvents config (Receipt.logs receipt) /\ SubmitResult.revert res = None.
Proof.
  intros Hrun Hok. destruct (submit_success_mined _ _ _ _ _ _ Hrun Hok) as (prepared & hash & receipt & Hm & ->).
  exists prepared, hash, receipt. split; [exact Hm|]. destruct Hm as (_ & _ & Hst). unfold settle. by rewrite Hst.
Qed.

(** The wait for a receipt ends: a unit of fuel per millisecond of the
    timeout and two more are enough on every node whose clock runs forward,
    whatever it answers; it gives up only once the deadline has passed, and a
    receipt it returns has its confirmations. *)
Theorem receipt_wait_terminates (now : N -> Z) `{!Timely now} hash confirmations timeoutMs intervalMs (n n' : N) r k :
  (1 <= intervalMs)%Z -> (0 <= timeoutMs)%Z -> (timeoutMs + 1 < Z.of_nat k)%Z -> waitForReceipt k hash confirmations timeoutMs intervalMs n = (r, n') ->
  r <> inl (inl OutOfFuel) /\
  (r = inr None -> exists start t n1 n2 n3, node_clock n = (inr start, n1) /\ node_clock n2 = (inr t, n3) /\ (start + timeoutMs <= t)%Z) /\
  (forall receipt, r = inr (Some receipt) -> seen hash confirmations receipt).
Proof. exact (receipt_wait now _ _ _ _ _ _ _ _). Qed.

(** Every failure of a submission is reported with a kind, which gives it
    an HTTP status: what the node or the network answers is classified,
    reverts become results, the wait times out.  Only a failure of the ABI
    codec itself leaves the adapter as it is. *)
Theorem submit_errors_reported (now : N -> Z) `{!Timely now} tx (w w' : Evm N) e :
  addresses_normalise -> wallets_are_addresses (N := N) ->
  (1 <= default 250 (EvmChainConfig.pollingIntervalMs config))%Z -> (0 <= EvmChainConfig.txTimeoutMs config)%Z ->
  (EvmChainConfig.txTimeoutMs config + 1 < Z.of_nat fuel)%Z ->
  evm_submitDetailed config fuel tx w = (inl e, w') -> mapped e \/ codec_failure e.
Proof.
  intros Ha Hw Hi H0' Hf. revert w e w'.
  change (throws_only (fun e => mapped e \/ codec_failure e) (evm_submitDetailed config fuel tx : M exn (Evm N) _)).
  assert (Hb := throws_build config Ha Hw tx). unfold evm_submitDetailed.
  apply throws_only_bind; [exact Hb|intros prepared]. apply throws_only_bind; [apply throws_sender|intros send].
  apply throws_only_bind; [apply throws_simulate|intros [revert|]]; [apply throws_only_ret|].
  apply throws_only_bind; [apply throws_broadcast|intros [revert|hash]]; [apply throws_only_ret|].
  unfold awaitResult. apply throws_only_bind; [|intros [receipt|]; [apply throws_only_ret|]].
  - apply throws_classified. intros n t n' Hrun.
    destruct (receipt_wait now _ _ _ _ _ _ _ _ Hi H0' Hf Hrun) as [Hr _]. congruence.
  - throws. apply mapped_kind.
Qed.

(** The status of the chain is always answered: an unreachable node is
    reported as unhealthy, a missing finalized tag as finality at the head,
    and the lag is never negative. *)
Theorem status_never_throws (w : Evm N) :
  exists s w', evm_getStatus w = (inr s, w') /\ (0 <= BlockchainStatus.finalityLag s)%Z /\
    (BlockchainStatus.healthy s = true <-> exists height n, rpc_getBlockNumber (node w) = (inr height, n) /\ BlockchainStatus.height s = height).
Proof.
  unfold evm_getStatus, finalized_height, rescue, on_node, zoom, mbind, M_bind, mret, M_ret.
  destruct (rpc_getBlockNumber (node w)) as [[err|height] n1] eqn:Eh; [|destruct (rpc_getBlock Tag_finalized n1) as [[err|b] n2]].
  - eexists _, _. split; [done|]. simpl. split; [lia|]. split; [done|]. intros (? & ? & [=] & _).
  - eexists _, _. split; [done|]. simpl. split; [lia|]. split; [eauto|done].
  - eexists _, _. split; [done|]. simpl. split; [lia|]. split; [eauto|done].
Qed.

(** A call whose gas the node refuses to estimate is answered with an
    internal error when it is prepared, whatever the node said: the rejection
    is not looked at, unlike in a submission. *)
Theorem prepare_revert_internal tx prepared (w w1 : Evm N) nonce n2 err n3 :
  buildPreparedTransaction config tx false w = (inr prepared, w1) ->
  rpc_getTransactionCount (PreparedTransaction.from prepared) "pending" (node w1) = (inr nonce, n2) ->
  rpc_estimateGas (CallRequest.mk (PreparedTransaction.from prepared) (PreparedTransaction.to prepared) (PreparedTransaction.data prepared)) n2
    = (inl err, n3) ->
  exists e w', evm_prepareTransaction config tx w = (inl e, w') /\ fst (fst (serialize_error e)) = 500%Z.
Proof.
  unfold evm_prepareTransaction, buildPreparedTransaction. intros Hb Hn Hg.
  apply bind_inr in Hb as (from & w2 & E1 & Hb). rewrite (bind_run _ _ _ _ _ E1). clear E1.
  apply bind_inr in Hb as (u & w3 & E1 & Hb). rewrite (bind_run _ _ _ _ _ E1). clear E1.
  apply bind_inr in Hb as (call & w4 & E1 & Hb). rewrite (bind_run _ _ _ _ _ E1). clear E1.
  apply bind_inr in Hb as (data & w5 & E1 & Hb). rewrite (bind_run _ _ _ _ _ E1). clear E1.
  apply mret_inr in Hb as [<- ->]. simpl in Hn, Hg.
  assert (E2 : (plain_call (rpc_getTransactionCount from "pending") : M exn (Evm N) Z) w1 = (inr nonce, set_node n2 w1)).
  { unfold plain_call, rescue, on_node, zoom. by rewrite Hn. }
  rewrite (bind_run _ _ _ _ _ E2). eexists (foreign err), _. split; [|done].
  apply bind_throw. unfold plain_call, rescue, on_node, zoom. simpl. by rewrite Hg.
Qed.
End Claims.

(** ** Witnesses *)

(** A node that mines what it is given: its clock, what has been handed to
    it, whether it hands out receipts, and whether estimates are refused. *)
Module DemoNode.
Record t := mk { time : Z; pool : list string; mines : bool; reverts : bool }.
Definition later (ms : Z) (n : t) : t := mk (time n + ms) (pool n) (mines n) (reverts n).
Definition take (raw : string) (n : t) : t := mk (time n) (pool n ++ [raw]) (mines n) (reverts n).
End DemoNode.
Definition answer {A} (a : A) : Call DemoNode.t A := mret a.
Definition contract_error : RpcError.t :=
  RpcError.mk (VObj [("code", VStr "CALL_EXCEPTION"); ("info", VObj [("error", VObj [("data", VStr "0x")])])]) "execution reverted".
Definition demo_receipt : Receipt.t := Receipt.mk 7 1 [].
(** Its answers to the consensus questions. *)
Definition demo_key : string := "0x" +:+ String.concat "" (repeat "0123456789abcdef" 8).
Definition demo_validators : value :=
  VObj [("height", VNum (num_of_Z 8));
        ("validators", VArr [VObj [("validatorId", VStr "0xv1"); ("publicKey", VStr demo_key); ("status", VStr "ACTIVE");
                                   ("joinedAt", VStr "2026-01-02T03:04:05.678Z")]])].
Definition demo_committee : value := VObj [("height", VNum (num_of_Z 26)); ("validatorIds", VArr [VStr "0xv1"])].
#[local] Instance demo_node : Node DemoNode.t := {
  rpc_chainId := answer 1337%Z;
  rpc_getTransactionCount _ _ := gets (fun n => Z.of_nat (length (DemoNode.pool n)));
  rpc_estimateGas _ := fun n => if DemoNode.reverts n then (inl contract_error, n) else (inr 21000%Z, n);
  rpc_call _ := fun n => if DemoNode.reverts n then (inl contract_error, n) else (inr tt, n);
  rpc_broadcastTransaction raw := fun n => (inr ("hash of " +:+ raw), DemoNode.take raw n);
  rpc_sendTransaction r _ _ := fun n => (inr ("hash of " +:+ CallRequest.data r), DemoNode.take (CallRequest.data r) n);
  rpc_getTransactionReceipt _ := gets (fun n => if DemoNode.mines n then Some demo_receipt else None);
  rpc_getTransaction _ := answer None;
  rpc_getBlockNumber := answer 8%Z;
  rpc_getBlock _ := fun n => (inl contract_error, n);
  rpc_send method _ := answer (if String.eqb method "bel_getValidators" then demo_validators else demo_committee);
  node_clock := fun n => (inr (DemoNode.time n), n);
  node_sleep ms n := DemoNode.later ms n;
  IdentityRegistry_walletsOf _ := answer ["0xw1"; "0xw2"];
  IdentityRegistry_getWallet _ := answer (WalletRecord.mk 2 1 1 0 "");
  IdentityRegistry_identityOf _ := answer "did";
  IdentityRegistry_isActiveWallet _ := answer true;
  RoleRegistry_rolesOfIdentity _ := answer 1%Z;
  AssetRegistry_nftIdOf _ := answer 5%Z;
  AssetRegistry_getAsset _ := answer (AssetRecord.mk "A" 0 "0xw1");
  AssetRegistry_ownerOfAsset _ := answer "0xw1";
  AssetRegistry_stateOf _ := answer Asset_ACTIVE;
  JobManager_jobExists _ := answer false;
  JobManager_getJob _ := answer (JobRecord.mk 5 "0xw1" ZERO ZERO 1 1 0);
  AuditRegistry_getAuditTrail _ := answer [];
  AuditRegistry_getAuditRecord _ := answer (AuditRecord.mk Audit_ASSET "A" "ASSET_MINT" "0xw1" 1);
}.
#[local] Instance demo_timely : Timely DemoNode.time.
Proof.
  split; [intros n; exists n; split; [done|lia]|intros; simpl; lia|intros; simpl; lia|intros; simpl; lia].
Qed.
#[local] Instance demo_silent : Silent DemoNode.pool.
Proof. split; intros; try done; intros n; simpl; by destruct (DemoNode.reverts n). Qed.

Section Demo.
#[local] Existing Instance dev.
#[local] Instance demo_codec : EvmCodec := {
  EvmWallet_address key := key;
  encodeFunctionData _ method _ := inr ("0x" +:+ method);
  EvmTransaction_from s := if String.eqb s "0xaa" then Some (EvmTransaction.mk (Some "0xwallet") (Some "0xJobManager") "0xstartjob" 1337 0 true) else None;
  decodeErrorReason data := inr data;
  parseError _ _ := None;
  parseLog _ _ := None;
}.
Definition demo_config : EvmChainConfig.t :=
  EvmChainConfig.mk "demo" 1337 (fun c => "0x" +:+ ContractName_string c) 2 1000 None [].
Definition demo_tx : Transaction.t := Transaction.mk "tx" JOB_START "ID" "0xWallet" [("jobId", VStr "JOB-1")] "t" " 0xaa ".
Definition demo_evm (mines reverts : bool) : Evm DemoNode.t := mkEvm (DemoNode.mk 0 [] mines reverts) false.
Definition demo_run := evm_submitDetailed demo_config 1002 demo_tx (demo_evm true false).
Definition demo_result : SubmitResult.t := SubmitResult.mk "tx" SUCCESS (Some "hash of 0xaa") (Some 7%Z) [] None None [].

Lemma published_exactly_witness :
  DemoNode.pool (node (snd demo_run)) = ["0xaa"] /\
  exists prepared n1 hash n2, stands_for demo_config demo_tx prepared /\ sends demo_config demo_tx prepared n1 hash n2 /\ DemoNode.pool n2 = ["0xaa"].
Proof.
  split; [vm_compute; reflexivity|].
  destruct (published_exactly demo_config 1002 DemoNode.pool demo_tx (demo_evm true false) (snd demo_run) (fst demo_run))
    as [H|(prepared & n1 & hash & n2 & Hp & Hs & _ & H)]; [vm_compute; reflexivity|vm_compute in H; discriminate|].
  exists prepared, n1, hash, n2. split; [exact Hp|]. split; [exact Hs|]. rewrite <- H. vm_compute. reflexivity.
Defined.
Lemma success_is_mined_witness :
  exists prepared hash receipt, mined demo_config demo_tx prepared hash receipt /\ Receipt.blockNumber receipt = 7%Z.
Proof.
  destruct (success_is_mined demo_config 1002 demo_tx (demo_evm true false) (snd demo_run) demo_result)
    as (prepared & hash & receipt & Hm & _ & Hb & _); [vm_compute; reflexivity|reflexivity|].
  exists prepared, hash, receipt. split; [exact Hm|]. injection Hb as <-. reflexivity.
Defined.
(** Without a miner the wait gives up after a second. *)
Lemma receipt_wait_terminates_witness :
  exists start t n1 n2 n3, node_clock (node (demo_evm false false)) = (inr start, n1) /\ node_clock n2 = (inr t, n3) /\ (start + 1000 <= t)%Z.
Proof.
  destruct (receipt_wait_terminates DemoNode.time "h" 2 1000 250 (node (demo_evm false false))
    (snd (waitForReceipt 1002 "h" 2 1000 250 (node (demo_evm false false)))) (inr None) 1002 ltac:(lia) ltac:(lia) ltac:(lia))
    as (_ & Hn & _); [vm_compute; reflexivity|]. exact (Hn eq_refl).
Defined.
Lemma submit_errors_reported_witness :
  exists e, fst (evm_submitDetailed demo_config 1002 demo_tx (demo_evm false false)) = inl e /\ (mapped e \/ codec_failure e).
Proof.
  destruct (evm_submitDetailed demo_config 1002 demo_tx (demo_evm false false)) as [[e|res] w'] eqn:E.
  - exists e. split; [reflexivity|].
    apply (submit_errors_reported demo_config 1002 DemoNode.time demo_tx (demo_evm false false) w' e);
      [|intros did n ws n' [= <- _]; repeat constructor; by eexists|simpl; lia|simpl; lia|simpl; lia|exact E].
    intros s. simpl. destruct (startsWith "0x" s); [by eexists|discriminate].
  - exfalso. assert (Hs : match fst (evm_submitDetailed demo_config 1002 demo_tx (demo_evm false false)) with inl _ => true | inr _ => false end = true)
      by (vm_compute; reflexivity). rewrite E in Hs. discriminate.
Defined.
Lemma prepare_revert_internal_witness :
  exists e w', evm_prepareTransaction demo_config demo_tx (demo_evm true true) = (inl e, w') /\ fst (fst (serialize_error e)) = 500%Z.
Proof.
  destruct (buildPreparedTransaction demo_config demo_tx false (demo_evm true true)) as [[e|prepared] w1] eqn:E.
  - exfalso. vm_compute in E. discriminate.
  - eapply (prepare_revert_internal demo_config demo_tx prepared (demo_evm true true) w1); [exact E|reflexivity|].
    vm_compute in E. injection E as _ <-. reflexivity.
Defined.
End Demo.
