(* ===== verification/Consensus.v ===== *)
(** * Consensus: validators and committees from a Besu node, [backend/src/blockchain/besu-consensus.ts]

    The node is asked over JSON-RPC and its answer is not trusted: it is a
    value of unknown type that is parsed into validators, or refused. *)
From S2P Require Import Prelude Effects JsString JsMap JsValue Shared Errors Schemas Payloads Result Rpc Evm.
From Stdlib Require Import Ascii.
From stdpp Require Import pretty.
Local Open Scope string_scope.
Local Open Scope list_scope.

Definition VALIDATOR_STATUSES : list ValidatorStatus := [Validator_ACTIVE; Validator_INACTIVE; Validator_SLASHED].
Definition ValidatorStatus_string (s : ValidatorStatus) : string :=
  match s with Validator_ACTIVE => "ACTIVE" | Validator_INACTIVE => "INACTIVE" | Validator_SLASHED => "SLASHED" end.

Module ValidatorsResponse.
Record t := mk { height : Z; validators : list Validator.t }.
End ValidatorsResponse.
Module CommitteeResponse.
Record t := mk { height : Z; validatorIds : list string }.
End CommitteeResponse.

(** ** Reading fields *)

(** [isRecord(value)]: its properties. *)
Definition record_of (v : value) : option payload := match v with VObj p => Some p | _ => None end.
Definition array_of (v : value) : option (list value) := match v with VArr l => Some l | _ => None end.

Definition invalidResponse (method detail : string) : exn :=
  BlockchainError NETWORK (method +:+ " returned an invalid response: " +:+ detail).

Definition stringField (v : value) (name method : string) : Result string :=
  from_some (match v with VStr s => if blank s then None else Some s | _ => None end)
    (invalidResponse method (name +:+ " must be a non-empty string")).

(** [/^0x[0-9a-fA-F]{128}$/] *)
Definition is_public_key (s : string) : bool := startsWith "0x" s && is_hex_of_length 128 (slice_from 2 s).
Definition publicKey (v : value) (name method : string) : Result string :=
  key ← stringField v name method;
  ensure (is_public_key key) (invalidResponse method (name +:+ " must be a 0x-prefixed 64-byte X || Y public key"));;
  mret key.

(** A number that is a safe integer and not negative. *)
Definition height_of (v : value) : option Z :=
  match v with
  | VNum n => match as_safe_integer n with Some z => if (0 <=? z)%Z then Some z else None | None => None end
  | _ => None
  end.
Definition responseHeight (v : value) (method : string) : Result Z :=
  from_some (height_of v) (invalidResponse method "height must be a non-negative safe integer").

Definition validatorStatus (v : value) (method : string) : Result ValidatorStatus :=
  from_some (one_of ValidatorStatus_string VALIDATOR_STATUSES v)
    (invalidResponse method ("status must be one of " +:+ join_strings ", " (map ValidatorStatus_string VALIDATOR_STATUSES))).

(** ** Dates *)

Fixpoint drop_pattern (pattern : list (ascii -> bool)) (s : string) : option string :=
  match pattern, s with
  | [], _ => Some s
  | p :: pattern', String a s' => if p a then drop_pattern pattern' s' else None
  | _ :: _, "" => None
  end.
Fixpoint drop_digits (s : string) : string :=
  match s with String a s' => if is_digit a then drop_digits s' else s | "" => "" end.
Definition two : list (ascii -> bool) := [is_digit; is_digit].
(** [\d{4}-\d{2}-\d{2}T\d{2}:\d{2}:\d{2}] *)
Definition date_time : list (ascii -> bool) :=
  two ++ two ++ [Ascii.eqb "-"] ++ two ++ [Ascii.eqb "-"] ++ two ++ [Ascii.eqb "T"] ++
  two ++ [Ascii.eqb ":"] ++ two ++ [Ascii.eqb ":"] ++ two.
(** [(?:\.\d+)?] *)
Definition drop_fraction (s : string) : string :=
  match s with
  | String "." (String a s') => if is_digit a then drop_digits s' else s
  | _ => s
  end.
(** [(?:Z|[+-]\d{2}:\d{2})$] *)
Definition is_zone (s : string) : bool :=
  String.eqb s "Z" ||
  bool_decide (drop_pattern ([fun a => Ascii.eqb a "+" || Ascii.eqb a "-"] ++ two ++ [Ascii.eqb ":"] ++ two) s = Some "").
Definition is_iso_date (s : string) : bool :=
  match drop_pattern date_time s with Some rest => is_zone (drop_fraction rest) | None => false end.

(** ** Quantities *)

Definition hex_char (d : Z) : ascii := ascii_of_nat (Z.to_nat (if (d <? 10)%Z then 48 + d else 87 + d)).
(** [n.toString(16)]; a digit per unit of fuel. *)
Fixpoint hex_from (fuel : nat) (n : Z) (suffix : string) : string :=
  match fuel with
  | O => suffix
  | S fuel' =>
      let suffix' := String (hex_char (n mod 16)) suffix in
      if (n / 16 =? 0)%Z then suffix' else hex_from fuel' (n / 16) suffix'
  end.
(** Fourteen digits write every safe integer. *)
Definition to_hex (n : Z) : string := hex_from 14 n "".

Definition is_height (height : Z) : bool := (0 <=? height)%Z && (height <=? MAX_SAFE_INTEGER)%Z.
Definition quantity (height : Z) : Result string :=
  ensure (is_height height) (BlockchainError INVALID_PAYLOAD "Committee height must be a non-negative safe integer");;
  mret ("0x" +:+ to_hex height).

Section Consensus.
Context `{Platform}.

Definition validatorId (v : value) (name method : string) : Result string :=
  id ← stringField v name method;
  ensure (isAddress id) (invalidResponse method (name +:+ " must be an EVM address"));;
  mret id.

Definition isoDate (v : value) (method : string) : Result string :=
  joinedAt ← stringField v "joinedAt" method;
  ensure (is_iso_date joinedAt && bool_decide (is_Some (Date_parse joinedAt)))
    (invalidResponse method "joinedAt must be an ISO date-time string");;
  mret joinedAt.

(** ** Parsing an answer *)

Definition parse_entry (method : string) (index : nat) (v : value) : Result Validator.t :=
  let at_ := "validators[" +:+ pretty index +:+ "]" in
  entry ← from_some (record_of v) (invalidResponse method (at_ +:+ " must be an object"));
  id ← validatorId (field "validatorId" entry) (at_ +:+ ".validatorId") method;
  key ← publicKey (field "publicKey" entry) (at_ +:+ ".publicKey") method;
  status ← validatorStatus (field "status" entry) method;
  joinedAt ← isoDate (field "joinedAt" entry) method;
  mret (Validator.mk id key status joinedAt).

Definition parseValidators (v : value) : Result ValidatorsResponse.t :=
  let method := "bel_getValidators" in
  p ← from_some (record_of v) (invalidResponse method "response must be an object");
  height ← responseHeight (field "height" p) method;
  entries ← from_some (array_of (field "validators" p)) (invalidResponse method "validators must be an array");
  validators ← map_results (parse_entry method) 0 entries;
  mret (ValidatorsResponse.mk height validators).

Definition parseCommittee (v : value) : Result CommitteeResponse.t :=
  let method := "bel_getCommittee" in
  p ← from_some (record_of v) (invalidResponse method "response must be an object");
  height ← responseHeight (field "height" p) method;
  ids ← from_some (array_of (field "validatorIds" p)) (invalidResponse method "validatorIds must be an array");
  validatorIds ← map_results (fun index id => validatorId id ("validatorIds[" +:+ pretty index +:+ "]") method) 0 ids;
  mret (CommitteeResponse.mk height validatorIds).

(** ** [BesuConsensusSource] *)

Context {N : Type} `{Node N}.

(** [provider.send(method, params)], a rejection reported as such. *)
Definition ask (method : string) (params : list value) : M exn N value :=
  rescue (rpc_send method params) (fun _ => throw (BlockchainError NETWORK (method +:+ " RPC request failed"))).

Definition besu_getValidators : M exn N (list Validator.t) :=
  response ← ask "bel_getValidators" [VStr "latest"];
  parsed ← lift_result (parseValidators response);
  mret (ValidatorsResponse.validators parsed).

Definition besu_getCommittee (height : Z) : M exn N (list string) :=
  block ← lift_result (quantity height);
  response ← ask "bel_getCommittee" [VStr block];
  parsed ← lift_result (parseCommittee response);
  throw_if (negb (CommitteeResponse.height parsed =? height)%Z)
    (invalidResponse "bel_getCommittee" ("height " +:+ pretty (CommitteeResponse.height parsed) +:+
      " does not match requested height " +:+ pretty height));;
  mret (CommitteeResponse.validatorIds parsed).

Definition BesuConsensusSource : ConsensusInfoSource.t N := ConsensusInfoSource.mk N besu_getValidators besu_getCommittee.
End Consensus.
