(* ===== verification/ConsensusCorrect.v ===== *)
(** * ConsensusCorrect: what a consensus answer has to look like

    The answer of the node is accepted exactly when it is well formed; what
    comes out is what it says; a committee is the one of the height asked
    for; everything else is a network error. *)
From S2P Require Import Prelude Effects JsString JsMap JsValue Shared Errors Schemas Payloads Result Rpc Evm EvmCorrect Consensus Concrete.
From Stdlib Require Import Ascii.
From stdpp Require Import pretty.
Local Open Scope string_scope.
Local Open Scope list_scope.

(** ** Quantities *)

Lemma hex_digit_char d : (0 <= d < 16)%Z -> hex_digit (hex_char d) = d.
Proof.
  intros Hd. assert (Hall : forallb (fun n => hex_digit (hex_char (Z.of_nat n)) =? Z.of_nat n)%Z (seq 0 16) = true) by (vm_compute; reflexivity).
  rewrite forallb_forall in Hall. specialize (Hall (Z.to_nat d)). rewrite Z2Nat.id in Hall by lia.
  apply Z.eqb_eq, Hall, in_seq. lia.
Qed.
Lemma hex_from_value fuel n suffix : (0 <= n < 16 ^ Z.of_nat (S fuel))%Z -> hex_value (hex_from (S fuel) n suffix) = hex_value_from n suffix.
Proof.
  unfold hex_value. revert n suffix. induction fuel as [|fuel IH]; intros n suffix Hn.
  - change (16 ^ Z.of_nat 1)%Z with 16%Z in Hn. cbn [hex_from].
    assert (Hc : hex_value_from 0 (String (hex_char (n mod 16)) suffix) = hex_value_from n suffix).
    { cbn [hex_value_from]. rewrite hex_digit_char by (apply Z.mod_pos_bound; lia). f_equal. rewrite Z.mod_small; lia. }
    by destruct (n / 16 =? 0)%Z.
  - remember (S fuel) as k. cbn [hex_from].
    assert (Hm := Z.mod_pos_bound n 16 ltac:(lia)). assert (Hdiv := Z.div_mod n 16 ltac:(lia)).
    destruct (Z.eqb_spec (n / 16) 0) as [E|E].
    + cbn [hex_value_from]. rewrite hex_digit_char by lia. f_equal. lia.
    + subst k. rewrite IH.
      * cbn [hex_value_from]. rewrite hex_digit_char by lia. f_equal. lia.
      * rewrite (Nat2Z.inj_succ (S fuel)), Z.pow_succ_r in Hn by lia.
        split; [apply Z.div_pos; lia|]. apply Z.div_lt_upper_bound; lia.
Qed.
(** The hexadecimal spelling of a height reads back as that height. *)
Lemma to_hex_value h : is_height h = true -> hex_value (to_hex h) = h.
Proof.
  unfold is_height. intros [H1%Z.leb_le H2%Z.leb_le]%andb_prop. unfold MAX_SAFE_INTEGER in H2.
  unfold to_hex. rewrite hex_from_value; [done|]. split; [lia|].
  change (16 ^ Z.of_nat 14)%Z with 72057594037927936%Z. lia.
Qed.

(** ** Fields *)

Definition text (v : value) (s : string) : Prop := v = VStr s /\ blank s = false.

Lemma stringField_ok v name method s : stringField v name method = inr s <-> text v s.
Proof.
  unfold stringField, text. rewrite from_some_ok. destruct v; try (split; [done|by intros [[=] _]]).
  destruct (blank s0) eqn:E; split.
  - done.
  - intros [[= ->] E']. congruence.
  - intros [= ->]. done.
  - by intros [[= ->] _].
Qed.
Lemma guarded_field {A} (m : Result A) (ok : A -> bool) e a :
  (x ← m; ensure (ok x) e;; mret x) = inr a <-> m = inr a /\ ok a = true.
Proof.
  rewrite bind_ok. split.
  - intros (x & Hm & (u & Hok%ensure_ok & <-%ret_ok)%bind_ok). done.
  - intros [Hm Hok]. exists a. split; [done|]. apply bind_ok. exists tt. split; [by apply ensure_ok|done].
Qed.
Lemma publicKey_ok v name method k : publicKey v name method = inr k <-> text v k /\ is_public_key k = true.
Proof. unfold publicKey. by rewrite (guarded_field _ is_public_key), stringField_ok. Qed.
Lemma validatorStatus_ok v method s : validatorStatus v method = inr s <-> v = VStr (ValidatorStatus_string s).
Proof.
  unfold validatorStatus. rewrite from_some_ok. unfold one_of. destruct v; try (split; [done|by destruct s]).
  split; [|intros [= ->]; by destruct s].
  intros [_ H%String.eqb_eq]%find_some. by subst.
Qed.

Section Consensus.
Context `{Platform}.

Lemma validatorId_ok v name method id : validatorId v name method = inr id <-> text v id /\ isAddress id = true.
Proof. unfold validatorId. by rewrite (guarded_field _ isAddress), stringField_ok. Qed.
Lemma isoDate_ok v method d :
  isoDate v method = inr d <-> text v d /\ is_iso_date d = true /\ is_Some (Date_parse d).
Proof.
  unfold isoDate. rewrite (guarded_field _ (fun s => is_iso_date s && bool_decide (is_Some (Date_parse s)))), stringField_ok, andb_true_iff.
  by rewrite bool_decide_eq_true.
Qed.

(** ** Well-formed answers *)

(** An entry of the validator list. *)
Definition describes (entry : value) (v : Validator.t) : Prop :=
  exists p, entry = VObj p /\
    (text (field "validatorId" p) (Validator.validatorId v) /\ isAddress (Validator.validatorId v) = true) /\
    (text (field "publicKey" p) (Validator.publicKey v) /\ is_public_key (Validator.publicKey v) = true) /\
    field "status" p = VStr (ValidatorStatus_string (Validator.status v)) /\
    (text (field "joinedAt" p) (Validator.joinedAt v) /\ is_iso_date (Validator.joinedAt v) = true /\
      is_Some (Date_parse (Validator.joinedAt v))).
Definition is_address_text (v : value) (id : string) : Prop := text v id /\ isAddress id = true.
(** An object with a height and a list under [key] that reads as [l]. *)
Definition answer_with {A} (key : string) (reads : value -> A -> Prop) (v : value) (height : Z) (l : list A) : Prop :=
  exists p entries, v = VObj p /\ height_of (field "height" p) = Some height /\
    field key p = VArr entries /\ Forall2 reads entries l.

Lemma record_of_ok v p : record_of v = Some p <-> v = VObj p.
Proof. destruct v; simpl; split; by intros [= ->]. Qed.
Lemma array_of_ok v l : array_of v = Some l <-> v = VArr l.
Proof. destruct v; simpl; split; by intros [= ->]. Qed.

Lemma parse_entry_ok method i v w : parse_entry method i v = inr w <-> describes v w.
Proof.
  unfold parse_entry, describes. rewrite bind_ok. setoid_rewrite from_some_ok. setoid_rewrite record_of_ok. split.
  - intros (p & -> & (id & Hid%validatorId_ok & (key & Hk%publicKey_ok & (st & Hs%validatorStatus_ok & (d & Hd%isoDate_ok & <-%ret_ok)%bind_ok)%bind_ok)%bind_ok)%bind_ok).
    by exists p.
  - intros (p & -> & Hid & Hk & Hs & Hd). exists p. split; [done|]. destruct w as [id key st d]. simpl in *.
    apply bind_ok. exists id. split; [by apply validatorId_ok|]. apply bind_ok. exists key. split; [by apply publicKey_ok|].
    apply bind_ok. exists st. split; [by apply validatorStatus_ok|]. apply bind_ok. exists d. split; [by apply isoDate_ok|done].
Qed.

(** The parsers share their outline. *)
Lemma outline {A R} key method (f : nat -> value -> Result A) (mk : Z -> list A -> R) (reads : value -> A -> Prop) v e1 e2 r :
  (forall i x a, f i x = inr a <-> reads x a) ->
  (p ← from_some (record_of v) e1;
   height ← responseHeight (field "height" p) method;
   entries ← from_some (array_of (field key p)) e2;
   l ← map_results f 0 entries;
   mret (mk height l)) = inr r <->
  exists height l, answer_with key reads v height l /\ r = mk height l.
Proof.
  intros Hf. rewrite bind_ok. setoid_rewrite from_some_ok. setoid_rewrite record_of_ok. unfold answer_with, responseHeight. split.
  - intros (p & -> & (h & Hh%from_some_ok & (es & Hes%from_some_ok%array_of_ok & (l & Hl & <-%ret_ok)%bind_ok)%bind_ok)%bind_ok).
    exists h, l. split; [|done]. exists p, es. repeat (split; [done|]). by eapply map_results_ok.
  - intros (h & l & (p & es & -> & Hh & Hes & Hl) & ->). exists p. split; [done|].
    apply bind_ok. exists h. split; [by apply from_some_ok|]. apply bind_ok. exists es. split; [by apply from_some_ok, array_of_ok|].
    apply bind_ok. exists l. split; [by eapply map_results_ok|done].
Qed.
Lemma parseValidators_ok v r :
  parseValidators v = inr r <-> answer_with "validators" describes v (ValidatorsResponse.height r) (ValidatorsResponse.validators r).
Proof.
  unfold parseValidators. rewrite (outline "validators" _ _ ValidatorsResponse.mk describes) by apply parse_entry_ok.
  destruct r as [h l]. simpl. split; [by intros (h' & l' & Ha & [= -> ->])|intros Ha; by exists h, l].
Qed.
Lemma parseCommittee_ok v r :
  parseCommittee v = inr r <-> answer_with "validatorIds" is_address_text v (CommitteeResponse.height r) (CommitteeResponse.validatorIds r).
Proof.
  unfold parseCommittee. rewrite (outline "validatorIds" _ _ CommitteeResponse.mk is_address_text) by (intros; apply validatorId_ok).
  destruct r as [h l]. simpl. split; [by intros (h' & l' & Ha & [= -> ->])|intros Ha; by exists h, l].
Qed.

(** ** The source *)

Context {N : Type} `{Node N}.

Lemma ask_inr method params (n n' : N) v : ask method params n = (inr v, n') <-> rpc_send method params n = (inr v, n').
Proof. unfold ask. rewrite rescue_inr. split; [|by left]. by intros [E|(x & n1 & _ & [=])]. Qed.

(** The validators of the chain are accepted exactly when the answer of
    the node is well formed, and are then what the answer says, in its order:
    an object with a height and a list of objects, each with a non-blank EVM
    address, a 64-byte public key, one of the three statuses and an ISO date
    of a real instant. *)
Theorem validators_answer_exact (n n' : N) vs :
  besu_getValidators n = (inr vs, n') <->
  exists response height, rpc_send "bel_getValidators" [VStr "latest"] n = (inr response, n') /\
    answer_with "validators" describes response height vs.
Proof.
  unfold besu_getValidators. rewrite bind_inr. setoid_rewrite ask_inr. split.
  - intros (v & n1 & Hask & (r & n2 & [Hp <-]%lift_result_inr & [<- <-]%mret_inr)%bind_inr).
    exists v, (ValidatorsResponse.height r). split; [done|]. by apply parseValidators_ok.
  - intros (v & h & Hask & Ha). exists v, n'. split; [done|]. apply bind_inr. exists (ValidatorsResponse.mk h vs), n'.
    split; [|done]. apply lift_result_inr. split; [|done]. by apply parseValidators_ok.
Qed.

(** A committee is only returned for the height that was asked for: the
    question spells that height in hexadecimal, and the answer is accepted
    exactly when it names the same height with a list of EVM addresses.  A
    height that is no safe integer or negative is refused without a question. *)
Theorem committee_answer_exact height (n n' : N) ids :
  (besu_getCommittee height n = (inr ids, n') <->
   is_height height = true /\
   exists response digits, rpc_send "bel_getCommittee" [VStr ("0x" +:+ digits)] n = (inr response, n') /\
     digits = to_hex height /\ hex_value digits = height /\
     answer_with "validatorIds" is_address_text response height ids) /\
  (is_height height = false ->
   besu_getCommittee height n = (inl (BlockchainError INVALID_PAYLOAD "Committee height must be a non-negative safe integer"), n)).
Proof.
  split.
  - unfold besu_getCommittee. rewrite bind_inr. setoid_rewrite bind_inr. setoid_rewrite ask_inr. split.
    + intros (b & n1 & [Hq <-]%lift_result_inr & v & n2 & Hask & Hrest). unfold quantity in Hq.
      apply bind_ok in Hq as (u & Hh%ensure_ok & <-%ret_ok). split; [done|].
      apply bind_inr in Hrest as (r & n3 & [Hp <-]%lift_result_inr & Hrest).
      apply bind_inr in Hrest as (u' & n4 & Ht & [<- <-]%mret_inr). unfold throw_if in Ht.
      destruct (Z.eqb_spec (CommitteeResponse.height r) height) as [<-|]; [|done]. apply mret_inr in Ht as [_ <-].
      exists v, (to_hex (CommitteeResponse.height r)). split; [done|]. split; [done|]. split; [by apply to_hex_value|]. by apply parseCommittee_ok.
    + intros (Hh & v & d & Hask & -> & _ & Ha). exists ("0x" +:+ to_hex height), n. split.
      { apply lift_result_inr. split; [|done]. apply bind_ok. exists tt. split; [by apply ensure_ok|done]. }
      exists v, n'. split; [done|]. apply bind_inr. exists (CommitteeResponse.mk height ids), n'. split.
      { apply lift_result_inr. split; [|done]. by apply parseCommittee_ok. }
      simpl. by rewrite Z.eqb_refl.
  - intros Hh. unfold besu_getCommittee, quantity, ensure, mbind, M_bind, Result_bind, lift_result. by rewrite Hh.
Qed.

(** ** Failures *)

Definition is_network (e : exn) : Prop := exists m, e = BlockchainError NETWORK m.
Lemma invalid_network method d : is_network (invalidResponse method d).
Proof. by eexists. Qed.
#[local] Hint Resolve invalid_network : bel.
Lemma parseValidators_fails v : fails_with is_network (parseValidators v).
Proof. unfold parseValidators, responseHeight, parse_entry, validatorId, publicKey, validatorStatus, isoDate, stringField. failures. Qed.
Lemma parseCommittee_fails v : fails_with is_network (parseCommittee v).
Proof. unfold parseCommittee, responseHeight, validatorId, stringField. failures. Qed.

(** Whatever the node answers, or if it does not answer, a failure of the
    consensus source is a classified network error; the only other one is the
    refusal of a height, by which the node has not been asked. *)
Theorem consensus_failures height (n n' : N) e :
  (fst (besu_getValidators n) = inl e -> is_network e) /\
  (besu_getCommittee height n = (inl e, n') ->
   is_network e \/ (is_height height = false /\ n' = n /\ exists m, e = BlockchainError INVALID_PAYLOAD m)).
Proof.
  assert (Hask : forall method params (m m' : N) x, ask method params m = (inl x, m') -> is_network x).
  { intros method params m m' x. unfold ask, rescue. destruct (rpc_send method params m) as [[?|?] ?]; [|done]. intros [= <- _]. by eexists. }
  split.
  - intros Hf. destruct (besu_getValidators n) as [r n1] eqn:E. simpl in Hf. subst r. unfold besu_getValidators in E.
    apply bind_inl in E as [E|(v & n2 & _ & E)]; [by eapply Hask|].
    apply bind_inl in E as [E|(r & n3 & _ & E)]; [|done]. injection E as E _. by eapply parseValidators_fails.
  - unfold besu_getCommittee. intros [E|(b & n1 & Hq & E)]%bind_inl.
    + right. injection E as E <-. unfold quantity in E. apply bind_failed in E as [E|(u & _ & E)]; [|done].
      destruct (is_height height); [done|]. injection E as <-. eauto.
    + left. apply bind_inl in E as [E|(v & n2 & _ & E)]; [by eapply Hask|].
      apply bind_inl in E as [E|(r & n3 & _ & E)]; [injection E as E _; by eapply parseCommittee_fails|].
      apply bind_inl in E as [E|(u & n4 & _ & E)]; [|done]. unfold throw_if in E.
      destruct (negb _); [|done]. injection E as <- _. apply invalid_network.
Qed.
End Consensus.

(** ** Witnesses *)

Section Demo.
(** The test platform with dates that parse. *)
#[local] Instance dated : Platform := custom (fun _ => None) (fun _ => Some 0%Z) read_proof.
#[local] Existing Instance demo_node.
Definition demo_state : DemoNode.t := DemoNode.mk 0 [] true false.
Definition demo_validator : Validator.t := Validator.mk "0xv1" demo_key Validator_ACTIVE "2026-01-02T03:04:05.678Z".

Lemma validators_answer_exact_witness :
  exists response height, rpc_send "bel_getValidators" [VStr "latest"] demo_state = (inr response, demo_state) /\ answer_with "validators" describes response height [demo_validator].
Proof. apply (validators_answer_exact demo_state demo_state [demo_validator]). vm_compute. reflexivity. Defined.
Lemma committee_answer_exact_witness :
  to_hex 26 = "1a" /\ fst (besu_getCommittee 26 demo_state) = inr ["0xv1"] /\ besu_getCommittee (-1) demo_state = (inl (BlockchainError INVALID_PAYLOAD "Committee height must be a non-negative safe integer"), demo_state).
Proof.
  split; [vm_compute; reflexivity|]. split; [vm_compute; reflexivity|].
  exact (proj2 (committee_answer_exact (-1) demo_state demo_state []) eq_refl).
Defined.
Lemma consensus_failures_witness :
  exists e, fst (besu_getCommittee 27 demo_state) = inl e /\ is_network e.
Proof.
  destruct (besu_getCommittee 27 demo_state) as [[e|ids] n'] eqn:E; [|vm_compute in E; discriminate].
  exists e. split; [reflexivity|].
  destruct (proj2 (consensus_failures 27 demo_state n' e) E) as [Hn|(Hh & _)]; [exact Hn|].
  vm_compute in Hh. discriminate.
Defined.
End Demo.
