(* ===== verification/Config.v ===== *)
(** * Config: which chain the backend talks to, [backend/src/blockchain/config.ts] and [factory.ts]

    The environment and the deployment file decide between the mock chain and
    the EVM adapter, and give the adapter its addresses, timeouts and
    development keys.  Files and paths are those of the interface [Files]. *)
From S2P Require Import Prelude Effects JsString JsMap JsValue Shared Errors World MockChain Schemas Payloads Result Rpc Evm Consensus.
From Stdlib Require Import Ascii.
From stdpp Require Import pretty.
Local Open Scope string_scope.
Local Open Scope list_scope.

(** [node:fs] and [node:path], and the root of the checkout. *)
Class Files := {
  existsSync : string -> bool;
  (** [None] when it throws *)
  readFileSync : string -> option string;
  path_isAbsolute : string -> bool;
  path_resolve : list string -> string;
  REPO_ROOT : string;
}.

(** [DeploymentFile], the fields the backend reads. *)
Module DeploymentFile.
Record t := mk { network : string; chainId : Z; contracts : ContractName -> string }.
End DeploymentFile.

(** A loaded configuration: that of the adapter, the URL and the ABIs. *)
Module LoadedConfig.
Record t := mk { rpcUrl : string; abis : ContractName -> value; config : EvmChainConfig.t }.
End LoadedConfig.

Definition config_error (message : string) : exn := BlockchainError CONFIG message.

(** [typeof v === "object" && v !== null] *)
Definition is_object (v : value) : bool := match v with VObj _ | VArr _ => true | _ => false end.

(** A record with a value for each contract, in the order of [CONTRACT_NAMES]. *)
Definition per_contract {A} (f : ContractName -> Result A) : Result (jsmap A) :=
  map_results (fun _ name => a ← f name; mret (ContractName_string name, a)) 0 CONTRACT_NAMES.
Definition of_contract {A} (d : A) (m : jsmap A) (name : ContractName) : A := default d (get (ContractName_string name) m).

Section Config.
Context `{Platform} `{Files}.

Definition resolveRepoPath (p : string) : string := if path_isAbsolute p then p else path_resolve [REPO_ROOT; p].

Definition readJson (path what : string) : Result value :=
  ensure (existsSync path) (config_error (what +:+ " not found at " +:+ path));;
  from_some (text ← readFileSync path; JSON_parse text) (config_error (what +:+ " at " +:+ path +:+ " is not valid JSON")).

(** The address configured for a contract. *)
Definition contract_address (source : string) (contracts : value) (name : ContractName) : Result string :=
  addr ← from_some (match prop (ContractName_string name) contracts with
                    | VStr addr => if isAddress addr then Some addr else None
                    | _ => None
                    end)
           (config_error (source +:+ " is missing a valid address for " +:+ ContractName_string name));
  from_some (getAddress addr) (Error "invalid address").

Definition parseDeployment (d : value) (source : string) : Result DeploymentFile.t :=
  ensure (is_object d && is_object (prop "contracts" d)) (config_error (source +:+ " has no " +:+ quoted "contracts" +:+ " object"));;
  chainId ← from_some (match as_integer (Number_value (prop "chainId" d)) with
                       | Some n => if (0 <? n)%Z then Some n else None
                       | None => None
                       end)
              (config_error (source +:+ " has an invalid chainId"));
  contracts ← per_contract (contract_address source (prop "contracts" d));
  let network := match prop "network" d with VUndefined | VNull => "unknown" | VStr s => s | v => String_of v end in
  mret (DeploymentFile.mk network chainId (of_contract "" contracts)).

(** [s.endsWith(suffix)] *)
Definition endsWith (suffix s : string) : bool := String.eqb (slice_from (String.length s - String.length suffix) s) suffix.

Definition loadDeployment (networkOrPath : string) : Result DeploymentFile.t :=
  let path := if endsWith ".json" networkOrPath then resolveRepoPath networkOrPath
              else path_resolve [REPO_ROOT; "contracts/deployments"; networkOrPath +:+ ".json"] in
  raw ← readJson path "Deployment file";
  parseDeployment raw path.

Definition loadAbis (abiDir : string) : Result (ContractName -> value) :=
  let dir := resolveRepoPath abiDir in
  abis ← per_contract (fun name =>
           let what := "ABI for " +:+ ContractName_string name in
           abi ← readJson (path_resolve [dir; ContractName_string name +:+ ".json"]) what;
           ensure (bool_decide (is_Some (array_of abi))) (config_error (what +:+ " is not an array"));;
           mret abi);
  mret (of_contract VUndefined abis).

Definition positiveInt (v : option string) (fallback : Z) (name : string) (min : Z) : Result Z :=
  if negb (truthy_string v) then mret fallback
  else from_some (match as_integer (Number_of (default "" v)) with
                  | Some n => if (min <=? n)%Z then Some n else None
                  | None => None
                  end)
         (config_error (name +:+ " must be an integer >= " +:+ pretty min)).

(** [v?.trim() || fallback] *)
Definition trimmed (v : option string) (fallback : string) : string :=
  let t := trim (default "" v) in if String.eqb t "" then fallback else t.

(** ** [loadChainConfigFromEnv(env)] *)

Context (env : string -> option string).

Definition devSignerKeys : list string :=
  List.filter (fun k => negb (String.eqb k "")) (map trim (split_char ","%char (default "" (env "BEL_CHAIN_DEV_SIGNER_KEYS")))).
Definition production : bool := bool_decide (env "BEL_ENV" = Some "production").

Definition loadChainConfigFromEnv : Result LoadedConfig.t :=
  let rpcUrl := trim (default "" (env "BEL_CHAIN_RPC_URL")) in
  ensure (negb (String.eqb rpcUrl "")) (config_error "BEL_CHAIN_RPC_URL is required when BEL_BLOCKCHAIN=evm");;
  ensure (negb (bool_decide (0 < length devSignerKeys)%nat && production))
    (config_error "BEL_CHAIN_DEV_SIGNER_KEYS is forbidden in production: user transactions must be signed on the managed device (ADR-016)");;
  deployment ← loadDeployment (trimmed (env "BEL_CHAIN_DEPLOYMENT") "local");
  abis ← loadAbis (trimmed (env "BEL_CHAIN_ABI_DIR") "contracts/abis");
  confirmations ← positiveInt (env "BEL_CHAIN_CONFIRMATIONS") 1 "BEL_CHAIN_CONFIRMATIONS" 1;
  txTimeoutMs ← positiveInt (env "BEL_CHAIN_TX_TIMEOUT_MS") 30000 "BEL_CHAIN_TX_TIMEOUT_MS" 1;
  pollingIntervalMs ← positiveInt (env "BEL_CHAIN_POLL_INTERVAL_MS") 1000 "BEL_CHAIN_POLL_INTERVAL_MS" 10;
  mret (LoadedConfig.mk rpcUrl abis
    (EvmChainConfig.mk (DeploymentFile.network deployment) (DeploymentFile.chainId deployment) (DeploymentFile.contracts deployment)
       confirmations txTimeoutMs (Some pollingIntervalMs) devSignerKeys)).

(** ** [createBlockchainServiceFromEnv(env, options)] *)

(** The chain that was chosen. *)
Inductive Chain := Chain_mock | Chain_evm (loaded : LoadedConfig.t).

Definition createBlockchainServiceFromEnv : Result Chain :=
  let kind := toLowerCase (trim (default "mock" (env "BEL_BLOCKCHAIN"))) in
  if String.eqb kind "mock" || String.eqb kind "" then mret Chain_mock
  else if String.eqb kind "evm" then loaded ← loadChainConfigFromEnv; mret (Chain_evm loaded)
  else fail (config_error ("BEL_BLOCKCHAIN must be " +:+ quoted "mock" +:+ " or " +:+ quoted "evm" +:+ ", got " +:+ quoted kind)).

(** The service itself: the state it keeps and its operations.  The ABIs give
    the codec; the node is that of [rpcUrl] or an injected one, and the
    consensus source asks the same node. *)
Context {N : Type} `{Node N} (ethers : (ContractName -> value) -> EvmCodec) (metadata : OffChainMetadataProvider.t N)
  (injected : option (ConsensusInfoSource.t N)) (fuel : nat).
Definition chain_service (chain : Chain) : { C : Type & BlockchainService C } :=
  match chain with
  | Chain_mock => existT MockChain MockBlockchainAdapter
  | Chain_evm loaded =>
      existT (Evm N) (EvmBlockchainAdapter (H0 := ethers (LoadedConfig.abis loaded)) (LoadedConfig.config loaded) metadata
        (Some (default BesuConsensusSource injected)) fuel)
  end.
End Config.
