(* ===== verification/Container.v ===== *)
(** * Container: the wiring, [backend/src/container.ts]

    Which adapter each service gets, from the environment and from what the
    caller injects.  Injected adapters are only known by their presence (and,
    for the attestation adapter, by its class). *)
From S2P Require Import Prelude Effects JsString JsMap JsValue Shared Errors World MockChain Users Result Rpc Evm Config.
From Stdlib Require Import Ascii.
Local Open Scope string_scope.
Local Open Scope list_scope.

(** Where the records of a service live. *)
Inductive Store := Store_injected | Store_postgres | Store_memory.
#[export] Instance Store_eq_dec : EqDecision Store.
Proof. solve_decision. Defined.
(** An injected adapter, is it a [MockDeviceAttestationAdapter]; the mock with
    its devices; the adapter that refuses every device. *)
Inductive Attestation := Attestation_injected (is_mock : bool) | Attestation_mock (approvedDeviceIds : list string) | Attestation_not_configured.
Inductive Storage := Storage_injected | Storage_ipfs.

(** [ContainerOptions]: what is injected. *)
Module ContainerOptions.
Record t := mk {
  repositories : bool; integrity : bool; attestation : option bool; prisma : bool; assets : bool; jobs : bool;
  evidenceRepository : bool; evidenceStorage : bool }.
End ContainerOptions.

(** [Container], the adapters behind the services. *)
Module Container.
Record t := mk {
  chain : Chain; repositories : Store; integrity : Store; attestation : Attestation; prisma : bool;
  assetRepository : Store; jobRepository : Store; evidenceRepository : Store; evidenceStorage : Storage; checksIdentities : bool }.
End Container.

Section Container.
Context `{Platform} `{Files}.

Definition approvedDeviceIds : list string :=
  List.filter (fun id => negb (String.eqb id "")) (map trim (split_char ","%char (default "" (process_env "BEL_MOCK_APPROVED_DEVICE_IDS")))).

(** The guard of [createContainer]. *)
Definition production_refused (options : ContainerOptions.t) : bool :=
  is_production &&
  (negb (truthy_string (process_env "DATABASE_URL")) || negb (ContainerOptions.integrity options) ||
   negb (bool_decide (is_Some (ContainerOptions.attestation options))) || ContainerOptions.repositories options ||
   bool_decide (ContainerOptions.attestation options = Some true) ||
   negb (bool_decide (trim <$> process_env "BEL_DEVICE_ATTESTATION_PROVIDER" = Some "managed"))).

Definition store (injected database : bool) : Store :=
  if injected then Store_injected else if database then Store_postgres else Store_memory.

(** [createContainer(chain, options)]; without a chain it is chosen from the environment. *)
Definition createContainer (chain : option Chain) (options : ContainerOptions.t) : Result Container.t :=
  chain ← (match chain with Some chain => mret chain | None => createBlockchainServiceFromEnv process_env end);
  ensure (negb (production_refused options))
    (Error "Production requires DATABASE_URL and an explicit durable integrity adapter; it also requires BEL_DEVICE_ATTESTATION_PROVIDER=managed and an authoritative device-attestation adapter");;
  let integration := bool_decide (process_env "BEL_RUN_INTEGRATION" = Some "true") in
  let injected := ContainerOptions.repositories options in
  let useConfiguredPrisma := negb injected && (is_production || integration || ContainerOptions.integrity options) in
  let prisma := ContainerOptions.prisma options || (useConfiguredPrisma && truthy_string (process_env "DATABASE_URL")) in
  let useMockAttestation := negb is_production && bool_decide (process_env "BEL_DEVICE_ATTESTATION" = Some "mock") in
  let domainPrisma := ContainerOptions.prisma options || (negb injected && (integration || is_production) && prisma) in
  mret (Container.mk chain (store injected prisma) (if ContainerOptions.integrity options then Store_injected else Store_memory)
    (match ContainerOptions.attestation options with
     | Some is_mock => Attestation_injected is_mock
     | None => if useMockAttestation then Attestation_mock approvedDeviceIds else Attestation_not_configured
     end)
    prisma (store (ContainerOptions.assets options) domainPrisma) (store (ContainerOptions.jobs options) domainPrisma)
    (store (ContainerOptions.evidenceRepository options) domainPrisma)
    (if ContainerOptions.evidenceStorage options then Storage_injected else Storage_ipfs) domainPrisma).

(** What the services see of the wiring. *)
Definition wiring (c : Container.t) : Wiring := {| wired_assets := true; wired_identityExists := Container.checksIdentities c |}.
(** The attestation adapter, given an injected one. *)
Definition attestation_adapter (injected : DeviceAttestationAdapter) (c : Container.t) : DeviceAttestationAdapter :=
  match Container.attestation c with
  | Attestation_injected _ => injected
  | Attestation_mock ids => MockDeviceAttestationAdapter ids
  | Attestation_not_configured => RejectingDeviceAttestationAdapter
  end.
End Container.
