(* ===== verification/ConfigCorrect.v ===== *)
(** * ConfigCorrect: what a configuration that loads guarantees

    A loaded configuration satisfies what the theorems of the EVM adapter
    assume of it; in production nothing but device-signed transactions is
    ever published and no store is in memory, but the chain may be the mock. *)
From S2P Require Import Prelude Effects JsString JsMap JsValue Shared Errors World MockChain Schemas Payloads PayloadsCorrect Result.
From S2P Require Import Rpc Evm EvmCorrect Consensus Config Container Concrete.
From Stdlib Require Import Ascii.
Local Open Scope string_scope.
Local Open Scope list_scope.

(** ** One value per contract *)

Lemma ContractName_string_inj a b : ContractName_string a = ContractName_string b -> a = b.
Proof. by destruct a, b. Qed.
Lemma all_contracts name : name ∈ CONTRACT_NAMES.
Proof. unfold CONTRACT_NAMES. destruct name; rewrite !elem_of_cons; tauto. Qed.

Section PerContract.
Context {A : Type} (f : ContractName -> Result A).
Lemma per_contract_get i l m name :
  map_results (fun _ name => a ← f name; mret (ContractName_string name, a)) i l = inr m ->
  name ∈ l -> exists a, f name = inr a /\ get (ContractName_string name) m = Some a.
Proof.
  revert i m. induction l as [|n l IH]; intros i m; simpl; [by intros _ H%not_elem_of_nil|].
  intros (p & (a & Ha & <-%ret_ok)%bind_ok & (m' & Hm & <-%ret_ok)%bind_ok)%bind_ok Hin. simpl.
  destruct (String.eqb_spec (ContractName_string name) (ContractName_string n)) as [->%ContractName_string_inj|Hne]; [eauto|].
  apply elem_of_cons in Hin as [->|Hin]; [done|]. by eapply IH.
Qed.
Lemma per_contract_spec m name :
  per_contract f = inr m -> exists a, f name = inr a /\ get (ContractName_string name) m = Some a.
Proof. intros Hm. eapply per_contract_get; [exact Hm|apply all_contracts]. Qed.
Lemma per_contract_total (g : ContractName -> A) :
  (forall name, f name = inr (g name)) -> per_contract f = inr (map (fun name => (ContractName_string name, g name)) CONTRACT_NAMES).
Proof. intros Hf. unfold per_contract, CONTRACT_NAMES. simpl. by rewrite !Hf. Qed.
Lemma per_contract_fails P : (forall name, fails_with P (f name)) -> fails_with P (per_contract f).
Proof. intros Hf. unfold per_contract. failures. Qed.
End PerContract.

(** ** Loading *)

Section Loading.
Context `{PF : Platform} `{Files}.

(** What the adapter needs of its configuration. *)
Definition valid_config (c : EvmChainConfig.t) : Prop :=
  (0 < EvmChainConfig.chainId c)%Z /\ (1 <= EvmChainConfig.confirmations c)%Z /\ (1 <= EvmChainConfig.txTimeoutMs c)%Z /\
  (exists i, EvmChainConfig.pollingIntervalMs c = Some i /\ (10 <= i)%Z) /\
  (forall name, exists a, isAddress a = true /\ getAddress a = Some (EvmChainConfig.contracts c name)).

Lemma positiveInt_min v fallback name min n : (min <= fallback)%Z -> positiveInt v fallback name min = inr n -> (min <= n)%Z.
Proof.
  intros Hf. unfold positiveInt. destruct (negb (truthy_string v)); [by intros <-%ret_ok|].
  intros Hn%from_some_ok. destruct (as_integer _) as [z|]; [|done].
  destruct (Z.leb_spec min z); [|done]. by injection Hn as <-.
Qed.
Lemma contract_address_ok source v name a : contract_address source v name = inr a -> exists b, isAddress b = true /\ getAddress b = Some a.
Proof.
  unfold contract_address. intros (b & Hb%from_some_ok & Ha%from_some_ok)%bind_ok. exists b. split; [|exact Ha].
  destruct (prop _ v) as [| | | | |s| |]; try done. destruct (isAddress s) eqn:E; [|done]. by injection Hb as <-.
Qed.
Lemma parseDeployment_ok v source d :
  parseDeployment v source = inr d ->
  (0 < DeploymentFile.chainId d)%Z /\ forall name, exists a, isAddress a = true /\ getAddress a = Some (DeploymentFile.contracts d name).
Proof.
  unfold parseDeployment. intros (u & _ & (id & Hid%from_some_ok & (m & Hm & <-%ret_ok)%bind_ok)%bind_ok)%bind_ok. simpl. split.
  - destruct (as_integer _) as [z|]; [|done]. destruct (Z.ltb_spec 0 z); [|done]. by injection Hid as <-.
  - intros name. destruct (per_contract_spec _ _ name Hm) as (a & Ha%contract_address_ok & Hg). unfold of_contract. by rewrite Hg.
Qed.
Lemma loadAbis_ok dir abis : loadAbis dir = inr abis -> forall name, exists l, abis name = VArr l.
Proof.
  unfold loadAbis. intros (m & Hm & <-%ret_ok)%bind_ok name.
  destruct (per_contract_spec _ _ name Hm) as (a & (v & _ & (u & [l Hl]%ensure_ok%bool_decide_eq_true & <-%ret_ok)%bind_ok)%bind_ok & Hg).
  unfold of_contract. rewrite Hg. simpl. exists l. by destruct v; simpl in Hl; simplify_eq.
Qed.

(** A configuration that loads, and from which environment. *)
Lemma loaded env l :
  loadChainConfigFromEnv env = inr l ->
  valid_config (LoadedConfig.config l) /\ (forall name, exists abi, LoadedConfig.abis l name = VArr abi) /\
  LoadedConfig.rpcUrl l = trim (default "" (env "BEL_CHAIN_RPC_URL")) /\ LoadedConfig.rpcUrl l <> "" /\
  EvmChainConfig.devSignerKeys (LoadedConfig.config l) = devSignerKeys env /\
  (production env = true -> EvmChainConfig.devSignerKeys (LoadedConfig.config l) = []).
Proof.
  unfold loadChainConfigFromEnv. intros (u & Hu%ensure_ok & Hl)%bind_ok. apply bind_ok in Hl as (u' & Hk%ensure_ok & Hl).
  apply bind_ok in Hl as (d & (v & _ & Hd%parseDeployment_ok)%bind_ok & Hl). apply bind_ok in Hl as (abis & Ha & Hl).
  apply bind_ok in Hl as (c & Hc%positiveInt_min & Hl); [|lia]. apply bind_ok in Hl as (t & Ht%positiveInt_min & Hl); [|lia].
  apply bind_ok in Hl as (i & Hi%positiveInt_min & <-%ret_ok); [|lia]. destruct Hd as [Hid Had]. simpl.
  split; [|split; [by eapply loadAbis_ok|split; [done|split; [|split; [done|]]]]].
  - unfold valid_config. simpl. split; [done|]. split; [done|]. split; [done|]. split; [eauto|done].
  - intros E. by rewrite E in Hu.
  - intros Hp. rewrite Hp, andb_true_r in Hk. destruct (devSignerKeys env); [done|discriminate].
Qed.

(** A configuration that loads is valid: a positive chain id, at least one
    confirmation, a timeout of at least a millisecond and a polling interval
    of at least ten, every contract at a checksummed address with an ABI that
    is an array, a URL that is not blank, and in production no development
    key. *)
Theorem loaded_config_valid env l :
  loadChainConfigFromEnv env = inr l ->
  valid_config (LoadedConfig.config l) /\ (forall name, exists abi, LoadedConfig.abis l name = VArr abi) /\
  blank (LoadedConfig.rpcUrl l) = false /\
  (env "BEL_ENV" = Some "production" -> EvmChainConfig.devSignerKeys (LoadedConfig.config l) = []).
Proof.
  intros (Hv & Ha & Hu & Hne & _ & Hp)%loaded. split; [done|]. split; [done|]. split.
  - unfold blank. rewrite Hu, trim_idem, <- Hu. by apply bool_decide_eq_false.
  - intros He. apply Hp. unfold production. by apply bool_decide_eq_true.
Qed.

(** ** Failures *)

Definition is_config_error (e : exn) : Prop := exists m, e = BlockchainError CONFIG m.
Lemma config_error_is m : is_config_error (config_error m).
Proof. by eexists. Qed.
#[local] Hint Resolve config_error_is : bel.
Lemma readJson_fails path what : fails_with is_config_error (readJson path what).
Proof. unfold readJson. failures. Qed.
Lemma positiveInt_fails v fallback name min : fails_with is_config_error (positiveInt v fallback name min).
Proof. unfold positiveInt. failures. Qed.
#[local] Hint Resolve readJson_fails positiveInt_fails : bel.
Lemma contract_address_fails source v name : addresses_normalise -> fails_with is_config_error (contract_address source v name).
Proof.
  intros Hn e. unfold contract_address. intros [E|(a & Ha%from_some_ok & E)]%bind_failed.
  - revert E. apply fails_with_from_some, config_error_is.
  - destruct (prop _ v); try done. destruct (isAddress s) eqn:Es; [|done]. injection Ha as <-.
    destruct (Hn s Es) as [b Hb]. by rewrite Hb in E.
Qed.

(** When the chain cannot be chosen, from whatever environment and files,
    the failure is a configuration error of the blockchain service. *)
Theorem config_failures env e : addresses_normalise -> createBlockchainServiceFromEnv env = inl e -> is_config_error e.
Proof.
  intros Hn. revert e. change (fails_with is_config_error (createBlockchainServiceFromEnv env)).
  assert (Ha := fun source v name => contract_address_fails source v name Hn).
  unfold createBlockchainServiceFromEnv, loadChainConfigFromEnv, loadDeployment, parseDeployment, loadAbis, fail. failures.
  - by apply per_contract_fails.
  - apply per_contract_fails. failures.
Qed.

(** ** The deployment file *)

Definition render (d : DeploymentFile.t) : value :=
  VObj [("network", VStr (DeploymentFile.network d)); ("chainId", VNum (num_of_Z (DeploymentFile.chainId d)));
        ("contracts", VObj (map (fun name => (ContractName_string name, VStr (DeploymentFile.contracts d name))) CONTRACT_NAMES))].

Lemma get_per_contract {A} (g : ContractName -> A) name :
  get (ContractName_string name) (map (fun name => (ContractName_string name, g name)) CONTRACT_NAMES) = Some (g name).
Proof. by destruct name. Qed.

(** A deployment file that spells out a deployment is read back as that
    deployment: the name of the network, a positive chain id and the
    checksummed address of every contract. *)
Theorem deployment_roundtrip d source :
  (0 < DeploymentFile.chainId d)%Z ->
  (forall name, isAddress (DeploymentFile.contracts d name) = true /\
     getAddress (DeploymentFile.contracts d name) = Some (DeploymentFile.contracts d name)) ->
  exists d', parseDeployment (render d) source = inr d' /\ DeploymentFile.network d' = DeploymentFile.network d /\
    DeploymentFile.chainId d' = DeploymentFile.chainId d /\
    forall name, DeploymentFile.contracts d' name = DeploymentFile.contracts d name.
Proof.
  intros Hid Hc. unfold parseDeployment. cbn [render prop field].
  assert (Hper : per_contract (contract_address source (prop "contracts" (render d))) =
    inr (map (fun name => (ContractName_string name, DeploymentFile.contracts d name)) CONTRACT_NAMES)).
  { apply per_contract_total. intros name. destruct (Hc name) as [Hi Hg]. unfold contract_address. simpl prop.
    unfold prop, field. rewrite (get_per_contract (fun name => VStr (DeploymentFile.contracts d name))). simpl. rewrite Hi. simpl.
    by rewrite Hg. }
  eexists. split.
  - apply bind_ok. exists tt. split; [done|]. apply bind_ok. exists (DeploymentFile.chainId d). split.
    { apply from_some_ok. assert (Hn : as_integer (Number_value (prop "chainId" (render d))) = Some (DeploymentFile.chainId d))
        by apply as_integer_num_of_Z.
      cbn [render prop field] in Hn. rewrite Hn. by destruct (Z.ltb_spec 0 (DeploymentFile.chainId d)); [|lia]. }
    apply bind_ok. eexists. split; [exact Hper|]. reflexivity.
  - simpl. split; [done|]. split; [done|]. intros name. unfold of_contract. by rewrite (get_per_contract (DeploymentFile.contracts d)).
Qed.

(** ** Production *)

(** C9: In production the backend never signs: with the chain it chose from
    the environment, a submission publishes nothing, or exactly the bytes that
    the device of the actor signed, which are the call of the envelope. *)
Theorem production_device_signed `{EvmCodec} {N T} `{Node N} (p : N -> T) `{!Silent p} env l fuel tx (w w' : Evm N) r :
  createBlockchainServiceFromEnv env = inr (Chain_evm l) -> env "BEL_ENV" = Some "production" ->
  evm_submitDetailed (LoadedConfig.config l) fuel tx w = (r, w') ->
  p (node w') = p (node w) \/
  exists prepared raw n1 answer n2, stands_for (LoadedConfig.config l) tx prepared /\
    EvmTransaction_from (trim (Transaction.signature tx)) = Some raw /\ exactly raw prepared /\
    rpc_broadcastTransaction (trim (Transaction.signature tx)) n1 = (answer, n2) /\ p n1 = p (node w) /\ p (node w') = p n2.
Proof.
  intros Hl He Hrun. unfold createBlockchainServiceFromEnv in Hl. destruct (_ || _); [done|]. destruct (String.eqb _ _); [|done].
  apply bind_ok in Hl as (l' & Hload & [= ->]%ret_ok). apply loaded in Hload as (_ & _ & _ & _ & _ & Hk).
  specialize (Hk ltac:(by apply bool_decide_eq_true)).
  destruct (submit_publishes (LoadedConfig.config l) fuel p tx w w' r Hrun) as [?|(prepared & n1 & a & n2 & Hst & Hs & K1 & K2)]; [by left|].
  right. destruct Hs as [(raw & _ & Hf & Hex & Hb)|(_ & key & nonce & gas & Hin & _)].
  - by exists prepared, raw, n1, a, n2.
  - rewrite Hk in Hin. by apply not_elem_of_nil in Hin.
Qed.

(** What production demands of the environment and of the caller. *)
Definition production_ready (options : ContainerOptions.t) : Prop :=
  truthy_string (process_env "DATABASE_URL") = true /\ ContainerOptions.integrity options = true /\
  ContainerOptions.attestation options = Some false /\ ContainerOptions.repositories options = false /\
  trim <$> process_env "BEL_DEVICE_ATTESTATION_PROVIDER" = Some "managed".
Lemma production_accepted options : is_production = true -> production_refused options = false <-> production_ready options.
Proof.
  intros Hp. unfold production_refused, production_ready. rewrite Hp. simpl. rewrite !orb_false_iff, !negb_false_iff, !bool_decide_eq_true, bool_decide_eq_false.
  split; [|intros (-> & -> & -> & -> & ->); naive_solver].
  intros (((((Hd & Hi) & Ha) & Hr) & Hm) & Hv). repeat (split; [done|]).
  destruct (ContainerOptions.attestation options) as [[]|]; [done|done|by destruct Ha].
Qed.

(** In production a container is built exactly when a database is
    configured, a durable integrity adapter and a device-attestation adapter
    that is not the mock are injected, the provider is the managed one and no
    repositories are injected; then every store is the database or was
    injected, never memory, and owners and technicians are checked to exist. *)
Theorem production_container chain options :
  is_production = true ->
  ((exists c, createContainer (Some chain) options = inr c) <-> production_ready options) /\
  forall c, createContainer (Some chain) options = inr c ->
    Container.repositories c = Store_postgres /\ Container.integrity c = Store_injected /\
    Container.attestation c = Attestation_injected false /\ Container.assetRepository c <> Store_memory /\
    Container.jobRepository c <> Store_memory /\ Container.evidenceRepository c <> Store_memory /\
    wired_identityExists (Wiring := wiring c) = true /\ Container.chain c = chain.
Proof.
  intros Hp. unfold createContainer. split.
  - rewrite <- production_accepted by done. split.
    + intros (c & (ch & _ & (u & Hu%ensure_ok%negb_true_iff & _)%bind_ok)%bind_ok). done.
    + intros Hr. rewrite Hr. eexists. reflexivity.
  - intros c (ch & <-%ret_ok & (u & Hu%ensure_ok%negb_true_iff & <-%ret_ok)%bind_ok)%bind_ok. simpl.
    apply production_accepted in Hu as (Hd & Hi & Ha & Hr & _); [|done]. rewrite Hp, Hd, Hi, Ha, Hr. simpl.
    rewrite !orb_true_r. unfold store. simpl.
    by destruct (ContainerOptions.assets options), (ContainerOptions.jobs options), (ContainerOptions.evidenceRepository options).
Qed.

(** Production does not ask for a chain: without [BEL_BLOCKCHAIN] a ready
    production process runs on the mock chain, in the memory of the process. *)
Theorem production_on_mock options :
  is_production = true -> production_ready options -> process_env "BEL_BLOCKCHAIN" = None ->
  exists c, createContainer None options = inr c /\ Container.chain c = Chain_mock.
Proof.
  intros Hp Hr%production_accepted Hb; [|done]. unfold createContainer, createBlockchainServiceFromEnv. rewrite Hb. simpl. rewrite Hr. simpl. eauto.
Qed.
End Loading.

(** ** Witnesses *)

(** A checkout whose files are all there: the text of a file is its path. *)
Section Demo.
#[local] Instance demo_files : Files := {|
  existsSync _ := true; readFileSync path := Some path; path_isAbsolute path := startsWith "/" path;
  path_resolve := join_strings "/"; REPO_ROOT := "/bel" |}.
Definition demo_deployment : DeploymentFile.t := DeploymentFile.mk "local" 1337 (fun name => "0x" +:+ ContractName_string name).
Definition demo_json (text : string) : option value :=
  if String.eqb text "/bel/contracts/deployments/local.json" then Some (render demo_deployment)
  else if endsWith ".json" text then Some (VArr []) else None.
Definition demo_env (name : string) : option string :=
  if String.eqb name "BEL_BLOCKCHAIN" then Some " EVM "
  else if String.eqb name "BEL_CHAIN_RPC_URL" then Some "http://node"
  else if String.eqb name "BEL_ENV" then Some "production"
  else if String.eqb name "DATABASE_URL" then Some "postgres"
  else if String.eqb name "BEL_DEVICE_ATTESTATION_PROVIDER" then Some "managed"
  else None.
#[local] Instance demo_platform : Platform := custom demo_env read_Z demo_json.

Definition demo_loaded : LoadedConfig.t :=
  match loadChainConfigFromEnv demo_env with
  | inr l => l
  | inl _ => LoadedConfig.mk "" (fun _ => VUndefined) demo_config
  end.
Lemma loaded_config_valid_witness :
  loadChainConfigFromEnv demo_env = inr demo_loaded /\ EvmChainConfig.txTimeoutMs (LoadedConfig.config demo_loaded) = 30000%Z /\
  valid_config (LoadedConfig.config demo_loaded) /\ EvmChainConfig.devSignerKeys (LoadedConfig.config demo_loaded) = [].
Proof.
  assert (E : loadChainConfigFromEnv demo_env = inr demo_loaded) by (vm_compute; reflexivity).
  split; [exact E|]. split; [vm_compute; reflexivity|].
  destruct (loaded_config_valid demo_env demo_loaded E) as (Hv & _ & _ & Hk). split; [exact Hv|apply Hk; reflexivity].
Defined.
Lemma config_failures_witness :
  exists e, createBlockchainServiceFromEnv (fun _ => Some "besu") = inl e /\ is_config_error e.
Proof.
  destruct (createBlockchainServiceFromEnv (fun _ => Some "besu")) as [e|c] eqn:E; [|vm_compute in E; discriminate].
  exists e. split; [reflexivity|]. apply (config_failures (fun _ => Some "besu") e); [|exact E].
  intros s. simpl. destruct (startsWith "0x" s); [by eexists|discriminate].
Defined.
Lemma deployment_roundtrip_witness :
  exists d, parseDeployment (render demo_deployment) "file" = inr d /\ DeploymentFile.contracts d JobManager = "0xJobManager".
Proof.
  destruct (deployment_roundtrip demo_deployment "file") as (d & Hd & _ & _ & Hc); [reflexivity|by intros []|].
  exists d. split; [exact Hd|]. rewrite (Hc JobManager). reflexivity.
Defined.
#[local] Existing Instance demo_node.
#[local] Existing Instance demo_silent.
#[local] Existing Instance demo_codec.
(** A submission relays the bytes that were signed for the deployment. *)
Definition demo_submission := evm_submitDetailed (LoadedConfig.config demo_loaded) 2 demo_tx (demo_evm true false).
Lemma production_device_signed_witness :
  DemoNode.pool (node (snd demo_submission)) = ["0xaa"] /\
  exists raw, EvmTransaction_from (trim (Transaction.signature demo_tx)) = Some raw /\ EvmTransaction.data raw = "0xstartjob".
Proof.
  assert (Hpool : DemoNode.pool (node (snd demo_submission)) = ["0xaa"]) by (vm_compute; reflexivity).
  split; [exact Hpool|].
  destruct (production_device_signed DemoNode.pool demo_env demo_loaded 2 demo_tx (demo_evm true false) (snd demo_submission) (fst demo_submission))
    as [H|(prepared & raw & n1 & a & n2 & _ & Hf & _)];
    [vm_compute; reflexivity|reflexivity|unfold demo_submission; by destruct (evm_submitDetailed _ _ _ _)|rewrite Hpool in H; discriminate|].
  exists raw. split; [exact Hf|]. vm_compute in Hf. injection Hf as <-. reflexivity.
Defined.
Definition ready_options : ContainerOptions.t := ContainerOptions.mk false true (Some false) false false false false false.
Lemma production_container_witness :
  exists c, createContainer (Some Chain_mock) ready_options = inr c /\ Container.jobRepository c = Store_postgres /\
    Container.repositories c = Store_postgres.
Proof.
  destruct (production_container Chain_mock ready_options) as [Hiff Hall]; [reflexivity|].
  destruct (proj2 Hiff) as [c Hc]; [by repeat split|]. exists c. split; [exact Hc|].
  destruct (Hall c Hc) as (Hr & _). split; [|exact Hr]. vm_compute in Hc. injection Hc as <-. reflexivity.
Defined.
End Demo.
Section NoChain.
#[local] Existing Instance demo_files.
#[local] Instance no_chain : Platform :=
  custom (fun name => if String.eqb name "BEL_BLOCKCHAIN" then None else demo_env name) read_Z demo_json.
Lemma production_on_mock_witness :
  exists c, createContainer None ready_options = inr c /\ Container.chain c = Chain_mock.
Proof. apply (production_on_mock ready_options); [reflexivity|by repeat split|reflexivity]. Defined.
End NoChain.
