(* ===== verification/Evidence.v ===== *)
(** * Evidence: the evidence service,
    [backend/src/evidence/evidence.service.ts], with the storage port and the
    in-memory storage of [evidence.storage.ts]

    A [Buffer] is a [string] of bytes. *)
From S2P Require Import Prelude Effects JsString JsMap JsValue Shared Rbac Errors World Repositories.
From Stdlib Require Import Ascii.
Local Open Scope string_scope.
Local Open Scope list_scope.

Module StoredEvidence.
Record t := mk { cid : string; sizeBytes : Z }.
End StoredEvidence.
Module EvidenceActor.
Record t := mk { identityId : string; walletAddress : string; role : Role }.
End EvidenceActor.
Module EvidenceUpload.
Record t := mk { bytes : string; filename : string; contentType : string }.
End EvidenceUpload.
Module EvidenceServiceOptions.
Record t := mk { maxFileSizeBytes : option Z; allowedMimeTypes : option (list string) }.
End EvidenceServiceOptions.

(** [bytes.length] *)
Definition byte_length (b : string) : Z := Z.of_nat (String.length b).

(** ** Storage *)

(** [EvidenceStorage]: the port, over the state of the process. *)
Class EvidenceStorage (C : Type) := {
  storage_upload : string -> string -> M exn (World C) StoredEvidence.t;
  storage_download : string -> M exn (World C) string;
  storage_exists : string -> M exn (World C) bool;
}.

(** [MemoryEvidenceStorage] with its default prefix *)
Section MemoryStorage.
Context {C : Type}.
Definition memory_cid (n : nat) : string := "bafy-memory-" +:+ pretty n.
Definition memory_upload (bytes contentType : string) : M exn (World C) StoredEvidence.t :=
  objects ← gets w_evidenceObjects;
  let cid := memory_cid (JsMap.size objects + 1) in
  modify (upd_evidenceObjects (put cid bytes));;
  mret (StoredEvidence.mk cid (byte_length bytes)).
Definition memory_download (cid : string) : M exn (World C) string :=
  bytes ← gets (fun w => get cid (w_evidenceObjects w));
  require bytes (EvidenceStorageError "IPFS object was not found").
Definition memory_exists (cid : string) : M exn (World C) bool :=
  gets (fun w => bool_decide (is_Some (get cid (w_evidenceObjects w)))).
End MemoryStorage.
Definition MemoryEvidenceStorage {C} : EvidenceStorage C := {|
  storage_upload := memory_upload; storage_download := memory_download; storage_exists := memory_exists |}.

(** ** Options *)

Definition DEFAULT_MAX_FILE_SIZE_MB : Z := 25.
Definition DEFAULT_ALLOWED_MIME_TYPES : list string := ["application/pdf"; "image/jpeg"; "image/png"; "text/plain"].

Section Options.
Context `{Platform}.
Definition parseMaxFileSize (value : option string) : Z :=
  let mb := match value with None => num_of_Z DEFAULT_MAX_FILE_SIZE_MB | Some v => Number_of v end in
  match mb with
  | Num q => if Qle_bool q 0 then (DEFAULT_MAX_FILE_SIZE_MB * 1024 * 1024)%Z else floor_Z (q * inject_Z (1024 * 1024))
  | _ => (DEFAULT_MAX_FILE_SIZE_MB * 1024 * 1024)%Z
  end.
Definition parseAllowedMimeTypes (value : option string) : list string :=
  match value with
  | None => DEFAULT_ALLOWED_MIME_TYPES
  | Some v => List.filter (fun s => negb (bool_decide (s = ""))) (map trim (split_char ","%char v))
  end.
End Options.

(** ** File names *)

(** [[\w.() -]] *)
Definition filename_char (a : ascii) : bool :=
  let n := nat_of_ascii a in
  is_digit a || bool_decide (65 <= n <= 90)%nat || bool_decide (97 <= n <= 122)%nat || Ascii.eqb a "_"%char ||
  Ascii.eqb a "."%char || Ascii.eqb a "("%char || Ascii.eqb a ")"%char || Ascii.eqb a " "%char || Ascii.eqb a "-"%char.
(** [[\\/\0\r\n]] *)
Definition path_char (a : ascii) : bool :=
  Ascii.eqb a "\"%char || Ascii.eqb a "/"%char || Ascii.eqb a "000"%char || Ascii.eqb a "013"%char || Ascii.eqb a "010"%char.
Definition underscore_if (p : ascii -> bool) (a : ascii) : ascii := if p a then "_"%char else a.

Definition sanitizeFilename (filename : string) : string :=
  let normalized := trim (map_chars (underscore_if (fun a => negb (filename_char a))) (map_chars (underscore_if path_char) filename)) in
  let cut := slice_to 180 normalized in
  if bool_decide (cut = "") then "evidence" else cut.

(** ** The service *)

Definition byte_at (n : nat) (b : string) : option nat := nat_of_ascii <$> String.get n b.
(** [bytes.at(-k)] *)
Definition byte_from_end (k : nat) (b : string) : option nat :=
  if (k <=? String.length b)%nat then byte_at (String.length b - k) b else None.
Definition PNG_SIGNATURE : string :=
  fold_right (fun n s => String (ascii_of_nat n) s) "" [137; 80; 78; 71; 13; 10; 26; 10]%nat.

Section EvidenceService.
Context `{Platform} {C : Type} `{EvidenceStorage C} (options : EvidenceServiceOptions.t).
Abbreviation MW := (M exn (World C)).

Definition maxFileSizeBytes : Z :=
  default (parseMaxFileSize (process_env "EVIDENCE_MAX_FILE_SIZE_MB")) (EvidenceServiceOptions.maxFileSizeBytes options).
Definition allowedMimeTypes : list string :=
  map toLowerCase (default (parseAllowedMimeTypes (process_env "EVIDENCE_ALLOWED_MIME_TYPES")) (EvidenceServiceOptions.allowedMimeTypes options)).

Definition requireJob (jobId : string) : MW Job.t :=
  job ← jobs_findById jobId;
  require job (NotFoundError ("No job " +:+ jobId)).

Definition assertCanUpload (job : Job.t) (actor : EvidenceActor.t) : MW unit :=
  throw_if (negb (can (EvidenceActor.role actor) PERFORM_MAINTENANCE PermissionContext.empty)) default_forbidden;;
  throw_if (negb (String.eqb (Job.assignedTo job) (EvidenceActor.identityId actor)))
    (ForbiddenError "Only the assigned technician may upload evidence");;
  throw_if (negb (bool_decide (Job.status job = IN_PROGRESS)))
    (ValidationError ["Evidence may only be uploaded while the job is IN_PROGRESS"]).

Definition view_context (job : Job.t) (actor : EvidenceActor.t) : PermissionContext.t :=
  PermissionContext.mk (Some (EvidenceActor.identityId actor)) (Some (Job.assignedTo job)) None None.
Definition assertCanView (job : Job.t) (actor : EvidenceActor.t) : MW unit :=
  throw_if (negb (can (EvidenceActor.role actor) VIEW_AUDIT_HISTORY (view_context job actor)))
    (ForbiddenError "You may not view evidence for this job").

Definition is_jpeg (b : string) : bool :=
  bool_decide (byte_at 0 b = Some 255%nat) && bool_decide (byte_at 1 b = Some 216%nat) &&
  bool_decide (byte_from_end 2 b = Some 255%nat) && bool_decide (byte_from_end 1 b = Some 217%nat).

Definition validateUpload (input : EvidenceUpload.t) : MW unit :=
  let bytes := EvidenceUpload.bytes input in
  throw_if (bool_decide (bytes = "")) (ValidationError ["Evidence file must not be empty"]);;
  throw_if (maxFileSizeBytes <? byte_length bytes)%Z default_too_large;;
  let contentType := toLowerCase (EvidenceUpload.contentType input) in
  throw_if (negb (bool_decide (contentType ∈ allowedMimeTypes))) default_media_type;;
  throw_if (String.eqb contentType "application/pdf" && negb (String.eqb (slice_to 5 bytes) "%PDF-"))
    (ValidationError ["PDF evidence has an invalid file signature"]);;
  throw_if (String.eqb contentType "image/png" && negb (String.eqb (slice_to 8 bytes) PNG_SIGNATURE))
    (ValidationError ["PNG evidence has an invalid file signature"]);;
  throw_if (String.eqb contentType "image/jpeg" && negb (is_jpeg bytes))
    (ValidationError ["JPEG evidence has an invalid file signature"]).

(** [catch (error)] around a storage call *)
Definition hide_storage_error {A} (error : exn) : MW A :=
  match error with EvidenceStorageError _ => throw default_unavailable | e => throw e end.

Definition upload (jobId : string) (actor : EvidenceActor.t) (input : EvidenceUpload.t) : MW Evidence.t :=
  job ← requireJob jobId;
  assertCanUpload job actor;;
  validateUpload input;;
  let bytes := EvidenceUpload.bytes input in
  stored ← try_catch (storage_upload bytes (EvidenceUpload.contentType input)) hide_storage_error;
  throw_if (negb (StoredEvidence.sizeBytes stored =? byte_length bytes)%Z)
    (ServiceUnavailableError "Evidence storage rejected the uploaded object");;
  now ← nowISO;
  evidenceId ← randomUUID;
  let evidence := Evidence.mk evidenceId jobId (StoredEvidence.cid stored) (sha256_hex bytes)
    (sanitizeFilename (EvidenceUpload.filename input)) (toLowerCase (EvidenceUpload.contentType input))
    (byte_length bytes) (EvidenceActor.identityId actor) now now in
  evidence_save evidence;;
  mret evidence.

Definition list_evidence (jobId : string) (actor : EvidenceActor.t) : MW (list Evidence.t) :=
  job ← requireJob jobId;
  assertCanView job actor;;
  evidence_listByJob jobId.

(** The record of [jobId] with that id. *)
Definition find_evidence (jobId evidenceId : string) : MW Evidence.t :=
  found ← evidence_findById evidenceId;
  evidence ← require found (NotFoundError ("No evidence " +:+ evidenceId));
  throw_if (negb (String.eqb (Evidence.jobId evidence) jobId)) (NotFoundError ("No evidence " +:+ evidenceId));;
  mret evidence.

Definition getHash (jobId evidenceId : string) (actor : EvidenceActor.t) : MW string :=
  job ← requireJob jobId;
  assertCanView job actor;;
  evidence ← find_evidence jobId evidenceId;
  mret (Evidence.sha256 evidence).

Definition download (jobId evidenceId : string) (actor : EvidenceActor.t) : MW (Evidence.t * string) :=
  job ← requireJob jobId;
  assertCanView job actor;;
  evidence ← find_evidence jobId evidenceId;
  bytes ← try_catch (storage_download (Evidence.cid evidence)) hide_storage_error;
  throw_if (negb (String.eqb (sha256_hex bytes) (Evidence.sha256 evidence)) || negb (byte_length bytes =? Evidence.sizeBytes evidence)%Z)
    default_integrity;;
  mret (evidence, bytes).
End EvidenceService.
