(* ===== verification/EvidenceCorrect.v ===== *)
(** * EvidenceCorrect: what the evidence service guarantees *)
From S2P Require Import Prelude Effects JsString JsMap JsValue Shared Rbac Errors World Repositories MockChain Concrete Evidence.
From stdpp Require Import relations.
From Stdlib Require Import Ascii.
Local Open Scope string_scope.
Local Open Scope list_scope.

(** ** File names *)

Lemma all_chars_trimStart p s : all_chars p s = true -> all_chars p (trimStart s) = true.
Proof. induction s as [|a s IH]; simpl; [done|]. intros [Ha Hs]%andb_true_iff. destruct (is_space a); [auto|]. simpl. by rewrite Ha. Qed.
Lemma all_chars_trimEnd p s : all_chars p s = true -> all_chars p (trimEnd s) = true.
Proof.
  induction s as [|a s IH]; simpl; [done|]. intros [Ha Hs]%andb_true_iff. specialize (IH Hs).
  destruct (trimEnd s); simpl in *; [destruct (is_space a); simpl; by rewrite ?Ha|by rewrite Ha].
Qed.
Lemma all_chars_slice_to p n s : all_chars p s = true -> all_chars p (slice_to n s) = true.
Proof. revert s. induction n as [|n IH]; intros [|a s]; simpl; try done. intros [-> Hs]%andb_true_iff. by apply IH. Qed.
Lemma length_slice_to n s : (String.length (slice_to n s) <= n)%nat.
Proof. revert s. induction n as [|n IH]; intros [|a s]; simpl; try lia. specialize (IH s). lia. Qed.
Lemma all_chars_any s : all_chars (fun _ => true) s = true.
Proof. induction s; simpl; auto. Qed.

(** A stored file name is harmless: one to 180 characters, each a word
    character, dot, parenthesis, space or hyphen, so no path separator,
    control character or quote survives. *)
Theorem sanitized_filename_safe f :
  all_chars filename_char (sanitizeFilename f) = true /\ (1 <= String.length (sanitizeFilename f) <= 180)%nat.
Proof.
  unfold sanitizeFilename. case_bool_decide as Hc; [split; [reflexivity|simpl; lia]|].
  split.
  - apply all_chars_slice_to, all_chars_trimEnd, all_chars_trimStart.
    eapply (all_chars_map _ (fun _ => true)); [|apply all_chars_any]. intros a _. unfold underscore_if.
    destruct (filename_char a) eqn:Ea; simpl; [done|reflexivity].
  - split; [|apply length_slice_to]. destruct (slice_to 180 _); [done|simpl; lia].
Qed.

Section Any.
Context `{PF : Platform} {C : Type} `{EvidenceStorage C} (options : EvidenceServiceOptions.t).
Abbreviation W := (World C).

Lemma requireJob_inr id (w w' : W) j : requireJob id w = (inr j, w') -> w' = w /\ get id (w_jobs w) = Some j.
Proof. unfold requireJob. intros Hrun. by rinv. Qed.
Lemma find_evidence_inr jobId id (w w' : W) e :
  find_evidence jobId id w = (inr e, w') -> w' = w /\ get id (w_evidenceRecords w) = Some e /\ Evidence.jobId e = jobId.
Proof. unfold find_evidence. intros Hrun. rinv. bool_to_prop. repeat split; try done. by apply String.eqb_eq. Qed.

(** A download is verified against the record, whatever the storage
    does: the bytes handed out hash to the recorded digest and have the
    recorded size, the record belongs to the job in the request, and the
    caller may view that job's history. *)
Theorem download_verified jobId id actor (w w' : W) e bytes :
  download jobId id actor w = (inr (e, bytes), w') ->
  get id (w_evidenceRecords w) = Some e /\ Evidence.jobId e = jobId /\
  sha256_hex bytes = Evidence.sha256 e /\ byte_length bytes = Evidence.sizeBytes e /\
  exists job, get jobId (w_jobs w) = Some job /\ can (EvidenceActor.role actor) VIEW_AUDIT_HISTORY (view_context job actor) = true.
Proof.
  unfold download. intros Hrun. apply bind_inr in Hrun as (job & w1 & (-> & Hj)%requireJob_inr & Hrun).
  apply bind_inr in Hrun as (u & w1 & [Hv <-]%throw_if_inr & Hrun).
  apply bind_inr in Hrun as (ev & w1 & (-> & Hr & Hid)%find_evidence_inr & Hrun).
  apply bind_inr in Hrun as (b & w1 & _ & Hrun). apply bind_inr in Hrun as (u1 & w2 & [Hok <-]%throw_if_inr & [[= -> ->] _]%mret_inr).
  apply orb_false_iff in Hok as [Hh%negb_false_iff Hs%negb_false_iff]. bool_to_prop.
  apply String.eqb_eq in Hh. apply Z.eqb_eq in Hs. repeat split; try done. eauto.
Qed.

(** Tampering is reported as such: when the storage answers with bytes
    whose digest or size is not the recorded one, a permitted download fails
    with the integrity error and nothing else. *)
Theorem tampering_detected jobId id actor (w w1 : W) job e bytes :
  get jobId (w_jobs w) = Some job -> can (EvidenceActor.role actor) VIEW_AUDIT_HISTORY (view_context job actor) = true ->
  get id (w_evidenceRecords w) = Some e -> Evidence.jobId e = jobId ->
  storage_download (Evidence.cid e) w = (inr bytes, w1) ->
  sha256_hex bytes <> Evidence.sha256 e \/ byte_length bytes <> Evidence.sizeBytes e ->
  download jobId id actor w = (inl default_integrity, w1).
Proof.
  intros Hj Hv He Hid Hd Hbad. unfold download, requireJob, jobs_findById, assertCanView, find_evidence, evidence_findById.
  unfold mbind, M_bind, gets, try_catch. rewrite Hj. simpl. rewrite Hv. simpl. rewrite He. simpl. rewrite Hid, String.eqb_refl. simpl.
  rewrite Hd. destruct Hbad as [Hb%String.eqb_neq|Hb%Z.eqb_neq]; rewrite Hb; simpl; [done|by rewrite orb_true_r].
Qed.

Definition may_upload (actor : EvidenceActor.t) (job : Job.t) : Prop :=
  RBAC_MATRIX PERFORM_MAINTENANCE (EvidenceActor.role actor) = ALLOW /\
  Job.assignedTo job = EvidenceActor.identityId actor /\ Job.status job = IN_PROGRESS.

Lemma assertCanUpload_run job actor (w : W) :
  (may_upload actor job /\ assertCanUpload job actor w = (inr tt, w)) \/
  (~ may_upload actor job /\ exists e, assertCanUpload job actor w = (inl e, w)).
Proof.
  unfold assertCanUpload, may_upload.
  assert (Hc : can (EvidenceActor.role actor) PERFORM_MAINTENANCE PermissionContext.empty = true <-> RBAC_MATRIX PERFORM_MAINTENANCE (EvidenceActor.role actor) = ALLOW).
  { unfold can, permissionFor. by destruct (EvidenceActor.role actor). }
  destruct (can _ _ _) eqn:Ec; cbn [negb].
  2: { right. split; [|eauto]. intros (Ha & _). apply Hc in Ha. done. }
  rewrite guard_pass. destruct (String.eqb_spec (Job.assignedTo job) (EvidenceActor.identityId actor)) as [He|He]; cbn [negb].
  2: { right. rewrite guard_fail. split; [|eauto]. by intros (_ & ? & _). }
  rewrite guard_pass. case_bool_decide as Hs; cbn [negb]; [left|right; split; [|by eexists]; by intros (_ & _ & ?)].
  split; [|done]. split; [by apply Hc|done].
Qed.

(** Only the assigned technician uploads, with a role that performs
    maintenance and while the job is in progress: in every other case the
    upload is refused before the storage is asked and nothing changes. *)
Theorem upload_guarded jobId actor input (w : W) :
  ~ (exists job, get jobId (w_jobs w) = Some job /\ may_upload actor job) ->
  exists e, upload options jobId actor input w = (inl e, w).
Proof.
  intros Hn. unfold upload. destruct (get jobId (w_jobs w)) as [job|] eqn:Ej.
  - assert (Hr : requireJob jobId w = (inr job, w)) by (unfold requireJob, jobs_findById, mbind, M_bind, gets; by rewrite Ej).
    rewrite (bind_run _ _ _ _ _ Hr). destruct (assertCanUpload_run job actor w) as [[Hm _]|[_ [e He]]].
    + destruct Hn. eauto.
    + rewrite (bind_throw _ _ _ _ _ He). eauto.
  - assert (Hr : requireJob jobId w = (inl (NotFoundError ("No job " +:+ jobId)), w))
      by (unfold requireJob, jobs_findById, mbind, M_bind, gets; by rewrite Ej).
    rewrite (bind_throw _ _ _ _ _ Hr). eauto.
Qed.
End Any.

(** ** Round trip through the in-memory storage *)

Section Roundtrip.
Context `{PF : Platform} {PL : PlatformLaws PF} {C : Type} (options : EvidenceServiceOptions.t).
Abbreviation W := (World C).
#[local] Existing Instance MemoryEvidenceStorage.

Lemma memory_cid_inj m n : memory_cid m = memory_cid n -> m = n.
Proof. unfold memory_cid. intros E. assert (Hp : pretty m = pretty n) by (by injection E). by apply (inj pretty) in Hp. Qed.

(** Objects are numbered 1, 2, …; every record has its object, and its id
    was drawn from the random source. *)
Definition numbered (objects : jsmap string) : Prop := keys objects = map memory_cid (seq 1 (JsMap.size objects)).
Definition matches (objects : jsmap string) (e : Evidence.t) : Prop :=
  exists bytes, get (Evidence.cid e) objects = Some bytes /\ sha256_hex bytes = Evidence.sha256 e /\ byte_length bytes = Evidence.sizeBytes e.
Definition evidence_ok (w : W) : Prop :=
  numbered (w_evidenceObjects w) /\
  forall id e, get id (w_evidenceRecords w) = Some e ->
    matches (w_evidenceObjects w) e /\ exists n, (n < w_uuidReads w)%nat /\ id = randomUUID_at n.

(** Anything else the process does: evidence is untouched, UUIDs are drawn. *)
Definition elsewhere (w w' : W) : Prop :=
  w_evidenceObjects w' = w_evidenceObjects w /\ w_evidenceRecords w' = w_evidenceRecords w /\ (w_uuidReads w <= w_uuidReads w')%nat.
Definition evidence_step (w w' : W) : Prop :=
  elsewhere w w' \/ exists jobId actor input r, upload options jobId actor input w = (r, w').

Lemma numbered_fresh objects : numbered objects -> get (memory_cid (JsMap.size objects + 1)) objects = None.
Proof.
  intros Hn. apply get_None. rewrite Hn. intros (i & Hi%memory_cid_inj & Hin%in_seq)%in_map_iff. lia.
Qed.
Lemma numbered_put objects bytes : numbered objects -> numbered (put (memory_cid (JsMap.size objects + 1)) bytes objects).
Proof.
  intros Hn. unfold numbered. rewrite size_put_fresh by (by apply numbered_fresh). rewrite put_fresh by (by apply numbered_fresh).
  unfold keys in *. rewrite map_app. unfold numbered in Hn. unfold keys in Hn. rewrite Hn, seq_S, map_app. simpl.
  by rewrite Nat.add_1_r.
Qed.

(** The world after the checks of [upload] have passed. *)
Definition uploaded (jobId : string) (actor : EvidenceActor.t) (input : EvidenceUpload.t) (w : W) : Evidence.t :=
  let now := toISOString (Date_now (w_clockReads w)) in
  Evidence.mk (randomUUID_at (w_uuidReads w)) jobId (memory_cid (JsMap.size (w_evidenceObjects w) + 1))
    (sha256_hex (EvidenceUpload.bytes input)) (sanitizeFilename (EvidenceUpload.filename input))
    (toLowerCase (EvidenceUpload.contentType input)) (byte_length (EvidenceUpload.bytes input)) (EvidenceActor.identityId actor) now now.

Lemma upload_run jobId actor input (w w' : W) r :
  upload options jobId actor input w = (r, w') ->
  (exists e, r = inl e /\ w' = w) \/
  (r = inr (uploaded jobId actor input w) /\
   w_evidenceObjects w' = put (memory_cid (JsMap.size (w_evidenceObjects w) + 1)) (EvidenceUpload.bytes input) (w_evidenceObjects w) /\
   w_evidenceRecords w' = put (randomUUID_at (w_uuidReads w)) (uploaded jobId actor input w) (w_evidenceRecords w) /\
   w_uuidReads w' = S (w_uuidReads w) /\ w_jobs w' = w_jobs w).
Proof.
  unfold upload. intros Hrun.
  assert (Hkeep : keeps (fun w : W => w) (requireJob jobId)) by (unfold requireJob; rframe).
  apply bind_inv in Hrun as [(e & -> & E)|(job & w1 & E & Hrun)]; pose proof (keeps_run _ _ _ _ _ Hkeep E) as Hw; simpl in Hw; subst; [eauto|].
  assert (Hkeep1 : keeps (fun w : W => w) (assertCanUpload job actor)) by (unfold assertCanUpload; rframe).
  apply bind_inv in Hrun as [(e & -> & E1)|(u & w1 & E1 & Hrun)]; pose proof (keeps_run _ _ _ _ _ Hkeep1 E1) as Hw; simpl in Hw; subst; [eauto|].
  assert (Hkeep2 : keeps (fun w : W => w) (validateUpload options input)) by (unfold validateUpload; rframe).
  apply bind_inv in Hrun as [(e & -> & E2)|(u1 & w1 & E2 & Hrun)]; pose proof (keeps_run _ _ _ _ _ Hkeep2 E2) as Hw; simpl in Hw; subst; [eauto|].
  right. set (cid := memory_cid (JsMap.size (w_evidenceObjects w) + 1)).
  assert (E3 : try_catch (storage_upload (EvidenceUpload.bytes input) (EvidenceUpload.contentType input)) hide_storage_error w =
    (inr (StoredEvidence.mk cid (byte_length (EvidenceUpload.bytes input))), upd_evidenceObjects (put cid (EvidenceUpload.bytes input)) w)) by done.
  rewrite (bind_run _ _ _ _ _ E3) in Hrun. cbn [StoredEvidence.sizeBytes] in Hrun. rewrite Z.eqb_refl in Hrun.
  by injection Hrun as <- <-.
Qed.

Lemma step_ok (w w' : W) : evidence_ok w -> evidence_step w w' ->
  evidence_ok w' /\ (forall id e, get id (w_evidenceRecords w) = Some e ->
    get id (w_evidenceRecords w') = Some e /\ get (Evidence.cid e) (w_evidenceObjects w') = get (Evidence.cid e) (w_evidenceObjects w)).
Proof.
  intros [Hn Hr] [(Ho & He & Hu)|(jobId & actor & input & r & Hup)].
  { split; [|by rewrite Ho, He]. split; [by rewrite Ho|]. rewrite He, Ho. intros id e Hg. destruct (Hr _ _ Hg) as (Hm & n & Hlt & ->).
    split; [done|]. exists n. split; [lia|done]. }
  apply upload_run in Hup as [(e & -> & ->)|(-> & Ho & He & Hu & _)]; [done|].
  assert (Hsame : forall id e, get id (w_evidenceRecords w) = Some e ->
    get (Evidence.cid e) (w_evidenceObjects w') = get (Evidence.cid e) (w_evidenceObjects w)).
  { intros id e Hg. destruct (Hr _ _ Hg) as ((b & Hb & _) & _). rewrite Ho. apply get_put_ne. intros Hc.
    rewrite Hc, numbered_fresh in Hb; [done|done]. }
  assert (Hold : forall id e, get id (w_evidenceRecords w) = Some e -> get id (w_evidenceRecords w') = Some e).
  { intros id e Hg. rewrite He, get_put_ne; [done|]. intros ->. destruct (Hr _ _ Hg) as (_ & n & Hlt & Heq%randomUUID_inj). lia. }
  split; [|intros id e Hg; split; [by apply Hold|by eapply Hsame]].
  split; [by rewrite Ho; apply numbered_put|]. intros id e. rewrite He, get_put.
  destruct (String.eqb_spec id (randomUUID_at (w_uuidReads w))) as [->|Hne].
  - intros [= <-]. split; [|exists (w_uuidReads w); split; [lia|done]]. exists (EvidenceUpload.bytes input). rewrite Ho. simpl. by rewrite get_put_eq.
  - intros Hg. destruct (Hr _ _ Hg) as ((b & Hb & Hh) & n & Hlt & ->). split; [|exists n; split; [lia|done]].
    exists b. by rewrite (Hsame _ _ Hg).
Qed.

Lemma steps_ok (w w' : W) : rtc evidence_step w w' -> evidence_ok w -> forall id e, get id (w_evidenceRecords w) = Some e ->
  get id (w_evidenceRecords w') = Some e /\ get (Evidence.cid e) (w_evidenceObjects w') = get (Evidence.cid e) (w_evidenceObjects w).
Proof.
  induction 1 as [|w w1 w2 Hs _ IH]; intros Hok id e Hg; [done|]. destruct (step_ok _ _ Hok Hs) as [Hok1 Hp].
  destruct (Hp _ _ Hg) as [Hg1 Hc1]. destruct (IH Hok1 _ _ Hg1) as [Hg2 Hc2]. split; [done|congruence].
Qed.

(** Upload and download are inverse: whatever has happened in between
    (further uploads for any job, any activity of the other services), a
    caller who may view the job gets back the record the upload returned and
    exactly the bytes that were uploaded. *)
Theorem evidence_roundtrip jobId actor input (w w1 w2 : W) e viewer job :
  evidence_ok w -> upload options jobId actor input w = (inr e, w1) -> rtc evidence_step w1 w2 ->
  get jobId (w_jobs w2) = Some job -> can (EvidenceActor.role viewer) VIEW_AUDIT_HISTORY (view_context job viewer) = true ->
  download jobId (Evidence.evidenceId e) viewer w2 = (inr (e, EvidenceUpload.bytes input), w2).
Proof.
  intros Hok Hup Hs Hj Hv. assert (Hst : evidence_step w w1) by (right; eauto 10). destruct (step_ok _ _ Hok Hst) as [Hok1 _].
  apply upload_run in Hup as [(? & [=] & _)|([= ->] & Ho & He & _)].
  destruct (steps_ok _ _ Hs Hok1 (randomUUID_at (w_uuidReads w)) (uploaded jobId actor input w)) as [Hg Hc].
  { rewrite He. apply get_put_eq. }
  rewrite Ho in Hc. simpl in Hc. rewrite get_put_eq in Hc.
  unfold download, requireJob, jobs_findById, assertCanView, find_evidence, evidence_findById.
  unfold mbind, M_bind, gets, try_catch. rewrite Hj. simpl. rewrite Hv. simpl. rewrite Hg. simpl. rewrite String.eqb_refl. simpl.
  unfold memory_download, mbind, M_bind, gets. rewrite Hc. simpl. by rewrite String.eqb_refl, Z.eqb_refl.
Qed.
End Roundtrip.

(** ** Concrete runs *)

#[local] Existing Instance dev.
#[local] Existing Instance MemoryEvidenceStorage.

Definition no_options : EvidenceServiceOptions.t := EvidenceServiceOptions.mk None None.
Definition running_job : Job.t := Job.mk "J" "A" "M" "T" None IN_PROGRESS LOW "t" None.
Definition evidence_world : World MockChain := upd_jobs (put "J" running_job) empty_world.
Definition the_technician : EvidenceActor.t := EvidenceActor.mk "T" "0xt" TECHNICIAN.
Definition the_auditor : EvidenceActor.t := EvidenceActor.mk "X" "0xx" AUDITOR.
Definition a_report : EvidenceUpload.t := EvidenceUpload.mk "all bolts replaced" "report.txt" "text/plain".
Definition reported_world : World MockChain := snd (upload no_options "J" the_technician a_report evidence_world).
Definition report_id : string := randomUUID_at 0.

Lemma evidence_roundtrip_witness :
  exists e, fst (download "J" report_id the_auditor (snd (upload no_options "J" the_technician a_report reported_world)))
    = inr (e, "all bolts replaced").
Proof.
  destruct (upload no_options "J" the_technician a_report evidence_world) as [[e|e] w1] eqn:E; [by vm_compute in E|].
  exists e. assert (Hw1 : w1 = reported_world) by (unfold reported_world; by rewrite E).
  assert (He : report_id = Evidence.evidenceId e) by (vm_compute in E; by injection E as <- _). rewrite He.
  rewrite (evidence_roundtrip no_options "J" the_technician a_report evidence_world w1
    (snd (upload no_options "J" the_technician a_report reported_world)) e the_auditor running_job); [reflexivity| |exact E| |vm_compute; reflexivity|vm_compute; reflexivity].
  - split; [reflexivity|]. intros id x. vm_compute. discriminate.
  - apply rtc_once. right. exists "J", the_technician, a_report, (fst (upload no_options "J" the_technician a_report w1)).
    rewrite Hw1. apply surjective_pairing.
Defined.

Lemma download_verified_witness :
  exists e bytes, fst (download "J" report_id the_auditor reported_world) = inr (e, bytes) /\ sha256_hex bytes = Evidence.sha256 e.
Proof.
  destruct (download "J" report_id the_auditor reported_world) as [[e|[e bytes]] w'] eqn:E; [by vm_compute in E|].
  exists e, bytes. split; [reflexivity|]. apply (download_verified "J" report_id the_auditor reported_world w' e bytes E).
Defined.

Lemma tampering_detected_witness :
  let w := upd_evidenceObjects (put (memory_cid 1) "nothing was done") reported_world in
  download "J" report_id the_auditor w = (inl default_integrity, w).
Proof.
  intros w. destruct (get report_id (w_evidenceRecords w)) as [e|] eqn:E; [|by vm_compute in E].
  apply (tampering_detected "J" report_id the_auditor w w running_job e "nothing was done"); [reflexivity|reflexivity|exact E|..];
    vm_compute in E; injection E as <-; [reflexivity|vm_compute; reflexivity|left; vm_compute; discriminate].
Defined.

Lemma upload_guarded_witness : exists e, upload no_options "J" the_auditor a_report evidence_world = (inl e, evidence_world).
Proof.
  apply (upload_guarded no_options "J" the_auditor a_report evidence_world).
  intros (job & Hj & Ha & _). vm_compute in Ha. discriminate.
Defined.
