(* ===== verification/Rows.v ===== *)
(** * Rows: records and the rows of the database that carry them

    The [...Data] and [map...] functions of
    [users/repository-implementations.ts], [domain/repositories.ts] and
    [evidence/evidence.repository.ts].  A [DateTime] column holds an instant in
    milliseconds; an [Invalid Date] is [None], and so is a row with one: the
    client refuses it.  A column that holds a member of a string union has the
    type of the union. *)
From S2P Require Import Prelude JsString JsMap JsValue Shared World.
Local Open Scope string_scope.

(** ** Rows *)

Module IdentityRow.
Record t := mk {
  identityId : string; employeeId : option string; fullName : string; role : option Role; department : option string;
  status : IdentityStatus; createdAt : Z; verifiedAt : option Z; verifiedBy : option string }.
End IdentityRow.
Module DeviceRow.
Record t := mk {
  deviceId : string; identityId : string; status : WalletStatus; registeredAt : Z; activatedAt : option Z; revokedAt : option Z;
  publicKey : option string; metadata : option payload }.
End DeviceRow.
Module WalletRow.
Record t := mk {
  address : string; identityId : string; deviceId : string; status : WalletStatus; activatedAt : option Z; revokedAt : option Z;
  revokedReason : option string; publicKey : option string }.
End WalletRow.
Module ChallengeRow.
Record t := mk {
  challengeId : string; deviceId : string; challenge : string; purpose : ChallengePurpose; expiresAt : Z; usedAt : option Z;
  metadata : option payload }.
Definition used (at_ : Z) (r : t) : t :=
  mk (challengeId r) (deviceId r) (challenge r) (purpose r) (expiresAt r) (Some at_) (metadata r).
End ChallengeRow.
Module CredentialRow.
Record t := mk { id : string; verifier : string; deviceId : string; active : bool }.
Definition inactive (r : t) : t := mk (id r) (verifier r) (deviceId r) false.
End CredentialRow.
Module SessionRow.
Record t := mk {
  tokenHash : string; identityId : string; deviceId : string; walletAddress : string; expiresAt : Z; revokedAt : option Z }.
Definition revoked (at_ : Z) (r : t) : t :=
  mk (tokenHash r) (identityId r) (deviceId r) (walletAddress r) (expiresAt r) (Some at_).
End SessionRow.
Module GrantRow.
Record t := mk {
  authorizationGrantId : string; actorIdentityId : string; resourceType : ResourceType; resourceId : string; action : Action;
  grantedByIdentityId : string; issuedAt : Z; expiresAt : option Z; status : GrantStatus }.
End GrantRow.
Module ValidatorRow.
Record t := mk {
  registrationId : string; validatorId : string; identityId : string; walletAddress : string; nodeId : string; nodeAddress : string;
  publicKey : string; signingPublicKey : string; status : ValidatorRegistrationStatus; requestedAt : Z; activationHeight : Z;
  removalHeight : option Z; removalReason : option string; txHash : option string; blockNumber : option Z }.
End ValidatorRow.
Module HistoryRow.
Record t := mk {
  historyId : string; validatorId : string; operation : TransactionType; actorIdentityId : string; actorWallet : string; timestamp : Z;
  blockNumber : option Z; transactionHash : option string; previousState : option ValidatorRegistrationStatus;
  newState : ValidatorRegistrationStatus; reason : option string; status : HistoryStatus; inverseTransactionHash : option string }.
End HistoryRow.
Module NotificationRow.
Record t := mk {
  notificationId : string; eventType : TransactionType; validatorId : string; operation : TransactionType; recipientIdentityId : string;
  channel : NotificationChannel; createdAt : Z; status : DeliveryStatus }.
End NotificationRow.
Module JobRow.
Record t := mk {
  jobId : string; assetId : string; createdBy : string; assignedTo : option string; verifierId : option string; status : JobStatus;
  priority : JobPriority; createdAt : Z; completedAt : option Z }.
End JobRow.
Module EvidenceRow.
Record t := mk {
  evidenceId : string; jobId : string; cid : string; sha256 : string; originalFilename : string; contentType : string;
  sizeBytes : Z; uploadedBy : string; createdAt : Z; updatedAt : Z }.
End EvidenceRow.

(** ** Conversions *)

(** How a record is carried by a row: [toRow] before a write, [ofRow] after a
    read, and the primary key of both. *)
Class RowOf (E R : Type) := {
  toRow : E -> option R;
  ofRow : R -> E;
  entity_key : E -> string;
  row_key : R -> string;
}.

Section Rows.
Context `{Platform}.

Definition asDate (v : string) : option Z := Date_parse v.
Definition asIso (t : Z) : string := toISOString t.
(** [v ? asDate(v) : null] and back *)
Definition asDate_or_null (v : option string) : option (option Z) :=
  if truthy_string v then Some <$> asDate (default "" v) else Some None.
Definition asIso_or_null (t : option Z) : option string := asIso <$> t.

Definition identityData (v : Identity.t) : option IdentityRow.t :=
  createdAt ← asDate (Identity.createdAt v);
  verifiedAt ← asDate_or_null (Identity.verifiedAt v);
  Some (IdentityRow.mk (Identity.identityId v) (Identity.employeeId v) (Identity.fullName v) (Identity.role v) (Identity.department v)
    (Identity.status v) createdAt verifiedAt (Identity.verifiedBy v)).
Definition mapIdentity (r : IdentityRow.t) : Identity.t :=
  Identity.mk (IdentityRow.identityId r) (IdentityRow.employeeId r) (IdentityRow.fullName r) (IdentityRow.role r)
    (IdentityRow.department r) (IdentityRow.status r) (asIso (IdentityRow.createdAt r)) (asIso_or_null (IdentityRow.verifiedAt r))
    (IdentityRow.verifiedBy r).

(** All columns of a user, and of an asset, are columns of its row. *)
Definition userData (v : User.t) : option User.t := Some v.
Definition mapUser (r : User.t) : User.t := r.
Definition assetData (v : Asset.t) : option Asset.t := Some v.
Definition mapAsset (r : Asset.t) : Asset.t := r.

Definition deviceData (v : Device.t) : option DeviceRow.t :=
  registeredAt ← asDate (Device.registeredAt v);
  activatedAt ← asDate_or_null (Device.activatedAt v);
  revokedAt ← asDate_or_null (Device.revokedAt v);
  Some (DeviceRow.mk (Device.deviceId v) (Device.identityId v) (Device.status v) registeredAt activatedAt revokedAt
    (Device.publicKey v) (Device.metadata v)).
Definition mapDevice (r : DeviceRow.t) : Device.t :=
  Device.mk (DeviceRow.deviceId r) (DeviceRow.identityId r) (DeviceRow.status r) (asIso (DeviceRow.registeredAt r))
    (asIso_or_null (DeviceRow.activatedAt r)) (asIso_or_null (DeviceRow.revokedAt r)) (DeviceRow.publicKey r) (DeviceRow.metadata r).

Definition walletData (v : Wallet.t) : option WalletRow.t :=
  activatedAt ← asDate_or_null (Wallet.activatedAt v);
  revokedAt ← asDate_or_null (Wallet.revokedAt v);
  Some (WalletRow.mk (Wallet.address v) (Wallet.identityId v) (Wallet.deviceId v) (Wallet.status v) activatedAt revokedAt
    (Wallet.revokedReason v) (Wallet.publicKey v)).
Definition mapWallet (r : WalletRow.t) : Wallet.t :=
  Wallet.mk (WalletRow.address r) (WalletRow.identityId r) (WalletRow.deviceId r) (WalletRow.status r)
    (asIso_or_null (WalletRow.activatedAt r)) (asIso_or_null (WalletRow.revokedAt r)) (WalletRow.revokedReason r) (WalletRow.publicKey r).

Definition challengeData (v : ProvisioningChallenge.t) : option ChallengeRow.t :=
  expiresAt ← asDate (ProvisioningChallenge.expiresAt v);
  usedAt ← asDate_or_null (ProvisioningChallenge.usedAt v);
  Some (ChallengeRow.mk (ProvisioningChallenge.challengeId v) (ProvisioningChallenge.deviceId v) (ProvisioningChallenge.challenge v)
    (ProvisioningChallenge.purpose v) expiresAt usedAt (ProvisioningChallenge.metadata v)).
Definition mapChallenge (r : ChallengeRow.t) : ProvisioningChallenge.t :=
  ProvisioningChallenge.mk (ChallengeRow.challengeId r) (ChallengeRow.deviceId r) (ChallengeRow.challenge r) (ChallengeRow.purpose r)
    (asIso (ChallengeRow.expiresAt r)) (asIso_or_null (ChallengeRow.usedAt r)) (ChallengeRow.metadata r).

Definition grantData (v : AuthorizationGrant.t) : option GrantRow.t :=
  issuedAt ← asDate (AuthorizationGrant.issuedAt v);
  expiresAt ← asDate_or_null (AuthorizationGrant.expiresAt v);
  Some (GrantRow.mk (AuthorizationGrant.authorizationGrantId v) (AuthorizationGrant.actorIdentityId v) (AuthorizationGrant.resourceType v)
    (AuthorizationGrant.resourceId v) (AuthorizationGrant.action v) (AuthorizationGrant.grantedByIdentityId v) issuedAt expiresAt
    (AuthorizationGrant.status v)).
Definition mapGrant (r : GrantRow.t) : AuthorizationGrant.t :=
  AuthorizationGrant.mk (GrantRow.authorizationGrantId r) (GrantRow.actorIdentityId r) (GrantRow.resourceType r) (GrantRow.resourceId r)
    (GrantRow.action r) (GrantRow.grantedByIdentityId r) (asIso (GrantRow.issuedAt r)) (asIso_or_null (GrantRow.expiresAt r))
    (GrantRow.status r).

Definition validatorData (v : ValidatorRegistration.t) : option ValidatorRow.t :=
  requestedAt ← asDate (ValidatorRegistration.requestedAt v);
  Some (ValidatorRow.mk (ValidatorRegistration.registrationId v) (ValidatorRegistration.validatorId v) (ValidatorRegistration.identityId v)
    (ValidatorRegistration.walletAddress v) (ValidatorRegistration.nodeId v) (ValidatorRegistration.nodeAddress v)
    (ValidatorRegistration.publicKey v) (ValidatorRegistration.signingPublicKey v) (ValidatorRegistration.status v) requestedAt
    (ValidatorRegistration.activationHeight v) (ValidatorRegistration.removalHeight v) (ValidatorRegistration.removalReason v)
    (ValidatorRegistration.txHash v) (ValidatorRegistration.blockNumber v)).
Definition mapValidator (r : ValidatorRow.t) : ValidatorRegistration.t :=
  ValidatorRegistration.mk (ValidatorRow.registrationId r) (ValidatorRow.validatorId r) (ValidatorRow.identityId r)
    (ValidatorRow.walletAddress r) (ValidatorRow.nodeId r) (ValidatorRow.nodeAddress r) (ValidatorRow.publicKey r)
    (ValidatorRow.signingPublicKey r) (ValidatorRow.status r) (asIso (ValidatorRow.requestedAt r)) (ValidatorRow.activationHeight r)
    (ValidatorRow.removalHeight r) (ValidatorRow.removalReason r) (ValidatorRow.txHash r) (ValidatorRow.blockNumber r).

(** The rows of the two append-only tables. *)
Definition historyData (v : ValidatorHistoryRecord.t) : option HistoryRow.t :=
  timestamp ← asDate (ValidatorHistoryRecord.timestamp v);
  Some (HistoryRow.mk (ValidatorHistoryRecord.historyId v) (ValidatorHistoryRecord.validatorId v) (ValidatorHistoryRecord.operation v)
    (ValidatorHistoryRecord.actorIdentityId v) (ValidatorHistoryRecord.actorWallet v) timestamp (ValidatorHistoryRecord.blockNumber v)
    (ValidatorHistoryRecord.transactionHash v) (ValidatorHistoryRecord.previousState v) (ValidatorHistoryRecord.newState v)
    (ValidatorHistoryRecord.reason v) (ValidatorHistoryRecord.status v) (ValidatorHistoryRecord.inverseTransactionHash v)).
Definition mapHistory (r : HistoryRow.t) : ValidatorHistoryRecord.t :=
  ValidatorHistoryRecord.mk (HistoryRow.historyId r) (HistoryRow.validatorId r) (HistoryRow.operation r) (HistoryRow.actorIdentityId r)
    (HistoryRow.actorWallet r) (asIso (HistoryRow.timestamp r)) (HistoryRow.blockNumber r) (HistoryRow.transactionHash r)
    (HistoryRow.previousState r) (HistoryRow.newState r) (HistoryRow.reason r) (HistoryRow.status r) (HistoryRow.inverseTransactionHash r).
Definition notificationData (v : NotificationDelivery.t) : option NotificationRow.t :=
  createdAt ← asDate (NotificationDelivery.createdAt v);
  Some (NotificationRow.mk (NotificationDelivery.notificationId v) (NotificationDelivery.eventType v) (NotificationDelivery.validatorId v)
    (NotificationDelivery.operation v) (NotificationDelivery.recipientIdentityId v) (NotificationDelivery.channel v) createdAt
    (NotificationDelivery.status v)).
Definition mapNotification (r : NotificationRow.t) : NotificationDelivery.t :=
  NotificationDelivery.mk (NotificationRow.notificationId r) (NotificationRow.eventType r) (NotificationRow.validatorId r)
    (NotificationRow.operation r) (NotificationRow.recipientIdentityId r) (NotificationRow.channel r) (asIso (NotificationRow.createdAt r))
    (NotificationRow.status r).

(** [job.assignedTo || null] *)
Definition jobData (v : Job.t) : option JobRow.t :=
  createdAt ← asDate (Job.createdAt v);
  completedAt ← asDate_or_null (Job.completedAt v);
  Some (JobRow.mk (Job.jobId v) (Job.assetId v) (Job.createdBy v)
    (if String.eqb (Job.assignedTo v) "" then None else Some (Job.assignedTo v)) (Job.verifierId v) (Job.status v) (Job.priority v)
    createdAt completedAt).
Definition mapJob (r : JobRow.t) : Job.t :=
  Job.mk (JobRow.jobId r) (JobRow.assetId r) (JobRow.createdBy r) (default "" (JobRow.assignedTo r)) (JobRow.verifierId r)
    (JobRow.status r) (JobRow.priority r) (asIso (JobRow.createdAt r)) (asIso_or_null (JobRow.completedAt r)).

Definition evidenceData (v : Evidence.t) : option EvidenceRow.t :=
  createdAt ← asDate (Evidence.createdAt v);
  updatedAt ← asDate (Evidence.updatedAt v);
  Some (EvidenceRow.mk (Evidence.evidenceId v) (Evidence.jobId v) (Evidence.cid v) (Evidence.sha256 v) (Evidence.originalFilename v)
    (Evidence.contentType v) (Evidence.sizeBytes v) (Evidence.uploadedBy v) createdAt updatedAt).
Definition mapEvidence (r : EvidenceRow.t) : Evidence.t :=
  Evidence.mk (EvidenceRow.evidenceId r) (EvidenceRow.jobId r) (EvidenceRow.cid r) (EvidenceRow.sha256 r) (EvidenceRow.originalFilename r)
    (EvidenceRow.contentType r) (EvidenceRow.sizeBytes r) (EvidenceRow.uploadedBy r) (asIso (EvidenceRow.createdAt r))
    (asIso (EvidenceRow.updatedAt r)).

(** [new Date(expiresAt)] of a number: truncated, and within the range of a date. *)
Definition MAX_TIME : Z := 8640000000000000.
Definition date_of_num (n : num) : option Z :=
  match n with
  | Num q => let t := Z.quot (Qnum q) (Zpos (Qden q)) in if (Z.abs t <=? MAX_TIME)%Z then Some t else None
  | _ => None
  end.
(** The columns written by [save(session)]. *)
Definition sessionData (v : SessionRecord.t) : option SessionRow.t :=
  expiresAt ← date_of_num (SessionRecord.expiresAt v);
  Some (SessionRow.mk (sha256_hex (SessionRecord.token v)) (SessionRecord.identityId v) (SessionRecord.deviceId v)
    (SessionRecord.walletAddress v) expiresAt None).
(** The session read for a token. *)
Definition mapSession (token : string) (r : SessionRow.t) : SessionRecord.t :=
  SessionRecord.mk token (SessionRow.identityId r) (SessionRow.deviceId r) (SessionRow.walletAddress r) (num_of_Z (SessionRow.expiresAt r)).

#[export] Instance identity_row : RowOf Identity.t IdentityRow.t := {|
  toRow := identityData; ofRow := mapIdentity; entity_key := Identity.identityId; row_key := IdentityRow.identityId |}.
#[export] Instance user_row : RowOf User.t User.t := {|
  toRow := userData; ofRow := mapUser; entity_key := User.employeeId; row_key := User.employeeId |}.
#[export] Instance device_row : RowOf Device.t DeviceRow.t := {|
  toRow := deviceData; ofRow := mapDevice; entity_key := Device.deviceId; row_key := DeviceRow.deviceId |}.
#[export] Instance wallet_row : RowOf Wallet.t WalletRow.t := {|
  toRow := walletData; ofRow := mapWallet; entity_key := Wallet.address; row_key := WalletRow.address |}.
#[export] Instance challenge_row : RowOf ProvisioningChallenge.t ChallengeRow.t := {|
  toRow := challengeData; ofRow := mapChallenge; entity_key := ProvisioningChallenge.challengeId; row_key := ChallengeRow.challengeId |}.
#[export] Instance grant_row : RowOf AuthorizationGrant.t GrantRow.t := {|
  toRow := grantData; ofRow := mapGrant; entity_key := AuthorizationGrant.authorizationGrantId; row_key := GrantRow.authorizationGrantId |}.
#[export] Instance validator_row : RowOf ValidatorRegistration.t ValidatorRow.t := {|
  toRow := validatorData; ofRow := mapValidator; entity_key := ValidatorRegistration.registrationId; row_key := ValidatorRow.registrationId |}.
#[export] Instance history_row : RowOf ValidatorHistoryRecord.t HistoryRow.t := {|
  toRow := historyData; ofRow := mapHistory; entity_key := ValidatorHistoryRecord.historyId; row_key := HistoryRow.historyId |}.
#[export] Instance notification_row : RowOf NotificationDelivery.t NotificationRow.t := {|
  toRow := notificationData; ofRow := mapNotification; entity_key := NotificationDelivery.notificationId;
  row_key := NotificationRow.notificationId |}.
#[export] Instance asset_row : RowOf Asset.t Asset.t := {|
  toRow := assetData; ofRow := mapAsset; entity_key := Asset.assetId; row_key := Asset.assetId |}.
#[export] Instance job_row : RowOf Job.t JobRow.t := {|
  toRow := jobData; ofRow := mapJob; entity_key := Job.jobId; row_key := JobRow.jobId |}.
#[export] Instance evidence_row : RowOf Evidence.t EvidenceRow.t := {|
  toRow := evidenceData; ofRow := mapEvidence; entity_key := Evidence.evidenceId; row_key := EvidenceRow.evidenceId |}.
End Rows.
