(* ===== verification/Prisma.v ===== *)
(** * Prisma: the repositories on the database

    The Prisma adapters of [users/repository-implementations.ts],
    [domain/repositories.ts] and [evidence/evidence.repository.ts].  The client
    is an interface: one instance per table, on the state [D] of the database,
    whose calls may be rejected.  The adapters handle no rejection, so one
    leaves them as an error that is not of the program. *)
From S2P Require Import Prelude Effects JsString JsMap JsValue Shared Errors World Rpc Rows.
Local Open Scope string_scope.
Local Open Scope list_scope.

(** The methods of [prisma.<table>]; a [where] is a predicate on rows and an
    [orderBy] an order. *)
Class PrismaTable (D R : Type) := {
  findUnique : (R -> bool) -> M RpcError.t D (option R);
  findMany : (R -> bool) -> (R -> R -> bool) -> M RpcError.t D (list R);
  (** [upsert({ where, create, update })] *)
  upsert : (R -> bool) -> R -> (R -> R) -> M RpcError.t D unit;
  create : R -> M RpcError.t D unit;
  updateMany : (R -> bool) -> (R -> R) -> M RpcError.t D Z;
}.
(** What the client rejects data with an [Invalid Date] with. *)
Class PrismaValidation := Invalid_Date : RpcError.t.

(** ** Every repository *)

Section Adapters.
Context {D : Type} `{PrismaValidation}.
Abbreviation MD := (M exn D).

Definition prisma_call {A} (m : M RpcError.t D A) : MD A := rescue m (fun err => throw (Error (RpcError.message err))).
(** The data of a write, refused by the client if it has an [Invalid Date]. *)
Definition valid_data {R} (r : option R) : MD R := require r (Error (RpcError.message Invalid_Date)).

Section Table.
Context {E R : Type} `{RowOf E R} `{PrismaTable D R}.
Definition has_key (id : string) (r : R) : bool := String.eqb (row_key r) id.
(** [map(await prisma.table.findUnique({ where }))] *)
Definition findOne (where_ : R -> bool) : MD (option E) := row ← prisma_call (findUnique where_); mret (ofRow <$> row).
Definition findById (id : string) : MD (option E) := findOne (has_key id).
(** [(await prisma.table.findMany({ where, orderBy })).map(map)] *)
Definition listWhere (where_ : R -> bool) (orderBy : R -> R -> bool) : MD (list E) :=
  rows ← prisma_call (findMany where_ orderBy); mret (map ofRow rows).
(** [upsert({ where: { key }, create: data(v), update: data(v) })] *)
Definition save (v : E) : MD unit := row ← valid_data (toRow v); prisma_call (upsert (has_key (entity_key v)) row (fun _ => row)).
(** [create({ data: data(v) })] *)
Definition append (v : E) : MD unit := row ← valid_data (toRow v); prisma_call (create row).
End Table.
End Adapters.

(** [{ field: "asc" }] *)
Definition asc_Z {R} (column : R -> Z) (a b : R) : bool := (column a <=? column b)%Z.
Definition asc_string {R} (column : R -> string) (a b : R) : bool := String.leb (column a) (column b).

(** ** The adapters *)

Section Repositories.
Context `{Platform} {D : Type} `{PrismaValidation}.
Abbreviation MD := (M exn D).

Section Identities.
Context `{PrismaTable D IdentityRow.t}.
Definition PrismaIdentity_findById (id : string) : MD (option Identity.t) := findById id.
Definition PrismaIdentity_findByEmployeeId (employeeId : string) : MD (option Identity.t) :=
  findOne (fun r => bool_decide (IdentityRow.employeeId r = Some employeeId)).
Definition PrismaIdentity_listByStatus (status : IdentityStatus) : MD (list Identity.t) :=
  listWhere (fun r => bool_decide (IdentityRow.status r = status)) (asc_Z IdentityRow.createdAt).
Definition PrismaIdentity_save (v : Identity.t) : MD unit := save v.
End Identities.

Section Users.
Context `{PrismaTable D User.t}.
Definition PrismaUser_findById (id : string) : MD (option User.t) := findById id.
Definition PrismaUser_findByIdentityId (identityId : string) : MD (option User.t) :=
  findOne (fun r => String.eqb (User.identityId r) identityId).
Definition PrismaUser_save (v : User.t) : MD unit := save v.
End Users.

Section Devices.
Context `{PrismaTable D DeviceRow.t}.
Definition PrismaDevice_findById (id : string) : MD (option Device.t) := findById id.
Definition PrismaDevice_listByIdentityId (identityId : string) : MD (list Device.t) :=
  listWhere (fun r => String.eqb (DeviceRow.identityId r) identityId) (asc_Z DeviceRow.registeredAt).
Definition PrismaDevice_save (v : Device.t) : MD unit := save v.
End Devices.

Section Wallets.
Context `{PrismaTable D WalletRow.t}.
Definition PrismaWallet_findByAddress (address : string) : MD (option Wallet.t) := findById address.
Definition PrismaWallet_listByIdentityId (identityId : string) : MD (list Wallet.t) :=
  listWhere (fun r => String.eqb (WalletRow.identityId r) identityId) (asc_string WalletRow.address).
Definition PrismaWallet_save (v : Wallet.t) : MD unit := save v.
End Wallets.

Section Validators.
Context `{PrismaTable D ValidatorRow.t} `{PrismaTable D HistoryRow.t} `{PrismaTable D NotificationRow.t}.
Definition PrismaValidator_findById (id : string) : MD (option ValidatorRegistration.t) := findById id.
Definition PrismaValidator_findByValidatorId (id : string) : MD (option ValidatorRegistration.t) :=
  findOne (fun r => String.eqb (ValidatorRow.validatorId r) id).
Definition PrismaValidator_list : MD (list ValidatorRegistration.t) := listWhere (fun _ => true) (asc_Z ValidatorRow.requestedAt).
Definition PrismaValidator_save (v : ValidatorRegistration.t) : MD unit := save v.
Definition PrismaHistory_list : MD (list ValidatorHistoryRecord.t) := listWhere (fun _ => true) (asc_Z HistoryRow.timestamp).
Definition PrismaHistory_append (v : ValidatorHistoryRecord.t) : MD unit := append v.
Definition PrismaNotification_list : MD (list NotificationDelivery.t) := listWhere (fun _ => true) (asc_Z NotificationRow.createdAt).
Definition PrismaNotification_append (v : NotificationDelivery.t) : MD unit := append v.
End Validators.

Section Challenges.
Context `{PrismaTable D ChallengeRow.t}.
Definition PrismaChallenge_findById (id : string) : MD (option ProvisioningChallenge.t) := findById id.
Definition PrismaChallenge_save (v : ProvisioningChallenge.t) : MD unit := save v.
(** [where: { challengeId, usedAt: null }] *)
Definition unused (id : string) (r : ChallengeRow.t) : bool := has_key id r && bool_decide (ChallengeRow.usedAt r = None).
Definition PrismaChallenge_consumeIfUnused (id usedAt : string) : MD bool :=
  at_ ← valid_data (asDate usedAt);
  count ← prisma_call (updateMany (unused id) (ChallengeRow.used at_));
  mret (count =? 1)%Z.
End Challenges.

Section Credentials.
Context `{PrismaTable D CredentialRow.t}.
Definition verifies (verifier : string) (r : CredentialRow.t) : bool := String.eqb (CredentialRow.verifier r) verifier.
Definition on_device (deviceId : string) (r : CredentialRow.t) : bool := String.eqb (CredentialRow.deviceId r) deviceId.
Definition PrismaCredential_findDeviceId (verifier : string) : MD (option string) :=
  credential ← prisma_call (findUnique (verifies verifier));
  mret (r ← credential; if CredentialRow.active r then Some (CredentialRow.deviceId r) else None).
Definition PrismaCredential_save (verifier deviceId : string) : MD unit :=
  prisma_call (upsert (verifies verifier) (CredentialRow.mk (sha256_hex verifier) verifier deviceId true)
    (fun r => CredentialRow.mk (CredentialRow.id r) (CredentialRow.verifier r) deviceId true)).
Definition PrismaCredential_revoke (verifier : string) : MD unit :=
  prisma_call (updateMany (verifies verifier) CredentialRow.inactive);; mret tt.
Definition PrismaCredential_revokeForDevice (deviceId : string) : MD unit :=
  prisma_call (updateMany (on_device deviceId) CredentialRow.inactive);; mret tt.
End Credentials.

Section Sessions.
Context `{PrismaTable D SessionRow.t} (clock : D -> Z).
Definition hashed (token : string) (r : SessionRow.t) : bool := String.eqb (SessionRow.tokenHash r) (sha256_hex token).
Definition PrismaSession_find (token : string) : MD (option SessionRecord.t) :=
  row ← prisma_call (findUnique (hashed token));
  mret (r ← row; match SessionRow.revokedAt r with Some _ => None | None => Some (mapSession token r) end).
Definition PrismaSession_save (v : SessionRecord.t) : MD unit :=
  row ← valid_data (sessionData v);
  prisma_call (upsert (hashed (SessionRecord.token v)) row
    (fun r => SessionRow.mk (SessionRow.tokenHash r) (SessionRow.identityId row) (SessionRow.deviceId row) (SessionRow.walletAddress row)
                (SessionRow.expiresAt row) None)).
Definition PrismaSession_delete (token : string) : MD unit :=
  now ← gets clock;
  prisma_call (updateMany (hashed token) (SessionRow.revoked now));; mret tt.
End Sessions.

Section Grants.
Context `{PrismaTable D GrantRow.t}.
Definition PrismaGrant_findById (id : string) : MD (option AuthorizationGrant.t) := findById id.
Definition PrismaGrant_listByIdentityId (identityId : string) : MD (list AuthorizationGrant.t) :=
  listWhere (fun r => String.eqb (GrantRow.actorIdentityId r) identityId) (asc_Z GrantRow.issuedAt).
Definition PrismaGrant_save (v : AuthorizationGrant.t) : MD unit := save v.
End Grants.

Section Domain.
Context `{PrismaTable D Asset.t} `{PrismaTable D JobRow.t} `{PrismaTable D EvidenceRow.t} (randomUUID : MD string).
Definition PrismaAsset_list : MD (list Asset.t) := listWhere (fun _ => true) (asc_string Asset.assetId).
Definition PrismaAsset_findById (id : string) : MD (option Asset.t) := findById id.
Definition PrismaAsset_save (v : Asset.t) : MD unit := save v.
Definition PrismaJob_list : MD (list Job.t) := listWhere (fun _ => true) (asc_Z JobRow.createdAt).
Definition PrismaJob_findById (id : string) : MD (option Job.t) := findById id.
Definition PrismaJob_save (v : Job.t) : MD unit := save v.
Definition PrismaEvidence_findById (id : string) : MD (option Evidence.t) := findById id.
Definition PrismaEvidence_listByJob (jobId : string) : MD (list Evidence.t) :=
  listWhere (fun r => String.eqb (EvidenceRow.jobId r) jobId) (asc_Z EvidenceRow.createdAt).
(** [evidenceId || randomUUID()]; a new row, never an update. *)
Definition PrismaEvidence_save (v : Evidence.t) : MD unit :=
  id ← (if String.eqb (Evidence.evidenceId v) "" then randomUUID else mret (Evidence.evidenceId v));
  append (Evidence.mk id (Evidence.jobId v) (Evidence.cid v) (Evidence.sha256 v) (Evidence.originalFilename v) (Evidence.contentType v)
    (Evidence.sizeBytes v) (Evidence.uploadedBy v) (Evidence.createdAt v) (Evidence.updatedAt v)).
End Domain.
End Repositories.
