(* ===== verification/PrismaCorrect.v ===== *)
(** * PrismaCorrect: the database keeps what the memory repositories keep

    A record whose timestamps are canonical survives its row; on a client that
    does what its documentation says, a database repository behaves as the
    memory repository, the consumption of challenges included; a deleted
    session and a revoked credential are gone. *)
From S2P Require Import Prelude Effects JsString JsMap JsValue Shared Errors World Rpc MockChain Repositories Rows Prisma Concrete.
From Stdlib Require Import Permutation.
Local Open Scope string_scope.
Local Open Scope list_scope.

(** ** Maps up to the order of their keys *)

Lemma filter_Permutation {A} (p : A -> bool) l l' : l ≡ₚ l' -> List.filter p l ≡ₚ List.filter p l'.
Proof.
  induction 1 as [|x l l' _ IH|x y l|l1 l2 l3 _ IH1 _ IH2]; simpl; [done| | |by etransitivity].
  - destruct (p x); [by constructor|done].
  - destruct (p x), (p y); try done. apply perm_swap.
Qed.

Section Order.
Context {V : Type}.
Implicit Types m : jsmap V.

Lemma wf_Permutation m m' : wf m -> m ≡ₚ m' -> wf m'.
Proof. intros Hm Hp. eapply Permutation.Permutation_NoDup; [|exact Hm]. by apply Permutation_map. Qed.
Lemma get_Permutation m m' k : wf m -> m ≡ₚ m' -> get k m = get k m'.
Proof.
  intros Hm Hp. assert (Hm' := wf_Permutation m m' Hm Hp). destruct (get k m) as [v|] eqn:E.
  - symmetry. apply In_get; [done|]. eapply Permutation_in; [exact Hp|]. by apply get_In.
  - symmetry. apply get_None. apply get_None in E. contradict E.
    eapply Permutation_in; [|exact E]. apply Permutation_map. by symmetry.
Qed.
Lemma Permutation_get m m' : wf m -> wf m' -> (forall k, get k m = get k m') -> m ≡ₚ m'.
Proof.
  intros Hm Hm' Hg. apply Permutation.NoDup_Permutation; [by apply (NoDup_map_inv fst)|by apply (NoDup_map_inv fst)|].
  intros [k v]. split; intros Hin; apply get_In; [rewrite <- Hg|rewrite Hg]; by apply In_get.
Qed.
Lemma put_Permutation m m' k v : wf m -> m ≡ₚ m' -> put k v m ≡ₚ put k v m'.
Proof.
  intros Hm Hp. assert (Hm' := wf_Permutation m m' Hm Hp). apply Permutation_get; [by apply wf_put|by apply wf_put|].
  intros k'. rewrite !get_put. by rewrite (get_Permutation m m' k' Hm Hp).
Qed.
End Order.

(** ** Records and rows *)

(** The row of a record holds all of it, under its key. *)
Definition carried {E R} `{RowOf E R} (v : E) : Prop :=
  exists r, toRow v = Some r /\ ofRow r = v /\ row_key r = entity_key v.

Section Rows.
Context `{PF : Platform} `{!PlatformLaws PF}.

(** A timestamp as the program writes them. *)
Definition canonical (s : string) : Prop := exists t, s = toISOString t.
Definition canonical_or_null (o : option string) : Prop := match o with Some s => canonical s | None => True end.

Lemma date_back s : canonical s -> exists t, asDate s = Some t /\ asIso t = s.
Proof. intros [t ->]. exists t. split; [apply Date_roundtrip|done]. Qed.
Lemma date_or_null_back o : canonical_or_null o -> exists t, asDate_or_null o = Some t /\ asIso_or_null t = o.
Proof.
  destruct o as [s|]; [|by exists None]. intros Hs. destruct (date_back s Hs) as (t & Ed & Ei). exists (Some t).
  destruct Hs as [t' ->]. unfold asDate_or_null. assert (Hne := toISOString_nonempty t').
  assert (Ht : truthy_string (Some (toISOString t')) = true) by (destruct (toISOString t'); done).
  rewrite Ht. simpl. rewrite Ed. split; [done|]. simpl. by rewrite Ei.
Qed.

(** Looks up the dates of a record and compares it with what comes back. *)
Ltac carry v :=
  repeat match goal with
    | H : _ /\ _ |- _ => destruct H
    | H : canonical ?s |- _ => let t := fresh "t" in let E := fresh "E" in destruct (date_back s H) as (t & E & ?); clear H; try rewrite E
    | H : canonical_or_null ?o |- _ =>
        let t := fresh "t" in let E := fresh "E" in destruct (date_or_null_back o H) as (t & E & ?); clear H; try rewrite E
    end;
  eexists; split; [reflexivity|split; [|reflexivity]];
  cbv beta iota delta [mapIdentity mapUser mapDevice mapWallet mapChallenge mapGrant mapValidator mapHistory mapNotification mapAsset
    mapJob mapEvidence];
  destruct v; simpl in *; try match goal with |- context [String.eqb ?a ?b] => destruct (String.eqb_spec a b) end; simpl; congruence.

Definition canonical_identity (v : Identity.t) : Prop := canonical (Identity.createdAt v) /\ canonical_or_null (Identity.verifiedAt v).
Definition canonical_device (v : Device.t) : Prop :=
  canonical (Device.registeredAt v) /\ canonical_or_null (Device.activatedAt v) /\ canonical_or_null (Device.revokedAt v).
Definition canonical_wallet (v : Wallet.t) : Prop := canonical_or_null (Wallet.activatedAt v) /\ canonical_or_null (Wallet.revokedAt v).
Definition canonical_challenge (v : ProvisioningChallenge.t) : Prop :=
  canonical (ProvisioningChallenge.expiresAt v) /\ canonical_or_null (ProvisioningChallenge.usedAt v).
Definition canonical_grant (v : AuthorizationGrant.t) : Prop :=
  canonical (AuthorizationGrant.issuedAt v) /\ canonical_or_null (AuthorizationGrant.expiresAt v).
Definition canonical_job (v : Job.t) : Prop := canonical (Job.createdAt v) /\ canonical_or_null (Job.completedAt v).
Definition canonical_evidence (v : Evidence.t) : Prop := canonical (Evidence.createdAt v) /\ canonical (Evidence.updatedAt v).

(** [carry]: expose the row of a record, look its dates up, and compare. *)
Ltac carried_row :=
  intros; unfold carried;
  cbn [toRow ofRow row_key entity_key identity_row user_row device_row wallet_row challenge_row grant_row validator_row
    history_row notification_row asset_row job_row evidence_row];
  unfold canonical_identity, canonical_device, canonical_wallet, canonical_challenge, canonical_grant, canonical_job, canonical_evidence in *;
  unfold identityData, deviceData, walletData, challengeData, grantData, validatorData, historyData, notificationData, jobData, evidenceData;
  match goal with v : _ |- _ => first [by exists v | carry v] end.

Lemma carried_identity (v : Identity.t) : canonical_identity v -> carried v.
Proof. carried_row. Qed.
Lemma carried_user (v : User.t) : carried v.
Proof. carried_row. Qed.
Lemma carried_device (v : Device.t) : canonical_device v -> carried v.
Proof. carried_row. Qed.
Lemma carried_wallet (v : Wallet.t) : canonical_wallet v -> carried v.
Proof. carried_row. Qed.
Lemma carried_challenge (v : ProvisioningChallenge.t) : canonical_challenge v -> carried v.
Proof. carried_row. Qed.
Lemma carried_grant (v : AuthorizationGrant.t) : canonical_grant v -> carried v.
Proof. carried_row. Qed.
Lemma carried_validator (v : ValidatorRegistration.t) : canonical (ValidatorRegistration.requestedAt v) -> carried v.
Proof. carried_row. Qed.
Lemma carried_history (v : ValidatorHistoryRecord.t) : canonical (ValidatorHistoryRecord.timestamp v) -> carried v.
Proof. carried_row. Qed.
Lemma carried_notification (v : NotificationDelivery.t) : canonical (NotificationDelivery.createdAt v) -> carried v.
Proof. carried_row. Qed.
Lemma carried_asset (v : Asset.t) : carried v.
Proof. carried_row. Qed.
Lemma carried_job (v : Job.t) : canonical_job v -> carried v.
Proof. carried_row. Qed.
Lemma carried_evidence (v : Evidence.t) : canonical_evidence v -> carried v.
Proof. carried_row. Qed.
#[local] Hint Resolve carried_identity carried_user carried_device carried_wallet carried_challenge carried_grant carried_validator
  carried_history carried_notification carried_asset carried_job carried_evidence : bel.

(** Every record whose timestamps are those the program writes survives
    the way through the database: it has a row without an invalid date, under
    its key, which reads back as the same record. *)
Theorem rows_carry_records :
  (forall v : Identity.t, canonical_identity v -> carried v) /\ (forall v : User.t, carried v) /\
  (forall v : Device.t, canonical_device v -> carried v) /\ (forall v : Wallet.t, canonical_wallet v -> carried v) /\
  (forall v : ProvisioningChallenge.t, canonical_challenge v -> carried v) /\
  (forall v : AuthorizationGrant.t, canonical_grant v -> carried v) /\
  (forall v : ValidatorRegistration.t, canonical (ValidatorRegistration.requestedAt v) -> carried v) /\
  (forall v : ValidatorHistoryRecord.t, canonical (ValidatorHistoryRecord.timestamp v) -> carried v) /\
  (forall v : NotificationDelivery.t, canonical (NotificationDelivery.createdAt v) -> carried v) /\
  (forall v : Asset.t, carried v) /\ (forall v : Job.t, canonical_job v -> carried v) /\
  (forall v : Evidence.t, canonical_evidence v -> carried v).
Proof. split_and!; auto with bel. Qed.
End Rows.
#[local] Hint Resolve carried_identity carried_user carried_device carried_wallet carried_challenge carried_grant carried_validator
  carried_history carried_notification carried_asset carried_job carried_evidence : bel.

(** ** The client *)

(** What the documentation of the client promises of a table, and the model
    relies on: a call is rejected and the table is as it was, or it acts; the
    order of the rows of a table is not specified. *)
Class PrismaLaws {D R} `{PrismaTable D R} (key : R -> string) (table : D -> list R) : Prop := {
  findUnique_spec p d : match findUnique p d with
    | (inl _, d') => table d' = table d
    | (inr r, d') => table d' = table d /\ r = List.find p (table d)
    end;
  findMany_spec p ord d : match findMany p ord d with
    | (inl _, d') => table d' = table d
    | (inr l, d') => table d' = table d /\ l ≡ₚ List.filter p (table d)
    end;
  upsert_spec p row f d : match upsert p row f d with
    | (inl _, d') => table d' = table d
    | (inr _, d') => table d' ≡ₚ match List.find p (table d) with
                                 | Some _ => map (fun r => if p r then f r else r) (table d)
                                 | None => table d ++ [row]
                                 end
    end;
  (** a duplicate of the primary key is rejected *)
  create_spec row d : match create row d with
    | (inl _, d') => table d' = table d
    | (inr _, d') => table d' ≡ₚ table d ++ [row] /\ ~ In (key row) (map key (table d))
    end;
  updateMany_spec p f d : match updateMany p f d with
    | (inl _, d') => table d' = table d
    | (inr n, d') => table d' ≡ₚ map (fun r => if p r then f r else r) (table d) /\ n = Z.of_nat (length (List.filter p (table d)))
    end;
}.

Section Table.
Context `{PF : Platform} {E R D : Type} `{RowOf E R} `{PrismaTable D R} (table : D -> list R) `{!PrismaLaws row_key table} `{PrismaValidation}.

(** The records a table holds, by key. *)
Definition records (d : D) : jsmap E := map (fun r => (row_key r, ofRow r)) (table d).
(** The table holds the records of the map. *)
Definition represents (d : D) (m : jsmap E) : Prop := wf m /\ m ≡ₚ records d.

Lemma has_key_eqb id (r : R) : has_key id r = String.eqb id (row_key r).
Proof. apply String.eqb_sym. Qed.
Lemma records_get id l : get id (map (fun r : R => (row_key r, ofRow r)) l) = ofRow <$> List.find (has_key id) l.
Proof. induction l as [|r l IH]; [done|]. simpl. rewrite has_key_eqb. by destruct (String.eqb id (row_key r)). Qed.
Lemma update_absent id (f : R -> R) l : ~ In id (map row_key l) -> map (fun r => if has_key id r then f r else r) l = l.
Proof.
  intros Hn. induction l as [|r l IH]; [done|]. simpl in *. rewrite has_key_eqb.
  destruct (String.eqb_spec id (row_key r)) as [->|]; [tauto|]. rewrite IH; tauto.
Qed.
Lemma records_put id row l : row_key row = id -> List.NoDup (map row_key l) ->
  put id (ofRow row) (map (fun r : R => (row_key r, ofRow r)) l) =
  map (fun r => (row_key r, ofRow r))
    (match List.find (has_key id) l with Some _ => map (fun r => if has_key id r then row else r) l | None => l ++ [row] end).
Proof.
  intros Hk. induction l as [|r l IH]; simpl; intros Hd; [by rewrite <- Hk|].
  apply NoDup_cons_iff in Hd as [Hn Hd]. specialize (IH Hd). rewrite !has_key_eqb.
  destruct (String.eqb_spec id (row_key r)) as [E0|Hne]; simpl.
  - rewrite update_absent by congruence. by rewrite Hk, E0.
  - rewrite IH. by destruct (List.find (has_key id) l).
Qed.

Lemma represents_stable d d' m : table d' = table d -> represents d m -> represents d' m.
Proof. unfold represents, records. by intros ->. Qed.
Lemma represents_get d m id : represents d m -> ofRow <$> List.find (has_key id) (table d) = get id m.
Proof. intros [Hm Hp]. rewrite (get_Permutation _ _ id Hm Hp). symmetry. apply records_get. Qed.
Lemma represents_keys d m : represents d m -> List.NoDup (map row_key (table d)).
Proof. intros [Hm Hp]. apply (wf_Permutation _ _ Hm) in Hp. unfold wf, keys, records in Hp. by rewrite map_map in Hp. Qed.
Lemma represents_values d m : represents d m -> values m ≡ₚ map ofRow (table d).
Proof. intros [_ Hp]. apply (Permutation_map snd) in Hp. unfold records in Hp. by rewrite map_map in Hp. Qed.

(** Each call on the table runs as the function of the map that the memory
    adapter applies, unless it is rejected; then nothing has changed. *)
Lemma findById_refines id d m : represents d m ->
  match findById id d with
  | (inl _, d') => represents d' m
  | (inr r, d') => represents d' m /\ r = get id m
  end.
Proof.
  intros Hr. unfold findById, findOne, prisma_call, rescue, mbind, M_bind. assert (Hs := findUnique_spec (has_key id) d).
  destruct (findUnique _ d) as [[e|r] d'] eqn:E0; simpl; [by eapply represents_stable|]. destruct Hs as [Ht ->].
  split; [by eapply represents_stable|]. by apply represents_get.
Qed.
Lemma save_refines (v : E) d m : carried v -> represents d m ->
  match save v d with
  | (inl _, d') => represents d' m
  | (inr _, d') => represents d' (put (entity_key v) v m)
  end.
Proof.
  intros (row & Et & Eo & Ek) Hr. unfold save, valid_data, require. rewrite Et. unfold prisma_call, rescue, mbind, M_bind, mret, M_ret.
  assert (Hs := upsert_spec (has_key (entity_key v)) row (fun _ => row) d).
  destruct (upsert _ _ _ d) as [[e|u] d'] eqn:E0; simpl; [by eapply represents_stable|].
  assert (Hk := represents_keys d m Hr). destruct Hr as [Hm Hp]. split; [by apply wf_put|].
  etransitivity; [by apply put_Permutation|]. assert (Hput := records_put _ row (table d) Ek Hk).
  rewrite Eo in Hput. unfold records. rewrite Hput. apply Permutation_map. by symmetry.
Qed.
Lemma listWhere_refines p q ord d m : represents d m -> (forall r, p r = q (ofRow r)) ->
  match listWhere p ord d with
  | (inl _, d') => represents d' m
  | (inr l, d') => represents d' m /\ l ≡ₚ List.filter q (values m)
  end.
Proof.
  intros Hr Hpq. unfold listWhere, prisma_call, rescue, mbind, M_bind, mret, M_ret. assert (Hs := findMany_spec p ord d).
  destruct (findMany _ _ d) as [[e|l] d'] eqn:E0; simpl; [by eapply represents_stable|]. destruct Hs as [Ht Hl].
  split; [by eapply represents_stable|]. etransitivity; [by apply Permutation_map|].
  assert (Hv := represents_values d m Hr). etransitivity; [|symmetry; apply filter_Permutation; exact Hv].
  clear -Hpq. induction (table d) as [|r l' IH]; [done|]. simpl. rewrite Hpq. destruct (q (ofRow r)); simpl; by rewrite ?IH.
Qed.
Lemma append_refines (v : E) d m : carried v -> represents d m ->
  match append v d with
  | (inl _, d') => represents d' m
  | (inr _, d') => represents d' (put (entity_key v) v m)
  end.
Proof.
  intros (row & Et & Eo & Ek) Hr. unfold append, valid_data, require. rewrite Et. unfold prisma_call, rescue, mbind, M_bind, mret, M_ret.
  assert (Hs := create_spec row d). destruct (create _ d) as [[e|u] d'] eqn:E0; simpl; [by eapply represents_stable|].
  destruct Hs as [Ht Hn]. destruct Hr as [Hm Hp]. split; [by apply wf_put|].
  etransitivity; [by apply put_Permutation|]. rewrite put_fresh.
  - unfold records. rewrite (Permutation_map _ Ht), map_app. simpl. by rewrite Ek, Eo.
  - unfold records. rewrite records_get. destruct (List.find _ _) as [r|] eqn:Ef; [|done]. exfalso. apply Hn.
    apply find_some in Ef as [Hin Hk]. apply String.eqb_eq in Hk. rewrite Ek, <- Hk. by apply in_map.
Qed.
End Table.

(** ** Simulation of the memory adapters *)

(** Run from a state of the database and a state of the memory repositories
    that are related, [m] is rejected and leaves them related, or both return
    related values in related states. *)
Definition simulates {D W A} (related : D -> W -> Prop) (same : A -> A -> Prop) (m : M exn D A) (m' : M exn W A) : Prop :=
  forall d w, related d w ->
  match m d with
  | (inl _, d') => related d' w
  | (inr a, d') => exists a' w', m' w = (inr a', w') /\ same a a' /\ related d' w'
  end.

Section Simulation.
Context {E R D W : Type} `{RowOf E R} `{PrismaTable D R} (table : D -> list R) `{!PrismaLaws row_key table} `{PrismaValidation}.
Context (map_of : W -> jsmap E) (upd : (jsmap E -> jsmap E) -> W -> W) (map_upd : forall f w, map_of (upd f w) = f (map_of w)).

(** The table holds what the map of the memory repository holds. *)
Definition holds (d : D) (w : W) : Prop := represents table d (map_of w).

Lemma find_simulates id : simulates holds eq (findById id) (gets (fun w => get id (map_of w))).
Proof.
  intros d w Hr. assert (Hs := findById_refines table id d _ Hr). destruct (findById id d) as [[e|r] d']; [done|].
  destruct Hs as [Hs ->]. by exists (get id (map_of w)), w.
Qed.
Lemma list_simulates p q ord : (forall r, p r = q (ofRow r)) ->
  simulates holds Permutation (listWhere p ord) (gets (fun w => List.filter q (values (map_of w)))).
Proof.
  intros Hpq d w Hr. assert (Hs := listWhere_refines table p q ord d _ Hr Hpq). destruct (listWhere p ord d) as [[e|l] d']; [done|].
  destruct Hs as [Hs Hl]. by exists (List.filter q (values (map_of w))), w.
Qed.
Lemma list_all_simulates ord : simulates holds Permutation (listWhere (fun _ => true) ord) (gets (fun w => values (map_of w))).
Proof.
  intros d w Hr. assert (Hs := listWhere_refines table _ (fun _ => true) ord d _ Hr (fun _ => eq_refl)).
  destruct (listWhere _ ord d) as [[e|l] d']; [done|]. destruct Hs as [Hs Hl]. exists (values (map_of w)), w. split_and!; try done.
  rewrite Hl. clear. by induction (values (map_of w)) as [|v l IH]; simpl; rewrite ?IH.
Qed.
(** At most one record satisfies [q], as a unique column of a table has it. *)
Definition one_at_most (q : E -> bool) (w : W) : Prop :=
  forall x y, In x (values (map_of w)) -> In y (values (map_of w)) -> q x = true -> q y = true -> x = y.
Lemma find_one_simulates p q : (forall r, p r = q (ofRow r)) ->
  simulates (fun d w => holds d w /\ one_at_most q w) eq (findOne p) (gets (fun w => List.find q (values (map_of w)))).
Proof.
  intros Hpq d w [Hr Hone]. unfold findOne, prisma_call, rescue, mbind, M_bind, mret, M_ret. assert (Hs := findUnique_spec p d).
  destruct (findUnique p d) as [[e|r] d'] eqn:E0; simpl; [split; [by eapply represents_stable|done]|]. destruct Hs as [Ht ->].
  exists (List.find q (values (map_of w))), w. split_and!; [done| |by eapply represents_stable|done].
  assert (Hv := represents_values table d _ Hr). destruct (List.find p (table d)) as [r|] eqn:Ep; simpl.
  - apply find_some in Ep as [Hin Hp]. rewrite Hpq in Hp.
    assert (Hin' : In (ofRow r) (values (map_of w))) by (eapply Permutation_in; [symmetry; exact Hv|by apply in_map]).
    destruct (List.find q (values (map_of w))) as [x|] eqn:Eq; [apply find_some in Eq as [? ?]; f_equal; by apply Hone|].
    by rewrite (find_none _ _ Eq _ Hin') in Hp.
  - destruct (List.find q (values (map_of w))) as [x|] eqn:Eq; [|done]. apply find_some in Eq as [Hin Hq]. exfalso.
    apply (Permutation_in _ Hv), in_map_iff in Hin as (r & <- & Hin). rewrite <- Hpq in Hq. by rewrite (find_none _ _ Ep _ Hin) in Hq.
Qed.
Lemma save_simulates v : carried v -> simulates holds eq (save v) (modify (upd (put (entity_key v) v))).
Proof.
  intros Hv d w Hr. assert (Hs := save_refines table v d _ Hv Hr). destruct (save v d) as [[e|[]] d']; [done|].
  exists tt, (upd (put (entity_key v) v) w). split_and!; try done. unfold holds. by rewrite map_upd.
Qed.
Lemma append_simulates v : carried v -> simulates holds eq (append v) (modify (upd (put (entity_key v) v))).
Proof.
  intros Hv d w Hr. assert (Hs := append_refines table v d _ Hv Hr). destruct (append v d) as [[e|[]] d']; [done|].
  exists tt, (upd (put (entity_key v) v) w). split_and!; try done. unfold holds. by rewrite map_upd.
Qed.
End Simulation.

(** ** Challenges are consumed once *)

Section Challenges.
Context `{PF : Platform} `{!PlatformLaws PF} `{PrismaValidation}.
Implicit Types l : list ChallengeRow.t.
Abbreviation update_unused id t := (map (fun r => if unused id r then ChallengeRow.used t r else r)).
Abbreviation recs := (map (fun r : ChallengeRow.t => (row_key r, ofRow r))).

Lemma unused_eqb id (r : ChallengeRow.t) : unused id r = String.eqb id (row_key r) && bool_decide (ChallengeRow.usedAt r = None).
Proof. unfold unused. by rewrite has_key_eqb. Qed.
Lemma unused_absent id t l : ~ In id (map row_key l) -> List.filter (unused id) l = [] /\ update_unused id t l = l.
Proof.
  induction l as [|r l IH]; [done|]. simpl. intros Hn. rewrite !unused_eqb.
  destruct (String.eqb_spec id (row_key r)) as [->|]; [tauto|]. simpl. destruct IH as [-> ->]; [tauto|done].
Qed.
(** What one update of the unused rows with a key does. *)
Lemma consume_rows id t l : List.NoDup (map row_key l) ->
  match List.find (has_key id) l with
  | Some r =>
      match ChallengeRow.usedAt r with
      | None => List.filter (unused id) l = [r] /\ recs (update_unused id t l) = put id (ofRow (ChallengeRow.used t r)) (recs l)
      | Some _ => List.filter (unused id) l = [] /\ update_unused id t l = l
      end
  | None => List.filter (unused id) l = [] /\ update_unused id t l = l
  end.
Proof.
  induction l as [|r l IH]; [done|]. intros [Hn Hd]%NoDup_cons_iff. cbn [List.find List.filter map]. rewrite !unused_eqb, has_key_eqb.
  destruct (String.eqb_spec id (row_key r)) as [->|Hne]; cbn [andb].
  - destruct (unused_absent _ t l Hn) as [-> ->]. destruct (ChallengeRow.usedAt r); [done|].
    split; [done|]. simpl. by rewrite String.eqb_refl.
  - specialize (IH Hd). destruct (List.find (has_key id) l) as [r0|]; [destruct (ChallengeRow.usedAt r0)|];
      destruct IH as [-> Eu]; rewrite ?Eu; auto. split; [done|]. simpl.
    by rewrite (proj2 (String.eqb_neq id (ChallengeRow.challengeId r)) Hne).
Qed.

Context {C D : Type} `{PrismaTable D ChallengeRow.t} (table : D -> list ChallengeRow.t) `{!PrismaLaws row_key table}.

Lemma truthy_iso t : truthy_string (Some (asIso t)) = true.
Proof. unfold asIso. assert (Hne := toISOString_nonempty t). by destruct (toISOString t). Qed.
Lemma truthy_used r :
  truthy_string (ProvisioningChallenge.usedAt (mapChallenge r)) = match ChallengeRow.usedAt r with Some _ => true | None => false end.
Proof. simpl. destruct (ChallengeRow.usedAt r); [apply truthy_iso|done]. Qed.
Lemma consume_simulates id usedAt : canonical usedAt ->
  simulates (holds table (fun w : World C => w_challenges w)) eq (PrismaChallenge_consumeIfUnused id usedAt) (consumeIfUnused id usedAt).
Proof.
  intros Hc d w Hr. destruct (date_back usedAt Hc) as (t & Et & Ei). assert (Hg := represents_get table d _ id Hr).
  assert (Hu := consume_rows id t _ (represents_keys table d _ Hr)).
  unfold PrismaChallenge_consumeIfUnused, valid_data, require. rewrite Et.
  unfold prisma_call, rescue, mbind, M_bind, mret, M_ret. assert (Hs := updateMany_spec (unused id) (ChallengeRow.used t) d).
  destruct (updateMany _ _ d) as [[e|n] d'] eqn:E0; simpl; [by eapply represents_stable|]. destruct Hs as [Ht ->].
  unfold consumeIfUnused. cbn beta. rewrite <- Hg. clear Hg E0.
  destruct (List.find (has_key id) (table d)) as [r|] eqn:Ef; cbn [fmap option_fmap option_map].
  - change (ofRow r) with (mapChallenge r). rewrite truthy_used.
    destruct (ChallengeRow.usedAt r) as [t0|] eqn:Eu; destruct Hu as [El Em]; rewrite El; simpl.
    + exists false, w. split_and!; try done. destruct Hr as [Hm Hp]. split; [done|].
      unfold records in *. by rewrite Ht, Em.
    + eexists true, _. split_and!; [done|done|]. destruct Hr as [Hm Hp]. split; [by apply wf_put|].
      unfold records in *. rewrite Ht, Em. rewrite <- Ei. by apply put_Permutation.
  - destruct Hu as [-> Em]. exists false, w. split_and!; try done. destruct Hr as [Hm Hp]. split; [done|].
    unfold records in *. by rewrite Ht, Em.
Qed.
End Challenges.

(** ** The adapters *)

Section Adapters.
Context `{PF : Platform} `{!PlatformLaws PF} `{PrismaValidation} {C D : Type}.
Context `{PrismaTable D IdentityRow.t} `{PrismaTable D User.t} `{PrismaTable D DeviceRow.t} `{PrismaTable D WalletRow.t}
  `{PrismaTable D ChallengeRow.t} `{PrismaTable D GrantRow.t} `{PrismaTable D ValidatorRow.t} `{PrismaTable D HistoryRow.t}
  `{PrismaTable D NotificationRow.t} `{PrismaTable D Asset.t} `{PrismaTable D JobRow.t} `{PrismaTable D EvidenceRow.t}.
Context (identities : D -> list IdentityRow.t) (users : D -> list User.t) (devices : D -> list DeviceRow.t)
  (wallets : D -> list WalletRow.t) (challenges : D -> list ChallengeRow.t) (grants : D -> list GrantRow.t)
  (validators : D -> list ValidatorRow.t) (history : D -> list HistoryRow.t) (notifications : D -> list NotificationRow.t)
  (assets : D -> list Asset.t) (jobs : D -> list JobRow.t) (evidence : D -> list EvidenceRow.t).
Context `{!PrismaLaws row_key identities} `{!PrismaLaws row_key users} `{!PrismaLaws row_key devices} `{!PrismaLaws row_key wallets}
  `{!PrismaLaws row_key challenges} `{!PrismaLaws row_key grants} `{!PrismaLaws row_key validators} `{!PrismaLaws row_key history}
  `{!PrismaLaws row_key notifications} `{!PrismaLaws row_key assets}
  `{!PrismaLaws row_key jobs} `{!PrismaLaws row_key evidence}.
Abbreviation as_ table proj := (simulates (holds table (fun w : World C => proj w))).

Lemma insert_by_time_permutes l : fold_right insert_by_time [] l ≡ₚ l.
Proof.
  assert (Hi : forall v l, insert_by_time v l ≡ₚ v :: l).
  { intros v l'. induction l' as [|x l' IH]; simpl; [done|]. destruct (String.leb _ _); [done|]. rewrite IH. constructor. }
  induction l as [|v l IH]; simpl; [done|]. by rewrite Hi, IH.
Qed.
Lemma history_simulates : as_ history w_validatorHistory Permutation PrismaHistory_list validatorHistory_list.
Proof.
  intros d w Hr. assert (Hs := list_all_simulates history (fun w : World C => w_validatorHistory w) (asc_Z HistoryRow.timestamp) d w Hr).
  unfold PrismaHistory_list. destruct (listWhere _ _ d) as [[e|l] d']; [done|]. destruct Hs as (a & w' & [= <- <-] & Hl & Hr').
  eexists _, _. split_and!; [reflexivity| |exact Hr']. by rewrite insert_by_time_permutes.
Qed.
Abbreviation as_one table proj q := (simulates (fun d w => holds table (fun w : World C => proj w) d w /\ one_at_most (fun w : World C => proj w) q w)).

(** C19: The database repositories refine the memory repositories, in these
    calls, for every table but those of sessions and credentials, which the
    database keeps by hash: the search by key; the search by employee id,
    identity id and validator id where at most one record has it, as the unique
    columns of the tables have it; the lists; the saves and appends of records
    whose timestamps are canonical, of evidence with an id that is not empty;
    and the consumption of a challenge at a canonical time.  As long as a table
    holds the records of the map of the memory repository, the call on the
    table is rejected and leaves it so, or returns what the call on the memory
    repository returns, a list up to its order, and the two still hold the same
    records. *)
Theorem prisma_refines_memory :
  (forall id, as_ identities w_identities eq (PrismaIdentity_findById id) (identities_findById id) /\
    as_ users w_users eq (PrismaUser_findById id) (users_findById id) /\
    as_ devices w_devices eq (PrismaDevice_findById id) (devices_findById id) /\
    as_ wallets w_wallets eq (PrismaWallet_findByAddress id) (wallets_findByAddress id) /\
    as_ challenges w_challenges eq (PrismaChallenge_findById id) (challenges_findById id) /\
    as_ grants w_grants eq (PrismaGrant_findById id) (grants_findById id) /\
    as_ validators w_validators eq (PrismaValidator_findById id) (validators_findById id) /\
    as_ assets w_assetRecords eq (PrismaAsset_findById id) (assets_findById id) /\
    as_ jobs w_jobs eq (PrismaJob_findById id) (jobs_findById id) /\
    as_ evidence w_evidenceRecords eq (PrismaEvidence_findById id) (evidence_findById id)) /\
  (forall status, as_ identities w_identities Permutation (PrismaIdentity_listByStatus status) (identities_listByStatus status)) /\
  (forall id, as_ devices w_devices Permutation (PrismaDevice_listByIdentityId id) (devices_listByIdentityId id) /\
    as_ wallets w_wallets Permutation (PrismaWallet_listByIdentityId id) (wallets_listByIdentityId id) /\
    as_ grants w_grants Permutation (PrismaGrant_listByIdentityId id) (grants_listByIdentityId id) /\
    as_ evidence w_evidenceRecords Permutation (PrismaEvidence_listByJob id) (evidence_listByJob id)) /\
  (forall id, as_one identities w_identities (fun i => bool_decide (Identity.employeeId i = Some id)) eq
      (PrismaIdentity_findByEmployeeId id) (identities_findByEmployeeId id) /\
    as_one users w_users (fun u => String.eqb (User.identityId u) id) eq (PrismaUser_findByIdentityId id) (users_findByIdentityId id) /\
    as_one validators w_validators (fun v => String.eqb (ValidatorRegistration.validatorId v) id) eq
      (PrismaValidator_findByValidatorId id) (validators_findByValidatorId id)) /\
  as_ validators w_validators Permutation PrismaValidator_list validators_list /\
  as_ history w_validatorHistory Permutation PrismaHistory_list validatorHistory_list /\
  as_ assets w_assetRecords Permutation PrismaAsset_list assets_list /\
  as_ jobs w_jobs Permutation PrismaJob_list jobs_list /\
  (forall v, canonical_identity v -> as_ identities w_identities eq (PrismaIdentity_save v) (identities_save v)) /\
  (forall v, as_ users w_users eq (PrismaUser_save v) (users_save v)) /\
  (forall v, canonical_device v -> as_ devices w_devices eq (PrismaDevice_save v) (devices_save v)) /\
  (forall v, canonical_wallet v -> as_ wallets w_wallets eq (PrismaWallet_save v) (wallets_save v)) /\
  (forall v, canonical_challenge v -> as_ challenges w_challenges eq (PrismaChallenge_save v) (challenges_save v)) /\
  (forall v, canonical_grant v -> as_ grants w_grants eq (PrismaGrant_save v) (grants_save v)) /\
  (forall v, canonical (ValidatorRegistration.requestedAt v) ->
    as_ validators w_validators eq (PrismaValidator_save v) (validators_save v)) /\
  (forall v, canonical (ValidatorHistoryRecord.timestamp v) ->
    as_ history w_validatorHistory eq (PrismaHistory_append v) (validatorHistory_append v)) /\
  (forall v, canonical (NotificationDelivery.createdAt v) ->
    as_ notifications w_notifications eq (PrismaNotification_append v) (notifications_append v)) /\
  (forall v, as_ assets w_assetRecords eq (PrismaAsset_save v) (assets_save v)) /\
  (forall v, canonical_job v -> as_ jobs w_jobs eq (PrismaJob_save v) (jobs_save v)) /\
  (forall randomUUID v, canonical_evidence v -> Evidence.evidenceId v <> "" ->
    as_ evidence w_evidenceRecords eq (PrismaEvidence_save randomUUID v) (evidence_save v)) /\
  (forall id usedAt, canonical usedAt ->
    as_ challenges w_challenges eq (PrismaChallenge_consumeIfUnused id usedAt) (consumeIfUnused id usedAt)).
Proof.
  repeat match goal with |- _ /\ _ => split | |- forall _, _ => intros end.
  all: try apply history_simulates.
  all: try by (eapply (find_one_simulates _ _); intros []).
  all: try by apply (find_simulates _).
  all: try by apply (list_all_simulates _).
  all: try by apply consume_simulates.
  all: autounfold with repo; unfold wallets_of, grants_of, PrismaIdentity_save, PrismaUser_save, PrismaDevice_save, PrismaWallet_save,
    PrismaChallenge_save, PrismaGrant_save, PrismaValidator_save, PrismaHistory_append, PrismaNotification_append, PrismaAsset_save,
    PrismaJob_save.
  all: try by match goal with |- simulates (holds ?table ?proj) _ _ _ => eapply (list_simulates table proj); intros; reflexivity end.
  all: try by match goal with |- simulates (holds ?table ?proj) _ _ (modify (?upd (put _ ?v))) =>
    first [refine (save_simulates table proj upd (fun _ _ => eq_refl) v _); auto with bel
          |refine (append_simulates table proj upd (fun _ _ => eq_refl) v _); auto with bel] end.
  intros d w. unfold PrismaEvidence_save. rewrite (proj2 (String.eqb_neq _ _)) by done.
  destruct v. refine (append_simulates evidence (fun w : World C => w_evidenceRecords w) upd_evidenceRecords (fun _ _ => eq_refl) _ _ d w).
  by apply carried_evidence.
Qed.
End Adapters.

(** ** Sessions and credentials *)

Section Revocation.
Context `{PF : Platform} `{PrismaValidation} {D : Type} `{PrismaTable D SessionRow.t} `{PrismaTable D CredentialRow.t} (clock : D -> Z).
Context (sessions : D -> list SessionRow.t) `{!PrismaLaws SessionRow.tokenHash sessions}.
Context (credentials : D -> list CredentialRow.t) `{!PrismaLaws CredentialRow.id credentials}.

(** A row found after an update of the rows with the property is an updated row. *)
Lemma find_updated {R} (p : R -> bool) (f : R -> R) l l' r :
  l' ≡ₚ map (fun r => if p r then f r else r) l -> (forall r, p r = true -> p (f r) = true) ->
  List.find p l' = Some r -> exists r0, p r0 = true /\ r = f r0.
Proof.
  intros Hl Hf [Hin Hp]%find_some. apply (Permutation_in _ Hl), in_map_iff in Hin as (r0 & <- & Hin).
  destruct (p r0) eqn:E; [by exists r0|]. congruence.
Qed.
Definition answers {A} (m : M exn D A) (d : D) (P : A -> Prop) : Prop := match m d with (inr a, _) => P a | (inl _, _) => True end.

Lemma session_found token d (P : option SessionRecord.t -> Prop) :
  P (r ← List.find (hashed token) (sessions d); match SessionRow.revokedAt r with Some _ => None | None => Some (mapSession token r) end) ->
  answers (PrismaSession_find token) d P.
Proof.
  intros HP. unfold answers, PrismaSession_find, prisma_call, rescue, mbind, M_bind, mret, M_ret.
  assert (Hs := findUnique_spec (hashed token) d). destruct (findUnique _ d) as [[e|r] d'] eqn:E0; simpl; [done|].
  destruct Hs as [_ ->]. exact HP.
Qed.

(** What a row with the property is after an accepted upsert. *)
Lemma find_upserted {R} (p : R -> bool) row (f : R -> R) l l' :
  l' ≡ₚ match List.find p l with Some _ => map (fun r => if p r then f r else r) l | None => l ++ [row] end ->
  (forall r, p r = true -> p (f r) = true) -> p row = true ->
  exists r, List.find p l' = Some r /\ (r = row \/ exists r0, p r0 = true /\ r = f r0).
Proof.
  intros Hl Hf Hp. destruct (List.find p l') as [r|] eqn:E.
  - exists r. split; [done|]. destruct (List.find p l) as [r0|] eqn:E0; [right; by eapply find_updated|left].
    apply find_some in E as [Hin Hpr]. apply (Permutation_in _ Hl), in_app_iff in Hin as [Hin|[<-|[]]]; [|done].
    assert (p r = false); [by eapply find_none|congruence].
  - exfalso. assert (Hn := find_none p _ E). symmetry in Hl. destruct (List.find p l) as [r0|] eqn:E0.
    + apply find_some in E0 as [Hin Hpr]. enough (p (f r0) = false) by (rewrite Hf in *; done).
      apply Hn, (Permutation_in _ Hl), in_map_iff. exists r0. by rewrite Hpr.
    + enough (p row = false) by congruence. apply Hn, (Permutation_in _ Hl), in_app_iff. by right; left.
Qed.
Lemma date_of_integer t : (Z.abs t <= MAX_TIME)%Z -> date_of_num (num_of_Z t) = Some t.
Proof. intros Ht. unfold date_of_num, num_of_Z. cbn [Qnum Qden inject_Z]. rewrite Z.quot_1_r. by rewrite (proj2 (Z.leb_le _ _) Ht). Qed.

(** An accepted [updateMany], by the table it leaves. *)
Lemma updateMany_accepted {R} `{PrismaTable D R} key (table : D -> list R) `{!PrismaLaws key table} p f d d' :
  (prisma_call (updateMany p f);; mret tt) d = (inr tt, d') -> table d' ≡ₚ map (fun r => if p r then f r else r) (table d).
Proof.
  unfold prisma_call, rescue, mbind, M_bind. assert (Hs := updateMany_spec p f d).
  destruct (updateMany p f d) as [[e|n] d1]; [done|]. intros [= <-]. apply Hs.
Qed.
Lemma credential_found verifier d (P : option string -> Prop) :
  P (r ← List.find (verifies verifier) (credentials d); if CredentialRow.active r then Some (CredentialRow.deviceId r) else None) ->
  answers (PrismaCredential_findDeviceId verifier) d P.
Proof.
  intros HP. unfold answers, PrismaCredential_findDeviceId, prisma_call, rescue, mbind, M_bind, mret, M_ret.
  assert (Hs := findUnique_spec (verifies verifier) d). destruct (findUnique _ d) as [[e|r] d'] eqn:E0; simpl; [done|].
  destruct Hs as [_ ->]. exact HP.
Qed.

(** Sessions and credentials in the database end when they are ended.  A
    saved session is the one found for its token; once its deletion is
    accepted none is found for the token; once a credential is revoked, its
    verifier has no device, and once the credentials of a device are, no
    verifier has that device. *)
Theorem database_revocations :
  (forall v t d d', SessionRecord.expiresAt v = num_of_Z t -> (Z.abs t <= MAX_TIME)%Z -> PrismaSession_save v d = (inr tt, d') ->
    answers (PrismaSession_find (SessionRecord.token v)) d' (fun r => r = Some v)) /\
  (forall token d d', PrismaSession_delete clock token d = (inr tt, d') ->
    answers (PrismaSession_find token) d' (fun r => r = None)) /\
  (forall verifier d d', PrismaCredential_revoke verifier d = (inr tt, d') ->
    answers (PrismaCredential_findDeviceId verifier) d' (fun r => r = None)) /\
  (forall deviceId d d', PrismaCredential_revokeForDevice deviceId d = (inr tt, d') ->
    forall verifier, answers (PrismaCredential_findDeviceId verifier) d' (fun r => r <> Some deviceId)).
Proof.
  split_and!.
  - intros v t d d' Hv Ht. unfold PrismaSession_save, valid_data, require, sessionData. rewrite Hv, date_of_integer by done. simpl.
    unfold prisma_call, rescue, mbind, M_bind, mret, M_ret. set (row := SessionRow.mk _ _ _ _ _ _). set (f := fun r : SessionRow.t => _).
    assert (Hs := upsert_spec (hashed (SessionRecord.token v)) row f d).
    destruct (upsert _ row f d) as [[e|u] d1]; intros [= ?]; subst d1.
    destruct (find_upserted _ _ _ _ _ Hs) as (r & Er & Hr); [done|apply String.eqb_refl|].
    apply session_found. rewrite Er. destruct v; simpl in *.
    destruct Hr as [->|(r0 & _ & ->)]; simpl; by rewrite Hv.
  - intros token d d' Hrun. apply session_found.
    change ((prisma_call (updateMany (hashed token) (SessionRow.revoked (clock d)));; mret tt) d = (inr tt, d')) in Hrun.
    apply (updateMany_accepted _ sessions) in Hrun.
    destruct (List.find (hashed token) (sessions d')) as [r|] eqn:E; [|done].
    by destruct (find_updated _ _ _ _ _ Hrun (fun _ h => h) E) as (r0 & _ & ->).
  - intros verifier d d' Hrun. apply credential_found. apply (updateMany_accepted _ credentials) in Hrun.
    destruct (List.find (verifies verifier) (credentials d')) as [r|] eqn:E; [|done].
    by destruct (find_updated _ _ _ _ _ Hrun (fun _ h => h) E) as (r0 & _ & ->).
  - intros deviceId d d' Hrun verifier. apply credential_found. apply (updateMany_accepted _ credentials) in Hrun.
    destruct (List.find (verifies verifier) (credentials d')) as [r|] eqn:E; simpl; [|done].
    apply find_some in E as [Hin _]. apply (Permutation_in _ Hrun), in_map_iff in Hin as (r0 & <- & _).
    unfold on_device. destruct (String.eqb_spec (CredentialRow.deviceId r0) deviceId); simpl; [done|].
    destruct (CredentialRow.active r0); congruence.
Qed.
End Revocation.

(** ** A database in memory

    For the witnesses: every table a list, no call rejected except a duplicate
    key. *)
Module Demo.
Inductive TableName :=
| T_identity | T_user | T_device | T_wallet | T_challenge | T_grant | T_validator | T_history | T_notification | T_asset | T_job
| T_evidence | T_session | T_credential.
#[export] Instance TableName_eq : EqDecision TableName.
Proof. solve_decision. Defined.
Definition row_type (x : TableName) : Type :=
  match x with
  | T_identity => IdentityRow.t | T_user => User.t | T_device => DeviceRow.t | T_wallet => WalletRow.t | T_challenge => ChallengeRow.t
  | T_grant => GrantRow.t | T_validator => ValidatorRow.t | T_history => HistoryRow.t | T_notification => NotificationRow.t
  | T_asset => Asset.t | T_job => JobRow.t | T_evidence => EvidenceRow.t | T_session => SessionRow.t | T_credential => CredentialRow.t
  end.
Definition key_of (x : TableName) : row_type x -> string :=
  match x with
  | T_identity => IdentityRow.identityId | T_user => User.employeeId | T_device => DeviceRow.deviceId | T_wallet => WalletRow.address
  | T_challenge => ChallengeRow.challengeId | T_grant => GrantRow.authorizationGrantId | T_validator => ValidatorRow.registrationId
  | T_history => HistoryRow.historyId | T_notification => NotificationRow.notificationId | T_asset => Asset.assetId
  | T_job => JobRow.jobId | T_evidence => EvidenceRow.evidenceId | T_session => SessionRow.tokenHash | T_credential => CredentialRow.id
  end.
Definition Db : Type := forall x, list (row_type x).
Definition empty : Db := fun _ => [].
Definition write (x : TableName) (l : list (row_type x)) (d : Db) : Db := fun y =>
  match decide (x = y) with left e => eq_rect x (fun z => list (row_type z)) l y e | right _ => d y end.
Lemma write_eq x l d : write x l d x = l.
Proof. unfold write. destruct (decide (x = x)) as [e|]; [|done]. by rewrite <- (Eqdep_dec.eq_rect_eq_dec TableName_eq). Qed.

Definition table (x : TableName) : PrismaTable Db (row_type x) := {|
  findUnique p := fun d => (inr (List.find p (d x)), d);
  findMany p _ := fun d => (inr (List.filter p (d x)), d);
  upsert p row f := fun d => (inr tt, write x (match List.find p (d x) with
    | Some _ => map (fun r => if p r then f r else r) (d x) | None => d x ++ [row] end) d);
  create row := fun d =>
    if existsb (String.eqb (key_of x row)) (map (key_of x) (d x)) then (inl (RpcError.mk VNull "Unique constraint failed"), d)
    else (inr tt, write x (d x ++ [row]) d);
  updateMany p f := fun d =>
    (inr (Z.of_nat (length (List.filter p (d x)))), write x (map (fun r => if p r then f r else r) (d x)) d);
|}.
Lemma table_laws x : @PrismaLaws Db (row_type x) (table x) (key_of x) (fun d => d x).
Proof.
  constructor; intros; simpl; rewrite ?write_eq; try done.
  destruct (existsb _ _) eqn:E; [done|]. rewrite write_eq. split; [done|]. intros Hin.
  assert (existsb (String.eqb (key_of x row)) (map (key_of x) (d x)) = true); [|congruence].
  apply existsb_exists. eexists. split; [exact Hin|apply String.eqb_refl].
Qed.
#[export] Instance invalid_date : PrismaValidation := RpcError.mk VNull "Invalid Date".

#[local] Instance platform : Platform := concrete (fun _ => None).
#[local] Instance platform_laws : PlatformLaws platform := concrete_laws _.
#[local] Instance table_identity : PrismaTable Db IdentityRow.t := table T_identity.
#[local] Instance table_user : PrismaTable Db User.t := table T_user.
#[local] Instance table_device : PrismaTable Db DeviceRow.t := table T_device.
#[local] Instance table_wallet : PrismaTable Db WalletRow.t := table T_wallet.
#[local] Instance table_challenge : PrismaTable Db ChallengeRow.t := table T_challenge.
#[local] Instance table_grant : PrismaTable Db GrantRow.t := table T_grant.
#[local] Instance table_validator : PrismaTable Db ValidatorRow.t := table T_validator.
#[local] Instance table_history : PrismaTable Db HistoryRow.t := table T_history.
#[local] Instance table_notification : PrismaTable Db NotificationRow.t := table T_notification.
#[local] Instance table_asset : PrismaTable Db Asset.t := table T_asset.
#[local] Instance table_job : PrismaTable Db JobRow.t := table T_job.
#[local] Instance table_evidence : PrismaTable Db EvidenceRow.t := table T_evidence.
#[local] Instance table_session : PrismaTable Db SessionRow.t := table T_session.
#[local] Instance table_credential : PrismaTable Db CredentialRow.t := table T_credential.

Definition challenge : ProvisioningChallenge.t := ProvisioningChallenge.mk "c" "dev" "text" AUTHENTICATION (spell_Z 5) None None.
Definition save : M exn Db unit := PrismaChallenge_save challenge.
Definition consume : M exn Db bool := PrismaChallenge_consumeIfUnused "c" (spell_Z 6).
Definition session : SessionRecord.t := SessionRecord.mk "tok" "id" "dev" "0x1" (num_of_Z 9).
Definition login : M exn Db unit := PrismaSession_save session.
Definition logout : M exn Db unit := PrismaSession_delete (fun _ => 7%Z) "tok".
End Demo.

Lemma rows_carry_records_witness :
  @carried _ _ (@challenge_row Demo.platform) Demo.challenge.
Proof.
  destruct (@rows_carry_records Demo.platform Demo.platform_laws) as (_ & _ & _ & _ & Hc & _).
  apply Hc. split; [by exists 5%Z|exact I].
Defined.

(** The challenge, saved in both, is consumed in both by the first attempt
    and in neither by the second. *)
Lemma prisma_refines_memory_witness :
  let memory_consume : M exn (World MockChain) bool := consumeIfUnused "c" (spell_Z 6) in
  let w := snd (challenges_save Demo.challenge empty_world) in
  let d := snd (Demo.save Demo.empty) in
  exists d1 w1 d2 w2, Demo.consume d = (inr true, d1) /\ memory_consume w = (inr true, w1) /\
    Demo.consume d1 = (inr false, d2) /\ memory_consume w1 = (inr false, w2).
Proof.
  intros memory_consume w d.
  destruct (@prisma_refines_memory Demo.platform Demo.platform_laws Demo.invalid_date MockChain Demo.Db
    Demo.table_identity Demo.table_user Demo.table_device Demo.table_wallet Demo.table_challenge Demo.table_grant Demo.table_validator
    Demo.table_history Demo.table_notification Demo.table_asset Demo.table_job Demo.table_evidence
    (fun d => d Demo.T_identity) (fun d => d Demo.T_user) (fun d => d Demo.T_device) (fun d => d Demo.T_wallet)
    (fun d => d Demo.T_challenge) (fun d => d Demo.T_grant) (fun d => d Demo.T_validator) (fun d => d Demo.T_history)
    (fun d => d Demo.T_notification) (fun d => d Demo.T_asset) (fun d => d Demo.T_job) (fun d => d Demo.T_evidence)
    (Demo.table_laws Demo.T_identity) (Demo.table_laws Demo.T_user) (Demo.table_laws Demo.T_device) (Demo.table_laws Demo.T_wallet)
    (Demo.table_laws Demo.T_challenge) (Demo.table_laws Demo.T_grant)
    (Demo.table_laws Demo.T_validator) (Demo.table_laws Demo.T_history) (Demo.table_laws Demo.T_notification)
    (Demo.table_laws Demo.T_asset) (Demo.table_laws Demo.T_job) (Demo.table_laws Demo.T_evidence))
    as (_ & _ & _ & _ & _ & _ & _ & _ & _ & _ & _ & _ & Hsave & _ & _ & _ & _ & _ & _ & _ & Hconsume).
  assert (Hc : @canonical Demo.platform (spell_Z 6)) by (by exists 6%Z).
  assert (Hv : @canonical_challenge Demo.platform Demo.challenge) by (split; [by exists 5%Z|exact I]).
  destruct (Hsave Demo.challenge Hv Demo.empty empty_world) as ([] & w' & [= <-] & _ & H0); [by split; [apply wf_empty|]|].
  destruct (Hconsume "c" (spell_Z 6) Hc _ _ H0) as (b1 & w1 & E1 & Hb1 & H1).
  destruct (Hconsume "c" (spell_Z 6) Hc _ _ H1) as (b2 & w2 & E2 & Hb2 & H2).
  eexists _, w1, _, w2. split_and!; [reflexivity| |reflexivity|].
  - rewrite <- Hb1 in E1. exact E1.
  - rewrite <- Hb2 in E2. exact E2.
Defined.

Lemma database_revocations_witness :
  answers (@PrismaSession_find Demo.platform Demo.Db Demo.table_session "tok") (snd (Demo.logout (snd (Demo.login Demo.empty))))
    (fun r => r = None).
Proof.
  destruct (@database_revocations Demo.platform Demo.invalid_date Demo.Db Demo.table_session Demo.table_credential (fun _ => 7%Z)
    (fun d => d Demo.T_session) (Demo.table_laws Demo.T_session)
    (fun d => d Demo.T_credential) (Demo.table_laws Demo.T_credential)) as (_ & Hdelete & _).
  by apply (Hdelete "tok" (snd (Demo.login Demo.empty))).
Defined.
