(* ===== verification/Ipfs.v ===== *)
(** * Ipfs: evidence on a private Kubo node, [IpfsEvidenceStorage] of [backend/src/evidence/evidence.storage.ts]

    The node is reached over HTTP: [Kubo K] is what [fetch] makes of a request
    in a state [K] of the node.  A response is what its reader would see: the
    parts of the body that arrive, and whether the connection then broke.
    Cancelling a reader is taken to succeed. *)
From S2P Require Import Prelude Effects JsString JsMap JsValue Shared Errors World Schemas Rpc Evidence.
From Stdlib Require Import Ascii.
From stdpp Require Import pretty.
Local Open Scope string_scope.
Local Open Scope list_scope.

(** ** [encodeURIComponent] *)

(** Letters, digits and [- _ . ! ~ * ' ( )]. *)
Definition unreserved (a : ascii) : bool :=
  let n := nat_of_ascii a in
  is_digit a || bool_decide (65 <= n <= 90)%nat || bool_decide (97 <= n <= 122)%nat ||
  bool_decide (n ∈ [45; 95; 46; 33; 126; 42; 39; 40; 41]%nat).
Definition upper_hex (d : nat) : ascii := ascii_of_nat (if (d <? 10)%nat then 48 + d else 55 + d).
(** [%XX] *)
Definition percent (byte : nat) : string := String "%" (String (upper_hex (byte / 16)) (String (upper_hex (byte mod 16)) "")).
(** The UTF-8 bytes of a code unit below U+0100. *)
Definition encode_char (a : ascii) : string :=
  let n := nat_of_ascii a in
  if unreserved a then String a ""
  else if (n <? 128)%nat then percent n
  else percent (192 + n / 64) +:+ percent (128 + n mod 64).
Fixpoint encodeURIComponent (s : string) : string :=
  match s with "" => "" | String a s' => encode_char a +:+ encodeURIComponent s' end.

(** ** The node *)

(** A body as its reader sees it: its parts, and the error it ends with. *)
Module Stream.
Record t := mk { parts : list string; broken : option RpcError.t }.
End Stream.
Module HttpResponse.
Record t := mk { ok : bool; status : Z; content_length : option string; body : option Stream.t; content : RpcError.t + string }.
End HttpResponse.
(** The form of an upload: the bytes of its file and their media type. *)
Module FormFile.
Record t := mk { bytes : string; contentType : string; filename : string }.
End FormFile.

Class Kubo (K : Type) := fetch : string -> option FormFile.t -> M RpcError.t K HttpResponse.t.

Definition NOT_FOUND_MESSAGE : string := "IPFS object was not found".
Definition TOO_LARGE : string := "IPFS object exceeds the configured evidence limit".

(** [url.replace(/\/$/, "")] *)
Fixpoint without_slash (s : string) : string :=
  match s with
  | "" => ""
  | String a "" => if Ascii.eqb a "/" then "" else s
  | String a s' => String a (without_slash s')
  end.

Section Ipfs.
Context `{Platform} {K : Type} `{Kubo K} (apiUrl : string).
Abbreviation MK := (M exn K).

(** A rejection that nothing catches. *)
Definition uncaught {A} (r : RpcError.t + A) : MK A :=
  match r with inl err => throw (Error (RpcError.message err)) | inr a => mret a end.

(** [request(path, init)] *)
Definition request (path : string) (form : option FormFile.t) : MK HttpResponse.t :=
  response ← rescue (fetch (without_slash apiUrl +:+ path) form)
               (fun _ => throw (EvidenceStorageError "Private evidence storage is unavailable"));
  if HttpResponse.ok response then mret response
  else if (HttpResponse.status response =? 404)%Z then throw (EvidenceStorageError NOT_FOUND_MESSAGE)
  else throw (EvidenceStorageError ("IPFS request failed with status " +:+ pretty (HttpResponse.status response))).

(** ** Upload *)

(** [raw.trim().split("\n").filter(Boolean).at(-1) ?? ""] *)
Definition last_line (raw : string) : string :=
  List.last (List.filter (fun l => negb (String.eqb l "")) (split_char LINE_FEED (trim raw))) "".
(** [Number.isSafeInteger(Number(v)) && Number(v) > 0] *)
Definition valid_size (v : value) : bool :=
  match as_safe_integer (Number_value v) with Some n => (0 <? n)%Z | None => false end.

Definition ipfs_upload (bytes contentType : string) : MK StoredEvidence.t :=
  response ← request "/api/v0/add?pin=true" (Some (FormFile.mk bytes contentType "evidence"));
  raw ← uncaught (HttpResponse.content response);
  parsed ← require (JSON_parse (last_line raw)) (EvidenceStorageError "IPFS returned an invalid upload response");
  throw_if (match parsed with VNull | VUndefined => true | _ => false end)
    (Error "Cannot read properties of null (reading 'Hash')");;
  cid ← require (match prop "Hash" parsed with VStr cid => if blank cid then None else Some cid | _ => None end)
          (EvidenceStorageError "IPFS upload response did not contain a CID");
  let size := prop "Size" parsed in
  throw_if (match size with VUndefined => false | _ => negb (valid_size size) end)
    (EvidenceStorageError "IPFS upload response contained an invalid size");;
  mret (StoredEvidence.mk cid (byte_length bytes)).

(** ** Download *)

Definition DEFAULT_LIMIT : Z := (25 * 1024 * 1024)%Z.
Definition parseMaxDownloadBytes : Z :=
  match (match process_env "EVIDENCE_MAX_FILE_SIZE_MB" with Some v => Number_of v | None => num_of_Z 25 end) with
  | Num mb => if negb (Qle_bool mb 0) then floor_Z (mb * inject_Z (1024 * 1024)) else DEFAULT_LIMIT
  | _ => DEFAULT_LIMIT
  end.

(** The [for (;;)] over the reader; [total] counts what has been read and
    [chunks] is what has been kept. *)
Fixpoint read_parts (maxBytes total : Z) (chunks : string) (parts : list string) (broken : option RpcError.t) : MK string :=
  match parts with
  | [] => match broken with Some err => uncaught (inl err) | None => mret chunks end
  | part :: parts' =>
      let total' := (total + byte_length part)%Z in
      if (maxBytes <? total')%Z then throw (EvidenceStorageError TOO_LARGE)
      else read_parts maxBytes total' (chunks +:+ part) parts' broken
  end.

Definition ipfs_download (cid : string) : MK string :=
  response ← request ("/api/v0/cat?arg=" +:+ encodeURIComponent cid) None;
  let declaredSize := match HttpResponse.content_length response with Some v => Number_of v | None => num_of_Z 0 end in
  let maxBytes := parseMaxDownloadBytes in
  throw_if (num_lt (num_of_Z maxBytes) declaredSize) (EvidenceStorageError TOO_LARGE);;
  match HttpResponse.body response with
  | None =>
      bytes ← uncaught (HttpResponse.content response);
      throw_if (maxBytes <? byte_length bytes)%Z (EvidenceStorageError TOO_LARGE);;
      mret bytes
  | Some stream => read_parts maxBytes 0 "" (Stream.parts stream) (Stream.broken stream)
  end.

Definition ipfs_exists (cid : string) : MK bool :=
  try_catch (request ("/api/v0/block/stat?arg=" +:+ encodeURIComponent cid) None;; mret true)
    (fun error =>
      match error with
      | EvidenceStorageError m => if String.eqb m NOT_FOUND_MESSAGE then mret false else throw error
      | _ => throw error
      end).

(** ** The port *)

(** The state of the node is, like that of the chain, outside the process. *)
Context {C : Type} (kubo : C -> K) (set_kubo : K -> C -> C).
Definition on_kubo {A} (m : MK A) : M exn (World C) A := on_chain (zoom kubo set_kubo m).
Definition IpfsEvidenceStorage : EvidenceStorage C := {|
  storage_upload bytes contentType := on_kubo (ipfs_upload bytes contentType);
  storage_download cid := on_kubo (ipfs_download cid);
  storage_exists cid := on_kubo (ipfs_exists cid) |}.
End Ipfs.
