(* ===== verification/IpfsCorrect.v ===== *)
(** * IpfsCorrect: what comes back from the storage node

    A download returns exactly the complete body of the node's answer, within
    the limit; the limits of upload and download agree; failures of the node
    are hidden behind fixed messages, except that of a body that breaks off. *)
From S2P Require Import Prelude Effects JsString JsMap JsValue Shared Errors World Schemas Rpc Evidence EvidenceCorrect Ipfs Concrete MockChain.
From Stdlib Require Import Ascii.
From stdpp Require Import pretty.
Local Open Scope string_scope.
Local Open Scope list_scope.

Lemma byte_length_app a b : byte_length (a +:+ b) = (byte_length a + byte_length b)%Z.
Proof. unfold byte_length. rewrite length_app_string. lia. Qed.
Lemma byte_length_nonneg a : (0 <= byte_length a)%Z.
Proof. unfold byte_length. lia. Qed.

(** The bytes of a complete body. *)
Definition all_parts (parts : list string) : string := fold_right (fun part rest => part +:+ rest) "" parts.

(** ** Paths *)

(** The characters of an encoded argument. *)
Definition argument_char (a : ascii) : bool := unreserved a || Ascii.eqb a "%".
Lemma encode_char_safe a : all_chars argument_char (encode_char a) = true.
Proof. revert a. apply (all_ascii (fun a => all_chars argument_char (encode_char a))). vm_compute. reflexivity. Qed.
Lemma encoded_safe s : all_chars argument_char (encodeURIComponent s) = true.
Proof. induction s as [|a s IH]; simpl; [done|]. by rewrite all_chars_app, encode_char_safe, IH. Qed.

Section Ipfs.
Context `{PF : Platform} {K : Type} `{Kubo K} (apiUrl : string).

Definition cat_url (cid : string) : string := without_slash apiUrl +:+ "/api/v0/cat?arg=" +:+ encodeURIComponent cid.

Lemma request_inr path form (k k' : K) resp :
  request apiUrl path form k = (inr resp, k') <-> fetch (without_slash apiUrl +:+ path) form k = (inr resp, k') /\ HttpResponse.ok resp = true.
Proof.
  unfold request. rewrite bind_inr. setoid_rewrite rescue_inr. split.
  - intros (r & k1 & [E|(x & k2 & _ & [=])] & Hrest). destruct (HttpResponse.ok r) eqn:Eo.
    + by apply mret_inr in Hrest as [<- <-].
    + by destruct (HttpResponse.status r =? 404)%Z.
  - intros [E Ho]. exists resp, k'. split; [by left|]. by rewrite Ho.
Qed.
Lemma read_parts_inr maxBytes total chunks parts broken (k k' : K) bytes :
  read_parts maxBytes total chunks parts broken k = (inr bytes, k') <->
  broken = None /\ bytes = chunks +:+ all_parts parts /\ k = k' /\
    (parts = [] \/ (total + byte_length (all_parts parts) <= maxBytes)%Z).
Proof.
  revert total chunks. induction parts as [|part parts IH]; intros total chunks; simpl.
  - rewrite app_string_nil. destruct broken as [err|]; simpl; [by split; [|intros [? _]]|]. rewrite mret_inr.
    split; [intros [-> ->]; by auto|by intros (_ & -> & -> & _)].
  - rewrite byte_length_app. assert (Hn := byte_length_nonneg (all_parts parts)).
    destruct (Z.ltb_spec maxBytes (total + byte_length part)) as [Hlt|Hle].
    + split; [done|]. intros (_ & _ & _ & [?|?]); [done|lia].
    + rewrite IH, app_string_assoc. split; intros (-> & -> & -> & Hp); repeat (split; [done|]).
      * right. destruct Hp as [->|?]; [simpl; change (byte_length "") with 0%Z; lia|lia].
      * destruct Hp as [?|?]; [done|]. right. lia.
Qed.

(** A download from the storage node returns exactly the complete body of
    the answer to the request for that content id: when the answer is a
    success, does not declare more than the limit, does not break off and is
    within the limit, however it is cut into parts. *)
Theorem ipfs_download_exact cid (k k' : K) bytes :
  ipfs_download apiUrl cid k = (inr bytes, k') <->
  exists resp, fetch (cat_url cid) None k = (inr resp, k') /\ HttpResponse.ok resp = true /\
    num_lt (num_of_Z parseMaxDownloadBytes) (match HttpResponse.content_length resp with Some v => Number_of v | None => num_of_Z 0 end) = false /\
    match HttpResponse.body resp with
    | None => HttpResponse.content resp = inr bytes /\ (byte_length bytes <= parseMaxDownloadBytes)%Z
    | Some stream => Stream.broken stream = None /\ bytes = all_parts (Stream.parts stream) /\
        (Stream.parts stream = [] \/ (byte_length bytes <= parseMaxDownloadBytes)%Z)
    end.
Proof.
  unfold ipfs_download, cat_url. rewrite bind_inr. setoid_rewrite request_inr. setoid_rewrite bind_inr. setoid_rewrite throw_if_inr. split.
  - intros (resp & k1 & [Hf Ho] & u & k2 & [Hd <-] & Hrest). destruct (HttpResponse.body resp) as [st|] eqn:Eb.
    + apply read_parts_inr in Hrest as (Hb & -> & <- & Hp). exists resp. rewrite Eb. by repeat (split; [done|]).
    + apply bind_inr in Hrest as (b & k3 & Hc & Hrest). apply bind_inr in Hrest as (u' & k4 & [Hl <-]%throw_if_inr & [<- <-]%mret_inr).
      unfold uncaught in Hc. destruct (HttpResponse.content resp) as [err|b'] eqn:Ec; [done|]. apply mret_inr in Hc as [<- <-].
      exists resp. rewrite Eb, Ec. apply Z.ltb_ge in Hl. by repeat (split; [done|]).
  - intros (resp & Hf & Ho & Hd & Hb). exists resp, k'. split; [done|]. exists tt, k'. split; [done|].
    destruct (HttpResponse.body resp) as [st|].
    + destruct Hb as (Hb & -> & Hp). apply read_parts_inr. by split; [|split; [|split]].
    + destruct Hb as [-> Hl]. simpl. rewrite bind_ret. apply Z.ltb_ge in Hl. by rewrite Hl.
Qed.

(** ** Failures *)

(** A message that says nothing about the node but the status it gave. *)
Definition discreet (m : string) : Prop :=
  m ∈ ["Private evidence storage is unavailable"; NOT_FOUND_MESSAGE; TOO_LARGE] \/
  exists status : Z, m = "IPFS request failed with status " +:+ pretty status.

Lemma request_fails path form (k k' : K) e :
  request apiUrl path form k = (inl e, k') -> exists m, e = EvidenceStorageError m /\ discreet m.
Proof.
  unfold request. intros [E|(resp & k1 & _ & E)]%bind_inl.
  - unfold rescue in E. destruct (fetch _ form k) as [[err|r] k2]; [|done]. injection E as <- _.
    eexists. split; [done|]. left. rewrite !elem_of_cons. auto.
  - destruct (HttpResponse.ok resp); [done|]. destruct (HttpResponse.status resp =? 404)%Z; injection E as <- _; eexists; (split; [done|]).
    + left. rewrite !elem_of_cons. auto.
    + right. by eexists.
Qed.
Lemma too_large_discreet : discreet TOO_LARGE.
Proof. left. rewrite !elem_of_cons. auto. Qed.
Lemma read_parts_fails maxBytes total chunks parts broken (k k' : K) e :
  read_parts maxBytes total chunks parts broken k = (inl e, k') ->
  k' = k /\ (e = EvidenceStorageError TOO_LARGE \/ exists err, broken = Some err /\ e = Error (RpcError.message err)).
Proof.
  revert total chunks. induction parts as [|part parts IH]; intros total chunks; simpl.
  - destruct broken as [err|]; [|done]. intros [= <- <-]. eauto.
  - destruct (maxBytes <? total + byte_length part)%Z; [intros [= <- <-]; eauto|apply IH].
Qed.

(** A failed download says nothing about the node or its address: it is a
    storage error with one of three fixed messages or the status of the
    answer.  The exception is a body that breaks off while it is read: then
    the raw error of the connection is thrown. *)
Theorem ipfs_failures cid (k k' : K) e :
  ipfs_download apiUrl cid k = (inl e, k') ->
  (exists m, e = EvidenceStorageError m /\ discreet m) \/
  exists err resp, fetch (cat_url cid) None k = (inr resp, k') /\ e = Error (RpcError.message err) /\
    match HttpResponse.body resp with
    | None => HttpResponse.content resp = inl err
    | Some stream => Stream.broken stream = Some err
    end.
Proof.
  unfold ipfs_download, cat_url. intros [E|(resp & k1 & [Hf Ho]%request_inr & E)]%bind_inl; [left; by eapply request_fails|].
  apply bind_inl in E as [E|(u & k2 & [_ <-]%throw_if_inr & E)].
  { left. unfold throw_if in E. destruct (num_lt _ _); [|done]. injection E as <- _. eexists. split; [done|apply too_large_discreet]. }
  destruct (HttpResponse.body resp) as [st|] eqn:Eb.
  - apply read_parts_fails in E as [-> [->|(err & Hb & ->)]].
    + left. eexists. split; [done|apply too_large_discreet].
    + right. exists err, resp. rewrite Eb. done.
  - apply bind_inl in E as [E|(bytes & k3 & _ & E)].
    + right. unfold uncaught in E. destruct (HttpResponse.content resp) as [err|] eqn:Ec; [|done]. injection E as <- <-.
      exists err, resp. by rewrite Eb, Ec.
    + left. apply bind_inl in E as [E|(u' & k4 & _ & E)]; [|done]. unfold throw_if in E. destruct (_ <? _)%Z; [|done].
      injection E as <- _. eexists. split; [done|apply too_large_discreet].
Qed.

(** ** Limits *)

Lemma download_limit : parseMaxDownloadBytes = parseMaxFileSize (process_env "EVIDENCE_MAX_FILE_SIZE_MB").
Proof.
  unfold parseMaxDownloadBytes, parseMaxFileSize. destruct (process_env _) as [v|]; [|done].
  destruct (Number_of v) as [| | |q]; [reflexivity..|]. cbn iota beta. destruct (Qle_bool q 0); reflexivity.
Qed.
End Ipfs.

Section Limits.
Context `{PF : Platform} {C : Type} `{EvidenceStorage C} {K : Type} `{Kubo K} (apiUrl : string) (options : EvidenceServiceOptions.t).

Lemma accepted_bytes jobId actor input (w w' : World C) e :
  upload options jobId actor input w = (inr e, w') ->
  (byte_length (EvidenceUpload.bytes input) <= maxFileSizeBytes options)%Z /\ Evidence.sizeBytes e = byte_length (EvidenceUpload.bytes input).
Proof.
  unfold upload. intros (job & w1 & _ & Hrun)%bind_inr. apply bind_inr in Hrun as (u & w2 & _ & Hrun).
  apply bind_inr in Hrun as (u' & w3 & Hv & Hrun). split.
  - unfold validateUpload in Hv. apply bind_inr in Hv as (? & ? & _ & Hv). apply bind_inr in Hv as (? & ? & [Hl _]%throw_if_inr & _).
    by apply Z.ltb_ge.
  - repeat (apply bind_inr in Hrun as (? & ? & _ & Hrun)). apply mret_inr in Hrun as [<- _]. done.
Qed.

(** C39: Evidence that was accepted under the configured limit is never too
    large to be downloaded: an answer of the node that delivers its bytes,
    in any parts and with no content length or the true one, is returned. *)
Theorem accepted_is_downloadable jobId actor input (w w' : World C) e (k k' : K) cid resp parts :
  EvidenceServiceOptions.maxFileSizeBytes options = None ->
  upload options jobId actor input w = (inr e, w') ->
  fetch (cat_url apiUrl cid) None k = (inr resp, k') -> HttpResponse.ok resp = true ->
  HttpResponse.body resp = Some (Stream.mk parts None) -> all_parts parts = EvidenceUpload.bytes input ->
  (HttpResponse.content_length resp = None \/
   exists v, HttpResponse.content_length resp = Some v /\ Number_of v = num_of_Z (Evidence.sizeBytes e)) ->
  ipfs_download apiUrl cid k = (inr (EvidenceUpload.bytes input), k').
Proof.
  intros Ho [Hl Hs]%accepted_bytes Hf Hok Hb Hp Hc. unfold maxFileSizeBytes in Hl. rewrite Ho in Hl. simpl in Hl.
  rewrite <- download_limit in Hl. apply ipfs_download_exact. exists resp. split; [done|]. split; [done|]. split.
  - assert (Hn := byte_length_nonneg (EvidenceUpload.bytes input)).
    assert (Hlt : forall z, (z <= parseMaxDownloadBytes)%Z -> num_lt (num_of_Z parseMaxDownloadBytes) (num_of_Z z) = false).
    { intros z Hz. change (negb (num_le (num_of_Z z) (num_of_Z parseMaxDownloadBytes)) = false).
      rewrite num_le_Z. apply negb_false_iff, Z.leb_le, Hz. }
    destruct Hc as [->|(v & -> & ->)]; apply Hlt; [lia|by rewrite Hs].
  - rewrite Hb. simpl. split; [done|]. split; [done|]. by right.
Qed.
End Limits.

(** ** Witnesses *)

(** A node that gives one prepared answer. *)
Section Demo.
#[local] Existing Instance dev.
#[local] Existing Instance MemoryEvidenceStorage.
#[local] Instance demo_kubo : Kubo HttpResponse.t := fun _ _ resp => (inr resp, resp).
Definition demo_parts : list string := ["all bolts "; "replaced"].
Definition demo_response : HttpResponse.t := HttpResponse.mk true 200 None (Some (Stream.mk demo_parts None)) (inr "").
Definition lost : RpcError.t := RpcError.mk (VObj []) "other side closed 10.0.0.7:5001".
Definition demo_broken : HttpResponse.t := HttpResponse.mk true 200 None (Some (Stream.mk demo_parts (Some lost))) (inr "").

Lemma ipfs_download_exact_witness :
  ipfs_download "http://kubo/" "bafy 1" demo_response = (inr "all bolts replaced", demo_response) /\
  cat_url "http://kubo/" "bafy 1" = "http://kubo/api/v0/cat?arg=bafy%201".
Proof.
  split; [|vm_compute; reflexivity]. apply (ipfs_download_exact "http://kubo/" "bafy 1" demo_response demo_response "all bolts replaced").
  exists demo_response. split; [reflexivity|]. split; [reflexivity|]. split; [vm_compute; reflexivity|].
  split; [reflexivity|]. split; [vm_compute; reflexivity|]. right. vm_compute. discriminate.
Defined.
Lemma ipfs_failures_witness :
  exists err, fst (ipfs_download "http://kubo/" "bafy" demo_broken) = inl (Error (RpcError.message err)) /\ err = lost.
Proof.
  destruct (ipfs_download "http://kubo/" "bafy" demo_broken) as [[e|bytes] k'] eqn:E; [|vm_compute in E; discriminate].
  destruct (ipfs_failures "http://kubo/" "bafy" demo_broken k' e E) as [(m & -> & _)|(err & resp & Hf & -> & Hb)].
  - exfalso. vm_compute in E. discriminate.
  - exists err. split; [reflexivity|]. injection Hf as <- _. simpl in Hb. by injection Hb.
Defined.
Lemma accepted_is_downloadable_witness :
  exists e, fst (upload no_options "J" the_technician a_report evidence_world) = inr e /\
    ipfs_download "http://kubo/" "bafy" demo_response = (inr "all bolts replaced", demo_response).
Proof.
  destruct (upload no_options "J" the_technician a_report evidence_world) as [[e|e] w'] eqn:E; [vm_compute in E; discriminate|].
  exists e. split; [reflexivity|].
  apply (accepted_is_downloadable "http://kubo/" no_options "J" the_technician a_report evidence_world w' e demo_response demo_response "bafy" demo_response demo_parts);
    [reflexivity|exact E|reflexivity|reflexivity|reflexivity|vm_compute; reflexivity|left; reflexivity].
Defined.
End Demo.
