(* ===== verification/Multipart.v ===== *)
(** * Multipart: the single-file upload parser, [backend/src/evidence/multipart.ts]

    The request body arrives in chunks; the parser caps their total size,
    looks for the end of the headers of the first part and for the closing
    delimiter, and returns the bytes in between.  Bytes and header text are
    both modelled as strings of 8-bit units, which is exact for ASCII
    headers. *)
From S2P Require Import Prelude JsString Errors Evidence.
From Stdlib Require Import Ascii.
Local Open Scope string_scope.
Local Open Scope list_scope.

Definition CR : ascii := "013"%char.
Definition LF : ascii := "010"%char.
Definition QUOTE : ascii := ascii_of_nat 34.
Definition CRLF : string := String CR (String LF "").

(** ** String searches *)

(** [s.indexOf(sub)], [None] for -1 *)
Fixpoint indexOf (sub s : string) : option nat :=
  if String.prefix sub s then Some 0%nat
  else match s with "" => None | String _ s' => S <$> indexOf sub s' end.
(** [s.split(CRLF)] *)
Fixpoint split_crlf (s : string) : list string :=
  match s with
  | "" => [""]
  | String a s' =>
      match s' with
      | "" => [String a ""]
      | String b s'' =>
          if Ascii.eqb a CR && Ascii.eqb b LF then "" :: split_crlf s''
          else match split_crlf s' with
               | [] => [String a ""]
               | x :: l => String a x :: l
               end
      end
  end.
(** The longest prefix of characters satisfying [p]: a greedy character class. *)
Fixpoint take_while (p : ascii -> bool) (s : string) : string :=
  match s with
  | "" => ""
  | String a s' => if p a then String a (take_while p s') else ""
  end.
(** A literal of a case-insensitive expression, at the start of [s]. *)
Definition prefix_ci (lower s : string) : bool := String.prefix lower (toLowerCase s).

Definition not_quote (a : ascii) : bool := negb (Ascii.eqb a QUOTE).
(** A run of other characters up to a double quote, without the quote. *)
Definition until_quote (s : string) : option string :=
  let v := take_while not_quote s in
  if startsWith (String QUOTE "") (slice_from (String.length v) s) then Some v else None.

(** The group of the leftmost match of [key=], a double quote, a run of
    other characters and a double quote, ignoring case. *)
Fixpoint exec_quoted (key s : string) : option string :=
  let at_start :=
    if prefix_ci (key +:+ "=" +:+ String QUOTE "") s
    then until_quote (slice_from (String.length key + 2) s) else None in
  match at_start with
  | Some v => Some v
  | None => match s with "" => None | String _ s' => exec_quoted key s' end
  end.

(** What follows [boundary=]: a non-empty quoted value, else a non-empty run
    up to a semicolon. *)
Definition boundary_value (s : string) : option string :=
  let quoted := match s with
                | String q s' => if Ascii.eqb q QUOTE then until_quote s' else None
                | "" => None
                end in
  match quoted with
  | Some (String a b) => Some (String a b)
  | _ => let v := take_while (fun a => negb (Ascii.eqb a ";"%char)) s in
         if bool_decide (v = "") then None else Some v
  end.
Fixpoint exec_boundary (s : string) : option string :=
  match (if prefix_ci "boundary=" s then boundary_value (slice_from 9 s) else None) with
  | Some v => Some v
  | None => match s with "" => None | String _ s' => exec_boundary s' end
  end.

(** ** The parser *)

Definition HEADROOM : Z := (32 * 1024)%Z.

(** [for await (const chunk of req)]: the running total is checked after
    every chunk. *)
Fixpoint read_chunks (limit total : Z) (acc : string) (chunks : list string) : exn + string :=
  match chunks with
  | [] => inr acc
  | chunk :: rest =>
      let total' := (total + byte_length chunk)%Z in
      if (limit <? total')%Z then inl default_too_large else read_chunks limit total' (acc +:+ chunk) rest
  end.

Definition malformed_part : exn := ValidationError ["Multipart evidence part is malformed"].

(** The value of the first content-type line, or the default type. *)
Definition part_content_type (partHeaders : list string) : string :=
  let given := (fun line => toLowerCase (trim (slice_from (default 0%nat (indexOf ":" line) + 1) line))) <$>
               List.find (prefix_ci "content-type:") partHeaders in
  if truthy_string given then default "" given else "application/octet-stream".

(** What the part headers say: file name and type of the file field. *)
Definition part_file (partHeaders : list string) : exn + (string * string) :=
  let disposition := default "" (List.find (prefix_ci "content-disposition:") partHeaders) in
  match exec_quoted "filename" disposition, exec_quoted "name" disposition with
  | Some filename, Some name =>
      if bool_decide (name ∈ ["file"; "evidence"]) then inr (filename, part_content_type partHeaders)
      else inl (ValidationError ["A file field named file is required"])
  | _, _ => inl (ValidationError ["A file field named file is required"])
  end.

(** The first part of [body]: its header lines and the bytes up to the
    closing delimiter. *)
Definition split_part (boundary body : string) : exn + (list string * string) :=
  match indexOf (CRLF +:+ CRLF) body with
  | None => inl malformed_part
  | Some headerEnd =>
      let tail := slice_from (headerEnd + 4) body in
      match indexOf (CRLF +:+ boundary +:+ "--") tail with
      | None => inl malformed_part
      | Some n => inr (split_crlf (slice_to headerEnd body), slice_to n tail)
      end
  end.

Definition readEvidenceMultipart (content_type : option string) (chunks : list string) (maxFileSizeBytes : Z) : exn + EvidenceUpload.t :=
  match exec_boundary (default "" content_type) with
  | None => inl (UnsupportedMediaTypeError "Evidence upload must be multipart/form-data")
  | Some b =>
      match read_chunks (maxFileSizeBytes + HEADROOM) 0 "" chunks with
      | inl e => inl e
      | inr body =>
          match split_part ("--" +:+ b) body with
          | inl e => inl e
          | inr (partHeaders, bytes) =>
              match part_file partHeaders with
              | inl e => inl e
              | inr (filename, contentType) =>
                  if (maxFileSizeBytes <? byte_length bytes)%Z then inl default_too_large
                  else inr (EvidenceUpload.mk bytes filename contentType)
              end
          end
      end
  end.
