(* ===== verification/MultipartCorrect.v ===== *)
(** * MultipartCorrect: the upload parser returns exactly the uploaded bytes *)
From S2P Require Import Prelude JsString Errors Evidence Multipart.
From Stdlib Require Import Ascii.
Local Open Scope string_scope.
Local Open Scope list_scope.
#[local] Arguments String.append : simpl nomatch.

(** ** Strings *)

Definition no_char (c : ascii) (s : string) : Prop := all_chars (fun a => negb (Ascii.eqb a c)) s = true.

Lemma no_char_cons c a s : no_char c (String a s) <-> a <> c /\ no_char c s.
Proof.
  unfold no_char. simpl. rewrite andb_true_iff, negb_true_iff, Ascii.eqb_neq. done.
Qed.

Lemma no_char_app c s t : no_char c (s +:+ t) <-> no_char c s /\ no_char c t.
Proof.
  induction s as [|a s IH]; simpl; [by split; [split|intros [_ ?]]|]. rewrite !no_char_cons, IH. tauto.
Qed.

Lemma prefix_cons c p a s : String.prefix (String c p) (String a s) = Ascii.eqb c a && String.prefix p s.
Proof.
  cbn [String.prefix]. destruct (ascii_dec c a) as [->|Hn]; [by rewrite Ascii.eqb_refl|].
  by apply Ascii.eqb_neq in Hn as ->.
Qed.

Lemma prefix_app p t : String.prefix p (p +:+ t) = true.
Proof. induction p; simpl; [by destruct t|]. by destruct (ascii_dec a a). Qed.

(** A prefix of [s ++ t] ends inside [s] or goes on into [t]. *)
Lemma prefix_app_inv p s t :
  String.prefix p (s +:+ t) = true ->
  String.prefix p s = true \/ exists p2, p = s +:+ p2 /\ p2 <> "" /\ String.prefix p2 t = true.
Proof.
  revert p. induction s as [|a s IH]; intros p; simpl.
  - destruct p as [|c p]; [by left|]. right. by exists (String c p).
  - destruct p as [|c p]; [by left|]. simpl. destruct (ascii_dec c a) as [->|]; [|done].
    intros [?|(p2 & -> & ? & ?)]%IH; [by left|right; by exists p2].
Qed.

Lemma take_while_app p s c t : all_chars p s = true -> p c = false -> take_while p (s +:+ String c t) = s.
Proof.
  intros Hs Hc. induction s as [|a s IH]; simpl in *; [by rewrite Hc|].
  apply andb_true_iff in Hs as [-> Hs]. by rewrite IH.
Qed.
Lemma take_while_all p s : all_chars p s = true -> take_while p s = s.
Proof.
  induction s as [|a s IH]; simpl; [done|]. intros [-> Hs]%andb_true_iff. by rewrite IH.
Qed.

(** ** The closing delimiter *)

(** The first occurrence of a delimiter that starts with a character it does
    not contain again, after bytes that do not contain it. *)
Lemma indexOf_first c m d x r :
  d = String c m -> no_char c m -> includes d x = false ->
  indexOf d (x +:+ d +:+ r) = Some (String.length x).
Proof.
  intros Hd Hm. induction x as [|a x IH]; intros Hx.
  - unfold indexOf. cbn [String.append String.length]. pose proof (prefix_app d r) as Hp.
    destruct (d +:+ r); by rewrite Hp.
  - cbn [includes] in Hx. apply orb_false_iff in Hx as [Hp Hx]. cbn [String.append indexOf].
    destruct (String.prefix d (String a (x +:+ d +:+ r))) eqn:E; [|by rewrite IH].
    exfalso. change (String a (x +:+ d +:+ r)) with (String a x +:+ d +:+ r) in E.
    apply prefix_app_inv in E as [?|(p2 & Heq & Hne & Hp2)]; [congruence|].
    rewrite Hd in Heq, Hp2. injection Heq as -> ->. destruct p2 as [|b p2]; [done|]. simpl in Hp2.
    destruct (ascii_dec b a) as [->|]; [|done]. apply no_char_app in Hm as [_ [? _]%no_char_cons]. done.
Qed.

(** ** Header lines *)

(** The lines of the part, each closed by a CRLF. *)
Fixpoint header_block (lines : list string) : string :=
  match lines with [] => "" | l :: rest => l +:+ CRLF +:+ header_block rest end.
Definition header_line (l : string) : Prop := l <> "" /\ no_char CR l.

Lemma prefix_crlf_line l t u : header_line l -> String.prefix (CRLF +:+ t) (l +:+ u) = false.
Proof.
  intros [Hl Hc]. destruct l as [|a l]; [done|]. apply no_char_cons in Hc as [Ha%not_eq_sym%Ascii.eqb_neq _].
  change (CRLF +:+ t) with (String CR (String LF t)). cbn [String.append]. by rewrite prefix_cons, Ha.
Qed.

Lemma indexOf_line l r : no_char CR l -> indexOf (CRLF +:+ CRLF) (l +:+ r) = (fun n => String.length l + n)%nat <$> indexOf (CRLF +:+ CRLF) r.
Proof.
  induction l as [|a l IH]; intros Hl.
  - cbn [String.append String.length]. by destruct (indexOf _ r).
  - pose proof Hl as Hl'. apply no_char_cons in Hl as [Ha Hl]. cbn [String.append indexOf].
    change (String a (l +:+ r)) with (String a l +:+ r).
    rewrite (prefix_crlf_line (String a l)) by done. rewrite IH by done. by destruct (indexOf _ r).
Qed.
Lemma indexOf_crlf_line l r :
  header_line l -> indexOf (CRLF +:+ CRLF) (CRLF +:+ l +:+ r) = (fun n => 2 + n)%nat <$> indexOf (CRLF +:+ CRLF) (l +:+ r).
Proof.
  intros Hl. pose proof (prefix_crlf_line l "" r Hl) as Hp. destruct Hl as [Hl Hc]. destruct l as [|a l]; [done|].
  change (CRLF +:+ String a l +:+ r) with (String CR (String LF (String a l +:+ r))).
  change (CRLF +:+ CRLF) with (String CR (String LF CRLF)). cbn [indexOf]. rewrite !prefix_cons.
  change CRLF with (CRLF +:+ "") at 1. rewrite Hp. cbn -[indexOf]. by destruct (indexOf _ (String a _)).
Qed.

Lemma header_end l lines r :
  header_line l -> Forall header_line lines ->
  indexOf (CRLF +:+ CRLF) (l +:+ CRLF +:+ header_block lines +:+ CRLF +:+ r) =
    Some (String.length (l +:+ CRLF +:+ header_block lines) - 2)%nat.
Proof.
  intros Hl Hls. revert l Hl. induction Hls as [|l' lines Hl' Hls IH]; intros l [Hl Hc].
  - rewrite indexOf_line by done.
    assert (He : indexOf (CRLF +:+ CRLF) (CRLF +:+ header_block [] +:+ CRLF +:+ r) = Some 0%nat) by (by destruct r).
    rewrite He, !length_app_string. cbn. f_equal. lia.
  - rewrite indexOf_line by done. cbn [header_block]. rewrite !app_string_assoc, indexOf_crlf_line by done.
    rewrite IH by done. rewrite !length_app_string. cbn. f_equal. lia.
Qed.

Lemma header_block_join l lines : l +:+ CRLF +:+ header_block lines = join_strings CRLF (l :: lines) +:+ CRLF.
Proof.
  revert l. induction lines as [|l' lines IH]; intros l; [done|].
  change (join_strings CRLF (l :: l' :: lines)) with (l +:+ CRLF +:+ join_strings CRLF (l' :: lines)).
  rewrite !app_string_assoc, <- IH. done.
Qed.

Lemma split_crlf_nonempty s : split_crlf s <> [].
Proof.
  destruct s as [|a [|b s]]; cbn [split_crlf]; [done..|]. destruct (_ && _); [done|].
  by destruct (match s with "" => _ | _ => _ end).
Qed.
Lemma split_crlf_cons a b s :
  split_crlf (String a (String b s)) =
    if Ascii.eqb a CR && Ascii.eqb b LF then "" :: split_crlf s
    else match split_crlf (String b s) with [] => [String a ""] | x :: l => String a x :: l end.
Proof. done. Qed.

Lemma split_crlf_line l : no_char CR l -> split_crlf l = [l].
Proof.
  induction l as [|a l IH]; [done|]. intros [Ha%Ascii.eqb_neq Hl]%no_char_cons.
  destruct l as [|b l]; [done|]. rewrite split_crlf_cons, Ha, IH by done. done.
Qed.
Lemma split_crlf_app l s : no_char CR l -> split_crlf (l +:+ CRLF +:+ s) = l :: split_crlf s.
Proof.
  induction l as [|a l IH]; [done|]. intros [Ha%Ascii.eqb_neq Hl]%no_char_cons. specialize (IH Hl).
  destruct l as [|b l].
  - change (String a "" +:+ CRLF +:+ s) with (String a (String CR (String LF s))).
    rewrite split_crlf_cons, Ha. cbn [andb].
    change (String CR (String LF s)) with ("" +:+ CRLF +:+ s). by rewrite IH.
  - change (String a (String b l) +:+ CRLF +:+ s) with (String a (String b (l +:+ CRLF +:+ s))).
    rewrite split_crlf_cons, Ha. cbn [andb].
    change (String b (l +:+ CRLF +:+ s)) with (String b l +:+ CRLF +:+ s). by rewrite IH.
Qed.
Lemma split_crlf_join lines : lines <> [] -> Forall (no_char CR) lines -> split_crlf (join_strings CRLF lines) = lines.
Proof.
  intros Hne Hf. induction Hf as [|l lines Hl Hf IH]; [done|]. destruct lines as [|l' lines].
  - by apply split_crlf_line.
  - change (join_strings CRLF (l :: l' :: lines)) with (l +:+ CRLF +:+ join_strings CRLF (l' :: lines)).
    rewrite split_crlf_app, IH; done.
Qed.

(** ** The part *)

(** A multipart body with one part: its header lines, its bytes, the closing
    delimiter and an epilogue. *)
Definition multipart_body (boundary : string) (lines : list string) (bytes epilogue : string) : string :=
  "--" +:+ boundary +:+ CRLF +:+ header_block lines +:+ CRLF +:+ bytes +:+ (CRLF +:+ ("--" +:+ boundary) +:+ "--") +:+ epilogue.

Lemma split_part_body boundary lines bytes epilogue :
  no_char CR boundary -> Forall header_line lines -> includes (CRLF +:+ ("--" +:+ boundary) +:+ "--") bytes = false ->
  split_part ("--" +:+ boundary) (multipart_body boundary lines bytes epilogue) = inr (("--" +:+ boundary) :: lines, bytes).
Proof.
  intros Hb Hls Hx. set (l := "--" +:+ boundary) in *. assert (Hl : header_line l).
  { split; [done|]. apply no_char_app. by split. }
  unfold split_part, multipart_body. rewrite <- (app_string_assoc "--" boundary). fold l. rewrite header_end by done.
  set (head := join_strings CRLF (l :: lines)).
  assert (Hbody : forall r, l +:+ CRLF +:+ header_block lines +:+ r = head +:+ CRLF +:+ r).
  { intros r. rewrite <- !app_string_assoc, (app_string_assoc l), header_block_join. done. }
  rewrite header_block_join. fold head. rewrite !Hbody.
  assert (Hn : (String.length (head +:+ CRLF) - 2)%nat = String.length head) by (rewrite length_app_string; cbn; lia).
  rewrite Hn, slice_to_app by done. rewrite <- !(app_string_assoc head).
  rewrite <- (app_string_assoc (head +:+ CRLF)), slice_from_app by (rewrite !length_app_string; cbn; lia).
  set (d := CRLF +:+ l +:+ "--") in *.
  rewrite (indexOf_first CR (String LF (l +:+ "--")) d) by (done || (apply no_char_cons; split; [done|]; apply no_char_app; by destruct Hl)).
  rewrite slice_to_app by done. unfold head. rewrite split_crlf_join; [done|done|].
  constructor; [by destruct Hl|]. eapply List.Forall_impl; [|exact Hls]. by intros ? [].
Qed.

(** ** The header values *)

Definition quoted (s : string) : string := String QUOTE (s +:+ String QUOTE "").

Lemma until_quote_app s t : no_char QUOTE s -> until_quote (s +:+ String QUOTE t) = Some s.
Proof.
  intros Hs. unfold until_quote. rewrite take_while_app by (done || exact Hs).
  rewrite slice_from_app by done. by destruct t.
Qed.

Definition disposition_line (name filename : string) : string :=
  "Content-Disposition: form-data; name=" +:+ quoted name +:+ "; filename=" +:+ quoted filename.
Definition type_line (contentType : string) : string := "Content-Type: " +:+ contentType.

(** Neither string is a prefix of the other: whatever follows [s], it does
    not start with [p]. *)
Definition mismatch (p s : string) : bool := negb (String.prefix p s) && negb (String.prefix s p).
Fixpoint skips (p s : string) : bool :=
  match s with "" => true | String a s' => mismatch p (toLowerCase s) && skips p s' end.

Lemma mismatch_app p s t : mismatch p s = true -> String.prefix p (s +:+ t) = false.
Proof.
  unfold mismatch. rewrite andb_true_iff, !negb_true_iff. intros [Hp Hs].
  destruct (String.prefix p (s +:+ t)) eqn:E; [|done]. apply prefix_app_inv in E as [?|(p2 & -> & _)]; [congruence|].
  by rewrite prefix_app in Hs.
Qed.

Lemma exec_quoted_skip key pre t :
  skips (key +:+ "=" +:+ String QUOTE "") pre = true -> exec_quoted key (pre +:+ t) = exec_quoted key t.
Proof.
  induction pre as [|a pre IH]; [done|]. cbn [skips]. rewrite andb_true_iff. intros [Hm Hs].
  cbn [String.append exec_quoted]. unfold prefix_ci. change (String a (pre +:+ t)) with (String a pre +:+ t).
  rewrite toLowerCase_app, (mismatch_app _ _ _ Hm). by apply IH.
Qed.
Lemma exec_boundary_skip pre t : skips "boundary=" pre = true -> exec_boundary (pre +:+ t) = exec_boundary t.
Proof.
  induction pre as [|a pre IH]; [done|]. cbn [skips]. rewrite andb_true_iff. intros [Hm Hs].
  cbn [String.append exec_boundary]. unfold prefix_ci. change (String a (pre +:+ t)) with (String a pre +:+ t).
  rewrite toLowerCase_app, (mismatch_app _ _ _ Hm). by apply IH.
Qed.

Lemma exec_quoted_here key v t :
  toLowerCase key = key -> no_char QUOTE v -> exec_quoted key (key +:+ "=" +:+ quoted v +:+ t) = Some v.
Proof.
  intros Hk Hv. set (k := key +:+ "=" +:+ String QUOTE "").
  assert (Ht : key +:+ "=" +:+ quoted v +:+ t = k +:+ v +:+ String QUOTE t).
  { unfold k, quoted. rewrite !app_string_assoc. f_equal. cbn [String.append]. f_equal. f_equal. by rewrite app_string_assoc. }
  rewrite Ht. assert (Hp : prefix_ci k (k +:+ v +:+ String QUOTE t) = true).
  { unfold prefix_ci. rewrite toLowerCase_app. unfold k. rewrite toLowerCase_app, Hk. apply prefix_app. }
  assert (Hl : (String.length key + 2)%nat = String.length k) by (unfold k; by rewrite length_app_string).
  assert (He : until_quote (slice_from (String.length key + 2) (k +:+ v +:+ String QUOTE t)) = Some v).
  { rewrite slice_from_app by done. by apply until_quote_app. }
  assert (Hu : forall s, prefix_ci k s = true -> until_quote (slice_from (String.length key + 2) s) = Some v -> exec_quoted key s = Some v).
  { intros s H1 H2. destruct s; cbn [exec_quoted]; fold k; by rewrite H1, H2. }
  by apply Hu.
Qed.

Lemma file_field_no_quote name : name ∈ ["file"; "evidence"] -> no_char QUOTE name.
Proof. rewrite !elem_of_cons, elem_of_nil. by intros [->|[->|[]]]. Qed.

Lemma disposition_name name filename :
  name ∈ ["file"; "evidence"] -> exec_quoted "name" (disposition_line name filename) = Some name.
Proof.
  intros Hn%file_field_no_quote. unfold disposition_line.
  change ("Content-Disposition: form-data; name=" +:+ quoted name +:+ "; filename=" +:+ quoted filename)
    with ("Content-Disposition: form-data; " +:+ "name" +:+ "=" +:+ quoted name +:+ "; filename=" +:+ quoted filename).
  rewrite exec_quoted_skip by (vm_compute; reflexivity). by apply exec_quoted_here.
Qed.

Lemma disposition_filename name filename :
  name ∈ ["file"; "evidence"] -> no_char QUOTE filename ->
  exec_quoted "filename" (disposition_line name filename) = Some filename.
Proof.
  intros Hn Hf. set (pre := "Content-Disposition: form-data; name=" +:+ quoted name +:+ "; ").
  assert (Hd : disposition_line name filename = pre +:+ "filename" +:+ "=" +:+ quoted filename +:+ "").
  { unfold disposition_line, pre. by rewrite app_string_nil, !app_string_assoc. }
  rewrite Hd, exec_quoted_skip; [by apply exec_quoted_here|].
  rewrite !elem_of_cons, elem_of_nil in Hn. destruct Hn as [->|[->|[]]]; vm_compute; reflexivity.
Qed.

(** A boundary that needs no quotes. *)
Definition plain_boundary (b : string) : bool :=
  negb (bool_decide (b = "")) && all_chars (fun a => negb (Ascii.eqb a ";"%char) && not_quote a && negb (Ascii.eqb a CR)) b.
Lemma all_chars_impl (p q : ascii -> bool) s : (forall a, p a = true -> q a = true) -> all_chars p s = true -> all_chars q s = true.
Proof.
  intros Hpq. induction s as [|a s IH]; [done|]. cbn. rewrite !andb_true_iff. intros [? ?]. split; [by apply Hpq|by apply IH].
Qed.

Lemma boundary_plain b : plain_boundary b = true -> exec_boundary ("multipart/form-data; boundary=" +:+ b) = Some b.
Proof.
  unfold plain_boundary. rewrite andb_true_iff, negb_true_iff, bool_decide_eq_false. intros [Hne Hb].
  change ("multipart/form-data; boundary=" +:+ b) with ("multipart/form-data; " +:+ "boundary=" +:+ b).
  rewrite exec_boundary_skip by (vm_compute; reflexivity).
  assert (Hv : boundary_value b = Some b).
  { unfold boundary_value. destruct b as [|a b]; [done|].
    assert (Hq : Ascii.eqb a QUOTE = false).
    { cbn [all_chars] in Hb. unfold not_quote in Hb. destruct (Ascii.eqb a QUOTE); [|done]. by rewrite andb_false_r in Hb. }
    rewrite Hq, take_while_all; [done|]. eapply all_chars_impl; [|exact Hb]. intros c. rewrite !andb_true_iff. tauto. }
  assert (Hu : forall s, prefix_ci "boundary=" s = true -> boundary_value (slice_from 9 s) = Some b -> exec_boundary s = Some b).
  { intros s H1 H2. destruct s; cbn [exec_boundary]; by rewrite H1, H2. }
  apply Hu; [|done]. unfold prefix_ci. rewrite toLowerCase_app. apply (prefix_app "boundary=").
Qed.
Lemma plain_boundary_no_cr b : plain_boundary b = true -> no_char CR b.
Proof.
  unfold plain_boundary. rewrite andb_true_iff. intros [_ Hb]. eapply all_chars_impl; [|exact Hb].
  intros c. rewrite !andb_true_iff. tauto.
Qed.

(** ** Reading the request *)

Definition concat_chunks (chunks : list string) : string := fold_right String.append "" chunks.

Lemma read_chunks_spec limit total acc chunks :
  (total <= limit)%Z ->
  read_chunks limit total acc chunks =
    if (limit <? total + byte_length (concat_chunks chunks))%Z then inl default_too_large
    else inr (acc +:+ concat_chunks chunks).
Proof.
  revert total acc. induction chunks as [|c chunks IH]; intros total acc Ht; cbn [read_chunks concat_chunks fold_right].
  - rewrite app_string_nil. destruct (Z.ltb_spec limit (total + byte_length "")) as [Hl|]; [|done].
    unfold byte_length in Hl. simpl in Hl. lia.
  - change (fold_right String.append "" chunks) with (concat_chunks chunks).
    assert (Hlen : byte_length (c +:+ concat_chunks chunks) = (byte_length c + byte_length (concat_chunks chunks))%Z).
    { unfold byte_length. rewrite length_app_string. lia. }
    rewrite Hlen. assert (Hpos : (0 <= byte_length (concat_chunks chunks))%Z) by (unfold byte_length; lia).
    destruct (Z.ltb_spec limit (total + byte_length c)) as [Hl|Hl].
    + destruct (Z.ltb_spec limit (total + (byte_length c + byte_length (concat_chunks chunks)))) as [|Hn]; [done|]. lia.
    + rewrite IH by done. rewrite <- app_string_assoc, Z.add_assoc. done.
Qed.

(** ** The parser *)

Definition delimiter (b : string) : string := CRLF +:+ ("--" +:+ b) +:+ "--".
Definition upload_content_type (b : string) : option string := Some ("multipart/form-data; boundary=" +:+ b).
(** The type a part ends up with. *)
Definition declared_type (contentType : string) : string :=
  let t := toLowerCase (trim (" " +:+ contentType)) in if bool_decide (t = "") then "application/octet-stream" else t.

Lemma disposition_header name filename :
  name ∈ ["file"; "evidence"] -> no_char CR filename -> header_line (disposition_line name filename).
Proof.
  intros Hn Hf. split; [done|]. unfold disposition_line, quoted. rewrite elem_of_cons, elem_of_cons, elem_of_nil in Hn.
  apply no_char_app. split; [done|]. apply no_char_cons. split; [done|]. apply no_char_app. split.
  - apply no_char_app. split; [by destruct Hn as [->|[->|[]]]|done].
  - apply no_char_app. split; [done|]. apply no_char_cons. split; [done|]. by apply no_char_app.
Qed.

Lemma part_file_lines boundary name filename contentType :
  name ∈ ["file"; "evidence"] -> no_char QUOTE filename ->
  part_file [("--" +:+ boundary); disposition_line name filename; type_line contentType] =
    inr (filename, declared_type contentType).
Proof.
  intros Hn Hf. unfold part_file.
  assert (Hd : List.find (prefix_ci "content-disposition:") ["--" +:+ boundary; disposition_line name filename; type_line contentType]
    = Some (disposition_line name filename)) by reflexivity.
  assert (Ht : List.find (prefix_ci "content-type:") ["--" +:+ boundary; disposition_line name filename; type_line contentType]
    = Some (type_line contentType)) by reflexivity.
  rewrite Hd. cbn [from_option id]. rewrite disposition_filename, disposition_name, bool_decide_eq_true_2 by done.
  unfold part_content_type. rewrite Ht. cbn [fmap option_fmap option_map from_option id].
  assert (Hi : indexOf ":" (type_line contentType) = Some 12%nat) by (destruct contentType; reflexivity).
  rewrite Hi. change (slice_from _ (type_line contentType)) with (" " +:+ contentType).
  unfold declared_type, truthy_string. destruct (bool_decide _); reflexivity.
Qed.

(** C23: The parser returns exactly the uploaded bytes and the file name, and the
    declared type trimmed and in lower case ([application/octet-stream] when
    there is none), however the network cut the request into chunks, for every
    request in the form in which a browser posts a form with one file: a
    boundary that is not empty, not quoted and without semicolon and CR; one
    part with two header lines, a disposition with the field name ([file] or
    [evidence]) before the file name, which holds no quote and no CR, and a
    content type without CR; bytes that do not contain the delimiter that
    closes them; a file within the limit and a request within the limit and its
    headroom. *)
Theorem multipart_roundtrip b name filename contentType bytes epilogue chunks limit :
  plain_boundary b = true -> name ∈ ["file"; "evidence"] -> no_char QUOTE filename -> no_char CR filename -> no_char CR contentType ->
  includes (delimiter b) bytes = false ->
  concat_chunks chunks = multipart_body b [disposition_line name filename; type_line contentType] bytes epilogue ->
  (0 <= limit)%Z -> (byte_length (concat_chunks chunks) <= limit + HEADROOM)%Z -> (byte_length bytes <= limit)%Z ->
  readEvidenceMultipart (upload_content_type b) chunks limit =
    inr (EvidenceUpload.mk bytes filename (declared_type contentType)).
Proof.
  intros Hb Hn Hq Hf Hc Hx Hchunks H0 Htotal Hsize. unfold readEvidenceMultipart, upload_content_type. cbn [from_option id].
  rewrite boundary_plain, read_chunks_spec by (done || unfold HEADROOM; lia).
  destruct (Z.ltb_spec (limit + HEADROOM) (0 + byte_length (concat_chunks chunks))); [lia|]. change ("" +:+ concat_chunks chunks) with (concat_chunks chunks).
  rewrite Hchunks, split_part_body; [|by apply plain_boundary_no_cr| |done].
  - rewrite part_file_lines by done. destruct (Z.ltb_spec limit (byte_length bytes)); [lia|done].
  - constructor; [by apply disposition_header|]. constructor; [|done]. split; [done|]. by apply no_char_app.
Qed.

(** What the parser accepts is bounded: the file by the limit, the
    request that was buffered by the limit and 32 KiB; a request beyond that
    is answered with 413 whatever it contains. *)
Theorem multipart_bounded content_type chunks limit u :
  (0 <= limit)%Z -> readEvidenceMultipart content_type chunks limit = inr u ->
  (byte_length (EvidenceUpload.bytes u) <= limit)%Z /\ (byte_length (concat_chunks chunks) <= limit + HEADROOM)%Z.
Proof.
  intros H0 Hr. unfold readEvidenceMultipart in Hr. destruct (exec_boundary _) as [b|]; [|done].
  rewrite read_chunks_spec in Hr by (unfold HEADROOM; lia).
  destruct (Z.ltb_spec (limit + HEADROOM) (0 + byte_length (concat_chunks chunks))); [done|].
  destruct (split_part _ _) as [|[hs bytes]]; [done|]. destruct (part_file hs) as [|[f t]]; [done|].
  destruct (Z.ltb_spec limit (byte_length bytes)); [done|]. injection Hr as <-. simpl. lia.
Qed.

(** A part that names its file before its field is refused, although the
    order of the parameters is free: the expression for [name] also matches
    inside [filename]. *)
Theorem filename_first_refused boundary filename name contentType :
  no_char QUOTE filename -> filename ∉ ["file"; "evidence"] ->
  part_file ["--" +:+ boundary;
             "Content-Disposition: form-data; filename=" +:+ quoted filename +:+ "; name=" +:+ quoted name;
             type_line contentType] = inl (ValidationError ["A file field named file is required"]).
Proof.
  intros Hq Hf. set (line := "Content-Disposition: form-data; filename=" +:+ quoted filename +:+ "; name=" +:+ quoted name).
  unfold part_file.
  assert (Hd : List.find (prefix_ci "content-disposition:") ["--" +:+ boundary; line; type_line contentType] = Some line) by reflexivity.
  rewrite Hd. cbn [from_option id].
  assert (Hn : exec_quoted "name" line = Some filename).
  { change line with ("Content-Disposition: form-data; file" +:+ "name" +:+ "=" +:+ quoted filename +:+ "; name=" +:+ quoted name).
    rewrite exec_quoted_skip by (vm_compute; reflexivity). by apply exec_quoted_here. }
  rewrite Hn, bool_decide_eq_false_2 by done. by destruct (exec_quoted "filename" line).
Qed.

(** ** Witnesses *)

Definition demo_lines : list string := [disposition_line "file" "a.png"; type_line "image/PNG"].
Lemma multipart_roundtrip_witness :
  let body := multipart_body "XX" demo_lines "DATA" CRLF in
  readEvidenceMultipart (upload_content_type "XX") [slice_to 7 body; slice_from 7 body] 10 = inr (EvidenceUpload.mk "DATA" "a.png" "image/png").
Proof.
  intros body. exact (multipart_roundtrip "XX" "file" "a.png" "image/PNG" "DATA" CRLF [slice_to 7 body; slice_from 7 body] 10
    eq_refl ltac:(vm_compute; by left) eq_refl eq_refl eq_refl eq_refl eq_refl ltac:(done) ltac:(vm_compute; discriminate) ltac:(vm_compute; discriminate)).
Defined.
Lemma multipart_bounded_witness :
  let body := multipart_body "XX" demo_lines "DATA" CRLF in (byte_length "DATA" <= 10)%Z /\ (byte_length (concat_chunks [body]) <= 10 + HEADROOM)%Z.
Proof.
  intros body. exact (multipart_bounded (upload_content_type "XX") [body] 10 (EvidenceUpload.mk "DATA" "a.png" "image/png") ltac:(done) ltac:(vm_compute; reflexivity)).
Defined.
Lemma filename_first_refused_witness :
  part_file ["--XX"; "Content-Disposition: form-data; filename=" +:+ quoted "a.png" +:+ "; name=" +:+ quoted "file"; type_line "image/png"]
    = inl (ValidationError ["A file field named file is required"]).
Proof. apply (filename_first_refused "XX" "a.png" "file" "image/png"); [reflexivity|by apply (bool_decide_unpack _); vm_compute]. Defined.
