(* ===== verification/Http.v ===== *)
(** * Http: requests, responses and the middleware of the backend

    [middleware/session.ts], [auth/rbac.middleware.ts],
    [auth/fresh-auth.middleware.ts] and the error serializer of [app.ts].
    A middleware that calls [next()] returns, one that calls [next(error)]
    throws; Express hands the error to the serializer either way.  Parsing a
    request and matching its path belong to Express: a request arrives here
    with its headers, its parsed query and body, and a route of the
    development file [Routes]. *)
From S2P Require Import Prelude Effects JsString JsMap JsValue Shared Rbac Errors World Repositories Auth Users Evidence.
From Stdlib Require Import Ascii.
Local Open Scope string_scope.
Local Open Scope list_scope.

(** ** Requests and responses *)

(** [Request]: the headers the code reads, the query, the body ([VObj] for a
    JSON object), the raw chunks of a multipart request, and [req.user]. *)
Module Request.
Record t := mk {
  authorization : option string; fresh_auth : option string; content_type : option string;
  chunks : list string; query : payload; body : value; user : option User.t }.
Definition with_user (u : option User.t) (r : t) : t :=
  mk (authorization r) (fresh_auth r) (content_type r) (chunks r) (query r) (body r) u.
End Request.

(** [req.body?.k] *)
Definition body_field (k : string) (req : Request.t) : value :=
  match Request.body req with VObj p => field k p | _ => VUndefined end.

(** What a handler sends, one constructor per shape of [res.json(...)]. *)
Inductive ResponseBody :=
| B_Empty
| B_Error (code message : string)
| B_Login (user : User.t) (token : string)
| B_Challenge (c : ProvisioningChallenge.t)
| B_Registration (r : PendingRegistration.t)
| B_Registrations (l : list PendingRegistration.t)
| B_Employees (l : list (User.t * string))
| B_Identity (i : Identity.t)
| B_Created (i : Identity.t) (u : User.t)
| B_User (u : User.t)
| B_Device (d : Device.t)
| B_Devices (l : list Device.t)
| B_Wallet (x : Wallet.t)
| B_Wallets (l : list Wallet.t)
| B_Grant (g : AuthorizationGrant.t)
| B_Grants (l : list AuthorizationGrant.t)
| B_OwnGrant (authorized : bool) (g : option AuthorizationGrant.t)
| B_Asset (a : Asset.t)
| B_Assets (l : list Asset.t)
| B_Job (j : Job.t)
| B_Jobs (l : list Job.t)
| B_Prepared (t : PreparedTransaction.t)
| B_Intent (intent : payload) (t : PreparedTransaction.t)
| B_Evidence (e : payload)
| B_EvidenceList (l : list payload)
| B_File (contentType disposition bytes : string)
| B_Trail (l : list AuditEvent.t)
| B_Status (s : BlockchainStatus.t)
| B_Validators (l : list Validator.t)
| B_Committee (height : num) (validatorIds : list string)
| B_ValidatorRegistration (v : ValidatorRegistration.t)
| B_ValidatorRegistrations (l : list ValidatorRegistration.t)
| B_ValidatorHistory (l : list ValidatorHistoryRecord.t).

Module Response.
Record t := mk { status : Z; body : ResponseBody }.
End Response.

(** [res.json(body)] and [res.status(code).json(body)] *)
Definition json (b : ResponseBody) : Response.t := Response.mk 200 b.
Definition created (b : ResponseBody) : Response.t := Response.mk 201 b.

(** The error handler of [createApp]. *)
Definition error_response (e : exn) : Response.t :=
  let '(status, code, message) := serialize_error e in Response.mk status (B_Error code message).

(** ** Fresh authentication policy *)

Definition PRODUCTION_FRESH_ACTIONS : list string :=
  ["WALLET_ACTIVATE"; "WALLET_REVOKE"; "ROLE_ASSIGN"; "GRANT_CREATE"; "GRANT_REVOKE"; "ASSET_TRANSFER"; "JOB_VERIFY";
   "VALIDATOR_ADD"; "VALIDATOR_REMOVE"; "VALIDATOR_RESTORE"; "VALIDATOR_REMOVE_CANCEL"].

Definition freshAuthRequired `{Platform} (operation : string) : bool :=
  match process_env "BEL_FRESH_AUTH_REQUIRED_ACTIONS" with
  | Some configured =>
      bool_decide (operation ∈ List.filter (fun v => negb (bool_decide (v = ""))) (map trim (split_char ","%char configured)))
  | None => is_production && bool_decide (operation ∈ PRODUCTION_FRESH_ACTIONS)
  end.

(** [header.slice(7).trim()] *)
Definition bearer_token (header : string) : string := trim (slice_from 7 header).

Section Middleware.
Context `{Platform} {C : Type}.
Abbreviation MW := (M exn (World C)).

(** A middleware, and the [ContextResolver] of a permission check. *)
Definition Middleware : Type := Request.t -> MW unit.
Definition ContextResolver : Type := Request.t -> MW PermissionContext.t.

(** ** Sessions *)

Definition resolveUser (req : Request.t) : MW (option User.t) :=
  match Request.authorization req with
  | Some header => if startsWith "Bearer " header then validateSession (bearer_token header) else mret None
  | None => mret None
  end.
Definition attachSession (req : Request.t) : MW Request.t :=
  user ← resolveUser req; mret (Request.with_user user req).
Definition requireSession : Middleware := fun req =>
  throw_if (negb (bool_decide (is_Some (Request.user req)))) default_unauthorized.

(** [req.user!]: a property of [undefined] throws a [TypeError]. *)
Definition the_user (req : Request.t) : MW User.t := require (Request.user req) (Error "Cannot read properties of undefined").

(** ** Permissions *)

(** [{ actorId: req.user.identityId, ...ctx }] *)
Definition permission_context (u : User.t) (ctx : PermissionContext.t) : PermissionContext.t :=
  PermissionContext.mk (or_else (PermissionContext.actorId ctx) (Some (User.identityId u)))
    (PermissionContext.resourceOwnerId ctx) (PermissionContext.authorizationGrantId ctx)
    (PermissionContext.explicitlyAuthorized ctx).

Definition denied_message (r : Role) (a : Action) : string :=
  "Role " +:+ Role_string r +:+ " may not perform " +:+ Action_string a.

Definition requirePermission (action : Action) (resolveContext : option ContextResolver) : Middleware := fun req =>
  user ← require (Request.user req) default_unauthorized;
  ctx ← (match resolveContext with Some resolve => resolve req | None => mret PermissionContext.empty end);
  throw_if (negb (can (User.role user) action (permission_context user ctx)))
    (ForbiddenError (denied_message (User.role user) action)).

Definition requireRole (allowed : list Role) : Middleware := fun req =>
  user ← require (Request.user req) default_unauthorized;
  throw_if (negb (bool_decide (User.role user ∈ allowed)))
    (ForbiddenError ("Role " +:+ Role_string (User.role user) +:+ " is not permitted here")).

Definition requireActiveIdentity : Middleware := fun req =>
  user ← require (Request.user req) default_unauthorized;
  throw_if (negb (bool_decide (User.status user = Identity_ACTIVE)))
    (ForbiddenError ("Identity is " +:+ IdentityStatus_string (User.status user))).

(** ** Fresh authentication *)

Definition malformed_proof : exn := UnauthorizedError "Fresh authentication proof is malformed".

(** The proof of the header: property access on [null] is a [TypeError], any
    other value without the three strings is malformed. *)
Definition parse_proof (header : string) : exn + FreshAuthProofInput.t :=
  match JSON_parse header with
  | None => inl malformed_proof
  | Some VNull => inl (Error "Cannot read properties of null")
  | Some (VObj p) =>
      match field "challengeId" p, field "publicKey" p, field "signature" p with
      | VStr id, VStr key, VStr proof => inr (FreshAuthProofInput.mk id key proof)
      | _, _, _ => inl malformed_proof
      end
  | Some _ => inl malformed_proof
  end.

(** [auth.verifyFreshAuthentication(token, proof, operation, resource)] with
    the resource as it comes out of the request: [null] counts as absent,
    and any other value that is not a string differs from every bound
    resource, so that the challenge is refused once the session stands. *)
Definition verify_fresh (token : string) (proof : FreshAuthProofInput.t) (operation : string) (resource : value) : MW unit :=
  match resource with
  | VStr s => verifyFreshAuthentication token proof operation (Some s)
  | VUndefined | VNull => verifyFreshAuthentication token proof operation None
  | _ => require_session token;; throw (UnauthorizedError "Invalid fresh-authentication challenge")
  end.

Definition requireFreshAuthentication (operation : string) (resource : Request.t -> value) : Middleware := fun req =>
  if negb (freshAuthRequired operation) then mret tt
  else
    throw_if (negb (truthy_string (Request.fresh_auth req))) (UnauthorizedError "Fresh authentication is required");;
    proof ← lift_result (parse_proof (default "" (Request.fresh_auth req)));
    let token := bearer_token <$> Request.authorization req in
    throw_if (negb (truthy_string token)) default_unauthorized;;
    verify_fresh (default "" token) proof operation (resource req).
End Middleware.
