(* ===== verification/HttpCorrect.v ===== *)
(** * HttpCorrect: the logic of middleware

    Which parts of the state the middleware may write, and what a request
    that got past it has shown. *)
From S2P Require Import Prelude Effects JsString JsMap JsValue Shared Rbac Errors World Repositories Auth AuthCorrect Users UsersCorrect Evidence Http.
Local Open Scope string_scope.
Local Open Scope list_scope.

(** ** Loops over middleware *)

(** Every element of a loop that ran to its end ran to its end. *)
Lemma for_each_passed {X W A} (l : list A) (f : A -> M X W unit) x (w w' : W) u :
  In x l -> for_each l f w = (inr u, w') -> exists w1 w2, f x w1 = (inr tt, w2).
Proof.
  revert w. induction l as [|y l IH]; intros w Hin Hrun; [done|]. simpl in Hrun.
  apply bind_inr in Hrun as ([] & w1 & Hy & Hrun). destruct Hin as [->|Hin]; [by exists w, w1|by eapply IH].
Qed.
(** An element of a loop that ran to its end, and what the elements before it
    left alone. *)
Lemma for_each_reached {X W A T} (p : W -> T) (l1 l2 : list A) (f : A -> M X W unit) x (w w' : W) u :
  (forall y, In y l1 -> keeps p (f y)) -> for_each (l1 ++ x :: l2) f w = (inr u, w') ->
  exists w1 w2, p w1 = p w /\ f x w1 = (inr tt, w2).
Proof.
  revert w. induction l1 as [|y l1 IH]; intros w Hk Hrun; simpl in Hrun; apply bind_inr in Hrun as ([] & w1 & Hy & Hrun); [by exists w, w1|].
  destruct (IH w1) as (w2 & w3 & Hp & Hx); [intros z Hz; apply Hk; by right|done|].
  exists w2, w3. split; [|done]. rewrite Hp. eapply keeps_run; [|exact Hy]. apply Hk. by left.
Qed.
Lemma keeps_for_each_in {X W T A} (p : W -> T) (l : list A) (f : A -> M X W unit) :
  (forall x, In x l -> keeps p (f x)) -> keeps p (for_each l f).
Proof.
  induction l as [|x l IH]; intros Hf; simpl; [apply keeps_ret|]. apply keeps_bind; [apply Hf; by left|].
  intros _. apply IH. intros y Hy. apply Hf. by right.
Qed.

Section Middleware.
Context `{PF : Platform} {C : Type}.
Abbreviation W := (World C).

(** ** Footprints *)

(** What only handlers may write: everything the backend stores but the
    sessions, the challenges, the grants and the asset records. *)
Definition beyond_auth (w : W) :=
  (w_identities w, w_users w, w_devices w, w_wallets w, w_credentials w, w_validators w, w_validatorHistory w,
   w_notifications w, w_jobs w, w_evidenceRecords w, w_evidenceObjects w, w_commitments w, w_versions w).
(** What a permission check that looks at an asset may refresh. *)
Definition registry (w : W) := (w_grants w, w_assetRecords w, w_assetCache w, w_chain w).

(** A part of the state that holds neither sessions nor challenges. *)
Definition auth_free {T} (p : W -> T) : Prop :=
  ambient_free p /\ (forall f w, p (upd_sessions f w) = p w) /\ (forall f w, p (upd_challenges f w) = p w).

Lemma keeps_sessions_delete {T} (p : W -> T) t : (forall f w, p (upd_sessions f w) = p w) -> keeps p (sessions_delete t).
Proof. intros Hp. by apply keeps_modify. Qed.

Lemma keeps_validate {T} (p : W -> T) token : auth_free p -> keeps p (validateSession token).
Proof.
  intros (Ha & Hs & _). unfold validateSession, user_of.
  pose proof (fun t => keeps_sessions_delete p t Hs) as Hd.
  repeat first [apply Hd | progress frame | progress autounfold with repo].
Qed.
Lemma keeps_attachSession {T} (p : W -> T) req : auth_free p -> keeps p (attachSession req : M exn W _).
Proof.
  intros Hp. unfold attachSession, resolveUser. apply keeps_bind; [|intros; apply keeps_ret].
  destruct (Request.authorization req); [|apply keeps_ret]. destruct (startsWith _ _); [by apply keeps_validate|apply keeps_ret].
Qed.

Lemma keeps_require_session_free {T} (p : W -> T) t : ambient_free p -> keeps p (require_session t : M exn W _).
Proof. intros Hp. unfold require_session.
  repeat first [apply keeps_activeSession | progress frame | progress autounfold with repo].
Qed.

Lemma keeps_verifyFresh {T} (p : W -> T) token inp op rid : auth_free p -> keeps p (verifyFreshAuthentication token inp op rid : M exn W _).
Proof.
  intros (Ha & _ & Hc). unfold verifyFreshAuthentication.
  pose proof (fun t => keeps_require_session_free p t Ha) as Hr.
  pose proof (fun i t => keeps_consumeIfUnused p i t Hc) as Hk.
  repeat first [apply Hr | apply Hk | apply keeps_identity_of_device | apply keeps_wallets_of_identity | progress frame | progress autounfold with repo].
Qed.

Lemma keeps_requireSession {T} (p : W -> T) req : keeps p (requireSession req).
Proof. unfold requireSession. frame. Qed.
Lemma keeps_requireRole {T} (p : W -> T) l req : keeps p (requireRole l req).
Proof. unfold requireRole. frame. Qed.
Lemma keeps_requireActiveIdentity {T} (p : W -> T) req : keeps p (Http.requireActiveIdentity req).
Proof. unfold Http.requireActiveIdentity. frame. Qed.
Lemma keeps_requireFresh {T} (p : W -> T) op res req : auth_free p -> keeps p (requireFreshAuthentication op res req).
Proof.
  intros Hp. unfold requireFreshAuthentication, verify_fresh. destruct (negb _); [apply keeps_ret|].
  pose proof (fun t => keeps_require_session_free p t (proj1 Hp)) as Hr.
  pose proof (fun t i r => keeps_verifyFresh p t i op r Hp) as Hv.
  repeat first [apply Hr | apply Hv | progress frame].
Qed.
Lemma keeps_requirePermission {T} (p : W -> T) a ctx req :
  (forall resolve, ctx = Some resolve -> keeps p (resolve req)) -> keeps p (requirePermission a ctx req).
Proof.
  intros Hc. unfold requirePermission. apply keeps_bind; [frame|intros user].
  apply keeps_bind; [destruct ctx as [r|]; [by apply Hc|apply keeps_ret]|intros; frame].
Qed.

(** ** What passing a middleware shows *)

Lemma requireSession_passed req (w w' : W) u : requireSession req w = (inr u, w') -> exists user, Request.user req = Some user.
Proof.
  unfold requireSession. intros [Hs _]%throw_if_inr. apply negb_false_iff, bool_decide_eq_true in Hs as [user ->]. eauto.
Qed.
Lemma requirePermission_passed a ctx req (w w' : W) u :
  requirePermission a ctx req w = (inr u, w') ->
  exists user c w1 w2, Request.user req = Some user /\ can (User.role user) a (permission_context user c) = true /\
    match ctx with Some resolve => resolve req w1 = (inr c, w2) | None => c = PermissionContext.empty end /\ w1 = w.
Proof.
  unfold requirePermission. intros Hrun.
  apply bind_inr in Hrun as (user & w1 & [Hu <-]%require_inr & Hrun).
  apply bind_inr in Hrun as (c & w2 & Hc & [Hcan _]%throw_if_inr). apply negb_false_iff in Hcan.
  exists user, c, w, w2. split; [done|]. split; [done|]. split; [|done]. destruct ctx; [done|]. by apply mret_inr in Hc as [<- _].
Qed.
Lemma can_not_denied role a c : can role a c = true -> permissionFor role a <> DENY.
Proof. unfold can. by destruct (permissionFor role a). Qed.

Lemma requireRole_passed l req (w w' : W) u :
  requireRole l req w = (inr u, w') -> exists user, Request.user req = Some user /\ User.role user ∈ l.
Proof.
  unfold requireRole. intros Hrun. apply bind_inr in Hrun as (user & w1 & [Hu <-]%require_inr & [Hr _]%throw_if_inr).
  apply negb_false_iff, bool_decide_eq_true in Hr. eauto.
Qed.

(** The session behind [req.user]. *)
Definition authenticated (w : W) (req : Request.t) (user : User.t) : Prop :=
  exists header s, Request.authorization req = Some header /\ startsWith "Bearer " header = true /\
    get (bearer_token header) (w_sessions w) = Some s /\
    num_le (SessionRecord.expiresAt s) (num_of_Z (Date_now (w_clockReads w))) = false /\ session_stands w s user.

Lemma attachSession_inr req req' (w w' : W) :
  attachSession req w = (inr req', w') ->
  (Request.user req' = None /\ req' = Request.with_user None req) \/
  (exists user, req' = Request.with_user (Some user) req /\ authenticated w req user /\ stored w' = stored w).
Proof.
  unfold attachSession. intros Hrun. apply bind_inr in Hrun as (o & w1 & Hr & [<- <-]%mret_inr).
  unfold resolveUser in Hr. destruct (Request.authorization req) as [header|] eqn:Eh;
    [|apply mret_inr in Hr as [<- <-]; by left].
  destruct (startsWith "Bearer " header) eqn:Eb; [|apply mret_inr in Hr as [<- <-]; by left].
  destruct o as [user|]; [|by left]. right. exists user. split; [done|].
  apply validateSession_inr in Hr as (s & Hs & Hn & Hst & Hsame). split; [|done]. exists header, s. done.
Qed.
Lemma attachSession_returns req (w : W) : exists req' w', attachSession req w = (inr req', w').
Proof.
  unfold attachSession. assert (Hr : never_throws (resolveUser req : M exn W _)).
  { unfold resolveUser. destruct (Request.authorization req); [|apply never_throws_ret].
    destruct (startsWith _ _); [apply never_throws_validateSession|apply never_throws_ret]. }
  destruct (Hr w) as (o & w1 & E). rewrite (bind_run _ _ _ _ _ E). by repeat eexists.
Qed.
End Middleware.

#[export] Hint Resolve keeps_requireSession keeps_requireRole keeps_requireActiveIdentity keeps_requireFresh : bel.
#[export] Hint Extern 1 (auth_free _) => (split; [solve_free|split; intros; reflexivity]) : bel.
