(* ===== verification/Routes.v ===== *)
(** * Routes: the endpoints of the backend, [backend/src/routes/*.ts]

    One constructor of [Route] per registered endpoint, its path parameters
    as arguments.  One definition per router lists the endpoints with their
    middleware, in the order of the registration, and their handler; [serve]
    is the whole application of [app.ts]: session, middleware, handler, error
    serializer.

    The services take typed inputs.  A handler that passes on unchecked parts
    of the body reads them at their declared types; what the program does
    with a body of other types, where the code does not check it, is the
    parameter [untyped]. *)
From S2P Require Import Prelude Effects JsString JsMap JsValue Shared Rbac Errors Schemas World.
From S2P Require Import Repositories Integrity Auth Users Assets Jobs Validators Evidence Multipart Http.
From Stdlib Require Import Ascii.
Local Open Scope string_scope.
Local Open Scope list_scope.

Inductive Route :=
(* users.routes.ts *)
| POST_login_challenge | POST_login | POST_fresh_challenge | POST_provisioning_challenge | POST_initialize_account
| GET_pending_registrations | GET_active_users | POST_verify (id : string) | POST_activate (id : string)
| POST_users | POST_revoke_wallet (id : string) | POST_activate_wallet (id : string) | POST_logout
| POST_devices (id : string) | GET_devices (id : string) | POST_revoke_device (deviceId : string)
| POST_wallets (id : string) | GET_wallets (id : string) | POST_role (id : string)
| POST_grants (id : string) | GET_grants (id : string) | POST_revoke_grant (id grantId : string)
| GET_me | GET_my_grants | GET_user (id : string)
(* assets.routes.ts *)
| GET_assets | GET_asset (id : string) | POST_assets | POST_assets_prepare
| POST_transfer (id : string) | POST_transfer_prepare (id : string)
| POST_state (id : string) | POST_state_prepare (id : string)
| POST_components (id : string) | POST_components_prepare (id : string)
| DELETE_component (id componentId : string) | POST_component_prepare (id componentId : string)
(* jobs.routes.ts *)
| GET_jobs | GET_job (id : string) | POST_jobs | POST_jobs_prepare
| POST_assign (id : string) | POST_assign_prepare (id : string)
| POST_start (id : string) | POST_start_prepare (id : string)
| POST_complete (id : string) | POST_complete_prepare (id : string)
| POST_approve (id : string) | POST_approve_prepare (id : string)
| POST_reject (id : string) | POST_reject_prepare (id : string)
(* evidence.routes.ts *)
| POST_evidence (jobId : string) | GET_evidence_list (jobId : string) | GET_evidence (jobId evidenceId : string)
(* chain.routes.ts *)
| GET_audit (id : string) | GET_status | GET_validators | GET_committee (height : string)
| GET_admin_validators | GET_validator_history | POST_validators
| POST_validator_remove (id : string) | POST_validator_restore (id : string) | POST_validator_cancel (id : string).

(** Bodies of undeclared types, see above. *)
Class UntypedBodies (C : Type) := untyped : Route -> Request.t -> M exn (World C) Response.t.

(** ** Reading a body at the declared types *)

(** [string | undefined], with [null] read as absent where the code uses
    [??], [?.] or truthiness. *)
Definition opt_string (v : value) : option (option string) :=
  match v with VStr s => Some (Some s) | VUndefined | VNull => Some None | _ => None end.
(** A string of which the code first evaluates [s?.trim()]: absent and empty
    are refused alike, and any other value throws a [TypeError]. *)
Definition trimmable (v : value) : exn + string :=
  match v with VStr s => inr s | VUndefined | VNull => inr "" | _ => inl (Error "trim is not a function") end.
(** [typeof v === "string" ? v : undefined] *)
Definition string_or_undefined (v : value) : option string := match v with VStr s => Some s | _ => None end.
(** The body as an object; the keys of an array are not the ones looked for. *)
Definition body_object (req : Request.t) : payload := match Request.body req with VObj p => p | _ => [] end.
(** [Partial<Job>] of a job request; [createdBy] is the caller. *)
Definition read_job (req : Request.t) (createdBy : string) : option PartialJob.t :=
  let f k := body_field k req in
  match opt_string (f "verifierId"), one_of JobPriority_string JOB_PRIORITIES (f "priority") with
  | Some verifierId, Some p =>
      Some (PartialJob.mk (string_or_undefined (f "jobId")) (string_or_undefined (f "assetId")) (Some createdBy) verifierId (Some p))
  | Some verifierId, None =>
      if falsy (f "priority")
      then Some (PartialJob.mk (string_or_undefined (f "jobId")) (string_or_undefined (f "assetId")) (Some createdBy) verifierId None)
      else None
  | None, _ => None
  end.
(** [Partial<Asset>] of an asset request *)
Definition read_asset (req : Request.t) : option PartialAsset.t :=
  let f k := body_field k req in
  match opt_string (f "assetId"), opt_string (f "parentAssetId") with
  | Some assetId, Some parentAssetId =>
      Some (PartialAsset.mk assetId (string_or_undefined (f "assetType")) (string_or_undefined (f "ownerId"))
        (string_or_undefined (f "custodianId")) parentAssetId)
  | _, _ => None
  end.
(** [CreateIdentityInput] after the checks of the route *)
Definition read_user (req : Request.t) : option CreateIdentityInput.t :=
  let f k := body_field k req in
  match f "employeeId", opt_string (f "identityId"), opt_string (f "createdAt"), f "status" with
  | VStr employeeId, Some identityId, Some createdAt, status =>
      match one_of IdentityStatus_string IDENTITY_STATUSES status, opt_string status with
      | Some s, _ => Some (CreateIdentityInput.mk employeeId (parse_Role (f "role")) identityId (string_or_undefined (f "fullName"))
                       (string_or_undefined (f "department")) (Some s) createdAt)
      | None, Some None => Some (CreateIdentityInput.mk employeeId (parse_Role (f "role")) identityId (string_or_undefined (f "fullName"))
                       (string_or_undefined (f "department")) None createdAt)
      | None, _ => None
      end
  | _, _, _, _ => None
  end.
(** [InitializeAccountRequest] *)
Definition read_account (req : Request.t) : option InitializeAccountRequest.t :=
  let f k := body_field k req in
  match opt_string (f "employeeId"), opt_string (f "department") with
  | Some employeeId, Some department =>
      Some (InitializeAccountRequest.mk (bool_decide ("privateKey" ∈ keys (body_object req))) (f "fullName") (f "deviceId") (f "publicKey")
        (f "walletAddress") (f "challengeId") (f "signature") (f "deviceMetadata") employeeId department)
  | _, _ => None
  end.
(** The input of a grant: every resource type but ["ASSET"] and every action
    but ["TRANSFER_ASSET"] is refused by the same check. *)
Definition read_grant (req : Request.t) : option GrantInput.t :=
  let f k := body_field k req in
  match f "resourceId", opt_string (f "expiresAt") with
  | VStr resourceId, Some expiresAt =>
      Some (GrantInput.mk (if is_string (f "resourceType") "ASSET" then ASSET else JOB) resourceId
        (default CREATE_EMPLOYEE (one_of Action_string ACTIONS (f "action"))) expiresAt)
  | _, _ => None
  end.

(** [toResponse] of an evidence record *)
Definition toResponse (e : Evidence.t) : payload :=
  [("id", VStr (Evidence.evidenceId e)); ("evidenceId", VStr (Evidence.evidenceId e)); ("jobId", VStr (Evidence.jobId e));
   ("cid", VStr (Evidence.cid e)); ("sha256", VStr (Evidence.sha256 e)); ("filename", VStr (Evidence.originalFilename e));
   ("originalFilename", VStr (Evidence.originalFilename e)); ("contentType", VStr (Evidence.contentType e));
   ("sizeBytes", VNum (num_of_Z (Evidence.sizeBytes e))); ("uploadedBy", VStr (Evidence.uploadedBy e));
   ("createdAt", VStr (Evidence.createdAt e)); ("updatedAt", VStr (Evidence.updatedAt e))].
Definition attachment (filename : string) : string :=
  "attachment; filename=" +:+ String QUOTE (sanitizeFilename filename +:+ String QUOTE "").

Section Routes.
Context `{Platform} {C : Type} `{BlockchainService C} `{Wiring} `{DeviceAttestationAdapter} `{IntegrityWiring}
  `{EvidenceStorage C} `{EmailNotificationProvider} `{UntypedBodies C} (options : EvidenceServiceOptions.t) (fuel : nat).
Abbreviation W := (World C).
Abbreviation MW := (M exn (World C)).

(** ** Permission contexts *)

Definition usable_candidate (g : AuthorizationGrant.t) (assetId : string) : bool :=
  bool_decide (AuthorizationGrant.resourceType g = ASSET) && String.eqb (AuthorizationGrant.resourceId g) assetId &&
  bool_decide (AuthorizationGrant.action g = TRANSFER_ASSET) && bool_decide (AuthorizationGrant.status g = Grant_ACTIVE).

(** The first grant that covers the transfer; [validateGrant] marks the
    expired ones it meets on the way. *)
Fixpoint first_valid_grant (grants : list AuthorizationGrant.t) (actorId assetId : string) : MW (option AuthorizationGrant.t) :=
  match grants with
  | [] => mret None
  | candidate :: rest =>
      ok ← (if usable_candidate candidate assetId
            then validateGrant (AuthorizationGrant.authorizationGrantId candidate) actorId assetId TRANSFER_ASSET
            else mret false);
      match ok with
      | true => mret (Some candidate)
      | false => first_valid_grant rest actorId assetId
      end
  end.
Definition transfer_grant (id : string) (user : User.t) : MW (option Asset.t * option AuthorizationGrant.t) :=
  asset ← Assets.getById id;
  match asset with
  | None => mret (None, None)
  | Some a =>
      grants ← grants_listByIdentityId (User.identityId user);
      grant ← first_valid_grant grants (User.identityId user) (Asset.assetId a);
      mret (Some a, grant)
  end.
Definition transfer_context (id : string) : ContextResolver (C := C) := fun req =>
  user ← the_user req;
  '(asset, grant) ← transfer_grant id user;
  mret (PermissionContext.mk None (Asset.ownerId <$> asset) (AuthorizationGrant.authorizationGrantId <$> grant)
          (Some (bool_decide (is_Some grant)))).
(** The context of [transfer/prepare] carries no grant id. *)
Definition transfer_prepare_context (id : string) : ContextResolver (C := C) := fun req =>
  user ← the_user req;
  '(asset, grant) ← transfer_grant id user;
  mret (PermissionContext.mk None (Asset.ownerId <$> asset) None (Some (bool_decide (is_Some grant)))).

Definition evidence_context (jobId : string) : ContextResolver (C := C) := fun _ =>
  job ← jobs_findById jobId;
  mret (PermissionContext.mk None (Job.assignedTo <$> job) None None).
Definition audit_context (id : string) : ContextResolver (C := C) := fun req =>
  user ← the_user req;
  asset ← Assets.getById id;
  jobs ← list_jobs;
  let own job := String.eqb (Job.assetId job) id &&
    (String.eqb (Job.assignedTo job) (User.identityId user) || String.eqb (Job.createdBy job) (User.identityId user)) in
  mret (PermissionContext.mk None (or_else (Job.assignedTo <$> List.find own jobs) (Asset.ownerId <$> asset)) None None).

(** ** Handlers *)

(** [actor(req)] of the job and asset routes, and of the evidence routes *)
Definition actor (req : Request.t) : MW Actor.t :=
  user ← the_user req;
  mret (Actor.mk (User.identityId user) (User.walletAddress user) (string_or_undefined (body_field "signature" req))).
Definition evidence_actor (req : Request.t) : MW EvidenceActor.t :=
  user ← the_user req;
  mret (EvidenceActor.mk (User.identityId user) (User.walletAddress user) (User.role user)).

(** A required string of the body. *)
Definition body_string (k : string) (req : Request.t) : MW string :=
  match body_field k req with VStr s => mret s | _ => throw (ValidationError [k +:+ " is required"]) end.
(** Go on with a part of the body read at its declared type. *)
Definition typed {A} (route : Route) (req : Request.t) (o : option A) (k : A -> MW Response.t) : MW Response.t :=
  match o with Some a => k a | None => untyped route req end.
(** [req.header("authorization")!.slice(7).trim()] *)
Definition request_token (req : Request.t) : string := bearer_token (default "" (Request.authorization req)).

Definition not_prepared : Response.t :=
  Response.mk 501 (B_Error "NOT_IMPLEMENTED" "Device transaction preparation is unavailable").
(** The envelope of the two creation routes that the chain prepares itself. *)
Definition development_transaction (type : TransactionType) (user : User.t) (p : payload) : MW Transaction.t :=
  txId ← randomUUID;
  timestamp ← nowISO;
  mret (Transaction.mk txId type (User.identityId user) (User.walletAddress user) p timestamp "development").

(** *** users.routes.ts *)

Definition createUser_errors (req : Request.t) : list string :=
  let missing k := match body_field k req with VStr s => blank s | _ => true end in
  complain (missing "employeeId") "employeeId is required" ++ complain (missing "fullName") "fullName is required" ++
  complain (missing "department") "department is required" ++ complain (negb (isValidRole (body_field "role" req))) "role is invalid".

Definition login_route (req : Request.t) : MW Response.t :=
  match body_field "deviceCredential" req with
  | VStr credential => '(user, token) ← login (Credential credential); mret (json (B_Login user token))
  | _ =>
      match body_field "deviceId" req, body_field "challengeId" req, body_field "publicKey" req, body_field "signature" req with
      | VStr deviceId, VStr challengeId, VStr publicKey, VStr signature =>
          '(user, token) ← login (Proof_of (LoginProofInput.mk deviceId challengeId publicKey signature));
          mret (json (B_Login user token))
      | _, _, _, _ => throw (ValidationError ["deviceCredential or device proof fields are required"])
      end
  end.

Definition fresh_challenge_route (req : Request.t) : MW Response.t :=
  match body_field "operation" req with
  | VStr operation =>
      throw_if (blank operation) (ValidationError ["operation is required"]);;
      match body_field "resourceId" req with
      | VStr resourceId => c ← requestFreshAuthenticationChallenge (request_token req) operation (Some resourceId); mret (created (B_Challenge c))
      | VUndefined => c ← requestFreshAuthenticationChallenge (request_token req) operation None; mret (created (B_Challenge c))
      | _ => throw (ValidationError ["resourceId must be a string"])
      end
  | _ => throw (ValidationError ["operation is required"])
  end.

Definition my_grants_route (req : Request.t) : MW Response.t :=
  user ← the_user req;
  let bad := ValidationError ["resourceType=ASSET, resourceId, and action=TRANSFER_ASSET are required"] in
  match field "resourceId" (Request.query req) with
  | VStr resourceId =>
      throw_if (negb (is_string (field "resourceType" (Request.query req)) "ASSET") || blank resourceId ||
                negb (is_string (field "action" (Request.query req)) "TRANSFER_ASSET")) bad;;
      grant ← findActiveGrant (User.identityId user) ASSET resourceId TRANSFER_ASSET;
      mret (json (B_OwnGrant (bool_decide (is_Some grant)) grant))
  | _ => throw bad
  end.

Definition create_user_route (req : Request.t) : MW Response.t :=
  user ← the_user req;
  throw_if is_production (ForbiddenError "Legacy administrator user creation is disabled in production; use account initialization");;
  throw_if (negb (bool_decide (createUser_errors req = []))) (ValidationError (createUser_errors req));;
  typed POST_users req (read_user req) (fun input =>
    '(i, u) ← createUser input (Some (User.identityId user)); mret (created (B_Created i u))).

Definition activate_wallet_route (id : string) (req : Request.t) : MW Response.t :=
  user ← the_user req;
  let bad := ValidationError ["deviceId and device-generated walletAddress are required"] in
  match body_field "deviceId" req, body_field "walletAddress" req with
  | VStr deviceId, VStr walletAddress =>
      throw_if (blank walletAddress) bad;;
      x ← activateWallet id deviceId walletAddress (Some (User.identityId user));
      mret (json (B_Wallet x))
  | _, _ => throw bad
  end.

(** The default of [credential] applies to [undefined] only; [null] and the
    empty string are refused alike. *)
Definition register_device_route (id : string) (req : Request.t) : MW Response.t :=
  deviceId ← lift_result (trimmable (body_field "deviceId" req));
  match opt_string (body_field "credential" req), opt_string (body_field "publicKey" req) with
  | Some credential, Some publicKey =>
      let credential := match body_field "credential" req with VNull => Some "" | _ => credential end in
      d ← registerDevice id deviceId credential publicKey; mret (created (B_Device d))
  | _, _ => untyped (POST_devices id) req
  end.

Definition nonblank_string (k : string) (e : exn) (req : Request.t) : MW string :=
  match body_field k req with VStr s => throw_if (blank s) e;; mret s | _ => throw e end.

(** *** assets.routes.ts *)

Definition prepare_asset_mutation (m : AssetMutation) (input : payload) (req : Request.t) : MW Response.t :=
  a ← actor req; t ← Assets.prepare fuel m input a; mret (json (B_Prepared t)).

Definition assets_prepare_route (req : Request.t) : MW Response.t :=
  user ← the_user req;
  assetType ← body_string "assetType" req;
  match prepareTransaction with
  | None => mret not_prepared
  | Some prepare =>
      let given := trim <$> string_or_undefined (body_field "assetId" req) in
      assetId ← (if truthy_string given then mret (default "" given) else u ← randomUUID; mret ("AST-" +:+ u));
      tx ← development_transaction ASSET_MINT user
        [("assetId", VStr assetId); ("assetType", VStr assetType); ("ownerId", body_field "ownerId" req);
         ("custodianId", body_field "custodianId" req); ("parentAssetId", null_of (body_field "parentAssetId" req))];
      t ← on_chain (prepare tx);
      mret (json (B_Intent (spread (body_object req) [("assetId", VStr assetId)]) t))
  end.

(** [req.body?.newState ?? req.body?.status] *)
Definition new_state (req : Request.t) : value :=
  match body_field "newState" req with VUndefined | VNull => body_field "status" req | v => v end.

Definition transfer_route (id : string) (req : Request.t) : MW Response.t :=
  newOwnerId ← body_string "newOwnerId" req;
  newCustodianId ← (match body_field "newCustodianId" req with
                    | VUndefined => mret None
                    | VStr c => mret (Some c)
                    | _ => throw (ValidationError ["newCustodianId must be a string"])
                    end);
  a ← actor req;
  asset ← Assets.transfer id newOwnerId newCustodianId (Some a);
  mret (json (B_Asset asset)).

(** *** jobs.routes.ts *)

Definition jobs_prepare_route (req : Request.t) : MW Response.t :=
  user ← the_user req;
  assetId ← body_string "assetId" req;
  match prepareTransaction with
  | None => mret not_prepared
  | Some prepare =>
      let given := trim <$> string_or_undefined (body_field "jobId" req) in
      jobId ← (if truthy_string given then mret (default "" given)
               else jobs ← list_jobs; mret ("JOB-" +:+ pretty (length jobs + 1)%nat));
      tx ← development_transaction JOB_CREATE user [("jobId", VStr jobId); ("assetId", VStr assetId)];
      t ← on_chain (prepare tx);
      mret (json (B_Intent (spread (body_object req) [("jobId", VStr jobId)]) t))
  end.

Definition prepare_job_mutation (m : JobMutation) (id : string) (p : payload) (req : Request.t) : MW Response.t :=
  a ← actor req; t ← Jobs.prepare m id p a; mret (json (B_Prepared t)).

(** [s.toLowerCase().replace(/^0x/, "")] *)
Definition plain_digest (s : string) : string :=
  let l := toLowerCase s in if startsWith "0x" l then slice_from 2 l else l.

(** The evidence hash of a completion: that of the selected evidence, which
    a hash in the body has to agree with, else the one in the body. *)
Definition selected_hash (id : string) (req : Request.t) (compare : bool) : MW value :=
  match body_field "evidenceId" req with
  | VStr evidenceId =>
      if blank evidenceId then mret (body_field "evidenceHash" req)
      else
        a ← evidence_actor req;
        storedHash ← getHash id evidenceId a;
        throw_if (compare && match body_field "evidenceHash" req with
                             | VUndefined => false
                             | VStr h => negb (String.eqb (plain_digest h) storedHash)
                             | _ => true
                             end) (ValidationError ["evidenceHash does not match the selected evidence"]);;
        mret (VStr storedHash)
  | _ => mret (body_field "evidenceHash" req)
  end.

Definition complete_route (id : string) (req : Request.t) : MW Response.t :=
  evidenceHash ← selected_hash id req true;
  match evidenceHash with
  | VStr h =>
      throw_if (blank h) (ValidationError ["evidenceHash is required"]);;
      a ← actor req; j ← complete id h a; mret (json (B_Job j))
  | _ => throw (ValidationError ["evidenceHash is required"])
  end.

(** *** evidence.routes.ts and chain.routes.ts *)

Definition upload_route (jobId : string) (req : Request.t) : MW Response.t :=
  file ← lift_result (readEvidenceMultipart (Request.content_type req) (Request.chunks req) (maxFileSizeBytes options));
  a ← evidence_actor req;
  e ← upload options jobId a file;
  mret (created (B_Evidence (toResponse e))).

Definition download_route (jobId evidenceId : string) (req : Request.t) : MW Response.t :=
  a ← evidence_actor req;
  '(e, bytes) ← download jobId evidenceId a;
  mret (json (B_File (Evidence.contentType e) (attachment (Evidence.originalFilename e)) bytes)).

(** [AuditServiceImpl.getTrailForAsset] *)
Definition getTrailForAsset (assetId : string) : MW (list AuditEvent.t) :=
  match getAuditTrail with Some read => on_chain (read assetId) | None => mret [] end.

Definition committee_route (height : string) : MW Response.t :=
  let n := Number_of height in
  match as_integer n with
  | Some h =>
      throw_if (h <? 0)%Z (ValidationError ["height must be a non-negative integer"]);;
      ids ← on_chain (chain_getCommittee h);
      mret (json (B_Committee n ids))
  | None => throw (ValidationError ["height must be a non-negative integer"])
  end.

Definition validator_reason_route (route : Route) (req : Request.t)
    (operation : string -> option string -> MW ValidatorRegistration.t) : MW Response.t :=
  user ← the_user req;
  typed route req (opt_string (body_field "reason" req)) (fun reason =>
    v ← operation (User.identityId user) reason; mret (json (B_ValidatorRegistration v))).

(** ** The routers

    One per file of [routes/]; an endpoint is registered with its middleware
    and its handler, and what a router does not know it leaves to the next. *)

Record Endpoint := endpoint { middleware : list (Middleware (C := C)); run : Request.t -> MW Response.t }.
Definition on (ms : list (Middleware (C := C))) (h : Request.t -> MW Response.t) : option Endpoint := Some (endpoint ms h).
Definition path_id (id : string) : Request.t -> value := fun _ => VStr id.
Definition permitted (a : Action) : Middleware (C := C) := requirePermission a None.

Definition usersRouter (route : Route) : option Endpoint :=
  match route with
  | POST_login_challenge => on [] (fun req =>
      match body_field "deviceId" req with
      | VStr deviceId => c ← requestAuthenticationChallenge deviceId; mret (created (B_Challenge c))
      | _ => throw (ValidationError ["deviceId must be a string"])
      end)
  | POST_login => on [] login_route
  | POST_fresh_challenge => on [requireSession] fresh_challenge_route
  | POST_provisioning_challenge => on [] (fun req =>
      deviceId ← lift_result (trimmable (body_field "deviceId" req));
      c ← requestProvisioningChallenge deviceId (body_field "deviceMetadata" req); mret (created (B_Challenge c)))
  | POST_initialize_account =>
      on []
        (fun req => typed route req (read_account req) (fun input => r ← initializeAccount input; mret (Response.mk 202 (B_Registration r))))
  | GET_pending_registrations =>
      on [requireSession; requireRole [ADMIN]]
        (fun _ => l ← listPendingRegistrations; mret (json (B_Registrations l)))
  | GET_active_users =>
      on [requireSession; permitted CREATE_EMPLOYEE]
        (fun _ => l ← listActiveEmployees; mret (json (B_Employees l)))
  | POST_verify id => on [requireSession; requireRole [ADMIN]] (fun req =>
      user ← the_user req;
      match opt_string (body_field "employeeId" req), opt_string (body_field "department" req) with
      | Some employeeId, Some department =>
          i ← verifyRegistration (User.identityId user) id (default "" employeeId) (default "" department); mret (json (B_Identity i))
      | _, _ => untyped route req
      end)
  | POST_activate id =>
      on [requireSession; requireRole [ADMIN]]
        (fun req => user ← the_user req; r ← activateRegistration (User.identityId user) id; mret (json (B_Registration r)))
  | POST_users => on [requireSession; permitted CREATE_EMPLOYEE] create_user_route
  | POST_revoke_wallet id =>
      on [requireSession; requireActiveIdentity; requireFreshAuthentication "WALLET_REVOKE" (path_id id); permitted REVOKE_WALLET]
        (fun req =>
          user ← the_user req;
          reason ← nonblank_string "reason" (ValidationError ["reason is required to revoke a wallet"]) req;
          x ← revokeWallet id reason (Some (User.identityId user)); mret (json (B_Wallet x)))
  | POST_activate_wallet id =>
      on [requireSession; requireActiveIdentity; requireFreshAuthentication "WALLET_ACTIVATE" (path_id id); permitted ACTIVATE_WALLET]
        (activate_wallet_route id)
  | POST_logout => on [requireSession] (fun req => logout (request_token req);; mret (Response.mk 204 B_Empty))
  | POST_devices id => on [requireSession; permitted CREATE_EMPLOYEE] (register_device_route id)
  | GET_devices id => on [requireSession; permitted CREATE_EMPLOYEE] (fun _ => l ← listDevices id; mret (json (B_Devices l)))
  | POST_revoke_device deviceId =>
      on [requireSession; requireFreshAuthentication "WALLET_REVOKE" (path_id deviceId); permitted REVOKE_WALLET]
        (fun req => user ← the_user req; d ← revokeDevice deviceId (Some (User.identityId user)); mret (json (B_Device d)))
  | POST_wallets id => on [requireSession; permitted ACTIVATE_WALLET] (fun req =>
      address ← lift_result (trimmable (body_field "walletAddress" req));
      match body_field "deviceId" req with
      | VStr deviceId => x ← registerWallet id deviceId address; mret (created (B_Wallet x))
      | _ => untyped route req
      end)
  | GET_wallets id => on [requireSession; permitted CREATE_EMPLOYEE] (fun _ => l ← listWallets id; mret (json (B_Wallets l)))
  | POST_role id =>
      on [requireSession; requireFreshAuthentication "ROLE_ASSIGN" (path_id id); permitted CREATE_EMPLOYEE]
        (fun req => user ← the_user req; u ← assignRole (User.identityId user) id (parse_Role (body_field "role" req)); mret (json (B_User u)))
  | POST_grants id =>
      on [requireSession; requireFreshAuthentication "GRANT_CREATE" (body_field "resourceId"); requireRole [ADMIN]]
        (fun req =>
          user ← the_user req;
          typed route req (read_grant req) (fun input => g ← createGrant (User.identityId user) id input; mret (created (B_Grant g))))
  | GET_grants id => on [requireSession; permitted CREATE_EMPLOYEE] (fun _ => l ← listGrants id; mret (json (B_Grants l)))
  | POST_revoke_grant _ grantId =>
      on [requireSession; requireFreshAuthentication "GRANT_REVOKE" (path_id grantId); permitted CREATE_EMPLOYEE]
        (fun req => user ← the_user req; g ← revokeGrant (User.identityId user) grantId; mret (json (B_Grant g)))
  | GET_me => on [requireSession] (fun req => user ← the_user req; mret (json (B_User user)))
  | GET_my_grants => on [requireSession] my_grants_route
  | GET_user id =>
      on [requireSession]
        (fun _ => found ← Users.getById id; u ← require found (NotFoundError ("No user " +:+ id)); mret (json (B_User u)))
  | _ => None
  end.

Definition assetsRouter (route : Route) : option Endpoint :=
  match route with
  | GET_assets => on [requireSession] (fun _ => l ← list_assets; mret (json (B_Assets l)))
  | GET_asset id =>
      on [requireSession]
        (fun _ => found ← Assets.getById id; a ← require found (NotFoundError ("No asset " +:+ id)); mret (json (B_Asset a)))
  | POST_assets => on [requireSession; permitted REGISTER_ASSET] (fun req =>
      body_string "assetType" req;;
      a ← actor req;
      typed route req (read_asset req) (fun input => asset ← Assets.create input (Some a); mret (created (B_Asset asset))))
  | POST_assets_prepare => on [requireSession; permitted REGISTER_ASSET] assets_prepare_route
  | POST_transfer id =>
      on [requireSession; requireFreshAuthentication "ASSET_TRANSFER" (path_id id); requirePermission TRANSFER_ASSET (Some (transfer_context id))]
        (transfer_route id)
  | POST_transfer_prepare id =>
      on [requireSession; requirePermission TRANSFER_ASSET (Some (transfer_prepare_context id))]
        (fun req =>
          prepare_asset_mutation A_TRANSFER
            [("assetId", VStr id); ("newOwnerId", body_field "newOwnerId" req); ("newCustodianId", body_field "newCustodianId" req)] req)
  | POST_state id =>
      on [requireSession; requireFreshAuthentication "ASSET_STATE_CHANGE" (path_id id); permitted REGISTER_ASSET]
        (fun req =>
          match new_state req with
          | VStr newState => a ← actor req; asset ← changeAssetState id newState (Some a); mret (json (B_Asset asset))
          | _ => throw (ValidationError ["newState is required"])
          end)
  | POST_state_prepare id =>
      on [requireSession; permitted REGISTER_ASSET]
        (fun req => prepare_asset_mutation A_STATE_CHANGE [("assetId", VStr id); ("newState", new_state req)] req)
  | POST_components id =>
      on [requireSession; requireFreshAuthentication "COMPONENT_ATTACH" (path_id id); permitted REGISTER_ASSET]
        (fun req =>
          componentId ← body_string "componentId" req;
          a ← actor req; asset ← attachComponent fuel id componentId (Some a); mret (json (B_Asset asset)))
  | POST_components_prepare id =>
      on [requireSession; permitted REGISTER_ASSET]
        (fun req => prepare_asset_mutation A_ATTACH [("parentAssetId", VStr id); ("componentId", body_field "componentId" req)] req)
  | DELETE_component id componentId =>
      on [requireSession; requireFreshAuthentication "COMPONENT_REMOVE" (path_id componentId); permitted REGISTER_ASSET]
        (fun req => a ← actor req; asset ← removeComponent id componentId (Some a); mret (json (B_Asset asset)))
  | POST_component_prepare id componentId =>
      on [requireSession; permitted REGISTER_ASSET]
        (fun req => prepare_asset_mutation A_REMOVE [("parentAssetId", VStr id); ("componentId", VStr componentId)] req)
  | _ => None
  end.

Definition jobsRouter (route : Route) : option Endpoint :=
  match route with
  | GET_jobs => on [requireSession] (fun _ => l ← list_jobs; mret (json (B_Jobs l)))
  | GET_job id => on [requireSession] (fun _ =>
      l ← list_jobs;
      j ← require (List.find (fun j => String.eqb (Job.jobId j) id) l) (NotFoundError ("No job " +:+ id));
      mret (json (B_Job j)))
  | POST_jobs => on [requireSession; permitted CREATE_JOB] (fun req =>
      body_string "assetId" req;;
      user ← the_user req;
      a ← actor req;
      typed route req (read_job req (User.identityId user)) (fun input => j ← Jobs.create input a; mret (created (B_Job j))))
  | POST_jobs_prepare => on [requireSession; permitted CREATE_JOB] jobs_prepare_route
  | POST_assign id => on [requireSession; permitted ASSIGN_TECHNICIAN] (fun req =>
      technicianId ← body_string "technicianId" req;
      a ← actor req; j ← assign id technicianId a; mret (json (B_Job j)))
  | POST_assign_prepare id =>
      on [requireSession; permitted ASSIGN_TECHNICIAN]
        (fun req => prepare_job_mutation M_ASSIGN id [("technicianId", body_field "technicianId" req)] req)
  | POST_start id =>
      on [requireSession; permitted PERFORM_MAINTENANCE]
        (fun req => a ← actor req; j ← start id a; mret (json (B_Job j)))
  | POST_start_prepare id =>
      on [requireSession; permitted PERFORM_MAINTENANCE]
        (fun req => prepare_job_mutation M_START id [] req)
  | POST_complete id => on [requireSession; permitted PERFORM_MAINTENANCE] (complete_route id)
  | POST_complete_prepare id => on [requireSession; permitted PERFORM_MAINTENANCE] (fun req =>
      evidenceHash ← selected_hash id req false;
      prepare_job_mutation M_COMPLETE id [("evidenceHash", evidenceHash)] req)
  | POST_approve id =>
      on [requireSession; requireFreshAuthentication "JOB_VERIFY" (path_id id); permitted VERIFY_MAINTENANCE]
        (fun req => a ← actor req; j ← approve id a; mret (json (B_Job j)))
  | POST_approve_prepare id =>
      on [requireSession; permitted VERIFY_MAINTENANCE]
        (fun req => prepare_job_mutation M_APPROVE id [] req)
  | POST_reject id =>
      on [requireSession; requireFreshAuthentication "JOB_VERIFY" (path_id id); permitted VERIFY_MAINTENANCE]
        (fun req =>
          reason ← nonblank_string "reason" (ValidationError ["reason is required"]) req;
          a ← actor req; j ← reject id reason a; mret (json (B_Job j)))
  | POST_reject_prepare id =>
      on [requireSession; permitted VERIFY_MAINTENANCE]
        (fun req => prepare_job_mutation M_REJECT id [("reason", body_field "reason" req)] req)
  | _ => None
  end.

Definition evidenceRouter (route : Route) : option Endpoint :=
  match route with
  | POST_evidence jobId => on [requireSession; permitted PERFORM_MAINTENANCE] (upload_route jobId)
  | GET_evidence_list jobId =>
      on [requireSession; requirePermission VIEW_AUDIT_HISTORY (Some (evidence_context jobId))]
        (fun req => a ← evidence_actor req; l ← list_evidence jobId a; mret (json (B_EvidenceList (map toResponse l))))
  | GET_evidence jobId evidenceId =>
      on [requireSession; requirePermission VIEW_AUDIT_HISTORY (Some (evidence_context jobId))]
        (download_route jobId evidenceId)
  | _ => None
  end.

Definition chainRouter (route : Route) : option Endpoint :=
  match route with
  | GET_audit id =>
      on [requireSession; requirePermission VIEW_AUDIT_HISTORY (Some (audit_context id))]
        (fun _ => l ← getTrailForAsset id; mret (json (B_Trail l)))
  | GET_status => on [] (fun _ => s ← on_chain chain_getStatus; mret (json (B_Status s)))
  | GET_validators =>
      on [requireSession; permitted VIEW_VALIDATOR_STATUS]
        (fun _ => l ← on_chain chain_getValidators; mret (json (B_Validators l)))
  | GET_committee height => on [requireSession; permitted VIEW_VALIDATOR_STATUS] (fun _ => committee_route height)
  | GET_admin_validators =>
      on [requireSession; permitted MANAGE_VALIDATORS]
        (fun _ => l ← list_validators; mret (json (B_ValidatorRegistrations l)))
  | GET_validator_history =>
      on [requireSession; permitted MANAGE_VALIDATORS]
        (fun _ => l ← validatorHistory_list; mret (json (B_ValidatorHistory l)))
  | POST_validators =>
      on [requireSession; permitted MANAGE_VALIDATORS; requireFreshAuthentication "VALIDATOR_ADD" (body_field "validatorId")]
        (fun req => user ← the_user req; v ← addValidator (User.identityId user) (body_object req); mret (created (B_ValidatorRegistration v)))
  | POST_validator_remove id =>
      on [requireSession; permitted MANAGE_VALIDATORS; requireFreshAuthentication "VALIDATOR_REMOVE" (path_id id)]
        (fun req =>
          let removalHeight := VNum (Number_value (body_field "removalHeight" req)) in
          validator_reason_route route req (fun user reason => removeValidator user id (ValidatorRemovalInput.mk removalHeight reason)))
  | POST_validator_restore id =>
      on [requireSession; permitted MANAGE_VALIDATORS; requireFreshAuthentication "VALIDATOR_RESTORE" (path_id id)]
        (fun req => validator_reason_route route req (fun user reason => restoreValidator user id reason))
  | POST_validator_cancel id =>
      on [requireSession; permitted MANAGE_VALIDATORS; requireFreshAuthentication "VALIDATOR_REMOVE_CANCEL" (path_id id)]
        (fun req => validator_reason_route route req (fun user reason => cancelScheduledRemoval user id reason))
  | _ => None
  end.

(** The routers are tried in the order [createApp] mounts them. *)
Definition routers (route : Route) : option Endpoint :=
  or_else (usersRouter route) (or_else (assetsRouter route) (or_else (jobsRouter route)
    (or_else (evidenceRouter route) (chainRouter route)))).
Definition guards (route : Route) : list (Middleware (C := C)) :=
  match routers route with Some e => middleware e | None => [] end.
Definition handler (route : Route) (req : Request.t) : MW Response.t :=
  match routers route with Some e => run e req | None => mret (Response.mk 404 (B_Error "NOT_FOUND" "No such route")) end.

(** ** The application *)

(** [attachSession], the middleware of the endpoint, its handler. *)
Definition respond (route : Route) (req : Request.t) : MW Response.t :=
  req ← attachSession req;
  for_each (guards route) (fun guard => guard req);;
  handler route req.

(** [createApp]: every request draws a request id, every error is answered
    by the serializer (and logged, which reads the clock). *)
Definition serve (route : Route) (req : Request.t) : MW Response.t :=
  randomUUID;;
  try_catch (respond route req) (fun error => nowISO;; mret (error_response error)).
End Routes.
