(* ===== verification/RoutesCorrect.v ===== *)
(** * RoutesCorrect: what a request can and cannot do

    The boundary of the backend: who gets through to the handlers, what a
    refused request may have touched, when a fresh proof is needed, what
    logging out means. *)
From S2P Require Import Prelude Effects JsString JsMap JsValue Shared Rbac Errors Schemas World Repositories Integrity Auth.
From S2P Require Import AuthCorrect MockChain Concrete Users UsersCorrect Assets Jobs Validators Evidence Multipart Http HttpCorrect Routes.
From stdpp Require Import relations.
Local Open Scope string_scope.
Local Open Scope list_scope.

(** ** The specification of the boundary *)

(** Who may call an endpoint, as in [docs/RBAC_MATRIX.md]: [None] is open to
    everyone, otherwise a session with one of the roles is needed. *)
Definition audience (route : Route) : option (list Role) :=
  match route with
  | POST_login_challenge | POST_login | POST_provisioning_challenge | POST_initialize_account | GET_status => None
  | POST_fresh_challenge | POST_logout | GET_me | GET_my_grants | GET_user _ | GET_assets | GET_asset _ | GET_jobs | GET_job _
  | GET_validators | GET_committee _ => Some ROLES
  | GET_pending_registrations | GET_active_users | POST_verify _ | POST_activate _ | POST_users | POST_revoke_wallet _
  | POST_devices _ | GET_devices _ | POST_revoke_device _ | GET_wallets _ | POST_role _ | POST_grants _ | GET_grants _
  | POST_revoke_grant _ _ | GET_admin_validators | GET_validator_history | POST_validators | POST_validator_remove _
  | POST_validator_restore _ | POST_validator_cancel _ => Some [ADMIN]
  | POST_activate_wallet _ | POST_wallets _ => Some [ADMIN; ISSUER]
  | POST_assets | POST_assets_prepare | POST_state _ | POST_state_prepare _ | POST_components _ | POST_components_prepare _
  | DELETE_component _ _ | POST_component_prepare _ _ => Some [ADMIN; MANAGER; ENGINEER; ISSUER]
  | POST_transfer _ | POST_transfer_prepare _ => Some [ADMIN; MANAGER; ENGINEER]
  | POST_jobs | POST_jobs_prepare | POST_assign _ | POST_assign_prepare _ => Some [MANAGER; ENGINEER]
  | POST_start _ | POST_start_prepare _ | POST_complete _ | POST_complete_prepare _ | POST_evidence _ => Some [ENGINEER; TECHNICIAN]
  | POST_approve _ | POST_approve_prepare _ | POST_reject _ | POST_reject_prepare _ => Some [MANAGER; ENGINEER; AUDITOR; VERIFIER]
  | GET_evidence_list _ | GET_evidence _ _ | GET_audit _ => Some [ADMIN; MANAGER; ENGINEER; TECHNICIAN; AUDITOR; VERIFIER]
  end.

(** The endpoints whose permission check looks at an asset, and the asset: the
    check asks the chain for it, refreshes what is cached of it and marks
    expired grants. *)
Definition looked_asset (route : Route) : option string :=
  match route with POST_transfer id | POST_transfer_prepare id | GET_audit id => Some id | _ => None end.

(** The operation an endpoint wants a fresh proof for, and its resource. *)
Definition fresh_demand (route : Route) (req : Request.t) : option (string * value) :=
  match route with
  | POST_revoke_wallet id => Some ("WALLET_REVOKE", VStr id)
  | POST_activate_wallet id => Some ("WALLET_ACTIVATE", VStr id)
  | POST_revoke_device id => Some ("WALLET_REVOKE", VStr id)
  | POST_role id => Some ("ROLE_ASSIGN", VStr id)
  | POST_grants _ => Some ("GRANT_CREATE", body_field "resourceId" req)
  | POST_revoke_grant _ id => Some ("GRANT_REVOKE", VStr id)
  | POST_transfer id => Some ("ASSET_TRANSFER", VStr id)
  | POST_state id => Some ("ASSET_STATE_CHANGE", VStr id)
  | POST_components id => Some ("COMPONENT_ATTACH", VStr id)
  | DELETE_component _ id => Some ("COMPONENT_REMOVE", VStr id)
  | POST_approve id | POST_reject id => Some ("JOB_VERIFY", VStr id)
  | POST_validators => Some ("VALIDATOR_ADD", body_field "validatorId" req)
  | POST_validator_remove id => Some ("VALIDATOR_REMOVE", VStr id)
  | POST_validator_restore id => Some ("VALIDATOR_RESTORE", VStr id)
  | POST_validator_cancel id => Some ("VALIDATOR_REMOVE_CANCEL", VStr id)
  | _ => None
  end.

Section Boundary.
Context `{PF : Platform} `{!PlatformLaws PF} {C : Type} `{BlockchainService C} `{Wiring} `{DeviceAttestationAdapter} `{IntegrityWiring}
  `{EvidenceStorage C} `{EmailNotificationProvider} `{UntypedBodies C} (options : EvidenceServiceOptions.t) (fuel : nat).
Abbreviation W := (World C).
Abbreviation guards := (Routes.guards options fuel).

(** ** The guards *)

Lemma keeps_getById {T} (p : W -> T) id :
  chain_free p -> (forall f w, p (upd_assetCache f w) = p w) -> keeps p (Assets.getById id).
Proof.
  intros Hc Hk. unfold Assets.getById, cache_get, cache_set.
  repeat first [apply keeps_on_chain, Hc | apply keeps_modify; intros; apply Hk | progress frame | progress autounfold with repo].
Qed.
Lemma keeps_validateGrant {T} (p : W -> T) g a r x :
  ambient_free p -> (forall f w, p (upd_grants f w) = p w) -> keeps p (validateGrant g a r x : M exn W _).
Proof.
  intros Ha Hg. unfold validateGrant.
  repeat first [apply keeps_modify; intros; apply Hg | progress frame | progress autounfold with repo].
Qed.
Lemma keeps_transfer_grant {T} (p : W -> T) id u :
  ambient_free p -> chain_free p -> (forall f w, p (upd_assetCache f w) = p w) -> (forall f w, p (upd_grants f w) = p w) -> keeps p (transfer_grant id u : M exn W _).
Proof.
  intros Ha Hc Hk Hg. assert (Hl : forall l a b, keeps p (first_valid_grant l a b : M exn W _)).
  { intros l a b. induction l as [|g l IH]; simpl; [apply keeps_ret|].
    apply keeps_bind; [destruct (usable_candidate g b); [by apply keeps_validateGrant|apply keeps_ret]|].
    intros []; [apply keeps_ret|apply IH]. }
  unfold transfer_grant. apply keeps_bind; [by apply keeps_getById|intros [a|]; [|apply keeps_ret]].
  apply keeps_bind; [rframe|intros]. apply keeps_bind; [apply Hl|intros; apply keeps_ret].
Qed.

(** The guards of an endpoint leave alone whatever is neither a session nor
    a challenge nor, where an asset is looked at, a grant or what is cached of it. *)
Lemma guards_keep {T} (p : W -> T) route req guard :
  auth_free p ->
  (is_Some (looked_asset route) ->
    chain_free p /\ (forall f w, p (upd_assetCache f w) = p w) /\ (forall f w, p (upd_grants f w) = p w)) ->
  In guard (guards route) -> keeps p (guard req : M exn W unit).
Proof.
  intros Hp Hc Hin. pose proof (proj1 Hp) as Ha.
  assert (Hpl : forall a, keeps p (permitted a req : M exn W unit)) by (intros a; by apply keeps_requirePermission).
  assert (Hf : forall op res, keeps p (requireFreshAuthentication op res req : M exn W unit)) by (intros; by apply keeps_requireFresh).
  assert (Hct : forall a ctx, (forall u, keeps p (the_user u : M exn W _)) -> keeps p (ctx req) ->
    keeps p (requirePermission a (Some ctx) req : M exn W unit)).
  { intros a ctx _ Hk. apply keeps_requirePermission. by intros ? [= <-]. }
  assert (Hu : forall u, keeps p (the_user u : M exn W _)) by (intros; unfold the_user; frame).
  destruct route; simpl in Hin; simpl in Hc; repeat destruct Hin as [<-|Hin]; try done;
    try solve [auto with bel | apply Hpl | apply Hf].
  - apply Hct; [done|]. destruct (Hc ltac:(eauto)) as (H1' & H2' & H3'). unfold transfer_context.
    apply keeps_bind; [apply Hu|intros]. apply keeps_bind; [by apply keeps_transfer_grant|intros []; apply keeps_ret].
  - apply Hct; [done|]. destruct (Hc ltac:(eauto)) as (H1' & H2' & H3'). unfold transfer_prepare_context.
    apply keeps_bind; [apply Hu|intros]. apply keeps_bind; [by apply keeps_transfer_grant|intros []; apply keeps_ret].
  - apply Hct; [done|]. unfold evidence_context. rframe.
  - apply Hct; [done|]. unfold evidence_context. rframe.
  - apply Hct; [done|]. destruct (Hc ltac:(eauto)) as (H1' & H2' & H3'). unfold audit_context.
    apply keeps_bind; [apply Hu|intros]. apply keeps_bind; [by apply keeps_getById|intros].
    apply keeps_bind; [apply keeps_jobs_list_jobs|intros; apply keeps_ret].
Qed.

(** ** A request in its three stages *)

Lemma serve_stages route req (w : W) :
  exists resp w' req' wa, serve options fuel route req w = (inr resp, w') /\
    attachSession req (upd_uuidReads S w) = (inr req', wa) /\
    ((exists e wb, for_each (guards route) (fun guard => guard req') wa = (inl e, wb) /\
        resp = error_response e /\ w' = upd_clockReads S wb) \/
     (exists wb, for_each (guards route) (fun guard => guard req') wa = (inr tt, wb) /\
        (handler options fuel route req' wb = (inr resp, w') \/
         exists e wc, handler options fuel route req' wb = (inl e, wc) /\ resp = error_response e /\ w' = upd_clockReads S wc))).
Proof.
  destruct (attachSession_returns req (upd_uuidReads S w)) as (req' & wa & Ea).
  unfold serve. unfold randomUUID at 1. unfold mbind at 1, M_bind at 1. unfold try_catch, respond.
  rewrite (bind_run _ _ _ _ _ Ea).
  destruct (for_each (guards route) (fun guard => guard req') wa) as [[e|[]] wb] eqn:Eg.
  - rewrite (bind_throw _ _ _ _ _ Eg). exists (error_response e), (upd_clockReads S wb), req', wa. split; [done|]. split; [done|].
    left. by exists e, wb.
  - rewrite (bind_run _ _ _ _ _ Eg). destruct (handler options fuel route req' wb) as [[e|resp] wc] eqn:Eh.
    + exists (error_response e), (upd_clockReads S wc), req', wa. split; [done|]. split; [done|]. right. exists wb. split; [done|].
      right. by exists e, wc.
    + exists resp, wc, req', wa. split; [done|]. split; [done|]. right. exists wb. split; [done|]. by left.
Qed.

(** The permission an endpoint is guarded by. *)
Definition guard_action (route : Route) : option Action :=
  match route with
  | GET_active_users | POST_users | POST_devices _ | GET_devices _ | GET_wallets _ | GET_grants _ | POST_role _ | POST_revoke_grant _ _ =>
      Some CREATE_EMPLOYEE
  | POST_revoke_wallet _ | POST_revoke_device _ => Some REVOKE_WALLET
  | POST_activate_wallet _ | POST_wallets _ => Some ACTIVATE_WALLET
  | POST_assets | POST_assets_prepare | POST_state _ | POST_state_prepare _ | POST_components _ | POST_components_prepare _
  | DELETE_component _ _ | POST_component_prepare _ _ => Some REGISTER_ASSET
  | POST_transfer _ | POST_transfer_prepare _ => Some TRANSFER_ASSET
  | POST_jobs | POST_jobs_prepare => Some CREATE_JOB
  | POST_assign _ | POST_assign_prepare _ => Some ASSIGN_TECHNICIAN
  | POST_start _ | POST_start_prepare _ | POST_complete _ | POST_complete_prepare _ | POST_evidence _ => Some PERFORM_MAINTENANCE
  | POST_approve _ | POST_approve_prepare _ | POST_reject _ | POST_reject_prepare _ => Some VERIFY_MAINTENANCE
  | GET_evidence_list _ | GET_evidence _ _ | GET_audit _ => Some VIEW_AUDIT_HISTORY
  | GET_validators | GET_committee _ => Some VIEW_VALIDATOR_STATUS
  | GET_admin_validators | GET_validator_history | POST_validators | POST_validator_remove _ | POST_validator_restore _
  | POST_validator_cancel _ => Some MANAGE_VALIDATORS
  | _ => None
  end.

Lemma guard_present route roles :
  audience route = Some roles ->
  In requireSession (guards route : list (Middleware (C := C))) /\
  match guard_action route with
  | Some a => (exists ctx, In (requirePermission a ctx) (guards route : list (Middleware (C := C)))) /\
      forall r, permissionFor r a <> DENY -> r ∈ roles
  | None => roles = ROLES \/ (roles = [ADMIN] /\ In (requireRole [ADMIN]) (guards route : list (Middleware (C := C))))
  end.
Proof.
  destruct route; intros [= <-]; (split; [simpl; tauto|]); simpl; try (left; reflexivity);
    try (right; split; [reflexivity|tauto]);
    (split; [eexists; unfold permitted; tauto|]);
    intros [] Hn; try (by destruct Hn); unfold ROLES; rewrite !elem_of_cons; tauto.
Qed.

(** Getting past the guards takes a session and one of the roles. *)
Lemma guards_passed route roles req (w w' : W) u :
  audience route = Some roles -> for_each (guards route) (fun guard => guard req) w = (inr u, w') ->
  exists user, Request.user req = Some user /\ User.role user ∈ roles.
Proof.
  intros [Hs Hg]%guard_present Hrun.
  destruct (for_each_passed _ _ _ _ _ _ Hs Hrun) as (w1 & w2 & [user Hu]%requireSession_passed).
  destruct (guard_action route) as [a|].
  - destruct Hg as [[ctx Hin] Hr]. destruct (for_each_passed _ _ _ _ _ _ Hin Hrun) as (w3 & w4 & Hp).
    apply requirePermission_passed in Hp as (user' & c & ? & ? & Hu' & Hcan & _).
    exists user'. split; [done|]. apply Hr. by eapply can_not_denied.
  - destruct Hg as [->|[-> Hin]].
    + exists user. split; [done|]. apply list_elem_of_In, ROLES_complete.
    + destruct (for_each_passed _ _ _ _ _ _ Hin Hrun) as (w3 & w4 & Hp). by apply requireRole_passed in Hp.
Qed.

Lemma before_handler {T} (p : W -> T) route req req' (w wa wb : W) r :
  auth_free p ->
  (is_Some (looked_asset route) ->
    chain_free p /\ (forall f w, p (upd_assetCache f w) = p w) /\ (forall f w, p (upd_grants f w) = p w)) ->
  attachSession req w = (inr req', wa) -> for_each (guards route) (fun guard => guard req') wa = (r, wb) -> p wb = p w.
Proof.
  intros Hp Hc Ea Eg. transitivity (p wa); [|by eapply keeps_run; [by apply keeps_attachSession|]].
  eapply keeps_run; [|exact Eg]. apply keeps_for_each_in. intros guard Hin. by apply (guards_keep p route).
Qed.
(** Later in a request: the clock has not gone back, and a grant that is
    active was so before. *)
Definition later (w w' : W) : Prop :=
  (w_clockReads w <= w_clockReads w')%nat /\
  forall k g, get k (w_grants w') = Some g -> AuthorizationGrant.status g = Grant_ACTIVE -> get k (w_grants w) = Some g.
#[local] Instance later_preorder : PreOrder later.
Proof.
  split; [by split|]. intros w1 w2 w3 [Hc1 Hg1] [Hc2 Hg2]. split; [lia|]. intros k g Hk Hs. apply Hg1; [by apply Hg2|done].
Qed.
Definition clock_and_grants (w : W) := (w_clockReads w, w_grants w).
Lemma later_kept {A} (m : M exn W A) : keeps clock_and_grants m -> respects later m.
Proof. apply respects_keeps. intros w w' [= Hc Hg]. split; [by rewrite Hc|by rewrite Hg]. Qed.
Lemma later_now : respects later (now : M exn W Z).
Proof. intros w r w' [_ ->]%now_inv. split; [simpl; lia|done]. Qed.
Lemma later_nowISO : respects later (nowISO : M exn W string).
Proof. intros w r w' [_ ->]%nowISO_inv. split; [simpl; lia|done]. Qed.

(** Walk a computation that only reads the clock and marks grants. *)
Ltac march :=
  repeat first
    [ progress intros
    | solve [apply later_kept; rframe]
    | apply later_now | apply later_nowISO
    | apply later_kept; first [apply keeps_user_of | apply keeps_identity_of_device | apply keeps_wallets_of_identity | apply keeps_activeSession]
    | lazymatch goal with
      | |- respects later (mbind _ _) => apply respects_bind; [apply later_preorder|..]
      | |- respects later (if ?b then _ else _) => destruct b
      | |- respects later (match ?o with _ => _ end) => destruct o
      end ].

Lemma later_activeSession s : respects later (activeSession s : M exn W bool).
Proof. apply later_kept, keeps_activeSession. Qed.
Lemma later_consume i t : respects later (consumeIfUnused i t : M exn W bool).
Proof. apply later_kept. by apply keeps_consumeIfUnused. Qed.
Lemma later_require_session t : respects later (require_session t : M exn W _).
Proof. unfold require_session. repeat first [apply later_activeSession | march]. Qed.
Lemma later_getById id : respects later (Assets.getById id : M exn W _).
Proof. apply later_kept. apply keeps_getById; [solve_free|reflexivity..]. Qed.
Lemma later_validateSession t : respects later (validateSession t : M exn W _).
Proof. unfold validateSession, user_of. march. Qed.
Lemma later_attachSession req : respects later (attachSession req : M exn W _).
Proof. unfold attachSession, resolveUser. repeat first [apply later_validateSession | march]. Qed.
Lemma later_verifyFresh t i o r : respects later (verifyFreshAuthentication t i o r : M exn W _).
Proof.
  unfold verifyFreshAuthentication, identity_of_device, wallets_of_identity.
  repeat first [apply later_require_session | apply later_consume | march].
Qed.
Lemma later_requireFresh op res req : respects later (requireFreshAuthentication op res req : M exn W _).
Proof.
  unfold requireFreshAuthentication, verify_fresh.
  repeat first [apply later_require_session | apply later_verifyFresh | march].
Qed.
Lemma later_validateGrant g a r x : respects later (validateGrant g a r x : M exn W _).
Proof.
  assert (Hsave : forall g', respects later (grants_save (AuthorizationGrant.with_status Grant_EXPIRED g') : M exn W _)).
  { intros g' w u w' [= _ <-]. split; [simpl; lia|]. intros k g0. simpl. rewrite get_put.
    destruct (String.eqb _ _); [by intros [= <-]|done]. }
  unfold validateGrant, grantIsExpired. repeat first [apply Hsave | march].
Qed.


(** ** Looking at an asset *)

(** The chain is only asked for the asset. *)
Definition asks (id : string) (w w' : W) : Prop := rtc (fun c c' => exists r, chain_getAsset id c = (r, c')) (w_chain w) (w_chain w').
#[local] Instance asks_preorder id : PreOrder (asks id).
Proof. split; [by intros w; constructor|]. intros w1 w2 w3. unfold asks. intros Ha Hb. by etransitivity. Qed.
Lemma asks_kept {A} id (m : M exn W A) : keeps w_chain m -> respects (asks id) m.
Proof. apply respects_keeps. unfold asks. intros w w' ->. constructor. Qed.
Lemma asks_getById id : respects (asks id) (Assets.getById id : M exn W _).
Proof.
  unfold Assets.getById. apply respects_bind; [exact _|apply asks_kept; unfold cache_get; rframe|intros o].
  apply respects_bind; [exact _|apply asks_kept; destruct o; rframe|intros c]. apply respects_bind; [exact _| |intros d].
  - intros w r w' (ch & E & ->)%on_chain_inv. apply rtc_once. by exists r.
  - apply asks_kept. unfold cache_set. destruct d; rframe.
Qed.
Definition glances (id : string) (w w' : W) : Prop := later w w' /\ asks id w w'.
#[local] Instance glances_preorder id : PreOrder (glances id).
Proof.
  split; [by split|]. intros w1 w2 w3 [L1 A1] [L2 A2]. split; [by transitivity w2|]. unfold asks in *. by etransitivity.
Qed.
Lemma glances_kept {A} id (m : M exn W A) : respects later m -> keeps w_chain m -> respects (glances id) m.
Proof. intros Hl Hk w r w' E. split; [by eapply Hl|by eapply (asks_kept id m Hk)]. Qed.
Lemma glances_getById id : respects (glances id) (Assets.getById id : M exn W _).
Proof. intros w r w' E. split; [by eapply later_getById|by eapply asks_getById]. Qed.
Lemma glances_transfer_grant id u : respects (glances id) (transfer_grant id u : M exn W _).
Proof.
  unfold transfer_grant. apply respects_bind; [exact _|apply glances_getById|intros [a|]; [|by apply glances_kept; [apply later_kept|]; rframe]].
  apply respects_bind; [exact _|apply glances_kept; [apply later_kept|]; rframe|intros l].
  apply respects_bind; [exact _| |intros; apply glances_kept; [apply later_kept|]; rframe].
  induction l as [|g l IH]; simpl; [apply glances_kept; [apply later_kept|]; rframe|].
  apply respects_bind; [exact _| |intros []; [apply glances_kept; [apply later_kept|]; rframe|apply IH]].
  destruct (usable_candidate _ _); [|apply glances_kept; [apply later_kept|]; rframe].
  apply glances_kept; [apply later_validateGrant|]. apply keeps_validateGrant; [solve_free|done].
Qed.
Lemma glances_permission id a ctx req : respects (glances id) (ctx req) ->
  respects (glances id) (requirePermission a (Some ctx) req : M exn W _).
Proof.
  intros Hc. unfold requirePermission. apply respects_bind; [exact _|apply glances_kept; [apply later_kept|]; rframe|intros u].
  apply respects_bind; [exact _|exact Hc|intros; apply glances_kept; [apply later_kept|]; rframe].
Qed.
Lemma glances_guards route id req : looked_asset route = Some id ->
  respects (glances id) (for_each (guards route) (fun guard => guard req) : M exn W unit).
Proof.
  assert (Hs : respects (glances id) (requireSession req : M exn W _)) by (apply glances_kept; [apply later_kept|]; auto with bel).
  assert (Hend : respects (glances id) (mret tt : M exn W _)) by (apply glances_kept; [apply later_kept|]; rframe).
  assert (Hu : respects (glances id) (the_user req : M exn W _)) by (unfold the_user; apply glances_kept; [apply later_kept|]; rframe).
  intros Hl. destruct route; try discriminate Hl; injection Hl as ->; simpl;
    repeat (first [exact Hend | exact Hs | apply glances_permission
                  | apply glances_kept; [apply later_requireFresh|apply keeps_requireFresh; auto with bel]
                  | lazymatch goal with |- respects _ (mbind _ _) => apply respects_bind; [exact _| |intros []] end ]);
    unfold transfer_context, transfer_prepare_context, audit_context.
  - apply respects_bind; [exact _|exact Hu|intros u]. apply respects_bind; [exact _|apply glances_transfer_grant|].
    intros []; apply glances_kept; [apply later_kept|]; rframe.
  - apply respects_bind; [exact _|exact Hu|intros u]. apply respects_bind; [exact _|apply glances_transfer_grant|].
    intros []; apply glances_kept; [apply later_kept|]; rframe.
  - apply respects_bind; [exact _|exact Hu|intros u]. apply respects_bind; [exact _|apply glances_getById|].
    intros o; apply glances_kept; [apply later_kept|]; rframe; apply keeps_jobs_list_jobs.
Qed.

(** The request did not reach its handler: nothing was written but sessions
    and challenges; where the permission depends on an asset and the caller
    has a session, the chain was asked for that asset, the answer is in the
    cache, and grants may have been found expired. *)
Definition refused (route : Route) (req : Request.t) (w w' : W) : Prop :=
  beyond_auth w' = beyond_auth w /\ w_assetRecords w' = w_assetRecords w /\
  (registry w' = registry w \/
   exists id user, looked_asset route = Some id /\ authenticated w req user /\ later w w' /\ asks id w w').
Lemma session_first route roles : audience route = Some roles ->
  exists rest, guards route = requireSession :: rest :> list (Middleware (C := C)).
Proof. destruct route; intros [= <-]; by eexists. Qed.
Lemma refused_before route roles req req' (w wa wb : W) r : audience route = Some roles ->
  attachSession req (upd_uuidReads S w) = (inr req', wa) -> for_each (guards route) (fun guard => guard req') wa = (r, wb) ->
  refused route req w (upd_clockReads S wb).
Proof.
  intros Ha Ea Eg. split; [|split].
  - exact (before_handler beyond_auth route req req' _ wa wb r ltac:(auto with bel) ltac:(intros; repeat split) Ea Eg).
  - exact (before_handler w_assetRecords route req req' _ wa wb r ltac:(auto with bel) ltac:(intros; repeat split) Ea Eg).
  - destruct (looked_asset route) as [id|] eqn:El.
    2: { left. refine (before_handler registry route req req' _ wa wb r ltac:(auto with bel) _ Ea Eg). rewrite El. by intros []. }
    destruct (attachSession_inr _ _ _ _ Ea) as [[Hn _]|(user & -> & Hau & _)].
    + left. destruct (session_first _ _ Ha) as [rest Hg]. rewrite Hg in Eg. simpl in Eg.
      unfold requireSession at 1 in Eg. rewrite Hn in Eg. injection Eg as _ <-.
      exact (keeps_run registry _ _ _ _ (keeps_attachSession registry req ltac:(auto with bel)) Ea).
    + right. exists id, user. split; [done|]. split; [exact Hau|].
      destruct (glances_guards route id _ El _ _ _ Eg) as [[Hc2 Hg2] Ha2].
      pose proof (later_attachSession _ _ _ _ Ea) as [Hc1 Hg1]. simpl in Hc1, Hg1.
      pose proof (keeps_run w_chain _ _ _ _ (keeps_attachSession w_chain req ltac:(auto with bel)) Ea) as Hch. simpl in Hch.
      split; [split; [simpl; lia|intros k g Hk Hst; by apply Hg1; [apply Hg2|]]|]. unfold asks in *. simpl in *. by rewrite <-Hch.
Qed.

(** C5: Every request is answered.  A request to a guarded endpoint either
    came with the token of a session that is alive, whose device, wallet and
    identity are active, and whose user has one of the roles the endpoint is
    for; or it is refused with an error and nothing was written but session
    and challenge records, except that where the permission depends on an
    asset (transfer, transfer preparation, audit trail) a caller with a live
    session makes the backend ask the chain for that asset, refresh its cache
    and find grants expired. *)
Theorem request_gate route roles req (w : W) :
  audience route = Some roles ->
  exists resp w', serve options fuel route req w = (inr resp, w') /\
    ((exists e, resp = error_response e /\ refused route req w w') \/
     (exists user, authenticated w req user /\ User.role user ∈ roles)).
Proof.
  intros Ha. destruct (serve_stages route req w) as (resp & w' & req' & wa & Hs & Ea & Hcase).
  exists resp, w'. split; [done|]. destruct Hcase as [(e & wb & Eg & -> & ->)|(wb & Eg & _)].
  - left. exists e. split; [done|]. by eapply refused_before.
  - right. destruct (guards_passed route roles req' wa wb tt Ha Eg) as (user & Hu & Hr).
    apply attachSession_inr in Ea as [[Hn _]|(user' & -> & Hau & _)]; [congruence|].
    exists user. simpl in Hu. injection Hu as <-. done.
Qed.

Definition no_session : Response.t := Response.mk 401 (B_Error "UNAUTHORIZED" "No valid session").

(** Without a live session every guarded endpoint answers 401 and the
    same message, whatever the request, and writes nothing but the removal
    of the dead session. *)
Theorem no_session_refused route roles req (w : W) :
  audience route = Some roles -> (forall user, ~ authenticated w req user) ->
  exists w', serve options fuel route req w = (inr no_session, w') /\
    beyond_auth w' = beyond_auth w /\ registry w' = registry w /\ w_challenges w' = w_challenges w.
Proof.
  intros Ha Hno. destruct (serve_stages route req w) as (resp & w' & req' & wa & Hs & Ea & Hcase).
  assert (Hkeep : beyond_auth wa = beyond_auth w /\ registry wa = registry w /\ w_challenges wa = w_challenges w).
  { split; [|split].
    - exact (keeps_run beyond_auth _ _ _ _ (keeps_attachSession beyond_auth req ltac:(auto with bel)) Ea).
    - exact (keeps_run registry _ _ _ _ (keeps_attachSession registry req ltac:(auto with bel)) Ea).
    - change (w_challenges w) with (w_challenges (upd_uuidReads S w)).
      eapply (keeps_run w_challenges); [|exact Ea]. unfold attachSession, resolveUser, validateSession, user_of. rframe. }
  assert (Hn : Request.user req' = None).
  { apply attachSession_inr in Ea as [[Hn _]|(user & _ & Hau & _)]; [done|]. by destruct (Hno user). }
  assert (Hg : exists rest, guards route = requireSession :: rest :> list (Middleware (C := C))).
  { revert Ha. clear. destruct route; intros [= <-]; by eexists. }
  destruct Hg as [rest Hg].
  assert (Hrun : for_each (guards route) (fun guard => guard req') wa = (inl default_unauthorized, wa)).
  { rewrite Hg. simpl. unfold requireSession at 1. by rewrite Hn. }
  destruct Hcase as [(e & wb & Eg & -> & ->)|(wb & Eg & _)]; rewrite Hrun in Eg; [|done].
  injection Eg as <- <-. exists (upd_clockReads S wa). split; [exact Hs|exact Hkeep].
Qed.

(** Where the fresh proof is checked: before anything but the session, the
    status of the user and a permission without context. *)
Lemma fresh_guard route req op res :
  fresh_demand route req = Some (op, res) ->
  exists l1 l2 f, guards route = l1 ++ requireFreshAuthentication op f :: l2 :> list (Middleware (C := C)) /\
    f req = res /\ forall y, In y l1 -> forall T (p : W -> T) r, keeps p (y r).
Proof.
  assert (Hpl : forall a T (p : W -> T) r, keeps p (permitted a r : M exn W unit)) by (intros; by apply keeps_requirePermission).
  destruct route; intros [= <- <-];
    first [ exists [requireSession]; do 2 eexists; split; [reflexivity|]; split; [reflexivity|]
          | exists [requireSession; Http.requireActiveIdentity]; do 2 eexists; split; [reflexivity|]; split; [reflexivity|]
          | exists [requireSession; permitted MANAGE_VALIDATORS]; do 2 eexists; split; [reflexivity|]; split; [reflexivity|] ];
    simpl; intros y Hy; repeat destruct Hy as [<-|Hy]; try done; intros; auto with bel.
Qed.

(** The resource a challenge has to be bound to. *)
Definition bound_resource (v : value) : option string := match v with VStr s => Some s | _ => None end.

Lemma requireFresh_passed op res req (w w' : W) u :
  freshAuthRequired op = true -> requireFreshAuthentication op res req w = (inr u, w') ->
  exists header proof w1, Request.authorization req = Some header /\ parse_proof (default "" (Request.fresh_auth req)) = inr proof /\
    verifyFreshAuthentication (bearer_token header) proof op (bound_resource (res req)) w = (inr tt, w1).
Proof.
  intros Hop Hrun. unfold requireFreshAuthentication in Hrun. rewrite Hop in Hrun. simpl in Hrun.
  apply bind_inr in Hrun as (? & w1 & [_ <-]%throw_if_inr & Hrun).
  apply bind_inr in Hrun as (proof & w1 & [Hp <-]%lift_result_inr & Hrun).
  apply bind_inr in Hrun as (? & w1 & [Ht <-]%throw_if_inr & Hrun).
  destruct (Request.authorization req) as [header|]; [|done]. exists header, proof. simpl in Hrun.
  unfold verify_fresh in Hrun. destruct u.
  destruct (res req); try (exists w'; split; [done|]; split; [done|exact Hrun]);
    by apply bind_inr in Hrun as (? & ? & _ & []%throw_inr).
Qed.

(** What fails leaves [p] alone. *)
Definition fails_clean {T A} (p : W -> T) (m : M exn W A) : Prop := forall w e w', m w = (inl e, w') -> p w' = p w.
Lemma clean_keeps {T A} (p : W -> T) (m : M exn W A) : keeps p m -> fails_clean p m.
Proof. intros Hk w e w' E. by eapply (keeps_run p). Qed.
Lemma clean_bind {T A B} (p : W -> T) (m : M exn W A) (f : A -> M exn W B) :
  keeps p m -> (forall a, fails_clean p (f a)) -> fails_clean p (m ≫= f).
Proof.
  intros Hm Hf w e w' [(e' & _ & E)|(a & w1 & E & Hrun)]%bind_inv; [by eapply (keeps_run p)|].
  rewrite (Hf a _ _ _ Hrun). by eapply (keeps_run p).
Qed.
(** Challenges are only consumed by a proof that was accepted. *)
Lemma clean_verifyFresh t inp op rid : fails_clean w_challenges (verifyFreshAuthentication t inp op rid : M exn W _).
Proof.
  assert (Hr : forall t, keeps w_challenges (require_session t : M exn W _)) by (intros; apply keeps_require_session_free; solve_free).
  unfold verifyFreshAuthentication.
  apply clean_bind; [apply Hr|intros s]. apply clean_bind; [rframe|intros o]. apply clean_bind; [rframe|intros ch].
  apply clean_bind; [rframe|intros _]. apply clean_bind; [rframe|intros t0]. apply clean_bind; [rframe|intros _].
  apply clean_bind; [rframe|intros d]. apply clean_bind; [apply keeps_identity_of_device|intros i].
  apply clean_bind; [apply keeps_wallets_of_identity|intros ws]. cbv zeta.
  destruct d as [d|]; [|apply clean_keeps; rframe]. destruct i as [i|]; [|apply clean_keeps; rframe].
  destruct (find_wallet _ _) as [x|]; [|apply clean_keeps; rframe].
  apply clean_bind; [rframe|intros _]. apply clean_bind; [rframe|intros _]. apply clean_bind; [rframe|intros _].
  apply clean_bind; [rframe|intros u]. intros w e w' [(e' & _ & E)|(b & w1 & E & Hb)]%bind_inv.
  - unfold consumeIfUnused in E. destruct (get _ _) as [c|]; [|done]. by destruct (truthy_string _).
  - apply throw_if_inl in Hb as (Hb%negb_true_iff & _ & <-). subst b.
    unfold consumeIfUnused in E. destruct (get _ _) as [c|]; [destruct (truthy_string _); [|done]|]; by injection E as <-.
Qed.
Lemma clean_requireFresh op res req : fails_clean w_challenges (requireFreshAuthentication op res req : M exn W _).
Proof.
  assert (Hr : forall t, keeps w_challenges (require_session t : M exn W _)) by (intros; apply keeps_require_session_free; solve_free).
  unfold requireFreshAuthentication, verify_fresh. destruct (negb _); [apply clean_keeps; rframe|].
  apply clean_bind; [rframe|intros _]. apply clean_bind; [rframe|intros proof]. apply clean_bind; [rframe|intros _].
  destruct (res req); try apply clean_verifyFresh; apply clean_bind; try apply Hr; intros; apply clean_keeps; rframe.
Qed.
Lemma keeps_sessions_requireFresh op res req : keeps w_sessions (requireFreshAuthentication op res req : M exn W _).
Proof.
  assert (Hr : forall t, keeps w_sessions (require_session t : M exn W _)) by (intros; apply keeps_require_session_free; solve_free).
  unfold requireFreshAuthentication, verify_fresh, verifyFreshAuthentication.
  repeat first [apply Hr | apply keeps_consumeIfUnused; done | apply keeps_identity_of_device | apply keeps_wallets_of_identity
               | progress frame | progress autounfold with repo].
Qed.

(** A loop over guards that failed at one of the first or got past them. *)
Lemma for_each_cut {A} (l1 l2 : list A) (f : A -> M exn W unit) w r w' :
  for_each (l1 ++ l2) f w = (r, w') ->
  (exists e, r = inl e /\ for_each l1 f w = (inl e, w')) \/ exists w1, for_each l1 f w = (inr tt, w1).
Proof.
  revert w. induction l1 as [|x l1 IH]; intros w Hrun; [right; by exists w|]. simpl in Hrun |- *.
  apply bind_inv in Hrun as [(e & -> & E)|([] & w1 & E & Hrun)].
  - left. exists e. split; [done|]. by rewrite (bind_throw _ _ _ _ _ E).
  - rewrite (bind_run _ _ _ _ _ E). by apply IH.
Qed.
Lemma clean_for_each {T A} (p : W -> T) (l : list A) x (f : A -> M exn W unit) :
  (forall y, In y l -> keeps p (f y)) -> fails_clean p (f x) -> fails_clean p (for_each (l ++ [x]) f).
Proof.
  intros Hl Hx. induction l as [|y l IH]; simpl.
  - intros w e w' [(e' & [= <-] & E)|([] & w1 & _ & [=])]%bind_inv. by eapply Hx.
  - apply clean_bind; [apply Hl; by left|]. intros _. apply IH. intros z Hz. apply Hl. by right.
Qed.

(** Nothing but a dead session is gone. *)
Definition nothing_done (req : Request.t) (w w' : W) : Prop :=
  beyond_auth w' = beyond_auth w /\ registry w' = registry w /\ w_challenges w' = w_challenges w /\
  (w_sessions w' = w_sessions w \/
   exists header w1, Request.authorization req = Some header /\ validateSession (bearer_token header) (upd_uuidReads S w) = (inr None, w1) /\
     w_sessions w' = JsMap.remove (bearer_token header) (w_sessions w)).
Lemma validateSession_none token (w w' : W) : validateSession token w = (inr None, w') ->
  w_sessions w' = w_sessions w \/ w_sessions w' = JsMap.remove token (w_sessions w).
Proof.
  unfold validateSession. intros Hrun. apply bind_inr in Hrun as (f & w1 & [_ <-]%gets_inr & Hrun).
  destruct f as [s|]; [|apply mret_inr in Hrun as [_ <-]; by left]. apply bind_inr in Hrun as (t & w2 & [_ ->]%now_inv & Hrun).
  destruct (num_le _ _); [apply bind_inr in Hrun as ([] & w3 & <-%modify_inr & [_ <-]%mret_inr); by right|].
  apply bind_inr in Hrun as (i & w3 & [_ <-]%gets_inr & Hrun). apply bind_inr in Hrun as (d & w3 & [_ <-]%gets_inr & Hrun).
  apply bind_inr in Hrun as (x & w3 & [_ <-]%gets_inr & Hrun). apply bind_inr in Hrun as (us & w3 & Hus & Hrun).
  assert (Hw : w_sessions w3 = w_sessions (upd_clockReads S w)) by (eapply keeps_run; [|exact Hus]; unfold user_of; rframe).
  destruct (session_user i d x us) as [u|]; [by apply mret_inr in Hrun as [[=] _]|].
  apply bind_inr in Hrun as ([] & w4 & <-%modify_inr & [_ <-]%mret_inr). right. simpl. by rewrite Hw.
Qed.
Lemma attachSession_done req req' (w wa : W) : attachSession req (upd_uuidReads S w) = (inr req', wa) -> nothing_done req w wa.
Proof.
  intros Ea.
  split; [exact (keeps_run beyond_auth _ _ _ _ (keeps_attachSession beyond_auth req ltac:(auto with bel)) Ea)|].
  split; [exact (keeps_run registry _ _ _ _ (keeps_attachSession registry req ltac:(auto with bel)) Ea)|].
  split.
  { change (w_challenges w) with (w_challenges (upd_uuidReads S w)).
    eapply (keeps_run w_challenges); [|exact Ea]. unfold attachSession, resolveUser, validateSession, user_of. rframe. }
  destruct (attachSession_inr _ _ _ _ Ea) as [[Hn _]|(user & _ & _ & Hst)].
  2: { left. unfold stored in Hst. by injection Hst. }
  unfold attachSession in Ea. apply bind_inr in Ea as (o & w1 & Hr & [<- <-]%mret_inr). simpl in Hn. subst o. unfold resolveUser in Hr.
  destruct (Request.authorization req) as [header|] eqn:Eh; [|apply mret_inr in Hr as [_ <-]; by left].
  destruct (startsWith "Bearer " header); [|apply mret_inr in Hr as [_ <-]; by left].
  destruct (validateSession_none _ _ _ Hr) as [Hs|Hs]; [by left|]. right. by exists header, w1.
Qed.

(** C6: Where a fresh proof is required for the operation of an endpoint,
    nothing happens without one: the request is refused, and then no record of
    any kind has changed (but that a session that no longer stands may have
    been removed) and the chain has not been asked; or the challenge it names
    is unused, was issued to the device of this session for this operation on
    this resource, and is signed with the key of that device. *)
Theorem fresh_proof_demanded route req op res (w w' : W) resp :
  fresh_demand route req = Some (op, res) -> freshAuthRequired op = true ->
  serve options fuel route req w = (inr resp, w') ->
  (exists e, resp = error_response e /\ nothing_done req w w') \/
  (exists header proof s ch d key, Request.authorization req = Some header /\
     parse_proof (default "" (Request.fresh_auth req)) = inr proof /\
     get (bearer_token header) (w_sessions w) = Some s /\ get (FreshAuthProofInput.challengeId proof) (w_challenges w) = Some ch /\
     fresh_challenge_ok ch s (bearer_token header) op (bound_resource res) = true /\
     get (SessionRecord.deviceId s) (w_devices w) = Some d /\ Device.publicKey d = Some key /\
     verifyProof (ProvisioningChallenge.challenge ch) key (FreshAuthProofInput.signature proof) = true).
Proof.
  intros Hd Hop Hrun. destruct (serve_stages route req w) as (resp1 & w1 & req' & wa & Hs & Ea & Hcase).
  rewrite Hrun in Hs. injection Hs as <- <-.
  assert (Hd' : fresh_demand route req' = Some (op, res)).
  { rewrite <-Hd. apply attachSession_inr in Ea as [[_ ->]|(user & -> & _)]; by destruct route. }
  destruct (fresh_guard _ _ _ _ Hd') as (l1 & l2 & f & Hg & Hf & Hk).
  assert (Hcut : (exists e wb, resp = error_response e /\ w' = upd_clockReads S wb /\
      for_each (l1 ++ [requireFreshAuthentication op f]) (fun guard => guard req') wa = (inl e, wb)) \/
    exists wb, for_each (l1 ++ [requireFreshAuthentication op f]) (fun guard => guard req') wa = (inr tt, wb)).
  { assert (Hg' : guards route = (l1 ++ [requireFreshAuthentication op f]) ++ l2 :> list (Middleware (C := C))) by by rewrite <-app_assoc.
    destruct Hcase as [(e & wb & Eg & -> & ->)|(wb & Eg & _)]; rewrite Hg' in Eg;
      destruct (for_each_cut _ _ _ _ _ _ Eg) as [(e' & [= <-] & E)|[w1 E]]; [left; by exists e, wb|by right; exists w1|by right; exists w1]. }
  destruct Hcut as [(e & wb & -> & -> & Eg)|(wb & Eg)].
  - left. exists e. split; [done|]. destruct (attachSession_done _ _ _ _ Ea) as (Hb & Hr & Hc & Hss).
    assert (Hkept : forall T (p : W -> T), fails_clean p (requireFreshAuthentication op f req' : M exn W _) -> p wb = p wa).
    { intros T p Hp. eapply (clean_for_each p l1 _ (fun guard => guard req')); [intros y Hy; by apply Hk|exact Hp|exact Eg]. }
    split; [rewrite <-Hb; apply (Hkept _ beyond_auth), clean_keeps, keeps_requireFresh; auto with bel|].
    split; [rewrite <-Hr; apply (Hkept _ registry), clean_keeps, keeps_requireFresh; auto with bel|].
    split; [rewrite <-Hc; apply (Hkept _ w_challenges), clean_requireFresh|].
    assert (Hss' : w_sessions wb = w_sessions wa) by apply (Hkept _ w_sessions), clean_keeps, keeps_sessions_requireFresh.
    by change (w_sessions (upd_clockReads S wb)) with (w_sessions wb); rewrite Hss'.
  - right. destruct (for_each_reached stored _ _ _ _ _ _ _ (fun y Hy => Hk y Hy _ _ _) Eg) as (w1 & w2 & Hst1 & Hfresh).
    apply requireFresh_passed in Hfresh as (header & proof & w3 & Hh & Hp & Hv); [|done]. rewrite Hf in Hv.
    apply verify_fresh_success in Hv as (s & ch & d & i & x & Hs & Hch & Hok & Hdev & _ & _ & _ & _ & _ & _ & Hsig & Hkey & _).
    assert (Hstored : stored wa = stored w \/ Request.user req' = None).
    { apply attachSession_inr in Ea as [[Hn _]|(user & -> & _ & Hst)]; [by right|by left]. }
    destruct Hstored as [Hst|Hn].
    + rewrite Hst in Hst1. unfold stored in Hst1. injection Hst1 as _ _ Hd1 _ _ Hs1 _ Hc1 _ _ _ _ _ _ _ _ _ _.
      rewrite Hs1 in Hs. rewrite Hc1 in Hch. rewrite Hd1 in Hdev.
      apply attachSession_inr in Ea as [[_ ->]|(user & -> & _)];
        (exists header, proof, s, ch, d, (FreshAuthProofInput.publicKey proof); done).
    + exfalso. assert (Hin : In requireSession (l1 ++ [requireFreshAuthentication op f] : list (Middleware (C := C)))).
      { destruct l1 as [|y l1]; left; destruct route; try discriminate Hd; by injection Hg. }
      destruct (for_each_passed _ _ _ _ _ _ Hin Eg) as (w4 & w5 & [u Hu]%requireSession_passed). congruence.
Qed.

(** ** Transfers by engineers *)

Lemma validateGrant_true gid a r x (w w' : W) :
  validateGrant gid a r x w = (inr true, w') ->
  exists g, get gid (w_grants w) = Some g /\ grant_valid g a r x (Date_now (w_clockReads w)).
Proof.
  intros Hrun. unfold validateGrant in Hrun. apply bind_inr in Hrun as (f & w1 & [<- <-]%gets_inr & Hrun).
  destruct (get gid (w_grants w)) as [g|]; [|by apply mret_inr in Hrun as [[=] _]]. exists g. split; [done|].
  destruct (grantMatches g a r x) eqn:Em; [|by apply mret_inr in Hrun as [[=] _]]. simpl in Hrun.
  apply grantMatches_iff in Em as (Ha & Hr & Hx). case_bool_decide as Hst; [|by apply mret_inr in Hrun as [[=] _]]. simpl in Hrun.
  destruct (grantIsExpired_run g w) as (w2 & E & _). rewrite (bind_run _ _ _ _ _ E) in Hrun.
  split; [done|]. repeat (split; [done|]). intros e t' He Hne Hp. rewrite He in Hrun. rewrite bool_decide_eq_false_2 in Hrun by done.
  unfold expired in Hrun. rewrite Hp in Hrun. simpl in Hrun. destruct (Z.leb_spec t' (Date_now (w_clockReads w))); [|done].
  by apply bind_inr in Hrun as (? & ? & _ & [=]).
Qed.

Lemma first_valid_grant_some l a assetId (w w' : W) g :
  first_valid_grant l a assetId w = (inr (Some g), w') ->
  exists g' w1, later w w1 /\ get (AuthorizationGrant.authorizationGrantId g) (w_grants w1) = Some g' /\
    grant_valid g' a assetId TRANSFER_ASSET (Date_now (w_clockReads w1)).
Proof.
  revert w. induction l as [|c l IH]; intros w Hrun; simpl in Hrun; [by apply mret_inr in Hrun as [[=] _]|].
  apply bind_inr in Hrun as (ok & w1 & Hok & Hrun). destruct ok.
  - apply mret_inr in Hrun as [[= <-] <-]. destruct (usable_candidate c assetId); [|by apply mret_inr in Hok as [[=] _]].
    apply validateGrant_true in Hok as (g' & Hg' & Hv). exists g', w. split; [reflexivity|done].
  - apply IH in Hrun as (g' & w2 & Hl & Hg' & Hv). exists g', w2. split; [|done]. etransitivity; [|exact Hl].
    destruct (usable_candidate c assetId); [by eapply later_validateGrant|by apply mret_inr in Hok as [_ <-]].
Qed.

(** An engineer's permission to transfer is a grant that is in force. *)
Lemma engineer_context_grant id req user (w w1 : W) c :
  Request.user req = Some user -> User.role user = ENGINEER -> transfer_context id req w = (inr c, w1) ->
  can ENGINEER TRANSFER_ASSET (permission_context user c) = true ->
  exists gid g assetId n, get gid (w_grants w) = Some g /\ (w_clockReads w <= n)%nat /\
    grant_valid g (User.identityId user) assetId TRANSFER_ASSET (Date_now n).
Proof.
  intros Hu Hr Hc Hcan. unfold transfer_context, the_user in Hc. rewrite Hu in Hc.
  apply bind_inr in Hc as (? & w2 & [<- <-]%mret_inr & Hc). apply bind_inr in Hc as ([asset grant] & w2 & Hg & Hc).
  apply mret_inr in Hc as [<- <-]. apply can_AUTH in Hcan as [Hb _]; [|done]. simpl in Hb.
  injection Hb as [g ->]%bool_decide_eq_true.
  unfold transfer_grant in Hg. apply bind_inr in Hg as ([a|] & w3 & Ha & Hg); [|by apply mret_inr in Hg as [[=] _]].
  apply bind_inr in Hg as (l & w4 & [_ <-]%gets_inr & Hg). apply bind_inr in Hg as ([g1|] & w5 & Hf & [[= _ E1] _]%mret_inr).
  apply first_valid_grant_some in Hf as (g' & w6 & Hl & Hg' & Hv).
  apply later_getById in Ha. destruct (transitivity Ha Hl) as [Hclock Hgrants].
  exists (AuthorizationGrant.authorizationGrantId g1), g', (Asset.assetId a), (w_clockReads w6).
  split; [apply Hgrants; [done|by destruct Hv]|]. done.
Qed.

(** A transfer asked for by an engineer is refused unless the store holds
    a grant to this engineer for transferring an asset, active and, at a clock
    reading of the request, not expired. *)
Theorem engineer_transfer_needs_grant id req (w w' : W) resp :
  (forall user, authenticated w req user -> User.role user = ENGINEER) ->
  serve options fuel (POST_transfer id) req w = (inr resp, w') ->
  (exists e, resp = error_response e /\ refused (POST_transfer id) req w w') \/
  (exists user gid g assetId n, authenticated w req user /\ get gid (w_grants w) = Some g /\ (w_clockReads w <= n)%nat /\
     grant_valid g (User.identityId user) assetId TRANSFER_ASSET (Date_now n)).
Proof.
  intros Heng Hrun. destruct (serve_stages (POST_transfer id) req w) as (resp1 & w1 & req' & wa & Hs & Ea & Hcase).
  rewrite Hrun in Hs. injection Hs as <- <-. destruct Hcase as [(e & wb & Eg & -> & ->)|(wb & Eg & _)].
  { left. exists e. split; [done|]. by eapply refused_before. }
  right. pose proof (later_attachSession _ _ _ _ Ea) as Hla. simpl in Eg.
  apply bind_inr in Eg as (? & w1 & Hsess & Eg). pose proof Hsess as [user0 Hu0]%requireSession_passed.
  apply throw_if_inr in Hsess as [_ <-].
  apply attachSession_inr in Ea as [[Hn _]|(user & -> & Hau & _)]; [congruence|].
  apply bind_inr in Eg as (? & w2 & Hlf%later_requireFresh & Eg). apply bind_inr in Eg as (? & w3 & Hp & _).
  apply requirePermission_passed in Hp as (user1 & c & w4 & w5 & [= <-] & Hcan & Hctx & ->).
  assert (Hr : User.role user = ENGINEER) by (by apply Heng). rewrite Hr in Hcan.
  destruct (engineer_context_grant id (Request.with_user (Some user) req) user w2 w5 c eq_refl Hr Hctx Hcan) as (gid & g & assetId & n & Hg & Hn & Hv).
  destruct (transitivity Hla Hlf) as [Hclock Hgrants].
  exists user, gid, g, assetId, n. split; [done|]. split; [|split; [simpl in Hclock; lia|done]].
  apply (Hgrants gid g); [done|by destruct Hv].
Qed.

(** An engineer can never prepare a transfer on the device, not even with
    a grant in force: the context of that endpoint names no grant, so the
    permission is denied. *)
Theorem engineer_prepare_refused id req (w w' : W) resp :
  (forall user, authenticated w req user -> User.role user = ENGINEER) ->
  serve options fuel (POST_transfer_prepare id) req w = (inr resp, w') -> exists e, resp = error_response e.
Proof.
  intros Heng Hrun. destruct (serve_stages (POST_transfer_prepare id) req w) as (resp1 & w1 & req' & wa & Hs & Ea & Hcase).
  rewrite Hrun in Hs. injection Hs as <- <-. destruct Hcase as [(e & wb & Eg & -> & ->)|(wb & Eg & _)]; [by exists e|].
  exfalso. simpl in Eg. apply bind_inr in Eg as (? & w1 & [user0 Hu0]%requireSession_passed & Eg).
  apply attachSession_inr in Ea as [[Hn _]|(user & -> & Hau & _)]; [congruence|].
  apply bind_inr in Eg as (? & w3 & Hp & _).
  apply requirePermission_passed in Hp as (user1 & c & w4 & w5 & [= <-] & Hcan & Hctx & _).
  rewrite (Heng user Hau) in Hcan. apply can_AUTH in Hcan as [_ (g & Hg & _)]; [|done]. simpl in Hg.
  unfold transfer_prepare_context, the_user in Hctx. simpl in Hctx.
  apply bind_inr in Hctx as (? & w6 & [<- <-]%mret_inr & Hctx). apply bind_inr in Hctx as ([asset grant] & w7 & _ & Hctx).
  apply mret_inr in Hctx as [<- _]. done.
Qed.

(** After a logout that was answered, the token opens no session: the
    next request that carries it is refused with 401 at every guarded
    endpoint. *)
Theorem logout_final req req2 route roles (w w' : W) :
  wf (w_sessions w) -> serve options fuel POST_logout req w = (inr (Response.mk 204 B_Empty), w') ->
  Request.authorization req2 = Request.authorization req -> audience route = Some roles ->
  exists w2, serve options fuel route req2 w' = (inr no_session, w2) /\ beyond_auth w2 = beyond_auth w'.
Proof.
  intros Hwf Hrun Hreq Ha. destruct (serve_stages POST_logout req w) as (resp1 & w1 & req' & wa & Hs & Ea & Hcase).
  rewrite Hrun in Hs. injection Hs as <- <-.
  assert (Hno : forall e, Response.mk 204 B_Empty <> error_response e).
  { intros e. unfold error_response. by destruct (serialize_error e) as [[? ?] ?]. }
  destruct Hcase as [(e & wb & _ & He & _)|(wb & Eg & [Eh|(e & wc & _ & He & _)])]; [by destruct (Hno e)| |by destruct (Hno e)].
  simpl in Eg. apply bind_inr in Eg as (? & w3 & Hsess & [_ <-]%mret_inr).
  pose proof Hsess as [user0 Hu0]%requireSession_passed. apply throw_if_inr in Hsess as [_ <-].
  apply attachSession_inr in Ea as [[Hn _]|(user & -> & (header & s & Hh & Hb & Hget & _) & Hst)]; [congruence|].
  simpl in Eh. apply bind_inr in Eh as (? & w4 & Hdel & [_ <-]%mret_inr). apply modify_inr in Hdel as <-.
  assert (Hgone : forall user', ~ authenticated (upd_sessions (JsMap.remove (request_token (Request.with_user (Some user) req))) wa) req2 user').
  { intros user' (header2 & s2 & Hh2 & _ & Hg2 & _). rewrite Hreq, Hh in Hh2. injection Hh2 as <-.
    unfold request_token in Hg2. simpl in Hg2. rewrite Hh in Hg2. simpl in Hg2.
    unfold stored in Hst. injection Hst as _ _ _ _ _ Hs1 _ _ _ _ _ _ _ _ _ _ _ _. rewrite Hs1 in Hg2. simpl in Hg2.
    by rewrite get_remove_eq in Hg2. }
  destruct (no_session_refused route roles req2 _ Ha Hgone) as (w2 & Hs2 & Hb2 & _). by exists w2.
Qed.
End Boundary.

(** ** Witnesses *)

Section Demo.
#[local] Existing Instance dev.
#[local] Instance demo_wires : Wiring := {| wired_assets := true; wired_identityExists := false |}.
#[local] Instance demo_devices : DeviceAttestationAdapter := MockDeviceAttestationAdapter ["D"].
#[local] Instance demo_integrity : IntegrityWiring := true.
#[local] Existing Instance MemoryEvidenceStorage.
#[local] Existing Instance ConsoleEmailNotificationProvider.
#[local] Instance demo_untyped : UntypedBodies MockChain := fun _ _ => throw (Error "TypeError").

Definition no_options : EvidenceServiceOptions.t := EvidenceServiceOptions.mk None None.
Definition request (token : string) (fresh : option string) (body : payload) : Request.t :=
  Request.mk (Some ("Bearer " +:+ token)) fresh None [] [] (VObj body) None.
(** The engineer of the authentication examples, logged in; an asset of
    somebody else on the chain; a grant for it. *)
Definition asset_world : World MockChain :=
  upd_chain (set_assets (put "A" (Asset.mk "A" "1" "PUMP" "OWNER" "OWNER" None Asset_ACTIVE) [])) logged_in_world.
Definition granted_world : World MockChain :=
  upd_grants (put "G" (AuthorizationGrant.mk "G" "ID" ASSET "A" TRANSFER_ASSET "ADMIN" "t" None Grant_ACTIVE)) asset_world.
Definition transfer_request : Request.t := request demo_token None [("newOwnerId", VStr "NEW")].
Definition status_of (r : (exn + Response.t) * World MockChain) : option Z :=
  match fst r with inr resp => Some (Response.status resp) | inl _ => None end.
Definition succeeded (r : (exn + Response.t) * World MockChain) : bool :=
  match fst r with inr (Response.mk _ (B_Error _ _)) | inl _ => false | _ => true end.

Lemma errors_fail e (w : World MockChain) : succeeded (inr (error_response e), w) <> true.
Proof. unfold succeeded, error_response. by destruct (serialize_error e) as [[? ?] ?]. Qed.

Lemma demo_engineer (w : World MockChain) user :
  w_sessions w = w_sessions logged_in_world -> w_identities w = w_identities logged_in_world ->
  authenticated w transfer_request user -> User.role user = ENGINEER.
Proof.
  intros Hs Hi (header & s & [= <-] & _ & Hget & _ & i & d & x & role & Hid & _ & _ & Hr & _ & _ & _ & _ & _ & _ & Hus & _).
  rewrite Hs in Hget. vm_compute in Hget. injection Hget as <-. rewrite Hi in Hid. vm_compute in Hid. injection Hid as <-.
  simpl in Hr. injection Hr as <-. done.
Qed.

Lemma request_gate_witness :
  exists resp w', serve no_options 1 (POST_role "ID") (request demo_token None [("role", VStr "ADMIN")]) logged_in_world = (inr resp, w') /\
    Response.status resp = 403%Z /\
    refused (POST_role "ID") (request demo_token None [("role", VStr "ADMIN")]) logged_in_world w'.
Proof.
  destruct (request_gate no_options 1 (POST_role "ID") [ADMIN] (request demo_token None [("role", VStr "ADMIN")]) logged_in_world eq_refl)
    as (resp & w' & Hs & [(e & -> & Hu)|(user & Hau & Hr)]).
  - exists (error_response e), w'. split; [done|]. split; [|done].
    assert (Hf : status_of (serve no_options 1 (POST_role "ID") (request demo_token None [("role", VStr "ADMIN")]) logged_in_world) = Some 403%Z)
      by (vm_compute; reflexivity).
    rewrite Hs in Hf. by injection Hf.
  - exfalso. rewrite (demo_engineer logged_in_world user eq_refl eq_refl Hau) in Hr. by apply list_elem_of_singleton in Hr.
Defined.
Lemma no_session_refused_witness :
  exists w', serve no_options 1 POST_logout (request "nobody" None []) logged_in_world = (inr no_session, w').
Proof.
  destruct (no_session_refused no_options 1 POST_logout ROLES (request "nobody" None []) logged_in_world eq_refl) as (w' & Hs & _); [|by exists w'].
  intros user (header & s & [= <-] & _ & Hget & _). vm_compute in Hget. discriminate.
Defined.
Lemma engineer_transfer_needs_grant_witness :
  status_of (serve no_options 1 (POST_transfer "A") transfer_request granted_world) = Some 200%Z /\
  exists user gid g assetId n, authenticated granted_world transfer_request user /\ get gid (w_grants granted_world) = Some g /\
    (w_clockReads granted_world <= n)%nat /\ grant_valid g (User.identityId user) assetId TRANSFER_ASSET (Date_now n).
Proof.
  split; [vm_compute; reflexivity|].
  assert (Hok : succeeded (serve no_options 1 (POST_transfer "A") transfer_request granted_world) = true) by (vm_compute; reflexivity).
  destruct (serve no_options 1 (POST_transfer "A") transfer_request granted_world) as [[x|resp] w'] eqn:E; [done|].
  destruct (engineer_transfer_needs_grant no_options 1 "A" transfer_request granted_world w' resp
    (fun user => demo_engineer granted_world user eq_refl eq_refl) E) as [(e & -> & _)|Hg]; [|exact Hg].
  by destruct (errors_fail e w').
Defined.
(** With the same grant the transfer goes through and its preparation does not. *)
Lemma engineer_prepare_refused_witness :
  status_of (serve no_options 1 (POST_transfer "A") transfer_request granted_world) = Some 200%Z /\
  status_of (serve no_options 1 (POST_transfer_prepare "A") transfer_request granted_world) = Some 403%Z /\
  exists e, fst (serve no_options 1 (POST_transfer_prepare "A") transfer_request granted_world) = inr (error_response e).
Proof.
  split; [vm_compute; reflexivity|]. split; [vm_compute; reflexivity|].
  destruct (serve no_options 1 (POST_transfer_prepare "A") transfer_request granted_world) as [[x|resp] w'] eqn:E.
  - exfalso. vm_compute in E. discriminate.
  - destruct (engineer_prepare_refused no_options 1 "A" transfer_request granted_world w' resp
      (fun user => demo_engineer granted_world user eq_refl eq_refl) E) as [e ->]. by exists e.
Defined.
Lemma logout_final_witness :
  let w1 := snd (serve no_options 1 POST_logout transfer_request logged_in_world) in
  exists w2, serve no_options 1 GET_me transfer_request w1 = (inr no_session, w2).
Proof.
  destruct (serve no_options 1 POST_logout transfer_request logged_in_world) as [r w1] eqn:E. intros w2. subst w2. simpl.
  assert (Hr : fst (serve no_options 1 POST_logout transfer_request logged_in_world) = inr (Response.mk 204 B_Empty)) by (vm_compute; reflexivity).
  rewrite E in Hr. simpl in Hr. rewrite Hr in E.
  destruct (logout_final no_options 1 transfer_request transfer_request GET_me ROLES logged_in_world w1
    ltac:(vm_compute; repeat constructor; simpl; tauto) E eq_refl eq_refl) as (w2 & Hs & _).
  by exists w2.
Defined.
End Demo.

(** Fresh proofs demanded for two operations: the engineer asks for a
    challenge, signs it and changes the state of the asset. *)
Section FreshDemo.
#[local] Instance fresh_env : Platform :=
  concrete (fun k => if String.eqb k "BEL_FRESH_AUTH_REQUIRED_ACTIONS" then Some "JOB_VERIFY, ASSET_STATE_CHANGE" else None).
#[local] Existing Instance demo_wires.
#[local] Existing Instance demo_devices.
#[local] Existing Instance demo_integrity.
#[local] Existing Instance MemoryEvidenceStorage.
#[local] Existing Instance ConsoleEmailNotificationProvider.
#[local] Existing Instance demo_untyped.
Definition challenge_request : Request.t :=
  request demo_token None [("operation", VStr "ASSET_STATE_CHANGE"); ("resourceId", VStr "A")].
Definition fresh_world : World MockChain := snd (serve no_options 1 POST_fresh_challenge challenge_request asset_world).
Definition state_request (fresh : option string) : Request.t := request demo_token fresh [("newState", VStr "IN_MAINTENANCE")].
Lemma fresh_proof_demanded_witness :
  status_of (serve no_options 1 (POST_state "A") (state_request (Some "up1,key,cp")) fresh_world) = Some 200%Z /\
  status_of (serve no_options 1 (POST_state "A") (state_request None) fresh_world) = Some 401%Z /\
  exists s ch, get demo_token (w_sessions fresh_world) = Some s /\ get "up1" (w_challenges fresh_world) = Some ch /\
    fresh_challenge_ok ch s demo_token "ASSET_STATE_CHANGE" (bound_resource (VStr "A")) = true.
Proof.
  split; [vm_compute; reflexivity|]. split; [vm_compute; reflexivity|].
  assert (Hok : succeeded (serve no_options 1 (POST_state "A") (state_request (Some "up1,key,cp")) fresh_world) = true) by (vm_compute; reflexivity).
  destruct (serve no_options 1 (POST_state "A") (state_request (Some "up1,key,cp")) fresh_world) as [[x|resp] w'] eqn:E; [done|].
  assert (Hop : freshAuthRequired "ASSET_STATE_CHANGE" = true) by (vm_compute; reflexivity).
  pose proof (fresh_proof_demanded no_options 1 (POST_state "A") (state_request (Some "up1,key,cp")) "ASSET_STATE_CHANGE" (VStr "A")
    fresh_world w' resp eq_refl Hop E) as H3.
  clear E. destruct H3 as [(e & -> & _)|(header & proof & s & ch & d & key & Hh & Hp & Hs & Hc & Hf & _)].
  - by destruct (errors_fail e w').
  - injection Hh as <-. vm_compute in Hp. injection Hp as <-. exists s, ch. split; [exact Hs|]. split; [exact Hc|]. exact Hf.
Defined.
End FreshDemo.
