(* ===== verification/SystemCorrect.v ===== *)
(** * SystemCorrect: what holds of the whole backend

    The invariants of the services, lifted to requests: whatever endpoints
    are called by whomever, in whatever order, with whatever bodies, the job
    store and the validator registry stay well formed.  And the two ends put
    together: a job mutation answered on the EVM chain has been mined. *)
From S2P Require Import Prelude Effects JsString JsMap JsValue Shared Rbac Errors Schemas World Repositories Integrity Auth AuthCorrect.
From S2P Require Import MockChain Concrete Users UsersCorrect Assets Jobs JobsCorrect Validators ValidatorsCorrect Payloads PayloadsCorrect.
From S2P Require Import Rpc Evm EvmCorrect Evidence Multipart Http HttpCorrect Routes RoutesCorrect.
From stdpp Require Import relations.
Local Open Scope string_scope.
Local Open Scope list_scope.

(** ** Frames of the services *)

Create HintDb service.
#[export] Hint Unfold
  createUser requestProvisioningChallenge initializeAccount listPendingRegistrations listActiveEmployees verifyRegistration
  activateRegistration registerDevice revokeDevice registerWallet revokeWallet activateWallet assignRole Users.getById listDevices
  listWallets createGrant listGrants findActiveGrant revokeGrant validateGrant grantIsExpired grantIsActive resolveIdentity
  requireIdentity requireActiveIdentity toUser attestDevice requireAttestation validateEvmWalletBinding revokeWalletObject
  ensureIdentityCreated ensureRoleAssigned ensureWalletActive ensureWalletRevoked Users.commit Users.submit the_identity
  active_device commitState adapter_commit requestAuthenticationChallenge activeSession require_session
  requestFreshAuthenticationChallenge verifyFreshAuthentication open_session loginWithProof login_credential login validateSession logout
  identity_of_device user_of wallets_of_identity wallets_of user_of_identity
  cache_set cache_get Assets.getById list_assets requiredString requireAsset requireActor transaction Assets.submit reconcileAfterWrite
  submit_and_store identity_exists Assets.create transfer assertStateTransition changeAssetState assertNoCycle
  attachComponent removeComponent prepare_payload Assets.prepare
  requireJob assertCanUpload assertCanView validateUpload hide_storage_error upload list_evidence find_evidence getHash download
  login_route fresh_challenge_route my_grants_route create_user_route activate_wallet_route register_device_route nonblank_string
  prepare_asset_mutation assets_prepare_route transfer_route jobs_prepare_route prepare_job_mutation selected_hash
  upload_route download_route getTrailForAsset committee_route development_transaction body_string the_user actor evidence_actor
  list_jobs Jobs.prepare prepare_checks check_identity assertTransition requireAssignedTechnician requireIndependentVerifier
  list_validators effectiveRegistration head_of_chain get_registration activeIdentity admin assertMetadata envelopeSignature
  addValidator removeValidator restoreValidator cancelScheduledRemoval finish Validators.submit recordHistory
  Validators.validatorChanged Validators.notify Validators.notify_recipient send : service.
(** A frame proof that sees through the calls of the services. *)
Ltac sframe := repeat first [progress rframe | progress autounfold with service].

Section System.
Context `{PF : Platform} `{!PlatformLaws PF} {C : Type} `{BlockchainService C} `{Wiring} `{DeviceAttestationAdapter} `{IntegrityWiring}
  `{EvidenceStorage C} `{EmailNotificationProvider} `{UntypedBodies C} (options : EvidenceServiceOptions.t) (fuel : nat).
Abbreviation W := (World C).

(** The stores with an invariant that does not depend on the chain. *)
Definition domain (w : W) : jsmap Job.t * ValidatorsCorrect.registry := (w_jobs w, w_validators w).
Definition lawful (w w' : W) : Prop :=
  rtc store_step (w_jobs w) (w_jobs w') /\ (registry_ok (w_validators w) -> registry_ok (w_validators w')).
#[local] Instance lawful_preorder : PreOrder lawful.
Proof.
  split; [by intros w|]. intros w1 w2 w3 [J1 V1] [J2 V2]. split; [by etransitivity|auto].
Qed.
Lemma lawful_domain {A} (m : M exn W A) : keeps domain m -> respects lawful m.
Proof. apply respects_keeps. unfold lawful. intros w w' [= -> ->]. by split. Qed.

Lemma keeps_consume_domain id at' : keeps domain (consumeIfUnused id at' : M exn W _).
Proof. by apply keeps_consumeIfUnused. Qed.
Lemma keeps_cycle_domain k a b c : keeps domain (assertNoCycle_loop k a b c : M exn W _).
Proof. revert b c; induction k as [|k IH]; intros; simpl; sframe. Qed.
Lemma keeps_find_domain l a b c d : keeps domain (find_active l a b c d : M exn W _).
Proof. induction l as [|g l IH]; simpl; sframe. Qed.
Hint Resolve keeps_consume_domain keeps_cycle_domain keeps_find_domain : bel.

(** ** Calls that do write them *)

Lemma job_call_lawful {A} c actor (m : M exn W A) (w w' : W) r :
  keeps w_validators m -> m w = (r, w') -> run_call c actor w = ((match r with inl e => inl e | inr _ => inr tt end), w') -> lawful w w'.
Proof.
  intros Hk Hm Hrun. split.
  - apply rtc_once, job_step_store. left. eauto.
  - rewrite (keeps_run w_validators _ _ _ _ Hk Hm). done.
Qed.
Lemma run_then {A} (m : M exn W A) (w : W) r w' :
  m w = (r, w') -> (m ;; mret tt) w = ((match r with inl e => inl e | inr _ => inr tt end), w').
Proof. unfold mbind, M_bind. intros ->. by destruct r. Qed.
Lemma keeps_job_submit ty a p : keeps w_validators (Jobs.submit ty a p : M exn W _).
Proof. by apply keeps_submit. Qed.
Hint Resolve keeps_job_submit : bel.
Lemma create_lawful input a : respects lawful (Jobs.create input a : M exn W _).
Proof.
  intros w r w' E. apply (job_call_lawful (Call_create input) a _ _ _ _) with (2 := E); [unfold Jobs.create; sframe|].
  by apply run_then.
Qed.
Lemma mutation_lawful m id arg a : respects lawful (run_mutation m id arg a : M exn W _).
Proof.
  intros w r w' E. apply (job_call_lawful (Call_mutate m id arg) a _ _ _ _) with (2 := E); [|by apply run_then].
  destruct m; simpl; unfold assign, start, complete, approve, reject; sframe.
Qed.
Lemma validator_lawful c actorId : respects lawful (run_validator c actorId : M exn W _).
Proof.
  intros w r w' E. split.
  - assert (K : w_jobs w' = w_jobs w); [|rewrite K; reflexivity]. revert E. apply keeps_run.
    destruct c; simpl; sframe.
  - intros Hr. eapply registry_step_ok; [exact Hr|]. by eapply call_simulates_registry.
Qed.

(** ** Requests *)

(** The parts of the body that a handler passes on without a check of its
    own have the types the service declares for them. *)
Definition declared (route : Route) (req : Request.t) : Prop :=
  let optional k := is_Some (opt_string (body_field k req)) in
  match route with
  | POST_initialize_account => is_Some (read_account req)
  | POST_verify _ => optional "employeeId" /\ optional "department"
  | POST_users => is_Some (read_user req)
  | POST_devices _ => optional "credential" /\ optional "publicKey"
  | POST_wallets _ => exists deviceId, body_field "deviceId" req = VStr deviceId
  | POST_grants _ => is_Some (read_grant req)
  | POST_assets => is_Some (read_asset req)
  | POST_jobs => forall createdBy, is_Some (read_job req createdBy)
  | POST_validator_remove _ | POST_validator_restore _ | POST_validator_cancel _ => optional "reason"
  | _ => True
  end.

Context (Hupload : forall bytes contentType, keeps domain (storage_upload bytes contentType))
  (Hdownload : forall cid, keeps domain (storage_download cid)).
Hint Resolve Hupload Hdownload : bel.

Lemma typed_lawful {A} route req (o : option A) (k : A -> M exn W Response.t) :
  is_Some o -> (forall a, respects lawful (k a)) -> respects lawful (typed route req o k).
Proof. intros [a ->] Hk. apply Hk. Qed.

Ltac lawful :=
  repeat first
    [ progress intros
    | lazymatch goal with
      | |- respects _ (typed _ _ _ _) => apply typed_lawful; [solve [eauto]|]
      | |- respects _ (Jobs.create _ _) => apply create_lawful
      | |- respects _ (create_user_route _) => unfold create_user_route
      | |- respects _ (register_device_route _ _) => unfold register_device_route
      end
    | solve [apply lawful_domain; sframe]
    | lazymatch goal with
      | |- respects _ (mbind _ _) => apply respects_bind; [exact lawful_preorder| |]
      | |- respects _ (match ?o with _ => _ end) => destruct o
      end ].
Lemma users_lawful route e req : declared route req -> usersRouter route = Some e -> respects lawful (run e req).
Proof.
  destruct route; try discriminate; simpl; intros Hd [= <-]; cbn [run]; unfold register_device_route;
    lazymatch goal with
    | Hd : _ /\ _ |- _ => destruct Hd as [[? ->] [? ->]]
    | Hd : ex _ |- _ => destruct Hd as [? ->]
    | _ => idtac
    end; lawful.
Qed.
Lemma assets_lawful route e req : declared route req -> assetsRouter fuel route = Some e -> respects lawful (run e req).
Proof. destruct route; try discriminate; simpl; intros Hd [= <-]; cbn [run]; lawful. Qed.
Lemma evidence_lawful route e req : declared route req -> evidenceRouter options route = Some e -> respects lawful (run e req).
Proof. destruct route; try discriminate; simpl; intros Hd [= <-]; cbn [run]; lawful. Qed.
Lemma assign_lawful id t a : respects lawful (assign id t a : M exn W _). Proof. apply (mutation_lawful M_ASSIGN). Qed.
Lemma start_lawful id a : respects lawful (start id a : M exn W _). Proof. apply (mutation_lawful M_START id ""). Qed.
Lemma complete_lawful id h a : respects lawful (complete id h a : M exn W _). Proof. apply (mutation_lawful M_COMPLETE). Qed.
Lemma approve_lawful id a : respects lawful (approve id a : M exn W _). Proof. apply (mutation_lawful M_APPROVE id ""). Qed.
Lemma reject_lawful id r a : respects lawful (reject id r a : M exn W _). Proof. apply (mutation_lawful M_REJECT). Qed.
Hint Resolve assign_lawful start_lawful complete_lawful approve_lawful reject_lawful : bel.
Ltac mutates := first [progress intros | solve [auto with bel] | apply lawful_domain; solve [sframe] | apply respects_bind; [exact lawful_preorder| |]].
Lemma jobs_lawful route e req : declared route req -> jobsRouter route = Some e -> respects lawful (run e req).
Proof. destruct route; try discriminate; simpl; intros Hd [= <-]; cbn [run]; unfold complete_route; repeat (progress lawful || mutates). Qed.
Lemma chain_lawful route e req : declared route req -> chainRouter route = Some e -> respects lawful (run e req).
Proof.
  assert (Hreason : forall op, is_Some (opt_string (body_field "reason" req)) -> (forall u r, respects lawful (op u r)) ->
    respects lawful (validator_reason_route route req op)).
  { intros op Hd Hop. unfold validator_reason_route. apply respects_bind; [exact lawful_preorder|apply lawful_domain; sframe|intros u].
    apply typed_lawful; [exact Hd|]. intros r. apply respects_bind; [exact lawful_preorder|apply Hop|intros; apply lawful_domain; sframe]. }
  destruct route; try discriminate; simpl; intros Hd [= <-]; cbn [run]; try solve [lawful].
  - apply respects_bind; [exact lawful_preorder|apply lawful_domain; sframe|intros u].
    apply respects_bind; [exact lawful_preorder|apply (validator_lawful (Validator_add _))|intros; apply lawful_domain; sframe].
  - apply Hreason; [exact Hd|]. intros. apply (validator_lawful (Validator_remove _ _)).
  - apply Hreason; [exact Hd|]. intros. apply (validator_lawful (Validator_restore _ _)).
  - apply Hreason; [exact Hd|]. intros. apply (validator_lawful (Validator_cancel _ _)).
Qed.
Lemma handler_lawful route req : declared route req -> respects lawful (handler options fuel route req).
Proof.
  intros Hd. unfold handler, routers, or_else.
  destruct (usersRouter route) as [e|] eqn:E1; [by eapply users_lawful|]. destruct (assetsRouter fuel route) as [e|] eqn:E2; [by eapply assets_lawful|].
  destruct (jobsRouter route) as [e|] eqn:E3; [by eapply jobs_lawful|]. destruct (evidenceRouter options route) as [e|] eqn:E4; [by eapply evidence_lawful|].
  destruct (chainRouter route) as [e|] eqn:E5; [by eapply chain_lawful|]. apply lawful_domain. sframe.
Qed.
Lemma domain_auth_free : auth_free domain.
Proof. by repeat split. Qed.
Lemma guards_lawful route req guard : In guard (guards options fuel route) -> respects lawful (guard req : M exn W unit).
Proof. intros Hin. apply lawful_domain. eapply guards_keep; [apply domain_auth_free|by repeat split|exact Hin]. Qed.
Lemma serve_lawful route req : declared route req -> respects lawful (serve options fuel route req).
Proof.
  intros Hd. unfold serve. apply respects_bind; [exact lawful_preorder|apply lawful_domain; sframe|intros _].
  apply respects_try; [exact lawful_preorder| |intros e; apply lawful_domain; sframe]. unfold respond.
  intros w r w' Hrun. assert (Ha := lawful_domain _ (keeps_attachSession domain req domain_auth_free)).
  apply bind_inv in Hrun as [(e & _ & E)|(req' & w1 & E & Hrun)]; [by eapply Ha|].
  assert (Hd' : declared route req').
  { unfold attachSession in E. apply bind_inr in E as (u & w2 & _ & [<- _]%mret_inr). exact Hd. }
  etransitivity; [by eapply Ha|]. clear E. revert w1 r w' Hrun.
  change (respects lawful (for_each (guards options fuel route) (fun guard => guard req') ;; handler options fuel route req')).
  apply respects_bind; [exact lawful_preorder| |intros _; by apply handler_lawful].
  assert (Hg := fun guard => guards_lawful route req' guard). revert Hg. generalize (guards options fuel route). intros l Hg.
  induction l as [|g l IH]; simpl; [apply lawful_domain; sframe|].
  apply respects_bind; [exact lawful_preorder|apply Hg; by left|intros _; apply IH; intros; apply Hg; by right].
Qed.

(** One request with a body of the declared types, answered or failed. *)
Definition request_step (w w' : W) : Prop := exists route req r, declared route req /\ serve options fuel route req w = (r, w').
Lemma request_steps_lawful w w' : rtc request_step w w' -> lawful w w'.
Proof.
  induction 1 as [w|w w1 w' (route & req & r & Hd & Hrun) _ IH]; [reflexivity|].
  etransitivity; [by eapply serve_lawful|exact IH].
Qed.

(** C1: Through any sequence of requests whose bodies have the types that the
    routes declare, by anybody and to any endpoints, with any tokens, on any
    blockchain service and on any evidence storage that leaves jobs and
    validators alone, each request run to its end before the next one, the job
    store stays well formed (each job under its id, a judged job with its
    completion time and a verifier who is not its technician), no job is lost
    or leaves the state machine, and the validator registry keeps its
    invariant. *)
Theorem requests_keep_invariants (w w' : W) :
  store_ok (w_jobs w) -> registry_ok (w_validators w) -> rtc request_step w w' ->
  store_ok (w_jobs w') /\ rtc store_step (w_jobs w) (w_jobs w') /\ registry_ok (w_validators w').
Proof.
  intros Hj Hv [Hs Hr]%request_steps_lawful. split; [by eapply store_steps_ok|]. split; [exact Hs|by apply Hr].
Qed.
End System.

(** ** Job mutations on the EVM chain *)

Section JobsOnChain.
Context `{PF : Platform} `{EvmCodec} {N : Type} `{Node N} (config : EvmChainConfig.t) (metadata : OffChainMetadataProvider.t N)
  (consensus : option (ConsensusInfoSource.t N)) (fuel : nat) `{Wiring}.
#[local] Instance evm : BlockchainService (Evm N) := EvmBlockchainAdapter config metadata consensus fuel.

(** The contract call planned for a job transaction. *)
Lemma plan_of_job m jobId arg tx (w w' : Evm N) call :
  Transaction.type tx = mutation_type m -> Transaction.payload tx = mutation_payload m jobId arg -> plan tx w = (inr call, w') ->
  CallPlan.contract call = JobManager /\ CallPlan.method call = job_method m /\ hd VUndefined (CallPlan.args call) = VStr (trim jobId).
Proof.
  unfold plan, buildCallPlan. intros -> ->. destruct m; cbn [mutation_type]; intros Hrun;
    apply bind_inr in Hrun as (id & w1 & Ei & Hrun); unfold str in Ei;
    (assert (Hid : id = trim jobId) by (simpl in Ei; unfold field in Ei; simpl in Ei; case_bool_decide; [discriminate|by apply mret_inr in Ei as [<- _]]));
    subst id; repeat (apply bind_inr in Hrun as (? & ? & _ & Hrun)); apply mret_inr in Hrun as [<- _]; done.
Qed.

(** C10: On the EVM chain a job mutation only returns once the contract has
    done it: a transaction of the actor's wallet to the [JobManager], whose
    calldata is the method of that mutation on that job, signed by the actor's
    device, has been mined and confirmed. *)
Theorem job_mutation_mined m id arg actor (w w' : World (Evm N)) job :
  run_mutation m id arg actor w = (inr job, w') ->
  exists tx prepared hash receipt call data,
    Transaction.actorWallet tx = Actor.walletAddress actor /\ mined config tx prepared hash receipt /\
    PreparedTransaction.to prepared = EvmChainConfig.contracts config JobManager /\ PreparedTransaction.data prepared = data /\
    encodeFunctionData JobManager (job_method m) call = inr data /\ hd VUndefined call = VStr (trim (Job.jobId job)).
Proof.
  rewrite run_mutation_guarded. unfold guarded_mutation. destruct (mutation_guard m id arg actor w) as [e|j] eqn:Eg; [done|].
  apply guard_inr in Eg as (Hget & _). intros (u & w1 & Es & Hc)%bind_inr. rewrite submit_run in Es.
  destruct (device_signature actor) as [sig|]; [|done]. set (tx := job_transaction _ _ _ _ _) in Es.
  destruct (submitTransaction tx (w_chain w)) as [[e|r] c] eqn:Er; [done|]. destruct (decide _) as [Hok|]; [|done].
  simpl in Er. unfold evm_submitTransaction in Er. apply bind_inr in Er as (res & e1 & Er & [<- _]%mret_inr).
  destruct (submit_success_mined _ _ _ _ _ _ Er Hok) as (prepared & hash & receipt & Hm & _).
  pose proof Hm as [(n1 & n2 & (call & data & v1 & v2 & Hplan & Hdata & _ & Hto & Hd & _) & _) _].
  destruct (plan_of_job m (Job.jobId j) arg tx v1 v2 call eq_refl eq_refl Hplan) as (Hcon & Hmeth & Hhd).
  destruct (commit_run m arg actor j w1) as (now & w2 & Ec & _). rewrite Ec in Hc. injection Hc as <- _.
  rewrite Hcon in Hto. rewrite Hcon, Hmeth in Hdata.
  exists tx, prepared, hash, receipt, (CallPlan.args call), data. repeat (split; [done|]). rewrite Hhd. by destruct m.
Qed.
End JobsOnChain.

(** ** Witnesses *)

(** The logged-in engineer creates a job, assigns it and starts it. *)
Section Requests.
#[local] Existing Instance dev.
#[local] Existing Instance demo_wires.
#[local] Existing Instance demo_devices.
#[local] Existing Instance demo_integrity.
#[local] Existing Instance MemoryEvidenceStorage.
#[local] Existing Instance ConsoleEmailNotificationProvider.
#[local] Existing Instance demo_untyped.
Definition create_request : Request.t :=
  request demo_token None [("jobId", VStr "J"); ("assetId", VStr "A"); ("priority", VStr "HIGH")].
Definition assign_request : Request.t := request demo_token None [("technicianId", VStr "ID")].
Definition start_request : Request.t := request demo_token None [].
Definition stocked_world : World MockChain :=
  upd_assetRecords (put "A" (Asset.mk "A" "1" "PUMP" "OWNER" "OWNER" None Asset_ACTIVE)) asset_world.
Definition created_world : World MockChain := snd (serve no_options 1 POST_jobs create_request stocked_world).
Definition assigned_world : World MockChain := snd (serve no_options 1 (POST_assign "J") assign_request created_world).
Definition started_world : World MockChain := snd (serve no_options 1 (POST_start "J") start_request assigned_world).

Lemma step_of route req (w : World MockChain) :
  declared route req -> request_step no_options 1 w (snd (serve no_options 1 route req w)).
Proof. intros Hd. exists route, req, (fst (serve no_options 1 route req w)). split; [exact Hd|]. by destruct (serve _ _ _ _ _). Qed.
Lemma memory_storage_domain : (forall b t, keeps domain (storage_upload b t : M exn (World MockChain) _)) /\
  forall cid, keeps domain (storage_download cid : M exn (World MockChain) _).
Proof. split; intros; [by intros w|]. simpl. unfold memory_download, require. sframe. Qed.
Lemma requests_keep_invariants_witness :
  (exists j, get "J" (w_jobs started_world) = Some j /\ Job.status j = IN_PROGRESS) /\
  store_ok (w_jobs started_world) /\ ValidatorsCorrect.registry_ok (w_validators started_world).
Proof.
  split; [eexists; vm_compute; split; reflexivity|].
  destruct (requests_keep_invariants no_options 1 (proj1 memory_storage_domain) (proj2 memory_storage_domain)
    stocked_world started_world) as (Hj & _ & Hv); [apply store_ok_empty|split; [constructor|done]| |split; [exact Hj|exact Hv]].
  apply (rtc_l _ _ created_world); [apply (step_of POST_jobs create_request); intros createdBy; by eexists|].
  apply (rtc_l _ _ assigned_world); [exact (step_of (POST_assign "J") assign_request created_world I)|].
  apply rtc_once. exact (step_of (POST_start "J") start_request assigned_world I).
Defined.
End Requests.

(** A technician starts a job on the EVM chain. *)
Section OnChain.
#[local] Existing Instance dev.
#[local] Existing Instance demo_node.
#[local] Existing Instance demo_codec.
#[local] Existing Instance demo_wires.
Definition no_metadata : OffChainMetadataProvider.t DemoNode.t := OffChainMetadataProvider.mk _ None None None None.
#[local] Instance demo_chain : BlockchainService (Evm DemoNode.t) := EvmBlockchainAdapter demo_config no_metadata None 1002.
Definition technician : Actor.t := Actor.mk "ID" "0xWallet" (Some "0xaa").
Definition evm_world : World (Evm DemoNode.t) :=
  upd_jobs (put "JOB-1" (Job.mk "JOB-1" "A" "M" "ID" None ASSIGNED HIGH "t" None)) (mkWorld [] [] [] [] [] [] [] [] [] [] [] [] [] [] [] [] [] [] (demo_evm true false) 0 0 0).
Lemma job_mutation_mined_witness :
  exists tx prepared hash receipt, Transaction.actorWallet tx = "0xWallet" /\ mined demo_config tx prepared hash receipt /\
    PreparedTransaction.to prepared = "0xJobManager".
Proof.
  destruct (run_mutation M_START "JOB-1" "" technician evm_world) as [[e|job] w'] eqn:E; [vm_compute in E; discriminate|].
  destruct (job_mutation_mined demo_config no_metadata None 1002 M_START "JOB-1" "" technician evm_world w' job E)
    as (tx & prepared & hash & receipt & call & data & Hw & Hm & Hto & _).
  exists tx, prepared, hash, receipt. split; [exact Hw|]. split; [exact Hm|exact Hto].
Defined.
End OnChain.
