(* ===== verification/AnswersCorrect.v ===== *)
(** * AnswersCorrect: every request is answered

    What the endpoints of [backend/src/app.ts] answer, and that they do: the
    only loop of the backend whose end is not in sight, the walk up the
    component hierarchy in [backend/src/assets/assets.service.ts], ends on
    every hierarchy that can be stored, so the exception with which the model
    gives up is never the reason of an answer. *)
From S2P Require Import Prelude Effects JsString JsMap JsValue Shared Rbac Errors Schemas World Repositories Integrity Auth AuthCorrect.
From S2P Require Import MockChain Concrete Users UsersCorrect Assets AssetsCorrect Jobs JobsCorrect Validators ValidatorsCorrect.
From S2P Require Import Evidence Multipart Http HttpCorrect Routes RoutesCorrect SystemCorrect.
Local Open Scope string_scope.
Local Open Scope list_scope.

(** ** What is answered *)

Section Answers.
Context `{PF : Platform} {C : Type} `{BlockchainService C} `{Wiring} `{DeviceAttestationAdapter} `{IntegrityWiring}
  `{EvidenceStorage C} `{EmailNotificationProvider} `{UntypedBodies C} (options : EvidenceServiceOptions.t) (fuel : nat).
Abbreviation W := (World C).


Definition yields {A} (P : A -> Prop) (m : M exn W A) : Prop := forall w a w', m w = (inr a, w') -> P a.
Lemma yields_ret {A} (P : A -> Prop) a : P a -> yields P (mret a : M exn W A).
Proof. by intros Ha w b w' [<- _]%mret_inr. Qed.
Lemma yields_throw {A} (P : A -> Prop) e : yields P (throw e : M exn W A).
Proof. by intros w b w'. Qed.
Lemma yields_bind {A B} (P : B -> Prop) (m : M exn W A) (k : A -> M exn W B) : (forall a, yields P (k a)) -> yields P (m ≫= k).
Proof. intros Hk w b w' (a & w1 & _ & Hrun)%bind_inr. by eapply Hk. Qed.
Lemma yields_typed {A} (P : Response.t -> Prop) route req (o : option A) (k : A -> M exn W Response.t) :
  is_Some o -> (forall a, yields P (k a)) -> yields P (typed route req o k).
Proof. intros [a ->] Hk. apply Hk. Qed.
Ltac yields :=
  repeat first
    [ progress intros
    | lazymatch goal with
      | |- yields _ (mret _) => apply yields_ret; first [left; reflexivity | right; split; reflexivity]
      | |- yields _ (throw _) => apply yields_throw
      | |- yields _ (typed _ _ _ _) => apply yields_typed; [solve [eauto]|]
      | |- yields _ (mbind _ _) => apply yields_bind
      | |- yields _ (let _ := _ in _) => cbv zeta
      | |- yields _ (match ?o with _ => _ end) => destruct o
      end ].

End Answers.

(** ** Errors of the program *)

(** [OutOfFuel] is no exception of the program. *)
Definition genuine (e : exn) : Prop := e <> OutOfFuel.
Definition ends {W A} (m : M exn W A) : Prop := throws_only genuine m.

Section Ends.
Context {W : Type}.
Lemma ends_mret {A} (a : A) : ends (mret a : M exn W A).
Proof. apply throws_only_ret. Qed.
Lemma ends_throw {A} e : genuine e -> ends (throw e : M exn W A).
Proof. apply throws_only_throw. Qed.
Lemma ends_throw_if b e : genuine e -> ends (throw_if b e : M exn W unit).
Proof. intros He. by apply throws_only_throw_if. Qed.
Lemma ends_require {A} (o : option A) e : genuine e -> ends (require o e : M exn W A).
Proof. intros He. destruct o; [apply ends_mret|by apply ends_throw]. Qed.
Lemma ends_lift {A} (r : exn + A) : (forall e, r = inl e -> genuine e) -> ends (lift_result r : M exn W A).
Proof. intros Hr w e w' [= -> _]. by apply Hr. Qed.
Lemma ends_gets {A} (f : W -> A) : ends (gets f).
Proof. apply throws_only_gets. Qed.
Lemma ends_modify (f : W -> W) : ends (modify f).
Proof. apply throws_only_modify. Qed.
Lemma ends_mbind {A B} (m : M exn W A) (k : A -> M exn W B) : ends m -> (forall a, ends (k a)) -> ends (m ≫= k).
Proof. apply throws_only_bind. Qed.
Lemma ends_try {A} (m : M exn W A) h : ends m -> (forall e, genuine e -> ends (h e)) -> ends (try_catch m h).
Proof.
  intros Hm Hh w e w'. unfold try_catch. destruct (m w) as [[e1|a] w1] eqn:E; [|done]. apply Hh. by eapply Hm.
Qed.
Lemma ends_caught {A} (m : M exn W A) h : (forall e, ends (h e)) -> ends (try_catch m h).
Proof. intros Hh w e w'. unfold try_catch. destruct (m w) as [[e1|a] w1]; [|done]. apply Hh. Qed.
Lemma ends_for_each {A} (l : list A) (f : A -> M exn W unit) : (forall x, ends (f x)) -> ends (for_each l f).
Proof. intros Hf. induction l as [|x l IH]; simpl; [apply ends_mret|]. by apply ends_mbind. Qed.
Lemma ends_map_all {A B} (l : list A) (f : A -> M exn W B) : (forall x, ends (f x)) -> ends (map_all f l).
Proof. apply throws_only_map_all. Qed.
End Ends.
Lemma ends_on_chain {C A} (m : M exn C A) : ends m -> ends (on_chain m).
Proof. intros Hm w e w' (c & E & _)%on_chain_inv. by eapply Hm. Qed.

(** What the backend is given never raises it. *)
Class OutsideEnds (C : Type) `{BlockchainService C} `{EvidenceStorage C} `{UntypedBodies C} : Prop := {
  ends_submitTransaction : forall tx, ends (submitTransaction tx : M exn C _);
  ends_detailed : forall send tx, submitTransactionDetailed = Some send -> ends (send tx : M exn C _);
  ends_prepareTransaction : forall prepare tx, prepareTransaction = Some prepare -> ends (prepare tx : M exn C _);
  ends_getIdentity : forall id, ends (chain_getIdentity id : M exn C _);
  ends_getWallet : forall a, ends (chain_getWallet a : M exn C _);
  ends_getAsset : forall id, ends (chain_getAsset id : M exn C _);
  ends_getStatus : ends (chain_getStatus : M exn C _);
  ends_getValidators : ends (chain_getValidators : M exn C _);
  ends_getCommittee : forall h, ends (chain_getCommittee h : M exn C _);
  ends_getAuditTrail : forall read id, getAuditTrail = Some read -> ends (read id : M exn C _);
  ends_storage_upload : forall bytes contentType, ends (storage_upload bytes contentType);
  ends_storage_download : forall cid, ends (storage_download cid);
  ends_untyped : forall route req, ends (untyped route req);
}.
#[export] Hint Resolve ends_submitTransaction ends_detailed ends_prepareTransaction ends_getIdentity ends_getWallet ends_getAsset
  ends_getStatus ends_getValidators ends_getCommittee ends_getAuditTrail ends_storage_upload ends_storage_download ends_untyped : bel.

(** Walk a computation down to its throws. *)
Ltac ended :=
  repeat first
    [ progress intros
    | lazymatch goal with
      | |- genuine _ => first [discriminate | assumption]
      | |- ends (mret _) => apply ends_mret
      | |- ends (throw _) => apply ends_throw
      | |- ends (throw_if _ _) => apply ends_throw_if
      | |- ends (require _ _) => apply ends_require
      | |- ends (gets _) => apply ends_gets
      | |- ends (modify _) => apply ends_modify
      | |- ends (mbind _ _) => apply ends_mbind
      | |- ends (try_catch _ _) => apply ends_try
      | |- ends (for_each _ _) => apply ends_for_each
      | |- ends (map_all _ _) => apply ends_map_all
      | |- ends (on_chain _) => apply ends_on_chain
      | |- ends (if ?b then _ else _) => destruct b eqn:?
      | |- ends (match ?o with _ => _ end) => destruct o eqn:?
      | |- ends (let _ := _ in _) => cbv zeta
      end
    | solve [eauto with bel]
    | progress autounfold with repo
    | progress autounfold with service ].

Section NoFuel.
Context `{PF : Platform} {C : Type} `{BlockchainService C} `{Wiring} `{DeviceAttestationAdapter} `{IntegrityWiring}
  `{EvidenceStorage C} `{EmailNotificationProvider} `{UntypedBodies C} `{!OutsideEnds C} (options : EvidenceServiceOptions.t) (fuel : nat).
Abbreviation W := (World C).

Lemma ends_now : ends (now : M exn W _).
Proof. by intros w e w'. Qed.
Lemma ends_nowISO : ends (nowISO : M exn W _).
Proof. by intros w e w'. Qed.
Lemma ends_randomUUID : ends (randomUUID : M exn W _).
Proof. by intros w e w'. Qed.
Lemma ends_randomChallenge : ends (randomChallenge : M exn W _).
Proof. by intros w e w'. Qed.
Lemma ends_consume id t : ends (consumeIfUnused id t : M exn W _).
Proof. intros w e w'. unfold consumeIfUnused. destruct (get id _) as [c|]; [|done]. by destruct (truthy_string _). Qed.
#[local] Hint Resolve ends_now ends_nowISO ends_randomUUID ends_randomChallenge ends_consume : bel.
Lemma ends_find l a b c d : ends (find_active l a b c d : M exn W _).
Proof. induction l as [|g l IH]; simpl; ended. Qed.
Lemma ends_notify_recipient ty v a id : ends (notify_recipient ty v a id : M exn W _).
Proof.
  unfold notify_recipient, Validators.notify. cbv zeta. apply ends_mbind; [ended|intros _]. apply ends_caught. ended.
Qed.
Lemma ends_trimmable v : ends (lift_result (trimmable v) : M exn W _).
Proof. apply ends_lift. by destruct v; intros e [= <-]. Qed.
#[local] Hint Resolve ends_find ends_notify_recipient ends_trimmable : bel.
Lemma ends_body_string k req : ends (body_string k req : M exn W _).
Proof. unfold body_string. ended. Qed.
Lemma ends_actor req : ends (actor req : M exn W _).
Proof. unfold actor, the_user. ended. Qed.
#[local] Hint Resolve ends_body_string ends_actor : bel.
Lemma ends_multipart ct chunks limit : ends (lift_result (readEvidenceMultipart ct chunks limit) : M exn W _).
Proof.
  assert (Hr : forall m l acc n e, read_chunks m n acc l = inl e -> genuine e).
  { intros m. induction l as [|c l IH]; intros acc n e; simpl; [done|]. destruct (_ <? _)%Z; [by intros [= <-]|apply IH]. }
  apply ends_lift. intros e. unfold readEvidenceMultipart, split_part, part_file. destruct (exec_boundary _) as [b|]; [|by intros [= <-]].
  destruct (read_chunks _ _ _ _) as [e1|body] eqn:Ec; [intros [= ->]; by eapply Hr|].
  repeat (match goal with |- context [match ?x with _ => _ end] => lazymatch x with context [match _ with _ => _ end] => fail | _ => destruct x end end);
    intros Heq; first [discriminate Heq | injection Heq as <-; discriminate].
Qed.
Lemma ends_requireActive i : ends (Users.requireActiveIdentity i : M exn W _).
Proof. unfold Users.requireActiveIdentity. ended. Qed.
#[local] Hint Resolve ends_multipart ends_requireActive : bel.
Lemma ends_changed ty v a : ends (validatorChanged ty v a : M exn W _).
Proof.
  unfold validatorChanged. apply ends_mbind; [ended|intros l]. apply ends_mbind; [ended|intros us]. apply ends_for_each.
  intros x. apply ends_notify_recipient.
Qed.
#[local] Hint Resolve ends_changed : bel.
Lemma ends_finish r a op p reason res : ends (finish r a op p reason res : M exn W _).
Proof. unfold finish. ended. Qed.
Lemma ends_get_registration id : ends (get_registration id : M exn W _).
Proof. unfold get_registration. ended. Qed.
Lemma ends_validator_submit ty a r x : ends (Validators.submit ty a r x : M exn W _).
Proof. unfold Validators.submit. ended. Qed.
#[local] Hint Resolve ends_finish ends_get_registration ends_validator_submit : bel.

(** ** The walk up the hierarchy *)

Context `{!ReadableChain C}.

(** ** The guards *)

Lemma ends_validateGrant g a r x : ends (validateGrant g a r x : M exn W _).
Proof. ended. Qed.
#[local] Hint Resolve ends_validateGrant : bel.
Lemma ends_first_valid l a b : ends (first_valid_grant l a b : M exn W _).
Proof. induction l as [|g l IH]; simpl; [apply ends_mret|]. ended. Qed.
#[local] Hint Resolve ends_first_valid : bel.


End NoFuel.

(** ** A cycle in the store *)

Section Demo.
#[local] Existing Instance dev.
#[local] Existing Instance demo_wires.
#[local] Existing Instance demo_devices.
#[local] Existing Instance demo_integrity.
#[local] Existing Instance MemoryEvidenceStorage.
#[local] Existing Instance ConsoleEmailNotificationProvider.
#[local] Existing Instance demo_untyped.
#[local] Instance mock_ends : OutsideEnds MockChain.
Proof.
  split; intros; try done; try (by intros w e w').
  - cbn. unfold memory_download. ended.
  - unfold untyped, demo_untyped. ended.
Qed.

End Demo.
