(* ===== verification/Paths.v ===== *)
(** * Paths: the addresses of the endpoints

    The method and path pattern every endpoint of [backend/src/routes/*.ts] is
    registered with, in the order of registration, and the choice of the
    endpoint for a request.  Matching a pattern belongs to Express and is an
    interface; its documented behaviour is the law.  [encodeURIComponent] and
    [decodeURIComponent] are those of the language on strings of 8-bit code
    units. *)
From S2P Require Import Prelude JsString JsMap JsValue Shared Routes.
From Stdlib Require Import Ascii.
Local Open Scope string_scope.
Local Open Scope list_scope.

(** ** URI components *)

Definition is_alpha (a : ascii) : bool :=
  let n := nat_of_ascii a in bool_decide (65 <= n <= 90)%nat || bool_decide (97 <= n <= 122)%nat.
(** Letters, digits and [-_.!~*'()] are not escaped. *)
Definition uri_unreserved (a : ascii) : bool :=
  is_alpha a || is_digit a || bool_decide (a ∈ ["-"; "_"; "."; "!"; "~"; "*"; "'"; "("; ")"]%char).

Definition upper_hex (n : nat) : ascii := ascii_of_nat (if bool_decide (n < 10)%nat then 48 + n else 55 + n).
(** [%XX] of a byte *)
Definition percent (byte : nat) : string := String "%" (String (upper_hex (byte / 16)) (String (upper_hex (byte mod 16)) "")).
(** The escapes of the UTF-8 bytes of a code unit. *)
Definition encode_char (a : ascii) : string :=
  let n := nat_of_ascii a in
  if uri_unreserved a then String a ""
  else if bool_decide (n < 128)%nat then percent n
  else percent (192 + n / 64) +:+ percent (128 + n mod 64).
Fixpoint encodeURIComponent (s : string) : string :=
  match s with "" => "" | String a s' => encode_char a +:+ encodeURIComponent s' end.

Definition hex_byte (h l : ascii) : option nat :=
  if is_hex h && is_hex l then Some (Z.to_nat (16 * hex_digit h + hex_digit l)) else None.
(** [None] is a [URIError], or a character that is not an 8-bit code unit. *)
Fixpoint decodeURIComponent (s : string) : option string :=
  match s with
  | "" => Some ""
  | String "%" (String h (String l s')) =>
      match hex_byte h l with
      | Some b =>
          if bool_decide (b < 128)%nat then String (ascii_of_nat b) <$> decodeURIComponent s'
          else if bool_decide (b = 194 \/ b = 195)%nat then
            match s' with
            | String "%" (String h2 (String l2 s2)) =>
                match hex_byte h2 l2 with
                | Some b2 =>
                    if bool_decide (128 <= b2 < 192)%nat
                    then String (ascii_of_nat ((b - 192) * 64 + (b2 - 128))) <$> decodeURIComponent s2
                    else None
                | None => None
                end
            | _ => None
            end
          else None
      | None => None
      end
  | String "%" _ => None
  | String a s' => String a <$> decodeURIComponent s'
  end.

(** ** Registered endpoints *)

Inductive HttpMethod := GET | POST | DELETE.
#[export] Instance HttpMethod_eq_dec : EqDecision HttpMethod.
Proof. solve_decision. Defined.

(** [router.<method>(pattern, ...)]; the parameters come in the order of the pattern. *)
Record Registered := registered { method : HttpMethod; pattern : string; route_of : list string -> option Route }.
Definition plain (r : Route) (params : list string) : option Route := match params with [] => Some r | _ => None end.
Definition with1 (r : string -> Route) (params : list string) : option Route := match params with [a] => Some (r a) | _ => None end.
Definition with2 (r : string -> string -> Route) (params : list string) : option Route :=
  match params with [a; b] => Some (r a b) | _ => None end.

Definition usersTable : list Registered := [
  registered POST "/auth/login-challenge" (plain POST_login_challenge);
  registered POST "/auth/login" (plain POST_login);
  registered POST "/auth/fresh-challenge" (plain POST_fresh_challenge);
  registered POST "/auth/provisioning-challenge" (plain POST_provisioning_challenge);
  registered POST "/auth/initialize-account" (plain POST_initialize_account);
  registered GET "/admin/registrations/pending" (plain GET_pending_registrations);
  registered GET "/admin/users/active" (plain GET_active_users);
  registered POST "/admin/users/:id/verify" (with1 POST_verify);
  registered POST "/admin/users/:id/activate" (with1 POST_activate);
  registered POST "/admin/users" (plain POST_users);
  registered POST "/admin/users/:id/revoke-wallet" (with1 POST_revoke_wallet);
  registered POST "/admin/users/:id/activate-wallet" (with1 POST_activate_wallet);
  registered POST "/auth/logout" (plain POST_logout);
  registered POST "/admin/users/:id/devices" (with1 POST_devices);
  registered GET "/admin/users/:id/devices" (with1 GET_devices);
  registered POST "/admin/devices/:deviceId/revoke" (with1 POST_revoke_device);
  registered POST "/admin/users/:id/wallets" (with1 POST_wallets);
  registered GET "/admin/users/:id/wallets" (with1 GET_wallets);
  registered POST "/admin/users/:id/role" (with1 POST_role);
  registered POST "/admin/users/:id/grants" (with1 POST_grants);
  registered GET "/admin/users/:id/grants" (with1 GET_grants);
  registered POST "/admin/users/:id/grants/:grantId/revoke" (with2 POST_revoke_grant);
  registered GET "/users/me" (plain GET_me);
  registered GET "/users/me/grants" (plain GET_my_grants);
  registered GET "/users/:id" (with1 GET_user)].
Definition assetsTable : list Registered := [
  registered GET "/assets" (plain GET_assets);
  registered GET "/assets/:id" (with1 GET_asset);
  registered POST "/assets" (plain POST_assets);
  registered POST "/assets/prepare" (plain POST_assets_prepare);
  registered POST "/assets/:id/transfer" (with1 POST_transfer);
  registered POST "/assets/:id/transfer/prepare" (with1 POST_transfer_prepare);
  registered POST "/assets/:id/state" (with1 POST_state);
  registered POST "/assets/:id/state/prepare" (with1 POST_state_prepare);
  registered POST "/assets/:id/components" (with1 POST_components);
  registered POST "/assets/:id/components/prepare" (with1 POST_components_prepare);
  registered DELETE "/assets/:id/components/:componentId" (with2 DELETE_component);
  registered POST "/assets/:id/components/:componentId/prepare" (with2 POST_component_prepare)].
Definition jobsTable : list Registered := [
  registered GET "/jobs" (plain GET_jobs);
  registered GET "/jobs/:id" (with1 GET_job);
  registered POST "/jobs" (plain POST_jobs);
  registered POST "/jobs/prepare" (plain POST_jobs_prepare);
  registered POST "/jobs/:id/assign" (with1 POST_assign);
  registered POST "/jobs/:id/assign/prepare" (with1 POST_assign_prepare);
  registered POST "/jobs/:id/start" (with1 POST_start);
  registered POST "/jobs/:id/start/prepare" (with1 POST_start_prepare);
  registered POST "/jobs/:id/complete" (with1 POST_complete);
  registered POST "/jobs/:id/complete/prepare" (with1 POST_complete_prepare);
  registered POST "/jobs/:id/approve" (with1 POST_approve);
  registered POST "/jobs/:id/approve/prepare" (with1 POST_approve_prepare);
  registered POST "/jobs/:id/reject" (with1 POST_reject);
  registered POST "/jobs/:id/reject/prepare" (with1 POST_reject_prepare)].
Definition evidenceTable : list Registered := [
  registered POST "/jobs/:jobId/evidence" (with1 POST_evidence);
  registered GET "/jobs/:jobId/evidence" (with1 GET_evidence_list);
  registered GET "/jobs/:jobId/evidence/:evidenceId" (with2 GET_evidence)].
Definition chainTable : list Registered := [
  registered GET "/audit/assets/:id" (with1 GET_audit);
  registered GET "/blockchain/status" (plain GET_status);
  registered GET "/blockchain/validators" (plain GET_validators);
  registered GET "/blockchain/committee/:height" (with1 GET_committee);
  registered GET "/admin/validators" (plain GET_admin_validators);
  registered GET "/admin/validators/history" (plain GET_validator_history);
  registered POST "/admin/validators" (plain POST_validators);
  registered POST "/admin/validators/:id/remove" (with1 POST_validator_remove);
  registered POST "/admin/validators/:id/restore" (with1 POST_validator_restore);
  registered POST "/admin/validators/:id/remove/cancel" (with1 POST_validator_cancel)].
Definition registry : list Registered := usersTable ++ assetsTable ++ jobsTable ++ evidenceTable ++ chainTable.

(** ** Express *)

(** The decoded parameters of a path that matches a pattern. *)
Class Express := path_params : string -> string -> option (list string).

(** The first registration whose method and pattern fit. *)
Definition dispatch `{Express} (m : HttpMethod) (path : string) : option Route :=
  let fits e := bool_decide (method e = m) && bool_decide (is_Some (path_params (pattern e) path)) in
  e ← List.find fits registry;
  params ← path_params (pattern e) path;
  route_of e params.

(** The segments of a path that starts with a slash. *)
Definition segments (path : string) : list string := tl (split_char "/"%char path).
(** A segment of a pattern against one of a path: [:name] takes any non-empty
    segment, the letters of any other are compared without their case. *)
Definition segment_params (p s : string) : option (list string) :=
  if startsWith ":" p then (if bool_decide (s = "") then None else (fun d => [d]) <$> decodeURIComponent s)
  else if String.eqb (toLowerCase p) (toLowerCase s) then Some [] else None.
Fixpoint params_from (ps ss : list string) : option (list string) :=
  match ps, ss with
  | [], [] => Some []
  | p :: ps', s :: ss' => d ← segment_params p s; rest ← params_from ps' ss'; Some (d ++ rest)
  | _, _ => None
  end.
Definition segments_params (ps ss : list string) : option (list string) :=
  if Nat.eqb (length ps) (length ss) then params_from ps ss else None.
(** A path as clients send it: from a slash to something else. *)
Definition proper_path (path : string) : bool := startsWith "/" path && negb (bool_decide (List.last (segments path) "" = "")).

(** What the documentation of Express says of such paths. *)
Class ExpressLaws `{Express} : Prop :=
  path_params_spec : forall p path, proper_path path = true -> path_params p path = segments_params (segments p) (segments path).
#[export] Instance reference_express : Express := fun p path => segments_params (segments p) (segments path).
Lemma reference_express_laws : @ExpressLaws reference_express.
Proof. by intros p path. Qed.

(** ** Dot segments *)

(** What the URL parser of a browser takes for one: the dots may be escaped. *)
Definition single_dot (s : string) : bool := bool_decide (toLowerCase s ∈ ["."; "%2e"]).
Definition double_dot (s : string) : bool := bool_decide (toLowerCase s ∈ [".."; ".%2e"; "%2e."; "%2e%2e"]).
Definition dot_segment (s : string) : bool := double_dot s || single_dot s.
(** The segments of a path without them, after those in [out], the last one
    first; [None] if they climb above the path. *)
Fixpoint without_dots (out l : list string) : option (list string) :=
  match l with
  | [] => Some (rev out)
  | s :: l' =>
      let last out := match l' with [] => "" :: out | _ => out end in
      if double_dot s then match out with [] => None | _ :: out' => without_dots (last out') l' end
      else if single_dot s then without_dots (last out) l'
      else without_dots (s :: out) l'
  end.
Example without_dots_climbs : without_dots [] ["jobs"; "J1"; ".."; "J2"; "."] = Some ["jobs"; "J2"; ""].
Proof. reflexivity. Qed.

(** ** Lemmas *)

Lemma decode_encode_char a t : decodeURIComponent (encode_char a +:+ t) = String a <$> decodeURIComponent t.
Proof. destruct a as [[] [] [] [] [] [] [] []]; reflexivity. Qed.
Lemma decode_encode_app s t : decodeURIComponent (encodeURIComponent s +:+ t) = (fun d => s +:+ d) <$> decodeURIComponent t.
Proof.
  induction s as [|a s IH]; cbn [encodeURIComponent]; [by change ("" +:+ t) with t; destruct (decodeURIComponent t)|].
  rewrite app_string_assoc, decode_encode_char, IH. by destruct (decodeURIComponent t).
Qed.

Lemma all_chars_encode p : (forall a, all_chars p (encode_char a) = true) -> forall s, all_chars p (encodeURIComponent s) = true.
Proof. intros Hp s. induction s as [|a s IH]; simpl; [done|]. by rewrite all_chars_app, Hp, IH. Qed.
Definition segment_char (a : ascii) : bool := negb (Ascii.eqb a "/") && negb (Ascii.eqb a "?").
Lemma encode_segment s : all_chars segment_char (encodeURIComponent s) = true.
Proof. apply all_chars_encode. intros [[] [] [] [] [] [] [] []]; reflexivity. Qed.
Lemma encode_empty s : encodeURIComponent s = "" -> s = "".
Proof. destruct s as [|[[] [] [] [] [] [] [] []] s]; done. Qed.

Lemma split_char_nonempty c s : exists x l, split_char c s = x :: l.
Proof. destruct s as [|a s]; simpl; [eauto|]. destruct (Ascii.eqb a c); [eauto|]. destruct (split_char c s); eauto. Qed.
(** Splitting after a text without the separator. *)
Lemma split_char_app c s t : all_chars (fun a => negb (Ascii.eqb a c)) s = true ->
  split_char c (s +:+ t) = match split_char c t with [] => [s] | x :: l => (s +:+ x) :: l end.
Proof.
  induction s as [|a s IH]; simpl; intros Hs; [change ("" +:+ t) with t; by destruct (split_char_nonempty c t) as (x & l & ->)|].
  apply andb_true_iff in Hs as [Ha%negb_true_iff Hs]. rewrite Ha, IH by done.
  by destruct (split_char c t).
Qed.

(** ** Addresses with encoded identifiers *)

(** A segment as a client writes it: a word, or an encoded identifier. *)
Inductive Seg := Word (w : string) | Enc (id : string).
Definition seg_text (x : Seg) : string := match x with Word w => w | Enc id => encodeURIComponent id end.
Fixpoint address (l : list Seg) : string :=
  match l with [] => "" | [x] => "/" +:+ seg_text x | x :: l' => "/" +:+ seg_text x +:+ address l' end.
Definition seg_ok (x : Seg) : bool :=
  match x with Word w => negb (String.eqb w "") && all_chars segment_char w | Enc id => negb (String.eqb id "") end.

(** The pattern segment [p] and an encoded identifier are the same word. *)
Definition clash (p id : string) : bool := String.eqb (toLowerCase p) (toLowerCase (encodeURIComponent id)).
Definition seg_params (p : string) (x : Seg) : option (list string) :=
  match x with
  | Word w => segment_params p w
  | Enc id => if startsWith ":" p then Some [id] else if clash p id then Some [] else None
  end.
Fixpoint segs_from (ps : list string) (l : list Seg) : option (list string) :=
  match ps, l with
  | [], [] => Some []
  | p :: ps', x :: l' => d ← seg_params p x; rest ← segs_from ps' l'; Some (d ++ rest)
  | _, _ => None
  end.
Definition segs_params (ps : list string) (l : list Seg) : option (list string) :=
  if Nat.eqb (length ps) (length l) then segs_from ps l else None.
Definition segmented : list (HttpMethod * list string * (list string -> option Route)) :=
  Eval vm_compute in map (fun e => (method e, segments (pattern e), route_of e)) registry.
Fixpoint first_fit (m : HttpMethod) (l : list Seg) (table : list (HttpMethod * list string * (list string -> option Route))) : option Route :=
  match table with
  | [] => None
  | (m', ps, r) :: table' =>
      if bool_decide (m' = m) then match segs_params ps l with Some params => r params | None => first_fit m l table' end
      else first_fit m l table'
  end.

Lemma seg_ok_text x : seg_ok x = true -> seg_text x <> "" /\ all_chars segment_char (seg_text x) = true.
Proof.
  destruct x as [w|id]; simpl; intros Hx.
  - apply andb_true_iff in Hx as [Hn Ha]. split; [|done]. by destruct w.
  - split; [|apply encode_segment]. intros ->%encode_empty. done.
Qed.
Lemma seg_params_text p x : seg_ok x = true -> segment_params p (seg_text x) = seg_params p x.
Proof.
  intros Hx. destruct x as [w|id]; [done|]. destruct (seg_ok_text _ Hx) as [Hn _]. simpl in *. unfold segment_params.
  destruct (startsWith ":" p); [|done]. rewrite bool_decide_eq_false_2 by done.
  rewrite <- (app_string_nil (encodeURIComponent id)), decode_encode_app. simpl. by rewrite app_string_nil.
Qed.
Lemma segs_params_text ps l : forallb seg_ok l = true -> segments_params ps (map seg_text l) = segs_params ps l.
Proof.
  unfold segments_params, segs_params. rewrite length_map. intros Hl. destruct (Nat.eqb _ _); [|done].
  revert ps Hl. induction l as [|x l IH]; intros [|p ps]; simpl; try done. intros [Hx Hl]%andb_true_iff.
  by rewrite IH, seg_params_text.
Qed.
Lemma all_chars_weaken (p q : ascii -> bool) s : (forall a, p a = true -> q a = true) -> all_chars p s = true -> all_chars q s = true.
Proof. intros Hpq. induction s as [|a s IH]; simpl; [done|]. intros [Ha Hs]%andb_true_iff. by rewrite Hpq, IH. Qed.
Lemma segment_no_slash a : segment_char a = true -> negb (Ascii.eqb a "/") = true.
Proof. unfold segment_char. by intros [? _]%andb_true_iff. Qed.
Lemma segment_no_query a : segment_char a = true -> negb (Ascii.eqb a "?") = true.
Proof. unfold segment_char. by intros [_ ?]%andb_true_iff. Qed.

Lemma split_address x l : forallb seg_ok (x :: l) = true -> split_char "/" (address (x :: l)) = "" :: map seg_text (x :: l).
Proof.
  revert x. induction l as [|y l IH]; intros x; simpl forallb; intros [Hx Hl]%andb_true_iff;
    destruct (seg_ok_text _ Hx) as [_ Hc]; apply (all_chars_weaken _ _ _ segment_no_slash) in Hc.
  - change (address [x]) with ("/" +:+ seg_text x). change (split_char "/" ("/" +:+ seg_text x)) with ("" :: split_char "/" (seg_text x)).
    rewrite <- (app_string_nil (seg_text x)) at 1. rewrite split_char_app by done. simpl. by rewrite app_string_nil.
  - change (address (x :: y :: l)) with ("/" +:+ (seg_text x +:+ address (y :: l))).
    change (split_char "/" ("/" +:+ (seg_text x +:+ address (y :: l)))) with ("" :: split_char "/" (seg_text x +:+ address (y :: l))).
    rewrite split_char_app, (IH y) by done. simpl. by rewrite app_string_nil.
Qed.
Lemma segments_address l : l <> [] -> forallb seg_ok l = true -> segments (address l) = map seg_text l.
Proof. destruct l as [|x l]; [done|]. intros _ Hl. unfold segments. by rewrite split_address. Qed.
Lemma startsWith_self p s : startsWith p (p +:+ s) = true.
Proof. induction p as [|a p IH]; [by destruct s|]. unfold startsWith in *. simpl. by destruct (ascii_dec a a). Qed.
Lemma last_forall {A} (P : A -> Prop) (l : list A) d : l <> [] -> (forall x, In x l -> P x) -> P (List.last l d).
Proof.
  induction l as [|x [|y l] IH]; [done| |]; intros _ Hp; [by apply Hp; left|].
  apply IH; [done|]. intros z Hz. apply Hp. by right.
Qed.
Lemma proper_address l : l <> [] -> forallb seg_ok l = true -> proper_path (address l) = true.
Proof.
  intros Hn Hl. unfold proper_path. rewrite segments_address by done. apply andb_true_iff. split.
  - destruct l as [|x [|y l]]; [done|apply startsWith_self|apply startsWith_self].
  - apply negb_true_iff, bool_decide_eq_false. apply (last_forall (fun s => s <> "")); [by destruct l|].
    intros s (x & <- & Hx)%in_map_iff. apply seg_ok_text. by eapply forallb_forall in Hl.
Qed.

(** The registry finds the endpoint of an address by its segments. *)
Lemma dispatch_address `{!Express} `{!ExpressLaws} m l r :
  l <> [] -> forallb seg_ok l = true -> first_fit m l segmented = Some r -> dispatch m (address l) = Some r.
Proof.
  intros Hn Hl. assert (Es : segmented = map (fun e => (method e, segments (pattern e), route_of e)) registry) by (vm_compute; reflexivity).
  rewrite Es. unfold dispatch. clear Es.
  assert (Hp : forall p, path_params p (address l) = segs_params (segments p) l).
  { intros p. rewrite path_params_spec by by apply proper_address. by rewrite segments_address, segs_params_text. }
  induction registry as [|e table IH]; simpl; [done|]. rewrite Hp.
  destruct (bool_decide (method e = m)) eqn:Em; simpl; [|done].
  destruct (segs_params (segments (pattern e)) l) as [params|] eqn:Ep; simpl; [by rewrite Hp, Ep|done].
Qed.

(** A URI component comes back as it was encoded, and holds no
    character that ends a segment of a path. *)
Theorem uri_component_roundtrip s :
  decodeURIComponent (encodeURIComponent s) = Some s /\ all_chars segment_char (encodeURIComponent s) = true.
Proof.
  split; [|apply encode_segment]. rewrite <- (app_string_nil (encodeURIComponent s)), decode_encode_app. simpl. by rewrite app_string_nil.
Qed.
