(* ===== verification/DeviceWallet.v ===== *)
(** * DeviceWallet: signatures of the user's device, [frontend/src/api/deviceWallet.ts]

    The browser is an interface on a state of its own: the network, the bridge
    to the protected device that the page may have, and the build-time
    environment. *)
From S2P Require Import Prelude Effects JsString JsMap JsValue Paths.
From Stdlib Require Import Ascii.
Local Open Scope string_scope.
Local Open Scope list_scope.

(** ** What the frontend throws *)

Inductive DeviceWalletReason := CANCELLED | UNAVAILABLE | FAILED | UNVERIFIED.
(** A thrown value, as [instanceof] tells them apart; a [DOMException] is an
    [Error] too. *)
Inductive Thrown :=
| HttpApiError (status : Z) (code message : value)
| DeviceWalletError (reason : DeviceWalletReason) (message : string)
| DOMException (name message : string)
| OtherError (message : string)
| NotAnError.

(** ** The browser *)

(** The body of a request: a text, or a form with one file. *)
Inductive FetchBody := Text (s : string) | Form (filename bytes : string).
Module FetchRequest.
Record t := mk { method : HttpMethod; url : string; headers : jsmap string; body : option FetchBody }.
End FetchRequest.
(** A response, with what reading its body as JSON or as bytes gives. *)
Module FetchResponse.
Record t := mk { status : Z; json : Thrown + value; blob : Thrown + string }.
Definition ok (r : t) : bool := (200 <=? status r)%Z && (status r <=? 299)%Z.
End FetchResponse.

Module DeviceSigningOptions.
Record t := mk { operation : string; requireUserVerification : bool }.
Definition to_payload (o : t) : payload :=
  [("operation", VStr (operation o)); ("requireUserVerification", VBool (requireUserVerification o))].
End DeviceSigningOptions.

Record DeviceWalletBridge (B : Type) := {
  bridge_getIdentity : M Thrown B value;
  bridge_sign : value -> DeviceSigningOptions.t -> M Thrown B value;
  bridge_signTransaction : option (value -> DeviceSigningOptions.t -> M Thrown B value);
}.
Arguments bridge_getIdentity {B}. Arguments bridge_sign {B}. Arguments bridge_signTransaction {B}.

Class Browser (B : Type) := {
  fetch : FetchRequest.t -> M Thrown B FetchResponse.t;
  (** [window.belDeviceWallet] *)
  belDeviceWallet : option (DeviceWalletBridge B);
  (** [import.meta.env] *)
  env_DEV : bool;
  VITE_BEL_DEV_WALLET_URL : option string;
  VITE_API_BASE_URL : option string;
}.

(** ** Helpers *)

(** [v.k]; [null] and [undefined] have no properties. *)
Definition opt_prop (k : string) (v : value) : value := match v with VObj p => field k p | _ => VUndefined end.
Definition prop {W} (k : string) (v : value) : M Thrown W value :=
  match v with VUndefined | VNull => throw (OtherError "Cannot read properties of undefined") | _ => mret (opt_prop k v) end.
(** [v === true] *)
Definition is_true_value (v : value) : bool := match v with VBool true => true | _ => false end.
(** [s.replace(/\/$/, "")] *)
Fixpoint strip_slash (s : string) : string :=
  match s with
  | "" => ""
  | String a "" => if Ascii.eqb a "/"%char then "" else s
  | String a s' => String a (strip_slash s')
  end.

Section DeviceWallet.
Context `{Platform} {B : Type} `{Browser B}.
Abbreviation MB := (M Thrown B).

Definition devWalletBase : option string :=
  if env_DEV then (fun u => strip_slash (trim u)) <$> VITE_BEL_DEV_WALLET_URL else None.
Definition isDevelopmentWalletEnabled : bool := truthy_string devWalletBase.

Definition unavailable {A} : MB A :=
  throw (DeviceWalletError UNAVAILABLE "Secure device authentication is unavailable on this workstation.").

Definition dev_getIdentity (base : string) : MB value :=
  response ← fetch (FetchRequest.mk GET (base +:+ "/identity") empty_map None);
  throw_if (negb (FetchResponse.ok response)) (DeviceWalletError UNAVAILABLE "The development device-wallet service is unavailable.");;
  lift_result (FetchResponse.json response).
(** The two signing requests of the development service differ in the path
    and in the name of what is signed. *)
Definition dev_post (base path name : string) (signed : value) (options : DeviceSigningOptions.t) : MB value :=
  identity ← dev_getIdentity base;
  deviceId ← prop "deviceId" identity;
  response ← fetch (FetchRequest.mk POST (base +:+ path) (put "content-type" "application/json" empty_map)
    (Some (Text (JSON_stringify [("deviceId", deviceId); (name, signed); ("options", VObj (DeviceSigningOptions.to_payload options))]))));
  let body := match FetchResponse.json response with inr v => v | inl _ => VObj [] end in
  (if FetchResponse.ok response then mret body
   else message ← prop "message" body;
        throw (DeviceWalletError FAILED
          (match message with VStr s => s | _ => "Development device-wallet signing failed." end))).
Definition dev_bridge (base : string) : DeviceWalletBridge B := {|
  bridge_getIdentity := dev_getIdentity base;
  bridge_sign := dev_post base "/sign" "challenge";
  bridge_signTransaction := Some (dev_post base "/sign-transaction" "transaction");
|}.
Definition no_bridge : DeviceWalletBridge B := {|
  bridge_getIdentity := unavailable;
  bridge_sign _ _ := unavailable;
  bridge_signTransaction := Some (fun _ _ => unavailable);
|}.
Definition bridge : DeviceWalletBridge B :=
  match belDeviceWallet with
  | Some b => b
  | None => if truthy_string devWalletBase then dev_bridge (default "" devWalletBase) else no_bridge
  end.

Definition cancelled : Thrown := DeviceWalletError CANCELLED "Device verification was cancelled. The operation was not performed.".
(** [/cancel|abort|not allowed/i.test(message)] *)
Definition says_cancelled (message : string) : bool :=
  let m := toLowerCase message in includes "cancel" m || includes "abort" m || includes "not allowed" m.
Definition mapSigningError (error : Thrown) : Thrown :=
  let other := DeviceWalletError FAILED "Device verification failed. The operation was not performed." in
  let by_message m := if says_cancelled m then cancelled else other in
  match error with
  | DeviceWalletError _ _ => error
  | DOMException name message =>
      if String.eqb name "AbortError" || String.eqb name "NotAllowedError" then cancelled else by_message message
  | HttpApiError _ _ message => by_message (match message with VStr s => s | v => String_of v end)
  | OtherError message => by_message message
  | NotAnError => other
  end.

(** The wallet has verified the user, or is the development wallet of a
    development build. *)
Definition user_verified (result : value) : bool :=
  is_true_value (opt_prop "userVerified" result).
Definition verified (result : value) : bool :=
  user_verified result || (env_DEV && is_true_value (opt_prop "developmentUserVerification" result)).

Definition sign (challenge : value) (options : DeviceSigningOptions.t) : MB string :=
  throw_if (negb (DeviceSigningOptions.requireUserVerification options))
    (DeviceWalletError UNVERIFIED "Secure device verification is required for this operation.");;
  result ← rescue (bridge_sign bridge challenge options) (fun error => throw (mapSigningError error));
  let bad := DeviceWalletError UNVERIFIED "Secure device verification was not completed. The operation was not performed." in
  match opt_prop "signature" result with
  | VStr signature => throw_if (String.eqb signature "" || negb (verified result)) bad;; mret signature
  | _ => throw bad
  end.

Definition deviceWallet_getIdentity : MB value := bridge_getIdentity bridge.

Definition signDeviceTransaction (transaction : value) : MB string :=
  match bridge_signTransaction bridge with
  | None => throw (DeviceWalletError UNAVAILABLE "Secure device transaction signing is unavailable on this workstation.")
  | Some signTransaction =>
      result ← signTransaction transaction (DeviceSigningOptions.mk "BLOCKCHAIN_TRANSACTION" true);
      let bad := DeviceWalletError UNVERIFIED "Secure device verification was not completed. The operation was not performed." in
      match opt_prop "signature" result with
      | VStr signature => throw_if (negb (verified result)) bad;; mret signature
      | _ => throw bad
      end
  end.
End DeviceWallet.
