(* ===== verification/Client.v ===== *)
(** * Client: the API client of the frontend, [frontend/src/api/client.ts]

    One definition per function; a method of [apiClient] has its own name.  The
    state is the session token in [sessionStorage], the listener for expired
    sessions with the calls it got, and the browser. *)
From S2P Require Import Prelude Effects JsString JsMap JsValue Paths DeviceWallet.
Local Open Scope string_scope.
Local Open Scope list_scope.

Module ClientState.
Record t (B : Type) := mk { session : option string; listener : option nat; expired : list nat; browser : B }.
Arguments mk {B}. Arguments session {B}. Arguments listener {B}. Arguments expired {B}. Arguments browser {B}.
Section State.
Context {B : Type}.
Definition with_session (v : option string) (s : t B) : t B := mk v (listener s) (expired s) (browser s).
Definition with_listener (v : option nat) (s : t B) : t B := mk (session s) v (expired s) (browser s).
Definition notified (s : t B) : t B :=
  mk (session s) (listener s) (match listener s with Some l => expired s ++ [l] | None => expired s end) (browser s).
Definition with_browser (b : B) (s : t B) : t B := mk (session s) (listener s) (expired s) b.
End State.
End ClientState.

(** What [request] resolves to: the JSON of the body ([null] when there is
    none), or the bytes of a blob. *)
Inductive ResponseData := Data (v : value) | File (bytes : string).
Definition data_prop (k : string) (d : ResponseData) : value := match d with Data v => opt_prop k v | File _ => VUndefined end.
Definition data_value (d : ResponseData) : value := match d with Data v => v | File _ => VObj [] end.
Inductive ResponseType := AsJson | AsBlob.

Module RequestInit.
Record t := mk { method : HttpMethod; body : option FetchBody; headers : jsmap string }.
End RequestInit.

(** [v ?? w] *)
Definition coalesce (v w : value) : value := match v with VUndefined | VNull => w | _ => v end.
(** The own properties that [{ ...v }] copies. *)
Definition own_properties (v : value) : payload :=
  match v with
  | VObj p => p
  | VArr l => imap (fun i x => (pretty i, x)) l
  | VStr s => imap (fun i a => (pretty i, VStr (String a ""))) (String.list_ascii_of_string s)
  | _ => []
  end.
(** [JSON.stringify(input)] of an optional object. *)
Definition text_of `{Platform} (input : option payload) : option FetchBody := (fun p => Text (JSON_stringify p)) <$> input.

Section Client.
Context `{Platform} {B : Type} `{Browser B}.
Abbreviation S := (ClientState.t B).
Abbreviation MC := (M Thrown (ClientState.t B)).

Definition in_browser {A} (m : M Thrown B A) : MC A := zoom ClientState.browser ClientState.with_browser m.

(** [trim() || "/api"], without a slash at the end *)
Definition API_BASE_URL : string :=
  let configured := trim <$> VITE_API_BASE_URL in
  strip_slash (if truthy_string configured then default "" configured else "/api").

Definition onSessionExpired (listener : nat) : MC unit := modify (ClientState.with_listener (Some listener)).
(** What [onSessionExpired] returns. *)
Definition unsubscribe (listener : nat) : MC unit :=
  current ← gets ClientState.listener;
  if bool_decide (current = Some listener) then modify (ClientState.with_listener None) else mret tt.

Definition endpoint (path : string) : string := API_BASE_URL +:+ (if startsWith "/" path then path else "/" +:+ path).
Definition token : MC (option string) := gets ClientState.session.
Definition saveToken (v : value) : MC unit :=
  modify (ClientState.with_session (if falsy v then None else Some (match v with VStr s => s | _ => String_of v end))).

Definition request (path : string) (init : RequestInit.t) (authenticated : bool) (responseType : ResponseType) : MC ResponseData :=
  let headers := put "Accept" "application/json" (RequestInit.headers init) in
  let headers := match RequestInit.body init with Some (Text _) => put "Content-Type" "application/json" headers | _ => headers end in
  currentToken ← token;
  let headers := if authenticated && truthy_string currentToken
                 then put "Authorization" ("Bearer " +:+ default "" currentToken) headers else headers in
  response ← rescue (in_browser (fetch (FetchRequest.mk (RequestInit.method init) (endpoint path) headers (RequestInit.body init))))
    (fun _ => throw (HttpApiError 0 (VStr "NETWORK_ERROR") (VStr "The BEL backend could not be reached.")));
  let status := FetchResponse.status response in
  let body := if (status =? 204)%Z then Data VNull else
    match responseType with
    | AsBlob => match FetchResponse.blob response with inr bytes => File bytes | inl _ => Data VNull end
    | AsJson => match FetchResponse.json response with inr v => Data v | inl _ => Data VNull end
    end in
  if FetchResponse.ok response then mret body
  else
    let code := coalesce (data_prop "code" body) (VStr (if (status =? 501)%Z then "NOT_IMPLEMENTED" else "INTERNAL_ERROR")) in
    (if (status =? 401)%Z && authenticated then saveToken VNull;; modify ClientState.notified else mret tt);;
    throw (HttpApiError status code
      (coalesce (data_prop "message" body) (VStr ("BEL backend request failed (" +:+ pretty status +:+ ").")))).

Definition json (path : string) (body : option payload) (authenticated : bool) : MC ResponseData :=
  request path (RequestInit.mk POST (text_of body) empty_map) authenticated AsJson.
Definition post (path : string) (authenticated : bool) : MC ResponseData :=
  request path (RequestInit.mk POST None empty_map) authenticated AsJson.
Definition get (path : string) (authenticated : bool) : MC ResponseData :=
  request path (RequestInit.mk GET None empty_map) authenticated AsJson.

Definition fresh_body (operation : string) (resourceId : value) : payload :=
  ("operation", VStr operation) :: (if falsy resourceId then [] else [("resourceId", resourceId)]).
Definition freshHeaders (operation : string) (resourceId : value) : MC (jsmap string) :=
  identity ← in_browser deviceWallet_getIdentity;
  challenge ← json "/auth/fresh-challenge" (Some (fresh_body operation resourceId)) true;
  text ← prop "challenge" (data_value challenge);
  signature ← in_browser (sign text (DeviceSigningOptions.mk operation true));
  challengeId ← prop "challengeId" (data_value challenge);
  publicKey ← prop "publicKey" identity;
  mret (put "X-BEL-Fresh-Auth"
    (JSON_stringify [("challengeId", challengeId); ("publicKey", publicKey); ("signature", VStr signature)]) empty_map).
Definition freshJson (path : string) (body : option payload) (operation : string) (resourceId : value) : MC ResponseData :=
  headers ← freshHeaders operation resourceId;
  request path (RequestInit.mk POST (text_of body) headers) true AsJson.

Definition deviceSignedWrite (path : string) (input : payload) : MC ResponseData :=
  prepared ← json (path +:+ "/prepare") (Some input) true;
  transaction ← prop "transaction" (data_value prepared);
  signature ← in_browser (signDeviceTransaction transaction);
  let intent := own_properties (opt_prop "intent" (data_value prepared)) in
  json path (Some (put "signature" (VStr signature) (spread input intent))) true.
(** [freshOperation ? await freshHeaders(freshOperation, resourceId) : undefined] *)
Definition deviceSignedMutationWrite (path : string) (input : payload) (fresh : option (string * string)) (method : HttpMethod)
    : MC ResponseData :=
  headers ← (match fresh with
             | Some (freshOperation, resourceId) => freshHeaders freshOperation (VStr resourceId)
             | None => mret empty_map
             end);
  prepared ← request (path +:+ "/prepare") (RequestInit.mk POST (text_of (Some input)) headers) true AsJson;
  transaction ← prop "transaction" (data_value prepared);
  signature ← in_browser (signDeviceTransaction transaction);
  request path (RequestInit.mk method (text_of (Some (put "signature" (VStr signature) input))) headers) true AsJson.

(** [try { return await m; } catch (e) { if (e instanceof HttpApiError && e.status === code) return null; throw e; }] *)
Definition null_on (code : Z) {A} (m : MC A) : MC (option A) :=
  rescue (a ← m; mret (Some a)) (fun error =>
    match error with HttpApiError status _ _ => if (status =? code)%Z then mret None else throw error | _ => throw error end).

(** ** [apiClient] *)

(** A credential, or a [LoginProofRequest]. *)
Definition login (input : string + payload) : MC ResponseData :=
  session ← json "/auth/login" (Some (match input with inl credential => [("deviceCredential", VStr credential)] | inr proof => proof end)) false;
  new ← prop "token" (data_value session);
  saveToken new;;
  mret session.
Definition requestProvisioningChallenge (input : payload) : MC ResponseData :=
  json "/auth/provisioning-challenge" (Some input) false.
Definition initializeAccount (input : payload) : MC ResponseData :=
  json "/auth/initialize-account" (Some input) false.
Definition requestAuthenticationChallenge (deviceId : string) : MC ResponseData :=
  json "/auth/login-challenge" (Some [("deviceId", VStr deviceId)]) false.
Definition getPendingRegistrations : MC ResponseData :=
  get "/admin/registrations/pending" true.
Definition getActiveEmployees : MC ResponseData :=
  get "/admin/users/active" true.
Definition verifyRegistration (id : string) (input : payload) : MC ResponseData :=
  json ("/admin/users/" +:+ encodeURIComponent id +:+ "/verify") (Some input) true.
Definition assignRole (id : string) (input : payload) : MC ResponseData :=
  freshJson ("/admin/users/" +:+ encodeURIComponent id +:+ "/role")
    (Some input) "ROLE_ASSIGN" (VStr id).
Definition activateRegistration (id : string) : MC ResponseData :=
  post ("/admin/users/" +:+ encodeURIComponent id +:+ "/activate") true.
Definition registerDevice (userId : string) (input : payload) : MC ResponseData :=
  json ("/admin/users/" +:+ encodeURIComponent userId +:+ "/devices") (Some input) true.
Definition getDevices (userId : string) : MC ResponseData :=
  get ("/admin/users/" +:+ encodeURIComponent userId +:+ "/devices") true.
Definition registerWallet (userId : string) (input : payload) : MC ResponseData :=
  json ("/admin/users/" +:+ encodeURIComponent userId +:+ "/wallets") (Some input) true.
Definition getWallets (userId : string) : MC ResponseData :=
  get ("/admin/users/" +:+ encodeURIComponent userId +:+ "/wallets") true.
Definition revokeDevice (deviceId : string) : MC ResponseData :=
  freshJson ("/admin/devices/" +:+ encodeURIComponent deviceId +:+ "/revoke")
    None "WALLET_REVOKE" (VStr deviceId).
Definition createUser (input : payload) : MC ResponseData :=
  json "/admin/users" (Some input) true.
Definition revokeWallet (userId reason : string) : MC ResponseData :=
  freshJson ("/admin/users/" +:+ encodeURIComponent userId +:+ "/revoke-wallet")
    (Some [("reason", VStr reason)]) "WALLET_REVOKE" (VStr userId).
Definition activateWallet (userId : string) (input : payload) : MC ResponseData :=
  freshJson ("/admin/users/" +:+ encodeURIComponent userId +:+ "/activate-wallet")
    (Some input) "WALLET_ACTIVATE" (VStr userId).
(** [try { if (token()) await request(...) } finally { saveToken(null) }] *)
Definition logout : MC unit :=
  let attempt := current ← token;
    if truthy_string current then request "/auth/logout" (RequestInit.mk POST None empty_map) true AsJson;; mret tt else mret tt in
  rescue attempt (fun error => saveToken VNull;; throw error);;
  saveToken VNull.
Definition getMe : MC ResponseData :=
  get "/users/me" true.
Definition getCurrentUserGrant (resourceId : string) : MC ResponseData :=
  get ("/users/me/grants?resourceType=ASSET&resourceId=" +:+ encodeURIComponent resourceId +:+ "&action=TRANSFER_ASSET") true.
Definition getUser (id : string) : MC (option ResponseData) := null_on 404 (get ("/users/" +:+ encodeURIComponent id) true).
Definition getAssets : MC ResponseData :=
  get "/assets" true.
Definition getAsset (id : string) : MC (option ResponseData) := null_on 404 (get ("/assets/" +:+ encodeURIComponent id) true).
Definition createAsset (input : payload) : MC ResponseData :=
  deviceSignedWrite "/assets" input.
Definition transferAsset (id : string) (input : payload) : MC ResponseData :=
  deviceSignedMutationWrite ("/assets/" +:+ encodeURIComponent id +:+ "/transfer")
    input (Some ("ASSET_TRANSFER", id)) POST.
Definition changeAssetState (id : string) (input : payload) : MC ResponseData :=
  deviceSignedMutationWrite ("/assets/" +:+ encodeURIComponent id +:+ "/state")
    input (Some ("ASSET_STATE_CHANGE", id)) POST.
Definition attachComponent (id : string) (input : payload) : MC ResponseData :=
  deviceSignedMutationWrite ("/assets/" +:+ encodeURIComponent id +:+ "/components")
    input (Some ("COMPONENT_ATTACH", id)) POST.
Definition removeComponent (parentId componentId : string) : MC ResponseData :=
  deviceSignedMutationWrite ("/assets/" +:+ encodeURIComponent parentId +:+ "/components/" +:+ encodeURIComponent componentId)
    [] (Some ("COMPONENT_REMOVE", componentId)) DELETE.
Definition getGrants (userId : string) : MC ResponseData :=
  get ("/admin/users/" +:+ encodeURIComponent userId +:+ "/grants") true.
Definition createTransferGrant (userId : string) (input : payload) : MC ResponseData :=
  freshJson ("/admin/users/" +:+ encodeURIComponent userId +:+ "/grants")
    (Some input) "GRANT_CREATE" (field "resourceId" input).
Definition revokeGrant (userId grantId : string) : MC ResponseData :=
  freshJson ("/admin/users/" +:+ encodeURIComponent userId +:+ "/grants/" +:+ encodeURIComponent grantId +:+ "/revoke")
    None "GRANT_REVOKE" (VStr grantId).
Definition getJobs : MC ResponseData :=
  get "/jobs" true.
Definition getJob (id : string) : MC (option ResponseData) := null_on 404 (get ("/jobs/" +:+ encodeURIComponent id) true).
Definition createJob (input : payload) : MC ResponseData :=
  deviceSignedWrite "/jobs" input.
Definition assignJob (id : string) (input : payload) : MC ResponseData :=
  deviceSignedMutationWrite ("/jobs/" +:+ encodeURIComponent id +:+ "/assign")
    input None POST.
Definition startJob (id : string) : MC ResponseData :=
  deviceSignedMutationWrite ("/jobs/" +:+ encodeURIComponent id +:+ "/start")
    [] None POST.
Definition completeJob (id : string) (input : payload) : MC ResponseData :=
  deviceSignedMutationWrite ("/jobs/" +:+ encodeURIComponent id +:+ "/complete")
    input None POST.
Definition completeJobWithEvidence (id evidenceId : string) : MC ResponseData :=
  deviceSignedMutationWrite ("/jobs/" +:+ encodeURIComponent id +:+ "/complete")
    [("evidenceId", VStr evidenceId)] None POST.
Definition approveJob (id : string) : MC ResponseData :=
  deviceSignedMutationWrite ("/jobs/" +:+ encodeURIComponent id +:+ "/approve")
    [] (Some ("JOB_VERIFY", id)) POST.
Definition rejectJob (id : string) (input : payload) : MC ResponseData :=
  deviceSignedMutationWrite ("/jobs/" +:+ encodeURIComponent id +:+ "/reject")
    input (Some ("JOB_VERIFY", id)) POST.
Definition getAssetAuditTrail (assetId : string) : MC ResponseData :=
  get ("/audit/assets/" +:+ encodeURIComponent assetId) true.
Definition getBlockchainStatus : MC ResponseData :=
  get "/blockchain/status" false.
Definition getValidators : MC ResponseData :=
  get "/blockchain/validators" true.
Definition getValidatorRegistrations : MC ResponseData :=
  get "/admin/validators" true.
Definition getValidatorHistory : MC ResponseData :=
  get "/admin/validators/history" true.
Definition addValidator (input : payload) : MC ResponseData :=
  freshJson "/admin/validators"
    (Some input) "VALIDATOR_ADD" (field "validatorId" input).
Definition removeValidator (id : string) (input : payload) : MC ResponseData :=
  freshJson ("/admin/validators/" +:+ encodeURIComponent id +:+ "/remove")
    (Some input) "VALIDATOR_REMOVE" (VStr id).
Definition restoreValidator (id : string) (input : payload) : MC ResponseData :=
  freshJson ("/admin/validators/" +:+ encodeURIComponent id +:+ "/restore")
    (Some input) "VALIDATOR_RESTORE" (VStr id).
Definition cancelScheduledRemoval (id : string) (input : payload) : MC ResponseData :=
  freshJson ("/admin/validators/" +:+ encodeURIComponent id +:+ "/remove/cancel")
    (Some input) "VALIDATOR_REMOVE_CANCEL" (VStr id).
Definition getCommittee (height : Z) : MC ResponseData :=
  get ("/blockchain/committee/" +:+ pretty height) true.
Definition restoreSession : MC (option (ResponseData * string)) :=
  current ← token;
  if truthy_string current then null_on 401 (user ← getMe; mret (user, default "" current)) else mret None.
Definition clearSession : MC unit := saveToken VNull.
Definition uploadEvidence (jobId filename bytes : string) : MC ResponseData :=
  request ("/jobs/" +:+ encodeURIComponent jobId +:+ "/evidence") (RequestInit.mk POST (Some (Form filename bytes)) empty_map) true AsJson.
Definition getEvidence (jobId : string) : MC ResponseData :=
  get ("/jobs/" +:+ encodeURIComponent jobId +:+ "/evidence") true.
Definition downloadEvidence (jobId evidenceId : string) : MC ResponseData :=
  request ("/jobs/" +:+ encodeURIComponent jobId +:+ "/evidence/" +:+ encodeURIComponent evidenceId) (RequestInit.mk GET None empty_map) true AsBlob.
End Client.
