(* ===== verification/ClientCorrect.v ===== *)
(** * ClientCorrect: the frontend speaks the language of the backend

    Every request of the API client goes to a registered endpoint, the one the
    call is meant for, with the session the endpoint needs and the fresh proof
    it demands; the session token of the browser follows what the backend
    says; nothing is signed by a device that did not verify its user. *)
From S2P Require Import Prelude Effects JsString JsMap JsValue Shared Errors World Auth AuthCorrect MockChain.
From S2P Require Import Users Jobs Evidence Validators Integrity Routes RoutesCorrect Paths DeviceWallet Client Concrete.
From S2P Require Http HttpCorrect.
From Stdlib Require Import Ascii.
Local Open Scope string_scope.
Local Open Scope list_scope.

Section Calls.
Context `{PF : Platform} {B : Type} `{BR : Browser B}.
Abbreviation MC := (M Thrown (ClientState.t B)).

(** ** The methods of [apiClient] *)

Inductive Call :=
| C_login (input : string + payload)
| C_requestProvisioningChallenge (input : payload)
| C_initializeAccount (input : payload)
| C_requestAuthenticationChallenge (deviceId : string)
| C_getPendingRegistrations
| C_getActiveEmployees
| C_verifyRegistration (id : string) (input : payload)
| C_assignRole (id : string) (input : payload)
| C_activateRegistration (id : string)
| C_registerDevice (userId : string) (input : payload)
| C_getDevices (userId : string)
| C_registerWallet (userId : string) (input : payload)
| C_getWallets (userId : string)
| C_revokeDevice (deviceId : string)
| C_createUser (input : payload)
| C_revokeWallet (userId reason : string)
| C_activateWallet (userId : string) (input : payload)
| C_logout
| C_getMe
| C_getCurrentUserGrant (resourceId : string)
| C_getUser (id : string)
| C_getAssets
| C_getAsset (id : string)
| C_createAsset (input : payload)
| C_transferAsset (id : string) (input : payload)
| C_changeAssetState (id : string) (input : payload)
| C_attachComponent (id : string) (input : payload)
| C_removeComponent (parentId componentId : string)
| C_getGrants (userId : string)
| C_createTransferGrant (userId : string) (input : payload)
| C_revokeGrant (userId grantId : string)
| C_getJobs
| C_getJob (id : string)
| C_createJob (input : payload)
| C_assignJob (id : string) (input : payload)
| C_startJob (id : string)
| C_completeJob (id : string) (input : payload)
| C_completeJobWithEvidence (id evidenceId : string)
| C_approveJob (id : string)
| C_rejectJob (id : string) (input : payload)
| C_getAssetAuditTrail (assetId : string)
| C_getBlockchainStatus
| C_getValidators
| C_getValidatorRegistrations
| C_getValidatorHistory
| C_addValidator (input : payload)
| C_removeValidator (id : string) (input : payload)
| C_restoreValidator (id : string) (input : payload)
| C_cancelScheduledRemoval (id : string) (input : payload)
| C_getCommittee (height : Z)
| C_restoreSession
| C_clearSession
| C_uploadEvidence (jobId filename bytes : string)
| C_getEvidence (jobId : string)
| C_downloadEvidence (jobId evidenceId : string).

(** The method of a call, its result dropped. *)
Definition run_call (c : Call) : MC unit :=
  match c with
  | C_login input => Client.login input;; mret tt
  | C_requestProvisioningChallenge input => Client.requestProvisioningChallenge input;; mret tt
  | C_initializeAccount input => Client.initializeAccount input;; mret tt
  | C_requestAuthenticationChallenge deviceId => Client.requestAuthenticationChallenge deviceId;; mret tt
  | C_getPendingRegistrations => Client.getPendingRegistrations;; mret tt
  | C_getActiveEmployees => Client.getActiveEmployees;; mret tt
  | C_verifyRegistration id input => Client.verifyRegistration id input;; mret tt
  | C_assignRole id input => Client.assignRole id input;; mret tt
  | C_activateRegistration id => Client.activateRegistration id;; mret tt
  | C_registerDevice userId input => Client.registerDevice userId input;; mret tt
  | C_getDevices userId => Client.getDevices userId;; mret tt
  | C_registerWallet userId input => Client.registerWallet userId input;; mret tt
  | C_getWallets userId => Client.getWallets userId;; mret tt
  | C_revokeDevice deviceId => Client.revokeDevice deviceId;; mret tt
  | C_createUser input => Client.createUser input;; mret tt
  | C_revokeWallet userId reason => Client.revokeWallet userId reason;; mret tt
  | C_activateWallet userId input => Client.activateWallet userId input;; mret tt
  | C_logout => Client.logout
  | C_getMe => Client.getMe;; mret tt
  | C_getCurrentUserGrant resourceId => Client.getCurrentUserGrant resourceId;; mret tt
  | C_getUser id => Client.getUser id;; mret tt
  | C_getAssets => Client.getAssets;; mret tt
  | C_getAsset id => Client.getAsset id;; mret tt
  | C_createAsset input => Client.createAsset input;; mret tt
  | C_transferAsset id input => Client.transferAsset id input;; mret tt
  | C_changeAssetState id input => Client.changeAssetState id input;; mret tt
  | C_attachComponent id input => Client.attachComponent id input;; mret tt
  | C_removeComponent parentId componentId => Client.removeComponent parentId componentId;; mret tt
  | C_getGrants userId => Client.getGrants userId;; mret tt
  | C_createTransferGrant userId input => Client.createTransferGrant userId input;; mret tt
  | C_revokeGrant userId grantId => Client.revokeGrant userId grantId;; mret tt
  | C_getJobs => Client.getJobs;; mret tt
  | C_getJob id => Client.getJob id;; mret tt
  | C_createJob input => Client.createJob input;; mret tt
  | C_assignJob id input => Client.assignJob id input;; mret tt
  | C_startJob id => Client.startJob id;; mret tt
  | C_completeJob id input => Client.completeJob id input;; mret tt
  | C_completeJobWithEvidence id evidenceId => Client.completeJobWithEvidence id evidenceId;; mret tt
  | C_approveJob id => Client.approveJob id;; mret tt
  | C_rejectJob id input => Client.rejectJob id input;; mret tt
  | C_getAssetAuditTrail assetId => Client.getAssetAuditTrail assetId;; mret tt
  | C_getBlockchainStatus => Client.getBlockchainStatus;; mret tt
  | C_getValidators => Client.getValidators;; mret tt
  | C_getValidatorRegistrations => Client.getValidatorRegistrations;; mret tt
  | C_getValidatorHistory => Client.getValidatorHistory;; mret tt
  | C_addValidator input => Client.addValidator input;; mret tt
  | C_removeValidator id input => Client.removeValidator id input;; mret tt
  | C_restoreValidator id input => Client.restoreValidator id input;; mret tt
  | C_cancelScheduledRemoval id input => Client.cancelScheduledRemoval id input;; mret tt
  | C_getCommittee height => Client.getCommittee height;; mret tt
  | C_restoreSession => Client.restoreSession;; mret tt
  | C_clearSession => Client.clearSession
  | C_uploadEvidence jobId filename bytes => Client.uploadEvidence jobId filename bytes;; mret tt
  | C_getEvidence jobId => Client.getEvidence jobId;; mret tt
  | C_downloadEvidence jobId evidenceId => Client.downloadEvidence jobId evidenceId;; mret tt
  end.

(** The endpoint a call is meant for. *)
Definition endpoint_of (c : Call) : Route :=
  match c with
  | C_login _ => POST_login
  | C_requestProvisioningChallenge _ => POST_provisioning_challenge
  | C_initializeAccount _ => POST_initialize_account
  | C_requestAuthenticationChallenge _ => POST_login_challenge
  | C_getPendingRegistrations => GET_pending_registrations
  | C_getActiveEmployees => GET_active_users
  | C_verifyRegistration id _ => POST_verify id
  | C_assignRole id _ => POST_role id
  | C_activateRegistration id => POST_activate id
  | C_registerDevice userId _ => POST_devices userId
  | C_getDevices userId => GET_devices userId
  | C_registerWallet userId _ => POST_wallets userId
  | C_getWallets userId => GET_wallets userId
  | C_revokeDevice deviceId => POST_revoke_device deviceId
  | C_createUser _ => POST_users
  | C_revokeWallet userId _ => POST_revoke_wallet userId
  | C_activateWallet userId _ => POST_activate_wallet userId
  | C_logout => POST_logout
  | C_getMe => GET_me
  | C_getCurrentUserGrant _ => GET_my_grants
  | C_getUser id => GET_user id
  | C_getAssets => GET_assets
  | C_getAsset id => GET_asset id
  | C_createAsset _ => POST_assets
  | C_transferAsset id _ => POST_transfer id
  | C_changeAssetState id _ => POST_state id
  | C_attachComponent id _ => POST_components id
  | C_removeComponent parentId componentId => DELETE_component parentId componentId
  | C_getGrants userId => GET_grants userId
  | C_createTransferGrant userId _ => POST_grants userId
  | C_revokeGrant userId grantId => POST_revoke_grant userId grantId
  | C_getJobs => GET_jobs
  | C_getJob id => GET_job id
  | C_createJob _ => POST_jobs
  | C_assignJob id _ => POST_assign id
  | C_startJob id => POST_start id
  | C_completeJob id _ => POST_complete id
  | C_completeJobWithEvidence id _ => POST_complete id
  | C_approveJob id => POST_approve id
  | C_rejectJob id _ => POST_reject id
  | C_getAssetAuditTrail assetId => GET_audit assetId
  | C_getBlockchainStatus => GET_status
  | C_getValidators => GET_validators
  | C_getValidatorRegistrations => GET_admin_validators
  | C_getValidatorHistory => GET_validator_history
  | C_addValidator _ => POST_validators
  | C_removeValidator id _ => POST_validator_remove id
  | C_restoreValidator id _ => POST_validator_restore id
  | C_cancelScheduledRemoval id _ => POST_validator_cancel id
  | C_getCommittee height => GET_committee (pretty height)
  | C_restoreSession => GET_me
  | C_clearSession => GET_me
  | C_uploadEvidence jobId _ _ => POST_evidence jobId
  | C_getEvidence jobId => GET_evidence_list jobId
  | C_downloadEvidence jobId evidenceId => GET_evidence jobId evidenceId
  end.
(** The endpoint that prepares its transaction. *)
Definition prepare_of (c : Call) : option Route :=
  match c with
  | C_createAsset _ => Some (POST_assets_prepare)
  | C_transferAsset id _ => Some (POST_transfer_prepare id)
  | C_changeAssetState id _ => Some (POST_state_prepare id)
  | C_attachComponent id _ => Some (POST_components_prepare id)
  | C_removeComponent parentId componentId => Some (POST_component_prepare parentId componentId)
  | C_createJob _ => Some (POST_jobs_prepare)
  | C_assignJob id _ => Some (POST_assign_prepare id)
  | C_startJob id => Some (POST_start_prepare id)
  | C_completeJob id _ => Some (POST_complete_prepare id)
  | C_completeJobWithEvidence id _ => Some (POST_complete_prepare id)
  | C_approveJob id => Some (POST_approve_prepare id)
  | C_rejectJob id _ => Some (POST_reject_prepare id)
  | _ => None
  end.
(** The input that decides on the resource of a fresh proof. *)
Definition input_of (c : Call) : payload :=
  match c with
  | C_assignRole _ input
  | C_activateWallet _ input
  | C_createAsset input
  | C_transferAsset _ input
  | C_changeAssetState _ input
  | C_attachComponent _ input
  | C_createTransferGrant _ input
  | C_createJob input
  | C_assignJob _ input
  | C_completeJob _ input
  | C_rejectJob _ input
  | C_addValidator input
  | C_removeValidator _ input
  | C_restoreValidator _ input
  | C_cancelScheduledRemoval _ input => input
  | _ => []
  end.
(** Its method and address. *)
Definition method_of (c : Call) : HttpMethod :=
  match c with
  | C_login _ | C_requestProvisioningChallenge _ | C_initializeAccount _ | C_requestAuthenticationChallenge _ | C_verifyRegistration _ _ |
    C_assignRole _ _ | C_activateRegistration _ | C_registerDevice _ _ | C_registerWallet _ _ | C_revokeDevice _ | C_createUser _ |
    C_revokeWallet _ _ | C_activateWallet _ _ | C_logout | C_createAsset _ | C_transferAsset _ _ | C_changeAssetState _ _ | C_attachComponent _ _
    | C_createTransferGrant _ _ | C_revokeGrant _ _ | C_createJob _ | C_assignJob _ _ | C_startJob _ | C_completeJob _ _ |
    C_completeJobWithEvidence _ _ | C_approveJob _ | C_rejectJob _ _ | C_addValidator _ | C_removeValidator _ _ | C_restoreValidator _ _ |
    C_cancelScheduledRemoval _ _ | C_uploadEvidence _ _ _ => POST
  | C_removeComponent _ _ => DELETE
  | _ => GET
  end.
Definition address_of (c : Call) : list Seg :=
  match c with
  | C_login _ => [Word "auth"; Word "login"]
  | C_requestProvisioningChallenge _ => [Word "auth"; Word "provisioning-challenge"]
  | C_initializeAccount _ => [Word "auth"; Word "initialize-account"]
  | C_requestAuthenticationChallenge _ => [Word "auth"; Word "login-challenge"]
  | C_getPendingRegistrations => [Word "admin"; Word "registrations"; Word "pending"]
  | C_getActiveEmployees => [Word "admin"; Word "users"; Word "active"]
  | C_verifyRegistration id _ => [Word "admin"; Word "users"; Enc id; Word "verify"]
  | C_assignRole id _ => [Word "admin"; Word "users"; Enc id; Word "role"]
  | C_activateRegistration id => [Word "admin"; Word "users"; Enc id; Word "activate"]
  | C_registerDevice userId _ => [Word "admin"; Word "users"; Enc userId; Word "devices"]
  | C_getDevices userId => [Word "admin"; Word "users"; Enc userId; Word "devices"]
  | C_registerWallet userId _ => [Word "admin"; Word "users"; Enc userId; Word "wallets"]
  | C_getWallets userId => [Word "admin"; Word "users"; Enc userId; Word "wallets"]
  | C_revokeDevice deviceId => [Word "admin"; Word "devices"; Enc deviceId; Word "revoke"]
  | C_createUser _ => [Word "admin"; Word "users"]
  | C_revokeWallet userId _ => [Word "admin"; Word "users"; Enc userId; Word "revoke-wallet"]
  | C_activateWallet userId _ => [Word "admin"; Word "users"; Enc userId; Word "activate-wallet"]
  | C_logout => [Word "auth"; Word "logout"]
  | C_getMe => [Word "users"; Word "me"]
  | C_getCurrentUserGrant _ => [Word "users"; Word "me"; Word "grants"]
  | C_getUser id => [Word "users"; Enc id]
  | C_getAssets => [Word "assets"]
  | C_getAsset id => [Word "assets"; Enc id]
  | C_createAsset _ => [Word "assets"]
  | C_transferAsset id _ => [Word "assets"; Enc id; Word "transfer"]
  | C_changeAssetState id _ => [Word "assets"; Enc id; Word "state"]
  | C_attachComponent id _ => [Word "assets"; Enc id; Word "components"]
  | C_removeComponent parentId componentId => [Word "assets"; Enc parentId; Word "components"; Enc componentId]
  | C_getGrants userId => [Word "admin"; Word "users"; Enc userId; Word "grants"]
  | C_createTransferGrant userId _ => [Word "admin"; Word "users"; Enc userId; Word "grants"]
  | C_revokeGrant userId grantId => [Word "admin"; Word "users"; Enc userId; Word "grants"; Enc grantId; Word "revoke"]
  | C_getJobs => [Word "jobs"]
  | C_getJob id => [Word "jobs"; Enc id]
  | C_createJob _ => [Word "jobs"]
  | C_assignJob id _ => [Word "jobs"; Enc id; Word "assign"]
  | C_startJob id => [Word "jobs"; Enc id; Word "start"]
  | C_completeJob id _ => [Word "jobs"; Enc id; Word "complete"]
  | C_completeJobWithEvidence id _ => [Word "jobs"; Enc id; Word "complete"]
  | C_approveJob id => [Word "jobs"; Enc id; Word "approve"]
  | C_rejectJob id _ => [Word "jobs"; Enc id; Word "reject"]
  | C_getAssetAuditTrail assetId => [Word "audit"; Word "assets"; Enc assetId]
  | C_getBlockchainStatus => [Word "blockchain"; Word "status"]
  | C_getValidators => [Word "blockchain"; Word "validators"]
  | C_getValidatorRegistrations => [Word "admin"; Word "validators"]
  | C_getValidatorHistory => [Word "admin"; Word "validators"; Word "history"]
  | C_addValidator _ => [Word "admin"; Word "validators"]
  | C_removeValidator id _ => [Word "admin"; Word "validators"; Enc id; Word "remove"]
  | C_restoreValidator id _ => [Word "admin"; Word "validators"; Enc id; Word "restore"]
  | C_cancelScheduledRemoval id _ => [Word "admin"; Word "validators"; Enc id; Word "remove"; Word "cancel"]
  | C_getCommittee height => [Word "blockchain"; Word "committee"; Enc (pretty height)]
  | C_restoreSession => [Word "users"; Word "me"]
  | C_clearSession => [Word "users"; Word "me"]
  | C_uploadEvidence jobId _ _ => [Word "jobs"; Enc jobId; Word "evidence"]
  | C_getEvidence jobId => [Word "jobs"; Enc jobId; Word "evidence"]
  | C_downloadEvidence jobId evidenceId => [Word "jobs"; Enc jobId; Word "evidence"; Enc evidenceId]
  end.

(** The identifiers of a call can be put into a path; [getUser] of the word
    [me] would be another endpoint. *)
Definition addressable (c : Call) : bool :=
  forallb seg_ok (address_of c) && match c with C_getUser id => negb (clash "me" id) | _ => true end.
(** No identifier of the call is a dot segment, [.] or [..], which a browser
    takes out of a path. *)
Definition undotted (c : Call) : bool := forallb (fun x => negb (dot_segment (seg_text x))) (address_of c).

(** A request of the backend whose body is an object. *)
Definition request_with (body : payload) : Http.Request.t := Http.Request.mk None None None [] [] (VObj body) None.
(** The fresh proof the endpoint of a call demands. *)
Definition demanded (c : Call) : option (string * value) := fresh_demand (endpoint_of c) (request_with (input_of c)).
End Calls.

(** ** The endpoints of the calls *)

Lemma pretty_unreserved_N (n : N) s : all_chars uri_unreserved s = true -> all_chars uri_unreserved (pretty_N_go n s) = true.
Proof.
  revert s. induction (N.lt_wf_0 n) as [n _ IH]; intros s Hs.
  destruct (decide (n = 0)%N) as [->|Hn]; [by rewrite pretty_N_go_0|].
  rewrite pretty_N_go_step by lia. apply IH; [apply N.div_lt; lia|]. simpl. rewrite Hs.
  unfold pretty_N_char. by repeat case_match.
Qed.
Lemma encode_unreserved s : all_chars uri_unreserved s = true -> encodeURIComponent s = s.
Proof.
  induction s as [|a s IH]; simpl; [done|]. intros [Ha Hs]%andb_true_iff. unfold encode_char. by rewrite Ha, IH.
Qed.
Lemma encode_pretty (z : Z) : encodeURIComponent (pretty z) = pretty z.
Proof.
  apply encode_unreserved. assert (Hn : forall n : N, all_chars uri_unreserved (pretty n) = true).
  { intros n. unfold pretty, pretty_N. destruct (decide (n = 0)%N); [done|]. by apply pretty_unreserved_N. }
  destruct z as [|p|p]; [done|apply Hn|]. change (pretty (Z.neg p)) with ("-" +:+ pretty (N.pos p)). by rewrite all_chars_app, Hn.
Qed.

Lemma address_prepare l w : l <> [] -> address l +:+ "/" +:+ w = address (l ++ [Word w]).
Proof.
  induction l as [|x [|y l] IH]; intros Hn; [done| |].
  - change (address ([x] ++ [Word w])) with ("/" +:+ seg_text x +:+ "/" +:+ w). change (address [x]) with ("/" +:+ seg_text x).
    by rewrite app_string_assoc.
  - change (address ((x :: y :: l) ++ [Word w])) with ("/" +:+ seg_text x +:+ address ((y :: l) ++ [Word w])).
    change (address (x :: y :: l)) with ("/" +:+ seg_text x +:+ address (y :: l)).
    by rewrite !app_string_assoc, IH.
Qed.

(** The path of a URL, without its query. *)
Definition url_path (s : string) : string := hd "" (split_char "?"%char s).
(** As the client writes it. *)
Definition written (s : string) : option string := Some (url_path s).
(** As the browser sends it: the URL parser takes out dot segments.  A path
    that climbs above the address of the API is none of its paths. *)
Definition pathname (s : string) : option string :=
  match split_char "/"%char (url_path s) with
  | "" :: l => (fun l => "/" +:+ join_strings "/" l) <$> without_dots [] l
  | _ => None
  end.
Lemma url_path_address l query : l <> [] -> forallb seg_ok l = true -> query = "" \/ (exists q, query = String "?" q) ->
  url_path (address l +:+ query) = address l.
Proof.
  intros _ Hl Hq. assert (Hc : all_chars (fun a => negb (Ascii.eqb a "?"%char)) (address l) = true).
  { induction l as [|x l IH]; [done|]. apply andb_true_iff in Hl as [Hx Hl]. specialize (IH Hl).
    destruct (seg_ok_text _ Hx) as [_ Hs]. apply (all_chars_weaken _ _ _ segment_no_query) in Hs.
    destruct l; [change (address [x]) with ("/" +:+ seg_text x); by rewrite all_chars_app, Hs|].
    change (address (x :: s :: l)) with ("/" +:+ seg_text x +:+ address (s :: l)). rewrite !all_chars_app, Hs. simpl. exact IH. }
  unfold url_path. rewrite split_char_app by done. by destruct Hq as [->|[q ->]]; simpl; rewrite app_string_nil.
Qed.

Lemma without_dots_keeps l : forallb (fun s => negb (dot_segment s)) l = true -> forall out, without_dots out l = Some (rev out ++ l).
Proof.
  induction l as [|s l IH]; cbn [forallb without_dots]; [intros _ out; by rewrite app_nil_r|].
  intros [Hs%negb_true_iff Hl]%andb_true_iff out. unfold dot_segment in Hs. apply orb_false_iff in Hs as [Hs1 Hs2].
  rewrite Hs1, Hs2, IH by done. simpl. by rewrite <- app_assoc.
Qed.
Lemma address_join x l : address (x :: l) = "/" +:+ join_strings "/" (map seg_text (x :: l)).
Proof.
  revert x. induction l as [|y l IH]; intros x; [done|].
  change (address (x :: y :: l)) with ("/" +:+ seg_text x +:+ address (y :: l)).
  change (join_strings "/" (map seg_text (x :: y :: l))) with (seg_text x +:+ "/" +:+ join_strings "/" (map seg_text (y :: l))).
  by rewrite IH.
Qed.
Lemma pathname_address l query : l <> [] -> forallb seg_ok l = true -> forallb (fun x => negb (dot_segment (seg_text x))) l = true ->
  query = "" \/ (exists q, query = String "?" q) -> pathname (address l +:+ query) = Some (address l).
Proof.
  intros Hn Hok Hd Hq. unfold pathname. rewrite url_path_address by done. destruct l as [|x l]; [done|].
  rewrite split_address by done. rewrite without_dots_keeps; [by rewrite address_join|].
  rewrite <- Hd. clear. generalize (x :: l) as l'. induction l' as [|y l' IH]; simpl; [done|]. by rewrite IH.
Qed.

Lemma written_address l query : l <> [] -> forallb seg_ok l = true -> forallb (fun _ => true) l = true ->
  query = "" \/ (exists q, query = String "?" q) -> written (address l +:+ query) = Some (address l).
Proof. intros Hn Hok _ Hq. unfold written. by rewrite url_path_address. Qed.

Lemma call_routed c : addressable c = true -> first_fit (method_of c) (address_of c) segmented = Some (endpoint_of c).
Proof.
  unfold addressable. intros [Hok Hme]%andb_true_iff. destruct c; try (lazy -[clash pretty]; reflexivity).
  apply negb_true_iff in Hme. lazy -[clash]. by rewrite Hme.
Qed.
Lemma prepare_routed c route : prepare_of c = Some route -> first_fit POST (address_of c ++ [Word "prepare"]) segmented = Some route.
Proof. destruct c; intros [= <-]; lazy -[clash pretty]; reflexivity. Qed.

(** ** What a call says to the network *)

Section Trace.
Context `{PF : Platform} {B : Type} `{BR : Browser B}.
Abbreviation MC := (M Thrown (ClientState.t B)).
(** The requests the browser has made, which a device bridge of the page does
    not add to. *)
Context (log : B -> list FetchRequest.t) (fetch_logged : forall r b, log (snd (fetch r b)) = log b ++ [r]).
Context (bridge_silent : forall b, belDeviceWallet = Some b ->
  keeps log (bridge_getIdentity b) /\ (forall v o, keeps log (bridge_sign b v o)) /\
  (forall f v o, bridge_signTransaction b = Some f -> keeps log (f v o))).

(** A request to the development wallet. *)
Definition to_wallet (r : FetchRequest.t) : Prop := exists base path, devWalletBase = Some base /\ FetchRequest.url r = base +:+ path.

(** The computation adds requests with the property to the log, and keeps the
    session if it returns (for [steady]). *)
Definition speaks {A} (steady : bool) (P : option string -> FetchRequest.t -> Prop) (m : MC A) : Prop :=
  forall s r s', m s = (r, s') ->
  (exists l, log (ClientState.browser s') = log (ClientState.browser s) ++ l /\ Forall (P (ClientState.session s)) l) /\
  match r with inr _ => steady = true -> ClientState.session s' = ClientState.session s | inl _ => True end.
Definition says {A} (m : M Thrown B A) : Prop :=
  forall b r b', m b = (r, b') -> exists l, log b' = log b ++ l /\ Forall to_wallet l.

Lemma speaks_ret {A} st P (a : A) : speaks st P (mret a).
Proof. intros s r s' [= <- <-]. split; [exists []; by rewrite app_nil_r|done]. Qed.
Lemma speaks_bind {A A'} st P (m : MC A) (k : A -> MC A') : speaks true P m -> (forall a, speaks st P (k a)) -> speaks st P (m ≫= k).
Proof.
  intros Hm Hk s r s' [(e & -> & E)|(a & s1 & E & E')]%bind_inv.
  - by destruct (Hm _ _ _ E) as [Hl _].
  - destruct (Hm _ _ _ E) as [(l & El & Hl) Hs]. destruct (Hk a _ _ _ E') as [(l' & El' & Hl') Hs']. rewrite (Hs eq_refl) in Hl', Hs'.
    split; [|destruct r; [done|exact Hs']]. exists (l ++ l'). rewrite El', El, app_assoc. split; [done|by apply Forall_app].
Qed.
Lemma speaks_weaken {A} st P (m : MC A) : speaks true P m -> speaks st P m.
Proof. intros Hm s r s' E. destruct (Hm _ _ _ E) as [Hl Hs]. split; [done|]. destruct r; [done|]. intros _. by apply Hs. Qed.
(** Something that only touches the session, at the end. *)
Lemma speaks_quiet {A} P (m : MC A) : keeps ClientState.browser m -> speaks false P m.
Proof.
  intros Hk s r s' E. assert (Eb := keeps_run _ _ _ _ _ Hk E). rewrite Eb.
  split; [exists []; by rewrite app_nil_r|]. by destruct r.
Qed.
Lemma speaks_drop {A A'} P (m : MC A) (k : A -> MC A') : speaks false P m -> (forall a, keeps ClientState.browser (k a)) -> speaks false P (m ≫= k).
Proof.
  intros Hm Hk s r s' [(e & -> & E)|(a & s1 & E & E')]%bind_inv.
  - by destruct (Hm _ _ _ E) as [Hl _].
  - destruct (Hm _ _ _ E) as [Hl _]. assert (Eb := keeps_run _ _ _ _ _ (Hk a) E'). rewrite Eb. split; [done|by destruct r].
Qed.
Lemma speaks_rescue {A} P (m : MC A) h : speaks false P m -> (forall e, keeps ClientState.browser (h e)) -> speaks false P (rescue m h : MC A).
Proof.
  intros Hm Hh s r s' E. unfold rescue in E. destruct (m s) as [[e|a] s1] eqn:Em; destruct (Hm _ _ _ Em) as [Hl _].
  - assert (Eb := keeps_run _ _ _ _ _ (Hh e) E). rewrite Eb. split; [done|by destruct r].
  - injection E as <- <-. by split.
Qed.
Lemma speaks_browser {A} P (m : M Thrown B A) : says m -> (forall tok r, to_wallet r -> P tok r) -> speaks true P (in_browser m).
Proof.
  intros Hm Hp s r s' E. unfold in_browser, zoom in E. destruct (m (ClientState.browser s)) as [r0 b] eqn:Em. injection E as <- <-.
  destruct (Hm _ _ _ Em) as (l & El & Hl). split; [|by destruct r0]. exists l. split; [done|]. eapply List.Forall_impl; [apply Hp|exact Hl].
Qed.
Lemma speaks_prop st P k v : speaks st P (prop k v : MC value).
Proof. intros s r s' E. unfold prop, throw in E. destruct v; injection E as <- <-; (split; [exists []; by rewrite app_nil_r|done]). Qed.

Lemma speaks_keeps_session P : speaks true P (token : MC (option string)).
Proof. intros s r s' [= <- <-]. split; [exists []; by rewrite app_nil_r|done]. Qed.

(** The request that [request] makes. *)
Definition sent (path : string) (init : RequestInit.t) (authenticated : bool) (tok : option string) : FetchRequest.t :=
  let headers := put "Accept" "application/json" (RequestInit.headers init) in
  let headers := match RequestInit.body init with Some (Text _) => put "Content-Type" "application/json" headers | _ => headers end in
  FetchRequest.mk (RequestInit.method init) (endpoint path)
    (if authenticated && truthy_string tok then put "Authorization" ("Bearer " +:+ default "" tok) headers else headers) (RequestInit.body init).
Lemma speaks_request P path init auth rt :
  (forall tok, P tok (sent path init auth tok)) -> speaks true P (request path init auth rt : MC ResponseData).
Proof.
  intros Hp s r s' E. unfold request, token, gets in E. rewrite bind_run with (a := ClientState.session s) (w1 := s) in E by done.
  change (FetchRequest.mk _ _ _ _) with (sent path init auth (ClientState.session s)) in E.
  set (q := sent path init auth (ClientState.session s)) in *. specialize (Hp (ClientState.session s)). fold q in Hp.
  assert (Hlog := fetch_logged q (ClientState.browser s)).
  destruct (fetch q (ClientState.browser s)) as [[e|response] b] eqn:Ef; simpl in Hlog.
  - rewrite bind_throw with (e := HttpApiError 0 (VStr "NETWORK_ERROR") (VStr "The BEL backend could not be reached."))
      (w1 := ClientState.with_browser b s) in E by (unfold rescue, in_browser, zoom; by rewrite Ef).
    injection E as <- <-. split; [|done]. exists [q]. split; [done|by constructor].
  - rewrite bind_run with (a := response) (w1 := ClientState.with_browser b s) in E by (unfold rescue, in_browser, zoom; by rewrite Ef).
    cbv zeta in E. destruct (FetchResponse.ok response).
    + injection E as <- <-. split; [|done]. exists [q]. split; [done|by constructor].
    + assert (Hb : ClientState.browser s' = b /\ exists e, r = inl e).
      { destruct (_ && auth); unfold mbind, M_bind, throw in E; simpl in E; injection E as <- <-; simpl; eauto. }
      destruct Hb as [Hb [e ->]]. rewrite Hb. split; [|done]. exists [q]. split; [done|by constructor].
Qed.

(** ** What the device says *)

Lemma says_keeps {A} (m : M Thrown B A) : keeps log m -> says m.
Proof. intros Hm b r b' E. exists []. rewrite app_nil_r. split; [by eapply keeps_run|done]. Qed.
Lemma says_bind {A A'} (m : M Thrown B A) (k : A -> M Thrown B A') : says m -> (forall a, says (k a)) -> says (m ≫= k).
Proof.
  intros Hm Hk b r b' [(e & -> & E)|(a & b1 & E & E')]%bind_inv; [by eapply Hm|].
  destruct (Hm _ _ _ E) as (l & El & Hl), (Hk a _ _ _ E') as (l' & El' & Hl'). exists (l ++ l').
  rewrite El', El, app_assoc. split; [done|by apply Forall_app].
Qed.
Lemma says_fetch base path h body m : devWalletBase = Some base -> says (fetch (FetchRequest.mk m (base +:+ path) h body)).
Proof.
  intros Hb b r b' E. assert (Hl := fetch_logged (FetchRequest.mk m (base +:+ path) h body) b). rewrite E in Hl.
  exists [FetchRequest.mk m (base +:+ path) h body]. split; [exact Hl|]. constructor; [by exists base, path|done].
Qed.
Lemma says_dev_identity base : devWalletBase = Some base -> says (dev_getIdentity base).
Proof. intros Hb. apply says_bind; [by apply says_fetch|]. intros. apply says_keeps. frame. Qed.
Lemma says_dev_post base path name v o : devWalletBase = Some base -> says (dev_post base path name v o).
Proof.
  intros Hb. apply says_bind; [by apply says_dev_identity|]. intros i. apply says_bind; [apply says_keeps; unfold prop; frame|].
  intros d. apply says_bind; [by apply says_fetch|]. intros r. apply says_keeps. unfold prop. frame.
Qed.
Lemma says_bridge :
  says (bridge_getIdentity bridge) /\ (forall v o, says (bridge_sign bridge v o)) /\
  (forall f v o, bridge_signTransaction bridge = Some f -> says (f v o)).
Proof.
  unfold bridge. destruct belDeviceWallet as [b|] eqn:Eb.
  - destruct (bridge_silent b eq_refl) as (H1 & H2 & H3). split_and!; intros; apply says_keeps; eauto.
  - destruct (truthy_string devWalletBase) eqn:Et.
    + destruct devWalletBase as [base|] eqn:Ew; [|done]. simpl. split_and!; [by apply says_dev_identity|by intros; apply says_dev_post|].
      intros f v o [= <-]. by apply says_dev_post.
    + assert (Hu : forall A, says (unavailable : M Thrown B A)) by (intros; apply says_keeps, keeps_throw).
      simpl. split_and!; [apply Hu|intros; apply Hu|]. intros f v o [= <-]. apply Hu.
Qed.
Lemma says_rescue {A} (m : M Thrown B A) h : says m -> (forall e, keeps log (h e)) -> says (rescue m h : M Thrown B A).
Proof.
  intros Hm Hh b r b' E. unfold rescue in E. destruct (m b) as [[e|a] b1] eqn:Em; destruct (Hm _ _ _ Em) as (l & El & Hl).
  - exists l. split; [|done]. rewrite <- El. by eapply keeps_run.
  - injection E as <- <-. by exists l.
Qed.
Lemma says_sign v o : says (sign v o).
Proof.
  destruct says_bridge as (_ & H2 & _). apply says_bind; [apply says_keeps; frame|]. intros. apply says_bind.
  - apply says_rescue; [apply H2|]. intros; apply keeps_throw.
  - intros result. apply says_keeps. frame.
Qed.
Lemma says_signDeviceTransaction v : says (signDeviceTransaction v).
Proof.
  destruct says_bridge as (_ & _ & H3). unfold signDeviceTransaction. destruct (bridge_signTransaction bridge) as [f|] eqn:Ef.
  - apply says_bind; [by apply H3|]. intros result. apply says_keeps. frame.
  - apply says_keeps. frame.
Qed.

(** ** Requests that fit a call *)

Context `{!Express} `{!ExpressLaws}.

Section Seen.
(** The path the backend sees of what the client writes. *)
Context (seen : string -> option string).

(** To a registered endpoint of the backend, with the bearer token if the
    endpoint needs a session and there is one. *)
Definition to_endpoint (route : Route) (tok : option string) (r : FetchRequest.t) : Prop :=
  exists path p, FetchRequest.url r = API_BASE_URL +:+ path /\ seen path = Some p /\ dispatch (FetchRequest.method r) p = Some route /\
    (audience route <> None -> truthy_string tok = true ->
     JsMap.get "Authorization" (FetchRequest.headers r) = Some ("Bearer " +:+ default "" tok)).
(** What a call may ask on the way: the development wallet, the endpoint that
    prepares its transaction, and the one that issues the challenge of exactly
    the proof its endpoint demands. *)
Definition aside (c : Call) (tok : option string) (r : FetchRequest.t) : Prop :=
  to_wallet r \/ (exists route, prepare_of c = Some route /\ to_endpoint route tok r) \/
  (to_endpoint POST_fresh_challenge tok r /\ exists op res, demanded c = Some (op, res) /\
     FetchRequest.body r = Some (Text (JSON_stringify (fresh_body op res)))).
(** A request of a call: on the way, or to its endpoint, with a fresh proof if
    it demands one. *)
Definition fits (c : Call) (tok : option string) (r : FetchRequest.t) : Prop :=
  aside c tok r \/
  (to_endpoint (endpoint_of c) tok r /\ (demanded c <> None -> is_Some (JsMap.get "X-BEL-Fresh-Auth" (FetchRequest.headers r)))).

Lemma speaks_mono {A} st (P Q : option string -> FetchRequest.t -> Prop) (m : MC A) :
  (forall tok r, P tok r -> Q tok r) -> speaks st P m -> speaks st Q m.
Proof.
  intros HPQ Hm s r s' E. destruct (Hm _ _ _ E) as [(l & El & Hl) Hs]. split; [|done]. exists l. split; [done|].
  eapply List.Forall_impl; [apply HPQ|exact Hl].
Qed.
Lemma speaks_bind_post {A A'} st P (Q : A -> Prop) (m : MC A) (k : A -> MC A') :
  speaks true P m -> (forall s a s', m s = (inr a, s') -> Q a) -> (forall a, Q a -> speaks st P (k a)) -> speaks st P (m ≫= k).
Proof.
  intros Hm HQ Hk s r s' [(e & -> & E)|(a & s1 & E & E')]%bind_inv.
  - by destruct (Hm _ _ _ E) as [Hl _].
  - apply (speaks_bind st P (fun s => m s) (fun _ => k a)) with (s := s); [done|intros; eapply Hk, HQ, E|].
    unfold mbind, M_bind. by rewrite E.
Qed.

Lemma sent_authorization path init tok : truthy_string tok = true ->
  JsMap.get "Authorization" (FetchRequest.headers (sent path init true tok)) = Some ("Bearer " +:+ default "" tok).
Proof. intros Ht. unfold sent. simpl. rewrite Ht. apply get_put_eq. Qed.
Lemma sent_fresh path init auth tok :
  JsMap.get "X-BEL-Fresh-Auth" (FetchRequest.headers (sent path init auth tok)) = JsMap.get "X-BEL-Fresh-Auth" (RequestInit.headers init).
Proof. unfold sent. simpl. destruct (auth && _), (RequestInit.body init) as [[?|? ?]|]; by rewrite ?get_put_ne. Qed.
Lemma endpoint_address l query : l <> [] -> endpoint (address l +:+ query) = API_BASE_URL +:+ (address l +:+ query).
Proof.
  intros Hl. unfold endpoint. assert (Ht : exists t, address l = "/" +:+ t) by (destruct l as [|x [|y l]]; [done|by eexists|by eexists]).
  destruct Ht as [t ->]. by rewrite app_string_assoc, startsWith_self.
Qed.
Lemma address_of_nonempty c : address_of c <> [].
Proof. by destruct c. Qed.
Lemma addressable_ok c : addressable c = true -> forallb seg_ok (address_of c) = true.
Proof. unfold addressable. by intros [? _]%andb_true_iff. Qed.

Section Fits.
(** The backend sees the addresses of readable segments as they are. *)
Context (readable : Seg -> bool) (Hseen : forall l query, l <> [] -> forallb seg_ok l = true -> forallb readable l = true ->
  query = "" \/ (exists q, query = String "?" q) -> seen (address l +:+ query) = Some (address l)).
Context (Hwords : forallb (fun w => readable (Word w)) ["prepare"; "auth"; "fresh-challenge"] = true).
Context (c : Call) (Hc : addressable c = true) (Hread : forallb readable (address_of c) = true).
Lemma word_readable w : w ∈ ["prepare"; "auth"; "fresh-challenge"] -> readable (Word w) = true.
Proof. intros Hw%list_elem_of_In. exact (proj1 (forallb_forall _ _) Hwords w Hw). Qed.
Lemma call_ok : forallb seg_ok (address_of c) = true.
Proof. by apply addressable_ok. Qed.

Lemma dispatch_call : dispatch (method_of c) (address (address_of c)) = Some (endpoint_of c).
Proof.
  apply dispatch_address; [apply address_of_nonempty|apply call_ok|by apply call_routed].
Qed.
(** The request to the endpoint itself. *)
Lemma speaks_main path query init auth rt :
  path = address (address_of c) +:+ query -> query = "" \/ (exists q, query = String "?" q) -> RequestInit.method init = method_of c ->
  (audience (endpoint_of c) <> None -> auth = true) ->
  (demanded c <> None -> is_Some (JsMap.get "X-BEL-Fresh-Auth" (RequestInit.headers init))) ->
  speaks true (fits c) (request path init auth rt).
Proof.
  intros -> Hq Hm Ha Hf. apply speaks_request. intros tok. right.
  split; [|by rewrite sent_fresh]. eexists _, _. split; [apply endpoint_address, address_of_nonempty|].
  split; [by apply Hseen; [apply address_of_nonempty|apply call_ok|..]|].
  split; [change (FetchRequest.method _) with (RequestInit.method init); rewrite Hm; apply dispatch_call|].
  intros Hau Ht. rewrite Ha by done. by apply sent_authorization.
Qed.
(** The request that prepares the transaction. *)
Lemma speaks_prepare path route init rt :
  path = address (address_of c) +:+ "/prepare" -> prepare_of c = Some route -> RequestInit.method init = POST ->
  speaks true (aside c) (request path init true rt).
Proof.
  intros -> Hp Hm. assert (Hl : address_of c ++ [Word "prepare"] <> []) by by destruct (address_of c).
  assert (Hl' : forallb seg_ok (address_of c ++ [Word "prepare"]) = true) by by rewrite forallb_app, call_ok.
  change "/prepare" with ("/" +:+ "prepare"). rewrite (address_prepare _ _ (address_of_nonempty c)).
  rewrite <- (app_string_nil (address (address_of c ++ _))). apply speaks_request. intros tok. right; left. exists route.
  split; [done|]. eexists _, _. split; [by apply endpoint_address|]. split; [apply Hseen; [done|done| |by left]|split].
  - rewrite forallb_app, Hread. simpl. rewrite word_readable by (apply list_elem_of_In; simpl; auto). done.
  - change (FetchRequest.method _) with (RequestInit.method init). rewrite Hm.
    apply dispatch_address; [done|done|by apply prepare_routed].
  - intros _ Ht. by apply sent_authorization.
Qed.
(** The fresh proof the endpoint demands. *)
Lemma speaks_freshHeaders op res : demanded c = Some (op, res) -> speaks true (aside c) (freshHeaders op res).
Proof.
  intros Hd. assert (Hw : forall tok r, to_wallet r -> aside c tok r) by by left.
  apply speaks_bind; [apply speaks_browser; [apply says_bridge|done]|]. intros identity. apply speaks_bind.
  - apply speaks_request. intros tok. right; right. split; [|by exists op, res].
    exists "/auth/fresh-challenge", "/auth/fresh-challenge". split_and!; [done| | |].
    + change "/auth/fresh-challenge" with (address [Word "auth"; Word "fresh-challenge"] +:+ "").
      rewrite Hseen; [by rewrite app_string_nil|done|done| |by left]. simpl. rewrite !word_readable by (apply list_elem_of_In; simpl; auto). done.
    + change "/auth/fresh-challenge" with (address [Word "auth"; Word "fresh-challenge"]). apply dispatch_address; [done|done|reflexivity].
    + intros _ Ht. by apply sent_authorization.
  - intros challenge. apply speaks_bind; [apply speaks_prop|]. intros text. apply speaks_bind; [apply speaks_browser; [apply says_sign|done]|].
    intros proof. apply speaks_bind; [apply speaks_prop|]. intros id. apply speaks_bind; [apply speaks_prop|]. intros. apply speaks_ret.
Qed.
Lemma freshHeaders_header op res s h s' : freshHeaders op res s = (inr h, s') -> is_Some (JsMap.get "X-BEL-Fresh-Auth" h).
Proof.
  unfold freshHeaders. intros (a1 & s1 & _ & (a2 & s2 & _ & (a3 & s3 & _ & (a4 & s4 & _ & (a5 & s5 & _ &
    (a6 & s6 & _ & [= <- _])%bind_inr)%bind_inr)%bind_inr)%bind_inr)%bind_inr)%bind_inr. by eexists.
Qed.
Lemma speaks_freshJson path body op res : path = address (address_of c) -> method_of c = POST -> demanded c = Some (op, res) ->
  speaks true (fits c) (freshJson path body op res).
Proof.
  intros Hp Hm Hd. eapply speaks_bind_post; [|apply freshHeaders_header|].
  { apply (speaks_mono _ (aside c)); [by left|by apply speaks_freshHeaders]. }
  intros h Hh.
  eapply speaks_main with (query := ""); [by rewrite app_string_nil|by left|done|done|done].
Qed.
Lemma speaks_deviceSignedWrite path input : path = address (address_of c) -> method_of c = POST -> demanded c = None -> is_Some (prepare_of c) ->
  speaks true (fits c) (deviceSignedWrite path input).
Proof.
  intros Hp Hm Hd [route Hr]. assert (Hw : forall tok r, to_wallet r -> fits c tok r) by by left; left.
  apply speaks_bind; [apply (speaks_mono _ (aside c)); [by left|]; eapply speaks_prepare; [by rewrite Hp|exact Hr|done]|]. intros prepared.
  apply speaks_bind; [apply speaks_prop|]. intros transaction. apply speaks_bind; [apply speaks_browser; [apply says_signDeviceTransaction|done]|].
  intros proof. eapply speaks_main with (query := ""); [by rewrite app_string_nil|by left|done|done|by rewrite Hd].
Qed.
Lemma speaks_deviceSignedMutationWrite path input fresh m :
  path = address (address_of c) -> method_of c = m -> demanded c = (fun '(op, id) => (op, VStr id)) <$> fresh -> is_Some (prepare_of c) ->
  speaks true (fits c) (deviceSignedMutationWrite path input fresh m).
Proof.
  intros Hp Hm Hd [route Hr]. assert (Hw : forall tok r, to_wallet r -> fits c tok r) by by left; left.
  apply speaks_bind_post with (Q := fun h => demanded c <> None -> is_Some (JsMap.get "X-BEL-Fresh-Auth" h)).
  - destruct fresh as [[op id]|]; [apply (speaks_mono _ (aside c)); [by left|by apply speaks_freshHeaders]|apply speaks_ret].
  - intros s a s' E. destruct fresh as [[op id]|]; [intros _; by eapply freshHeaders_header|by rewrite Hd].
  - intros headers Hh.
    apply speaks_bind; [apply (speaks_mono _ (aside c)); [by left|]; eapply speaks_prepare; [by rewrite Hp|exact Hr|done]|]. intros prepared.
    apply speaks_bind; [apply speaks_prop|]. intros transaction. apply speaks_bind; [apply speaks_browser; [apply says_signDeviceTransaction|done]|].
    intros proof. eapply speaks_main with (query := ""); [by rewrite app_string_nil|by left|done|done|done].
Qed.
End Fits.
End Seen.

(** ** Every call *)

Ltac keeps_rest := intros; apply keeps_ret || (unfold saveToken; frame).
Ltac same_path := intros; rewrite ?app_string_nil; reflexivity.
Ltac absurd_or_true := intros Hn; first [reflexivity | by destruct Hn].
(** One request; a fresh proof and one request; a device-signed write. *)
Ltac plain_call c := eapply (speaks_main _ _ pathname_address c) with (query := ""); [assumption|assumption|same_path|by left|reflexivity|absurd_or_true|absurd_or_true].
Ltac fresh_call c := eapply (speaks_freshJson _ _ pathname_address eq_refl c); [assumption|assumption|reflexivity|reflexivity|reflexivity].
Ltac mutation_call c :=
  first [ eapply (speaks_deviceSignedMutationWrite _ _ pathname_address eq_refl c); [assumption|assumption|same_path|reflexivity|reflexivity|by eexists]
        | eapply (speaks_deviceSignedWrite _ _ pathname_address eq_refl c); [assumption|assumption|same_path|reflexivity|reflexivity|by eexists] ].

Lemma speaks_null_on {A} P code (m : MC A) : speaks true P m -> speaks false P (null_on code m).
Proof.
  intros Hm. apply speaks_rescue.
  - apply speaks_weaken, speaks_bind; [done|]. intros; apply speaks_ret.
  - intros e. destruct e; frame.
Qed.
Lemma speaks_login input : speaks false (fits pathname (C_login input)) (run_call (C_login input)).
Proof.
  apply speaks_drop; [|keeps_rest]. assert (Hc : addressable (C_login input) = true) by done. assert (Hu : undotted (C_login input) = true) by done.
  apply speaks_bind; [plain_call (C_login input)|]. intros session. apply speaks_bind; [apply speaks_prop|]. intros new.
  apply speaks_drop; [apply speaks_quiet; unfold saveToken; frame|keeps_rest].
Qed.
Lemma speaks_logout : speaks false (fits pathname C_logout) (run_call C_logout).
Proof.
  assert (Hc : addressable C_logout = true) by done. assert (Hu : undotted C_logout = true) by done.
  apply speaks_drop; [|intros; unfold saveToken; frame]. apply speaks_rescue; [|intros; unfold saveToken; frame].
  apply speaks_weaken, speaks_bind; [apply speaks_keeps_session|]. intros current. destruct (truthy_string current); [|apply speaks_ret].
  apply speaks_bind; [plain_call C_logout|]. intros; apply speaks_ret.
Qed.

(** C20: Every request that a method of [apiClient] makes, in any browser whose
    injected device bridge, if there is one, makes no requests of its own, goes
    to the endpoint the call is meant for, to the one that prepares its
    transaction, or to the one that issues the challenge for exactly the
    operation and resource its endpoint demands a fresh proof of; it carries
    the bearer token wherever a session is needed and there is one, and the
    proof wherever one is demanded.  Requests besides those go to the
    development wallet.  The identifiers the call puts into its path must make
    segments of their own: none is empty, [.] or [..], which the browser takes
    out of a path, and [getUser] is not asked for [me], which is another
    endpoint. *)
Theorem client_calls_fit c : addressable c = true -> undotted c = true -> speaks false (fits pathname c) (run_call c).
Proof.
  intros Hc Hu. destruct c; try apply speaks_login; try apply speaks_logout;
    try (apply speaks_quiet; unfold run_call, clearSession, saveToken; frame; fail).
  all: apply speaks_drop; [|keeps_rest].
  all: try (apply speaks_weaken; match goal with |- speaks true (fits _ ?c) _ => first [plain_call c | fresh_call c | mutation_call c] end; fail).
  - apply speaks_weaken. eapply (speaks_main _ _ pathname_address (C_getCurrentUserGrant resourceId))
      with (query := "?resourceType=ASSET&resourceId=" +:+ encodeURIComponent resourceId +:+ "&action=TRANSFER_ASSET");
      [assumption|assumption|reflexivity|right; by eexists|reflexivity|absurd_or_true|absurd_or_true].
  - apply speaks_null_on. plain_call (C_getUser id).
  - apply speaks_null_on. plain_call (C_getAsset id).
  - apply speaks_null_on. plain_call (C_getJob id).
  - apply speaks_weaken. unfold getCommittee. rewrite <- (encode_pretty height). plain_call (C_getCommittee height).
  - apply speaks_bind; [apply speaks_keeps_session|]. intros current. destruct (truthy_string current); [|apply speaks_ret].
    apply speaks_null_on, speaks_bind; [plain_call C_restoreSession|]. intros; apply speaks_ret.
Qed.

(** ** Without a verified user *)

(** Whatever the device answers, it has not verified its user. *)
Definition never_verifies : Prop :=
  (forall v o b r b', bridge_sign bridge v o b = (inr r, b') -> verified r = false) /\
  (forall f v o b r b', bridge_signTransaction bridge = Some f -> f v o b = (inr r, b') -> verified r = false).
(** A computation that adds only requests with the property and throws. *)
Definition refused {A} (P : option string -> FetchRequest.t -> Prop) (m : MC A) : Prop :=
  forall s r s', m s = (r, s') ->
  (exists l, log (ClientState.browser s') = log (ClientState.browser s) ++ l /\ Forall (P (ClientState.session s)) l) /\ exists e, r = inl e.

Lemma refused_stops {A} P (m : MC A) : speaks true P m -> (forall s a s', m s <> (inr a, s')) -> refused P m.
Proof.
  intros Hm Hn s r s' E. destruct (Hm _ _ _ E) as [Hl _]. split; [done|]. destruct r as [e|a]; [by exists e|by destruct (Hn s a s')].
Qed.
Lemma refused_bind {A A'} P (m : MC A) (k : A -> MC A') : refused P m -> refused P (m ≫= k).
Proof.
  intros Hm s r s' [(e & -> & E)|(a & s1 & E & _)]%bind_inv; [destruct (Hm _ _ _ E) as [Hl _]; eauto|].
  by destruct (Hm _ _ _ E) as [_ [e [=]]].
Qed.
Lemma refused_after {A A'} P (m : MC A) (k : A -> MC A') : speaks true P m -> (forall a, refused P (k a)) -> refused P (m ≫= k).
Proof.
  intros Hm Hk s r s' [(e & -> & E)|(a & s1 & E & E')]%bind_inv; [destruct (Hm _ _ _ E) as [Hl _]; eauto|].
  destruct (Hm _ _ _ E) as [(l & El & Hl) Hs], (Hk a _ _ _ E') as [(l' & El' & Hl') He]. rewrite (Hs eq_refl) in Hl'.
  split; [|done]. exists (l ++ l'). rewrite El', El, app_assoc. split; [done|by apply Forall_app].
Qed.

Lemma sign_never v o b r b' : never_verifies -> sign v o b <> (inr r, b').
Proof.
  intros [Hn _] E. unfold sign in E. apply bind_inr in E as (? & b1 & _ & E). apply bind_inr in E as (result & b2 & Er & E).
  apply rescue_inr in Er as [Er|(e & b3 & _ & Er)]; [|done]. apply Hn in Er.
  destruct (opt_prop "signature" result); try done. rewrite Er, orb_true_r in E. done.
Qed.
Lemma signDeviceTransaction_never v b r b' : never_verifies -> signDeviceTransaction v b <> (inr r, b').
Proof.
  intros [_ Hn] E. unfold signDeviceTransaction in E. destruct (bridge_signTransaction bridge) as [f|]; [|done].
  apply bind_inr in E as (result & b1 & Er & E). eapply Hn in Er; [|done].
  destruct (opt_prop "signature" result); try done. by rewrite Er in E.
Qed.
Lemma in_browser_never {A} (m : M Thrown B A) : (forall b a b', m b <> (inr a, b')) -> forall s a s', in_browser m s <> (inr a, s').
Proof.
  intros Hm s a s' E. unfold in_browser, zoom in E. destruct (m (ClientState.browser s)) as [r b] eqn:Em. injection E as -> _. by eapply Hm.
Qed.

Section Refused.
Context (c : Call) (Hc : addressable c = true) (Hn : never_verifies).
Lemma Hany : forallb (fun _ => true) (address_of c) = true.
Proof. by apply forallb_forall. Qed.
Lemma refused_freshHeaders op res : demanded c = Some (op, res) -> refused (aside written c) (freshHeaders op res).
Proof.
  intros Hd. apply refused_stops; [eapply speaks_freshHeaders; [apply written_address|done..]|]. intros s h s' E. unfold freshHeaders in E.
  apply bind_inr in E as (? & s1 & _ & E). apply bind_inr in E as (? & s2 & _ & E). apply bind_inr in E as (? & s3 & _ & E).
  apply bind_inr in E as (proof & s4 & E & _). eapply in_browser_never; [|exact E]. intros. by apply sign_never.
Qed.
Lemma refused_write {A} transaction (k : string -> MC A) : refused (aside written c) (proof ← in_browser (signDeviceTransaction transaction); k proof).
Proof.
  apply refused_bind, refused_stops; [apply speaks_browser; [apply says_signDeviceTransaction|by left]|].
  apply in_browser_never. intros. by apply signDeviceTransaction_never.
Qed.
Lemma refused_freshJson path body op res : demanded c = Some (op, res) -> refused (aside written c) (freshJson path body op res).
Proof. intros Hd. apply refused_bind. by apply refused_freshHeaders. Qed.
Lemma refused_deviceSignedWrite path input : path = address (address_of c) -> is_Some (prepare_of c) ->
  refused (aside written c) (deviceSignedWrite path input).
Proof.
  intros Hp [route Hr]. apply refused_after; [eapply speaks_prepare; [apply written_address|done|exact Hc|exact Hany|by rewrite Hp|exact Hr|done]|]. intros prepared.
  apply refused_after; [apply speaks_prop|]. intros transaction. apply refused_write.
Qed.
Lemma refused_deviceSignedMutationWrite path input fresh m :
  path = address (address_of c) -> demanded c = (fun '(op, id) => (op, VStr id)) <$> fresh -> is_Some (prepare_of c) ->
  refused (aside written c) (deviceSignedMutationWrite path input fresh m).
Proof.
  intros Hp Hd [route Hr]. destruct fresh as [[op id]|]; [apply refused_bind; by apply refused_freshHeaders|].
  apply refused_after; [apply speaks_ret|]. intros headers.
  apply refused_after; [eapply speaks_prepare; [apply written_address|done|exact Hc|exact Hany|by rewrite Hp|exact Hr|done]|]. intros prepared.
  apply refused_after; [apply speaks_prop|]. intros transaction. apply refused_write.
Qed.
End Refused.

(** C21: If the device never shows that it verified its user, no call that
    needs a fresh proof or a signed transaction reaches its endpoint: it
    fails, having asked for nothing but challenges and preparations. *)
Theorem unverified_never_writes c :
  addressable c = true -> never_verifies -> demanded c <> None \/ prepare_of c <> None ->
  refused (aside written c) (run_call c).
Proof.
  intros Hc Hn Hneeds. destruct c; try (by destruct Hneeds as [Hd|Hd]; destruct Hd); apply refused_bind;
    match goal with |- refused (aside _ ?c) _ =>
      first [ eapply (refused_freshJson c); [assumption|reflexivity]
            | eapply (refused_deviceSignedMutationWrite c); [assumption|assumption|same_path|reflexivity|by eexists]
            | eapply (refused_deviceSignedWrite c); [assumption|assumption|same_path|by eexists] ] end.
Qed.
End Trace.

(** ** The session of the browser *)

Section Session.
Context `{PF : Platform} {B : Type} `{BR : Browser B}.
Abbreviation S := (ClientState.t B).
Abbreviation MC := (M Thrown (ClientState.t B)).

(** All but the browser. *)
Definition view (s : S) := (ClientState.session s, ClientState.listener s, ClientState.expired s).
(** The token is gone and the listener was told, once. *)
Definition dropped (s s' : S) : Prop := view s' = view (ClientState.notified (ClientState.with_session None s)).
Definition rejected_session {A} (r : Thrown + A) : Prop := exists code message, r = inl (HttpApiError 401 code message).
(** The computation keeps the session, or loses it to a 401. *)
Definition loses {A} (m : MC A) : Prop := forall s r s', m s = (r, s') -> view s' = view s \/ (dropped s s' /\ rejected_session r).

Lemma dropped_view (s1 s s' : S) : view s1 = view s -> dropped s1 s' -> dropped s s'.
Proof. unfold dropped, view, ClientState.notified. simpl. intros [= Hs Hl He] ->. by rewrite Hl, He. Qed.
Lemma loses_keeps {A} (m : MC A) : keeps view m -> loses m.
Proof. intros Hm s r s' E. left. by eapply keeps_run. Qed.
Lemma loses_bind {A A'} (m : MC A) (k : A -> MC A') : loses m -> (forall a, loses (k a)) -> loses (m ≫= k).
Proof.
  intros Hm Hk s r s' [(e & -> & E)|(a & s1 & E & E')]%bind_inv.
  - destruct (Hm _ _ _ E) as [Hv|[Hd (code & msg & [= ->])]]; [by left|]. right. split; [done|by do 2 eexists].
  - destruct (Hm _ _ _ E) as [Hv|[_ (? & ? & [=])]]. destruct (Hk a _ _ _ E') as [Hv'|[Hd Hr]]; [left; by rewrite Hv'|].
    right. split; [by eapply dropped_view|done].
Qed.
Lemma keeps_view_browser {A} (m : M Thrown B A) : keeps view (in_browser m).
Proof. intros s. unfold in_browser, zoom. by destruct (m (ClientState.browser s)). Qed.
Lemma loses_browser {A} (m : M Thrown B A) : loses (in_browser m).
Proof. apply loses_keeps, keeps_view_browser. Qed.
Lemma loses_prop k v : loses (prop k v).
Proof. apply loses_keeps. unfold prop. frame. Qed.
Lemma loses_token : loses token.
Proof. apply loses_keeps. unfold token. frame. Qed.

Lemma request_view path init auth rt s r s' :
  request path init auth rt s = (r, s') ->
  (view s' = view s /\ (auth = true -> ~ rejected_session r)) \/ (auth = true /\ dropped s s' /\ rejected_session r).
Proof.
  intros E. unfold request, token, gets in E. rewrite bind_run with (a := ClientState.session s) (w1 := s) in E by done.
  cbv zeta in E. set (q := FetchRequest.mk _ _ _ _) in E.
  destruct (fetch q (ClientState.browser s)) as [[e|response] b] eqn:Ef.
  - rewrite bind_throw with (e := HttpApiError 0 (VStr "NETWORK_ERROR") (VStr "The BEL backend could not be reached."))
      (w1 := ClientState.with_browser b s) in E by (unfold rescue, in_browser, zoom; by rewrite Ef).
    injection E as <- <-. left. split; [done|]. by intros _ (? & ? & [=]).
  - rewrite bind_run with (a := response) (w1 := ClientState.with_browser b s) in E by (unfold rescue, in_browser, zoom; by rewrite Ef).
    destruct (FetchResponse.ok response); [injection E as <- <-; left; split; [done|]; by intros _ (? & ? & [=])|].
    destruct ((FetchResponse.status response =? 401)%Z && auth) eqn:Ea; unfold mbind, M_bind, throw in E; simpl in E; injection E as <- <-.
    + right. apply andb_true_iff in Ea as [Es%Z.eqb_eq ->]. rewrite Es. split_and!; [done|done|by do 2 eexists].
    + left. split; [done|]. intros -> (? & ? & [= Es _ _]). by rewrite Es in Ea.
Qed.
Lemma loses_request path init auth rt : loses (request path init auth rt).
Proof. intros s r s' [[Hv _]|(_ & Hd & Hr)]%request_view; [by left|by right]. Qed.
(** A request without a session never loses it. *)
Lemma anonymous_keeps path init rt : keeps view (request path init false rt).
Proof. intros s. destruct (request path init false rt s) as [r s'] eqn:E. by apply request_view in E as [[Hv _]|[? _]]. Qed.
(** What a request with a session does, from its answer. *)
Definition told {A} (r : Thrown + A) (s0 s s' : S) : Prop :=
  (rejected_session r /\ dropped s s') \/ (~ rejected_session r /\ view s' = view s0).
Lemma request_told path init rt s r s' : request path init true rt s = (r, s') -> told r s s s'.
Proof. intros [[Hv Hr]|(_ & Hd & Hr)]%request_view; [right; auto|by left]. Qed.
Lemma clear_told s r s' : saveToken VNull s = (r, s') -> r = inr tt /\ view s' = view (ClientState.with_session None s).
Proof. by intros [= <- <-]. Qed.
Lemma logout_told s r s' : Client.logout s = (r, s') -> told r (ClientState.with_session None s) s s'.
Proof.
  unfold Client.logout. set (attempt := token ≫= _). intros E.
  assert (Ha : forall r1 s1, attempt s = (r1, s1) -> told r1 s s s1).
  { unfold attempt, token, gets. intros r1 s1 E1. rewrite bind_run with (a := ClientState.session s) (w1 := s) in E1 by done.
    destruct (truthy_string (ClientState.session s)); [|injection E1 as <- <-; right; split; [by intros (? & ? & [=])|done]].
    apply bind_inv in E1 as [(e & -> & E1)|(d & s2 & E1 & [= <- <-])].
    - apply request_told in E1 as [[(code & m & [= ->]) Hd]|[Hr Hv]]; [left|right; split; [|done]].
      + split; [by do 2 eexists|done].
      + intros (code & m & [= ->]). apply Hr. by do 2 eexists.
    - apply request_told in E1 as [[(code & m & [=]) _]|[_ Hv]]. right. split; [by intros (? & ? & [=])|done]. }
  unfold mbind, M_bind, rescue in E. destruct (attempt s) as [[e|a] s1] eqn:Em; specialize (Ha _ _ eq_refl);
    unfold saveToken, modify, throw in E; simpl in E; injection E as <- <-;
    destruct Ha as [[(code & m & [= Hc]) Hd]|[Hr Hv]].
  - left. split; [rewrite Hc; by do 2 eexists|]. unfold dropped, view in *. simpl in *. by injection Hd as _ -> ->.
  - right. split; [intros (code & m & [= ->]); apply Hr; by do 2 eexists|]. unfold view in *. simpl in *. by injection Hv as _ -> ->.
  - right. split; [by intros (? & ? & [=])|]. unfold view in *. simpl in *. by injection Hv as _ -> ->.
Qed.

Ltac losing :=
  repeat lazymatch goal with
    | |- loses (mbind _ _) => apply loses_bind; [|intros]
    | |- loses (mret _) => apply loses_keeps, keeps_ret
    | |- loses (request _ _ _ _) => apply loses_request
    | |- loses (in_browser _) => apply loses_browser
    | |- loses (prop _ _) => apply loses_prop
    | |- loses token => apply loses_token
    | |- loses (match ?o with _ => _ end) => destruct o
    end.
Lemma loses_freshHeaders op res : loses (freshHeaders op res).
Proof. unfold freshHeaders, json. losing. Qed.
Lemma loses_freshJson path body op res : loses (freshJson path body op res).
Proof. unfold freshJson. losing. apply loses_freshHeaders. Qed.
Lemma loses_deviceSignedWrite path input : loses (deviceSignedWrite path input).
Proof. unfold deviceSignedWrite, json. losing. Qed.
Lemma loses_deviceSignedMutationWrite path input fresh m : loses (deviceSignedMutationWrite path input fresh m).
Proof. unfold deviceSignedMutationWrite. losing. apply loses_freshHeaders. Qed.
Lemma loses_404 {A} (m : MC A) : loses m -> loses (null_on 404 m).
Proof.
  intros Hm s r s' E. assert (Hl : loses (a ← m; mret (Some a))) by (apply loses_bind; [done|intros; losing]).
  unfold null_on, rescue in E. destruct ((a ← m; mret (Some a)) s) as [[e|a] s1] eqn:Em; destruct (Hl _ _ _ Em) as [Hv|[Hd (code & msg & Hr)]].
  - left. destruct e as [status ? ?| | | |]; [destruct (status =? 404)%Z|..]; by injection E as <- <-.
  - injection Hr as ->. injection E as <- <-. right. split; [done|by do 2 eexists].
  - injection E as <- <-. by left.
  - done.
Qed.

(** What a call does to the token of the browser. *)
Definition session_call (c : Call) : bool :=
  match c with C_login _ | C_logout | C_clearSession | C_restoreSession => true | _ => false end.
Ltac head_of t := lazymatch t with ?f _ => head_of f | _ => t end.
(** Show the body of a method of [apiClient]. *)
Ltac unfold_method := lazymatch goal with |- loses ?m => let h := head_of m in unfold h end.
Lemma loses_call c : session_call c = false -> loses (run_call c).
Proof.
  destruct c; intros Hs; try discriminate Hs; cbn [run_call]; (apply loses_bind; [|intros; losing]); unfold_method; unfold get, json, post;
    lazymatch goal with
    | |- loses (request _ _ _ _) => apply loses_request
    | |- loses (freshJson _ _ _ _) => apply loses_freshJson
    | |- loses (deviceSignedWrite _ _) => apply loses_deviceSignedWrite
    | |- loses (deviceSignedMutationWrite _ _ _ _) => apply loses_deviceSignedMutationWrite
    | |- loses (null_on 404 _) => apply loses_404, loses_request
    end.
Qed.

(** C22: The token in the browser follows the backend.  An authenticated request
    that is answered with 401 removes the token and tells the listener for
    expired sessions, if there is one, once; any other answer keeps the token
    and tells the listener nothing.  So a call other than those for the session
    keeps the token or fails with such a 401; [restoreSession] returns nothing
    instead.  A login that fails keeps it and one that succeeds stores what the
    backend sent, and neither tells the listener.  After a logout there is no
    token, and the listener was told, once, if the backend answered it with
    401 and not otherwise; [clearSession] removes the token and tells the
    listener nothing. *)
Theorem session_follows_backend (s s' : S) :
  (forall path init rt r, request path init true rt s = (r, s') -> told r s s s') /\
  (forall c r, session_call c = false -> run_call c s = (r, s') -> view s' = view s \/ (dropped s s' /\ rejected_session r)) /\
  (forall r, restoreSession s = (r, s') -> view s' = view s \/ (dropped s s' /\ r = inr None)) /\
  (forall input e, Client.login input s = (inl e, s') -> view s' = view s) /\
  (forall input d, Client.login input s = (inr d, s') ->
     ClientState.session s' = (if falsy (data_prop "token" d) then None
                               else Some (match data_prop "token" d with VStr t => t | v => String_of v end)) /\
     ClientState.listener s' = ClientState.listener s /\ ClientState.expired s' = ClientState.expired s) /\
  (forall r, Client.logout s = (r, s') -> ClientState.session s' = None /\ told r (ClientState.with_session None s) s s') /\
  (forall r, Client.clearSession s = (r, s') -> r = inr tt /\ view s' = view (ClientState.with_session None s)).
Proof.
  split_and!.
  - intros path init rt r. apply request_told.
  - intros c r Hc E. by eapply loses_call.
  - intros r E. unfold restoreSession, token, gets in E. rewrite bind_run with (a := ClientState.session s) (w1 := s) in E by done.
    destruct (truthy_string (ClientState.session s)); [|injection E as <- <-; by left].
    set (m := user ← getMe; mret (user, default "" (ClientState.session s))) in E.
    assert (Hl : loses (a ← m; mret (Some a))) by (unfold m; losing; apply loses_request).
    unfold null_on, rescue in E. destruct ((a ← m; mret (Some a)) s) as [[e|a] s1] eqn:Em; destruct (Hl _ _ _ Em) as [Hv|[Hd (code & msg & Hr)]].
    + left. destruct e as [status ? ?| | | |]; [destruct (status =? 401)%Z|..]; by injection E as <- <-.
    + injection Hr as ->. injection E as <- <-. by right.
    + injection E as <- <-. by left.
    + done.
  - intros input e E. unfold Client.login, json in E.
    apply bind_inl in E as [E|(d & s1 & E & E')]; [by eapply keeps_run; [apply anonymous_keeps|]|].
    assert (Hv := keeps_run _ _ _ _ _ (anonymous_keeps _ _ _) E). rewrite <- Hv.
    apply bind_inl in E' as [E'|(v & s2 & _ & E')]; [eapply keeps_run; [|exact E']; unfold prop; frame|done].
  - intros input d E. unfold Client.login, json in E. apply bind_inr in E as (d1 & s1 & E & E').
    assert (Hv := keeps_run _ _ _ _ _ (anonymous_keeps _ _ _) E). injection Hv as Hs Hl He.
    apply bind_inr in E' as (v & s2 & Ep & E'). injection E' as <- <-. simpl.
    assert (Hp : s2 = s1 /\ v = opt_prop "token" (data_value d1)) by (unfold prop, throw in Ep; destruct (data_value d1); by inversion Ep).
    destruct Hp as [-> ->]. rewrite Hl, He. split_and!; [|done|done].
    assert (Hd : data_prop "token" d1 = opt_prop "token" (data_value d1)) by by destruct d1.
    rewrite Hd. by destruct (opt_prop "token" (data_value d1)).
  - intros r E%logout_told. split; [|done]. destruct E as [[_ Hd]|[_ Hv]]; [by injection Hd|by injection Hv].
  - intros r. apply clear_told.
Qed.
End Session.

(** ** The challenges the backend issues *)

Section Issued.
Context `{PF : Platform} `{!PlatformLaws PF} {C : Type} `{BlockchainService C} `{Wiring} `{DeviceAttestationAdapter} `{IntegrityWiring}
  `{EvidenceStorage C} `{EmailNotificationProvider} `{UntypedBodies C} (options : EvidenceServiceOptions.t) (fuel : nat).
Abbreviation W := (World C).

Lemma issued_binding token op id (w w' : W) ch :
  trim op = op -> trim id = id -> id <> "" -> requestFreshAuthenticationChallenge token op (Some id) w = (inr ch, w') ->
  exists s, JsMap.get token (w_sessions w') = Some s /\ JsMap.get (ProvisioningChallenge.challengeId ch) (w_challenges w') = Some ch /\
    fresh_challenge_ok ch s token op (Some id) = true.
Proof.
  intros Hop Hid Hn E. unfold requestFreshAuthenticationChallenge in E. apply bind_inr in E as (s & w1 & Es & E).
  apply require_session_success in Es as (Hs & _ & Hst). apply bind_inr in E as (u & w2 & [_ <-]%throw_if_inr & E).
  injection E as <- <-. exists s. simpl. rewrite get_put_eq. unfold stored in Hst. injection Hst as _ _ _ _ _ Hs1 _ _ _ _ _ _ _ _ _ _ _ _.
  rewrite Hs1. split_and!; [done|done|]. unfold fresh_challenge_ok. simpl. rewrite Hop, Hid, String.eqb_refl. simpl.
  unfold is_string, field. simpl. rewrite !String.eqb_refl. simpl. destruct id as [|a id]; [done|]. exact (String.eqb_refl (String a id)).
Qed.

(** The challenge that the backend issues for the request of the client
    is one that the endpoint accepts: stored, unused, bound to the session, the
    operation and the resource.  Operation and resource must not begin or end
    with white space, which is trimmed when the challenge is issued and not
    when it is checked. *)
Theorem issued_challenge_fits req op id (w w' : W) ch :
  Http.Request.body req = VObj (fresh_body op (VStr id)) -> trim op = op -> trim id = id -> id <> "" ->
  serve options fuel POST_fresh_challenge req w = (inr (Http.created (Http.B_Challenge ch)), w') ->
  exists header s, Http.Request.authorization req = Some header /\
    JsMap.get (Http.bearer_token header) (w_sessions w') = Some s /\
    JsMap.get (ProvisioningChallenge.challengeId ch) (w_challenges w') = Some ch /\
    fresh_challenge_ok ch s (Http.bearer_token header) op (Some id) = true.
Proof.
  intros Hb Hop Hid Hn Hrun. destruct (serve_stages options fuel POST_fresh_challenge req w) as (resp & w1 & req' & wa & Hs & Ea & Hcase).
  rewrite Hrun in Hs. injection Hs as <- <-.
  assert (He : forall e, Http.error_response e <> Http.created (Http.B_Challenge ch))
    by (intros e; unfold Http.error_response; by destruct (serialize_error e) as [[? ?] ?]).
  destruct Hcase as [(e & wb & _ & Ee & _)|(wb & Eg & [Eh|(e & wc & _ & Ee & _)])]; try by destruct (He e).
  assert (Hr : Http.Request.body req' = Http.Request.body req /\ Http.Request.authorization req' = Http.Request.authorization req /\
    is_Some (Http.Request.authorization req)).
  { apply HttpCorrect.attachSession_inr in Ea as [[Hu ->]|(user & -> & (header & s & Hh & _) & _)]; [|by rewrite Hh].
    simpl in Eg. apply bind_inr in Eg as (u & w2 & [user Hu']%HttpCorrect.requireSession_passed & _). done. }
  destruct Hr as (Hb' & Ha' & [header Hh]). exists header.
  change (fresh_challenge_route req' wb = (inr (Http.created (Http.B_Challenge ch)), w')) in Eh.
  unfold fresh_challenge_route, Http.body_field in Eh. rewrite Hb', Hb in Eh.
  unfold fresh_body in Eh. destruct id as [|a id]; [done|]. simpl in Eh. unfold field in Eh. simpl in Eh.
  apply bind_inr in Eh as (u & w2 & [_ <-]%throw_if_inr & Eh). apply bind_inr in Eh as (ch' & w3 & Ei & Eh).
  unfold request_token in Ei. rewrite Ha', Hh in Ei. simpl in Ei. injection Eh as -> <-.
  apply issued_binding in Ei as (s & Hs1 & Hs2 & Hs3); [|done..]. by exists s.
Qed.
End Issued.

(** ** Witnesses *)

(** A page whose device answers at once and verifies its user or not, and whose
    backend gives the answers in the list. *)
Module Page.
Record t := mk { log : list FetchRequest.t; answers : list FetchResponse.t }.
End Page.
Definition demo_fetch (r : FetchRequest.t) : M Thrown Page.t FetchResponse.t := fun b =>
  match Page.answers b with
  | a :: rest => (inr a, Page.mk (Page.log b ++ [r]) rest)
  | [] => (inl (OtherError "Failed to fetch"), Page.mk (Page.log b ++ [r]) [])
  end.
Definition demo_device (verifies : bool) : DeviceWalletBridge Page.t := {|
  bridge_getIdentity := mret (VObj [("deviceId", VStr "D"); ("publicKey", VStr "key")]);
  bridge_sign _ _ := mret (VObj [("signature", VStr "sig"); ("userVerified", VBool verifies)]);
  bridge_signTransaction := Some (fun _ _ => mret (VObj [("signature", VStr "sig"); ("userVerified", VBool verifies)]));
|}.
Definition demo_browser (verifies : bool) : Browser Page.t := {|
  fetch := demo_fetch;
  belDeviceWallet := Some (demo_device verifies);
  env_DEV := false;
  VITE_BEL_DEV_WALLET_URL := None;
  VITE_API_BASE_URL := None;
|}.
Lemma demo_logged verifies r b : Page.log (snd (fetch (Browser := demo_browser verifies) r b)) = Page.log b ++ [r].
Proof. simpl. unfold demo_fetch. by destruct (Page.answers b). Qed.
Lemma demo_silent verifies b : belDeviceWallet (Browser := demo_browser verifies) = Some b ->
  keeps Page.log (bridge_getIdentity b) /\ (forall v o, keeps Page.log (bridge_sign b v o)) /\
  (forall f v o, bridge_signTransaction b = Some f -> keeps Page.log (f v o)).
Proof. intros [= <-]. by split_and!; [..|intros f v o [= <-]]. Qed.

Definition json_answer (status : Z) (v : value) : FetchResponse.t := FetchResponse.mk status (inr v) (inl NotAnError).
Definition challenge_answer : FetchResponse.t := json_answer 201 (VObj [("challengeId", VStr "c1"); ("challenge", VStr "sign me")]).
Definition demo_client (answers : list FetchResponse.t) : ClientState.t Page.t :=
  ClientState.mk (Some "t") (Some 7%nat) [] (Page.mk [] answers).
Definition lines_of (s : ClientState.t Page.t) : list (HttpMethod * string) :=
  map (fun r => (FetchRequest.method r, FetchRequest.url r)) (Page.log (ClientState.browser s)).

Section Demo.
#[local] Existing Instance dev.
#[local] Existing Instance reference_express.
#[local] Existing Instance reference_express_laws.

(** The administrator revokes a device: the proof is asked for and used. *)
Lemma client_calls_fit_witness :
  let s' := snd (run_call (BR := demo_browser true) (C_revokeDevice "D/1") (demo_client [challenge_answer; json_answer 200 VNull])) in
  lines_of s' = [(POST, "/api/auth/fresh-challenge"); (POST, "/api/admin/devices/D%2F1/revoke")] /\
  Forall (fits (BR := demo_browser true) pathname (C_revokeDevice "D/1") (Some "t")) (Page.log (ClientState.browser s')).
Proof.
  split; [vm_compute; reflexivity|].
  destruct (run_call (BR := demo_browser true) (C_revokeDevice "D/1") (demo_client [challenge_answer; json_answer 200 VNull])) as [r s'] eqn:E.
  destruct (client_calls_fit (BR := demo_browser true) Page.log (demo_logged true) (demo_silent true) (C_revokeDevice "D/1") eq_refl eq_refl _ _ _ E)
    as [(l & El & Hl) _]. simpl. rewrite El. exact Hl.
Defined.

(** The same on a device that does not verify its user stops there. *)
Lemma unverified_never_writes_witness :
  let s' := snd (run_call (BR := demo_browser false) (C_revokeDevice "D/1") (demo_client [challenge_answer; json_answer 200 VNull])) in
  lines_of s' = [(POST, "/api/auth/fresh-challenge")] /\
  exists e, fst (run_call (BR := demo_browser false) (C_revokeDevice "D/1") (demo_client [challenge_answer; json_answer 200 VNull])) = inl e.
Proof.
  split; [vm_compute; reflexivity|].
  destruct (run_call (BR := demo_browser false) (C_revokeDevice "D/1") (demo_client [challenge_answer; json_answer 200 VNull])) as [r s'] eqn:E.
  assert (Hn : never_verifies (BR := demo_browser false)).
  { split; [by intros v o b x b' [= <- <-]|by intros f v o b x b' [= <-] [= <- <-]]. }
  assert (Hd : demanded (C_revokeDevice "D/1") <> None \/ prepare_of (C_revokeDevice "D/1") <> None) by by left.
  exact (proj2 (unverified_never_writes (BR := demo_browser false) Page.log (demo_logged false) (demo_silent false)
    (C_revokeDevice "D/1") eq_refl Hn Hd _ _ _ E)).
Defined.

(** A token the backend no longer knows is dropped and the listener told. *)
Definition expired_client : ClientState.t Page.t := demo_client [json_answer 401 (VObj [("code", VStr "AUTHENTICATION_ERROR")])].
Lemma session_follows_backend_witness :
  exists s', snd (restoreSession (H0 := demo_browser true) expired_client) = s' /\
    dropped expired_client s' /\ ClientState.session s' = None /\ ClientState.expired s' = [7%nat].
Proof.
  destruct (restoreSession (H0 := demo_browser true) expired_client) as [r s'] eqn:E. exists s'.
  destruct (session_follows_backend (BR := demo_browser true) expired_client s') as (_ & _ & Hr & _). specialize (Hr r E).
  assert (Hs : ClientState.session s' = None) by (vm_compute in E; by injection E as _ <-).
  destruct Hr as [Hv|[Hd _]]; [injection Hv as Hv _ _; by rewrite Hv in Hs|].
  split; [done|]. split; [exact Hd|]. split; [exact Hs|]. by injection Hd.
Defined.
End Demo.

(** The challenge of [FreshDemo] in RoutesCorrect. *)
Section IssuedDemo.
#[local] Existing Instance fresh_env.
#[local] Existing Instance demo_wires.
#[local] Existing Instance demo_devices.
#[local] Existing Instance demo_integrity.
#[local] Existing Instance MemoryEvidenceStorage.
#[local] Existing Instance ConsoleEmailNotificationProvider.
#[local] Existing Instance demo_untyped.
Lemma issued_challenge_fits_witness :
  exists s ch, JsMap.get (Http.bearer_token ("Bearer " +:+ demo_token)) (w_sessions fresh_world) = Some s /\
    fresh_challenge_ok ch s (Http.bearer_token ("Bearer " +:+ demo_token)) "ASSET_STATE_CHANGE" (Some "A") = true.
Proof.
  unfold fresh_world.
  destruct (serve no_options 1 POST_fresh_challenge challenge_request asset_world) as [[x|resp] w'] eqn:E; [vm_compute in E; done|].
  assert (Hr : exists ch, resp = Http.created (Http.B_Challenge ch)) by (vm_compute in E; injection E as <- _; by eexists).
  destruct Hr as [ch ->].
  destruct (issued_challenge_fits no_options 1 challenge_request "ASSET_STATE_CHANGE" "A" _ _ _ eq_refl eq_refl eq_refl ltac:(done) E)
    as (header & s & [= <-] & Hs & _ & Hc). exists s, ch. split; [exact Hs|exact Hc].
Defined.
End IssuedDemo.
