(* ===== verification/SendQueue.v ===== *)
(** * SendQueue: the send queue of the EVM adapter under concurrency

    [sendAs] of [backend/src/blockchain/evm-adapter.ts] as several requests
    perform it at once: the calls in the order they are made, each at one of
    its [await]s, and the map [sendQueues] they share.  [Evm.sendAs] is one
    call alone. *)
From S2P Require Import Prelude Effects JsString JsMap JsValue Shared Rpc Evm.
From stdpp Require Import pretty.
Local Open Scope string_scope.
Local Open Scope list_scope.

(** A promise of the queue: [Promise.resolve()], or the tail
    [previous.then(() => turn)] of a call.  None of them rejects. *)
Inductive promise := Resolved | Tail (call : nat).
#[export] Instance promise_eq_dec : EqDecision promise.
Proof. solve_decision. Defined.

(** Where a call is suspended: at [await previous], at one of its questions to
    the node, or, the last one answered, before its [finally] block; or it has
    left. *)
Inductive Stage :=
| Waiting
| Asking
| Estimating (nonce : Z)
| Sending (nonce : Z) (gasLimit : string)
| Leaving (result : RpcError.t + string)
| Left (result : RpcError.t + string).

Module Sender.
Record t := mk { wallet : string; prepared : PreparedTransaction.t; previous : promise; stage : Stage }.
Definition key (c : t) : string := toLowerCase (wallet c).
Definition at_stage (v : Stage) (c : t) : t := mk (wallet c) (prepared c) (previous c) v.
Definition request (c : t) : CallRequest.t :=
  CallRequest.mk (wallet c) (PreparedTransaction.to (prepared c)) (PreparedTransaction.data (prepared c)).
(** Its [turn] is resolved. *)
Definition left (c : t) : bool := match stage c with Left _ => true | _ => false end.
End Sender.

(** A transaction the node took from a call. *)
Module Accepted.
Record t := mk { call : nat; key : string; nonce : Z; hash : string }.
End Accepted.

(** The map, the calls in the order they were made, the node, and what it
    took. *)
Module QueueState.
Record t (N : Type) := mk { sendQueues : jsmap promise; calls : list Sender.t; node : N; accepted : list Accepted.t }.
Arguments mk {N}. Arguments sendQueues {N}. Arguments calls {N}. Arguments node {N}. Arguments accepted {N}.
Section State.
Context {N : Type}.
Definition with_queues (q : jsmap promise) (s : t N) : t N := mk q (calls s) (node s) (accepted s).
Definition with_node (n : N) (s : t N) : t N := mk (sendQueues s) (calls s) n (accepted s).
Definition with_call (n : nat) (c : Sender.t) (s : t N) : t N := mk (sendQueues s) (<[n := c]> (calls s)) (node s) (accepted s).
Definition took (a : Accepted.t) (s : t N) : t N := mk (sendQueues s) (calls s) (node s) (accepted s ++ [a]).
Definition initial (n : N) : t N := mk empty_map [] n [].
End State.
End QueueState.

(** A tail is settled when the promise before it is and the turn of its call
    is over. *)
Fixpoint settled (fuel : nat) (calls : list Sender.t) (p : promise) : bool :=
  match p, fuel with
  | Resolved, _ => true
  | Tail _, O => false
  | Tail n, S fuel' =>
      match calls !! n with Some c => settled fuel' calls (Sender.previous c) && Sender.left c | None => false end
  end.

Section SendQueue.
Context {N : Type} `{Node N}.
Abbreviation State := (QueueState.t N).

(** From the call to the first [await]. *)
Definition enter (wallet : string) (prepared : PreparedTransaction.t) (s : State) : State :=
  let key := toLowerCase wallet in
  let previous := default Resolved (get key (QueueState.sendQueues s)) in
  QueueState.mk (put key (Tail (length (QueueState.calls s))) (QueueState.sendQueues s))
    (QueueState.calls s ++ [Sender.mk wallet prepared previous Waiting]) (QueueState.node s) (QueueState.accepted s).

(** [finally { release(); if (sendQueues.get(key) === tail) sendQueues.delete(key); }] *)
Definition leave (n : nat) (c : Sender.t) (result : RpcError.t + string) (s : State) : State :=
  let s := QueueState.with_call n (Sender.at_stage (Left result) c) s in
  let queues := QueueState.sendQueues s in
  if bool_decide (get (Sender.key c) queues = Some (Tail n)) then QueueState.with_queues (JsMap.remove (Sender.key c) queues) s else s.

(** One question to the node, with the stage its answer leads to. *)
Definition ask {A} (n : nat) (c : Sender.t) (question : Call N A) (next : A -> Stage) (s : State) : (RpcError.t + A) * State :=
  let '(answer, node') := question (QueueState.node s) in
  let stage := match answer with inl error => Leaving (inl error) | inr a => next a end in
  (answer, QueueState.with_call n (Sender.at_stage stage c) (QueueState.with_node node' s)).

(** The next part of a call, between two [await]s; nothing while the promise
    it awaits is pending or after it has left. *)
Definition resume (n : nat) (s : State) : option State :=
  c ← QueueState.calls s !! n;
  match Sender.stage c with
  | Waiting =>
      if settled (length (QueueState.calls s)) (QueueState.calls s) (Sender.previous c)
      then Some (QueueState.with_call n (Sender.at_stage Asking c) s) else None
  | Asking =>
      Some (snd (ask n c (rpc_getTransactionCount (Sender.wallet c) "pending")
        (fun nonce => match PreparedTransaction.gasLimit (Sender.prepared c) with Some gas => Sending nonce gas | None => Estimating nonce end) s))
  | Estimating nonce => Some (snd (ask n c (rpc_estimateGas (Sender.request c)) (fun gas => Sending nonce (pretty gas)) s))
  | Sending nonce gas =>
      let '(answer, s') := ask n c (rpc_sendTransaction (Sender.request c) nonce gas) (fun hash => Leaving (inr hash)) s in
      Some (match answer with inr hash => QueueState.took (Accepted.mk n (Sender.key c) nonce hash) s' | inl _ => s' end)
  | Leaving result => Some (leave n c result s)
  | Left _ => None
  end.

(** A call resumed until it is suspended on another or has left. *)
Fixpoint resume_while (fuel : nat) (n : nat) (s : State) : State :=
  match fuel with
  | O => s
  | S fuel' => match resume n s with Some s' => resume_while fuel' n s' | None => s end
  end.

(** What happens next: a request calls [sendAs], a call goes on, or the rest of
    the world changes the node. *)
Inductive step (moves : N -> N -> Prop) : State -> State -> Prop :=
| step_enter wallet prepared s : step moves s (enter wallet prepared s)
| step_resume n s s' : resume n s = Some s' -> step moves s s'
| step_node node' s : moves (QueueState.node s) node' -> step moves s (QueueState.with_node node' s).

Inductive reachable (moves : N -> N -> Prop) (node : N) : State -> Prop :=
| reachable_initial : reachable moves node (QueueState.initial node)
| reachable_step s s' : reachable moves node s -> step moves s s' -> reachable moves node s'.

(** A run without new calls, with the number of times a call went on. *)
Inductive drains (moves : N -> N -> Prop) : nat -> State -> State -> Prop :=
| drains_none s : drains moves 0 s s
| drains_resume k n s s1 s' : resume n s = Some s1 -> drains moves k s1 s' -> drains moves (S k) s s'
| drains_node k node' s s' : moves (QueueState.node s) node' -> drains moves k (QueueState.with_node node' s) s' -> drains moves k s s'.
End SendQueue.
