(* ===== verification/SendQueueCorrect.v ===== *)
(** * SendQueueCorrect: one send of a wallet at a time, in the order of the calls

    Under any interleaving of any number of calls: the calls of a wallet go
    one after the other in the order they were made, no nonce is given out
    twice, every call gets its turn, and nothing is left in the map. *)
From S2P Require Import Prelude Effects JsString JsMap JsValue Shared Rpc Evm EvmCorrect SendQueue.
From stdpp Require Import pretty.
Local Open Scope string_scope.
Local Open Scope list_scope.

Section Queue.
Context {N : Type} `{Node N} (moves : N -> N -> Prop) (start : N).
Abbreviation State := (QueueState.t N).
Implicit Types (s : State) (c d : Sender.t).

(** ** The invariant *)

(** Everyone of the wallet before [n] has left. *)
Definition first_in_line (l : list Sender.t) (n : nat) (key : string) : Prop :=
  forall j d, (j < n)%nat -> l !! j = Some d -> Sender.key d = key -> Sender.left d = true.

(** What a call awaits: nothing, if everyone of its wallet before it has left,
    or else the last one of them. *)
Definition awaits (l : list Sender.t) (n : nat) (key : string) (p : promise) : Prop :=
  match p with
  | Resolved => first_in_line l n key
  | Tail m => (m < n)%nat /\ (exists d, l !! m = Some d /\ Sender.key d = key) /\
      forall j d, (m < j < n)%nat -> l !! j = Some d -> Sender.key d <> key
  end.
(** The map holds the last call of each wallet that has an unfinished one. *)
Definition mapped (l : list Sender.t) (key : string) (o : option promise) : Prop :=
  match o with
  | None => first_in_line l (length l) key
  | Some p => awaits l (length l) key p /\ exists m d, p = Tail m /\ l !! m = Some d /\ Sender.left d = false
  end.

Record queue_ok s : Prop := {
  ok_wf : wf (QueueState.sendQueues s);
  ok_awaits n c : QueueState.calls s !! n = Some c -> awaits (QueueState.calls s) n (Sender.key c) (Sender.previous c);
  ok_turn n c : QueueState.calls s !! n = Some c -> Sender.stage c <> Waiting -> first_in_line (QueueState.calls s) n (Sender.key c);
  ok_mapped key : mapped (QueueState.calls s) key (get key (QueueState.sendQueues s));
}.

Lemma settled_first s f n c : queue_ok s -> QueueState.calls s !! n = Some c ->
  settled f (QueueState.calls s) (Sender.previous c) = true -> first_in_line (QueueState.calls s) n (Sender.key c).
Proof.
  intros Hok. revert n c. induction f as [|f IH]; intros n c Hc Hs; pose proof (ok_awaits _ Hok _ _ Hc) as Ha;
    destruct (Sender.previous c) as [|m]; try done. simpl in Ha, Hs. destruct Ha as (Hm & (d & Hd & Hk) & Hlast).
  rewrite Hd in Hs. apply andb_true_iff in Hs as [Hs Hl]. intros j e Hj He Hke. destruct (lt_eq_lt_dec j m) as [[Hjm| ->]|Hjm].
  - rewrite <- Hk in Hke. by apply (IH m d Hd Hs j e).
  - by rewrite He in Hd; injection Hd as ->.
  - by destruct (Hlast j e).
Qed.
Lemma first_settled s f n c : queue_ok s -> QueueState.calls s !! n = Some c -> (n <= f)%nat ->
  first_in_line (QueueState.calls s) n (Sender.key c) -> settled f (QueueState.calls s) (Sender.previous c) = true.
Proof.
  intros Hok. revert n c. induction f as [|f IH]; intros n c Hc Hn Hf; pose proof (ok_awaits _ Hok _ _ Hc) as Ha;
    destruct (Sender.previous c) as [|m]; try done; simpl in Ha; destruct Ha as (Hm & (d & Hd & Hk) & Hlast); [lia|].
  simpl. rewrite Hd. rewrite (IH m d Hd); [by apply (Hf m d)|lia|]. intros j e Hj He Hke. apply (Hf j e); [lia|done|congruence].
Qed.

(** ** The calls of a list after one of them has moved on *)

Section Advance.
Context (l : list Sender.t) (n : nat) (c c' : Sender.t) (Hc : l !! n = Some c)
  (Hkey : Sender.key c' = Sender.key c) (Hprev : Sender.previous c' = Sender.previous c) (Hlive : Sender.left c = false).
Lemma lookup_advance j d : <[n := c']> l !! j = Some d -> (j = n /\ d = c') \/ (j <> n /\ l !! j = Some d).
Proof.
  destruct (decide (j = n)) as [->|Hj].
  - rewrite list_lookup_insert_eq by by eapply lookup_lt_Some. intros [= <-]. by left.
  - rewrite list_lookup_insert_ne by done. by right.
Qed.
Lemma lookup_before j d : <[n := c']> l !! j = Some d -> exists e, l !! j = Some e /\ Sender.key e = Sender.key d /\
  Sender.previous e = Sender.previous d /\ (Sender.left e = true -> Sender.left d = true).
Proof. intros [[-> ->]|[_ Hj]]%lookup_advance; [exists c; by rewrite Hlive|by exists d]. Qed.
Lemma lookup_after j d : l !! j = Some d -> exists e, <[n := c']> l !! j = Some e /\ Sender.key e = Sender.key d /\
  (j <> n -> e = d).
Proof.
  intros Hj. destruct (decide (j = n)) as [->|Hn].
  - exists c'. rewrite list_lookup_insert_eq by by eapply lookup_lt_Some. by simplify_eq.
  - exists d. by rewrite list_lookup_insert_ne.
Qed.
Lemma first_advance m key : first_in_line l m key -> first_in_line (<[n := c']> l) m key.
Proof. intros Hf j d Hj (e & He & Hk & _ & Hl)%lookup_before Hd. apply Hl, (Hf j e); [done|done|by rewrite Hk]. Qed.
Lemma awaits_advance m key p : awaits l m key p -> awaits (<[n := c']> l) m key p.
Proof.
  destruct p as [|q]; [apply first_advance|]. intros (Hq & (d & Hd & Hk) & Hlast). split_and!; [done| |].
  - apply lookup_after in Hd as (e & He & Hke & _). exists e. by rewrite Hke.
  - intros j e Hj (e' & He & Hke & _)%lookup_before. rewrite <- Hke. by eapply Hlast.
Qed.
End Advance.

Lemma key_at_stage v c : Sender.key (Sender.at_stage v c) = Sender.key c.
Proof. done. Qed.
Lemma live_stage c : Sender.left c = false <-> forall r, Sender.stage c <> Left r.
Proof. unfold Sender.left. destruct (Sender.stage c); split; try done. intros Hl. by destruct (Hl result). Qed.

(** A call that goes on without leaving, its turn having come. *)
Lemma advance_ok s n c v node' accepted' : queue_ok s -> QueueState.calls s !! n = Some c -> Sender.left c = false ->
  Sender.left (Sender.at_stage v c) = false -> first_in_line (QueueState.calls s) n (Sender.key c) ->
  queue_ok (QueueState.mk (QueueState.sendQueues s) (<[n := Sender.at_stage v c]> (QueueState.calls s)) node' accepted').
Proof.
  intros Hok Hc Hl Hv Hf. destruct Hok as [Hwf Haw Ht Hm]. constructor; simpl.
  - done.
  - intros j d Hd. destruct (lookup_before _ _ _ _ Hc (key_at_stage v c) eq_refl Hl _ _ Hd) as (e & He & Hk & Hp & _).
    rewrite <- Hk, <- Hp. by apply (awaits_advance _ _ _ _ Hc); [..|by apply Haw].
  - intros j d [[-> ->]|[Hj Hd]]%(lookup_advance _ _ _ _ Hc) Hw; apply (first_advance _ _ _ _ Hc); try done. by apply Ht.
  - intros key. specialize (Hm key). unfold mapped in *. rewrite length_insert. destruct (get key (QueueState.sendQueues s)) as [p|].
    + destruct Hm as (Ha & m & d & -> & Hd & Hld). split; [by apply (awaits_advance _ _ _ _ Hc)|].
      destruct (lookup_after _ _ _ _ Hc (key_at_stage v c) _ _ Hd) as (e & He & _ & Hne).
      exists m, e. split_and!; [done..|]. destruct (decide (m = n)) as [->|Hmn]; [|by rewrite Hne].
      destruct (lookup_advance _ _ _ _ Hc _ _ He) as [[_ ->]|[? _]]; done.
    + by apply (first_advance _ _ _ _ Hc).
Qed.

(** The end of a call. *)
Lemma leave_ok s n c r : queue_ok s -> QueueState.calls s !! n = Some c -> Sender.stage c <> Waiting -> Sender.left c = false ->
  queue_ok (leave n c r s).
Proof.
  intros Hok Hc Hw Hl. assert (Hf := ok_turn _ Hok _ _ Hc Hw). destruct Hok as [Hwf Haw Ht Hm].
  set (c' := Sender.at_stage (Left r) c). set (l' := <[n := c']> (QueueState.calls s)).
  assert (Haw' : forall j d, l' !! j = Some d -> awaits l' j (Sender.key d) (Sender.previous d)).
  { intros j d Hd. destruct (lookup_before _ _ _ _ Hc (key_at_stage (Left r) c) eq_refl Hl _ _ Hd) as (e & He & Hk & Hp & _).
    rewrite <- Hk, <- Hp. by apply (awaits_advance _ _ _ _ Hc); [..|by apply Haw]. }
  assert (Ht' : forall j d, l' !! j = Some d -> Sender.stage d <> Waiting -> first_in_line l' j (Sender.key d)).
  { intros j d [[-> ->]|[Hj Hd]]%(lookup_advance _ _ _ _ Hc) Hwd; apply (first_advance _ _ _ _ Hc); try done. by apply Ht. }
  assert (Hother : forall key, get key (QueueState.sendQueues s) <> Some (Tail n) -> mapped l' key (get key (QueueState.sendQueues s))).
  { intros key Hne. specialize (Hm key). unfold mapped, l' in *. rewrite length_insert. destruct (get key (QueueState.sendQueues s)) as [p|].
    - destruct Hm as (Ha & m & d & -> & Hd & Hld). split; [by apply (awaits_advance _ _ _ _ Hc)|]. exists m, d. split_and!; [done| |done].
      rewrite list_lookup_insert_ne; [done|]. intros ->. done.
    - by apply (first_advance _ _ _ _ Hc). }
  unfold leave. case_bool_decide as Hq; simpl in Hq |- *; constructor; simpl; fold c' l'; try done.
  - by apply wf_remove.
  - intros key. destruct (decide (key = Sender.key c)) as [->|Hk].
    + rewrite get_remove_eq by done. specialize (Hm (Sender.key c)). rewrite Hq in Hm. destruct Hm as ((_ & _ & Hlast) & _).
      intros j d Hj Hd Hkd. unfold l' in Hj. rewrite length_insert in Hj.
      destruct (lookup_advance _ _ _ _ Hc _ _ Hd) as [[-> ->]|[Hjn Hd']]; [done|].
      destruct (lt_eq_lt_dec j n) as [[Hlt| ->]|Hgt]; [by apply (Hf j d)|done|]. by destruct (Hlast j d).
    + rewrite get_remove_ne by done. apply Hother. intros Hq'. specialize (Hm key). rewrite Hq' in Hm.
      destruct Hm as ((_ & (d & Hd & Hkd) & _) & _). rewrite Hc in Hd. by injection Hd as <-.
  - intros key. apply Hother. intros Hq'. destruct (decide (key = Sender.key c)) as [->|Hk]; [done|].
    specialize (Hm key). rewrite Hq' in Hm. destruct Hm as ((_ & (d & Hd & Hkd) & _) & _). rewrite Hc in Hd. by injection Hd as <-.
Qed.

(** A new call. *)
Lemma lookup_snoc (l : list Sender.t) c j d : (l ++ [c]) !! j = Some d -> l !! j = Some d \/ (j = length l /\ d = c).
Proof. intros [Hj|[Hl [Hj <-]%list_lookup_singleton_Some]]%lookup_app_Some; [by left|right; split; [lia|done]]. Qed.
Lemma first_snoc l c n key : (n <= length l)%nat -> first_in_line l n key -> first_in_line (l ++ [c]) n key.
Proof. intros Hn Hf j d Hj [Hd|[-> _]]%lookup_snoc; [by apply (Hf j d)|lia]. Qed.
Lemma awaits_snoc l c n key p : (n <= length l)%nat -> awaits l n key p -> awaits (l ++ [c]) n key p.
Proof.
  intros Hn. destruct p as [|m]; [by apply first_snoc|]. intros (Hm & (d & Hd & Hk) & Hlast). split_and!; [done| |].
  - exists d. by rewrite lookup_app_l by by eapply lookup_lt_Some.
  - intros j e Hj [He|[-> _]]%lookup_snoc; [by apply (Hlast j e)|lia].
Qed.
Lemma enter_ok wallet prepared s : queue_ok s -> queue_ok (enter wallet prepared s).
Proof.
  intros [Hwf Haw Ht Hm]. unfold enter. set (l := QueueState.calls s) in *. set (k := toLowerCase wallet).
  set (c := Sender.mk wallet prepared (default Resolved (get k (QueueState.sendQueues s))) Waiting).
  assert (Hnew : awaits l (length l) k (Sender.previous c)).
  { specialize (Hm k). simpl. by destruct (get k (QueueState.sendQueues s)) as [p|]; [destruct Hm|]. }
  constructor; simpl; fold l k c.
  - by apply wf_put.
  - intros n d [Hd|[-> ->]]%lookup_snoc; apply awaits_snoc; try done; [apply lookup_lt_Some in Hd; lia|by apply Haw].
  - intros n d [Hd|[-> ->]]%lookup_snoc Hw; [|done]. apply first_snoc; [apply lookup_lt_Some in Hd; lia|by apply Ht].
  - intros key. rewrite get_put. destruct (String.eqb_spec key k) as [->|Hk].
    + unfold mapped, awaits. rewrite length_app. simpl. split.
      * split_and!; [lia| |].
        -- exists c. by rewrite list_lookup_middle.
        -- intros j d Hj [Hd|[-> _]]%lookup_snoc; [apply lookup_lt_Some in Hd; lia|lia].
      * exists (length l), c. by rewrite list_lookup_middle.
    + specialize (Hm key). unfold mapped, awaits, first_in_line in *. rewrite length_app. simpl.
      destruct (get key (QueueState.sendQueues s)) as [[|m]|].
      * by destruct Hm as (_ & ? & ? & [=] & _).
      * destruct Hm as ((Hlt & (d & Hd & Hkd) & Hlast) & m' & e & [= <-] & He & Hl).
        assert (Hd' : (l ++ [c]) !! m = Some d) by by rewrite lookup_app_l.
        split; [split_and!; [lia|by exists d|]|exists m, d; split_and!; [done..|congruence]].
        intros j f Hj [Hf|[-> ->]]%lookup_snoc; [by apply (Hlast j f); [apply lookup_lt_Some in Hf; lia|]|by intros <-].
      * intros j d _ [Hd|[-> ->]]%lookup_snoc Hkd; [by apply (Hm j d); [eapply lookup_lt_Some|..]|by subst].
Qed.

(** What a call does when it goes on: it starts after its turn has come, asks
    a question or leaves. *)
Lemma resume_inv s n s' : resume n s = Some s' -> exists c, QueueState.calls s !! n = Some c /\
  ((Sender.stage c = Waiting /\ settled (length (QueueState.calls s)) (QueueState.calls s) (Sender.previous c) = true /\
      s' = QueueState.with_call n (Sender.at_stage Asking c) s) \/
   (exists v node' accepted', s' = QueueState.mk (QueueState.sendQueues s) (<[n := Sender.at_stage v c]> (QueueState.calls s)) node' accepted' /\
      Sender.stage c <> Waiting /\ Sender.left c = false /\ Sender.left (Sender.at_stage v c) = false) \/
   (exists r, Sender.stage c = Leaving r /\ s' = leave n c r s)).
Proof.
  unfold resume. destruct (QueueState.calls s !! n) as [c|] eqn:Hc; [|done]. simpl. intros E. exists c. split; [done|].
  unfold ask in E. destruct (Sender.stage c) as [| |nonce|nonce gas|r|r] eqn:Hs.
  - destruct (settled _ _ _) eqn:Es; [|done]. injection E as <-. by left.
  - right; left. destruct (rpc_getTransactionCount _ _ _) as [[e|k] n1]; injection E as <-; do 3 eexists; (split; [done|]);
      unfold Sender.left; rewrite Hs; split_and!; try done; simpl; by destruct (PreparedTransaction.gasLimit (Sender.prepared c)).
  - right; left. destruct (rpc_estimateGas _ _) as [[e|k] n1]; injection E as <-; do 3 eexists; (split; [done|]);
      unfold Sender.left; rewrite Hs; by split_and!.
  - right; left. destruct (rpc_sendTransaction _ _ _ _) as [[e|k] n1]; injection E as <-; do 3 eexists; (split; [done|]);
      unfold Sender.left; rewrite Hs; by split_and!.
  - right; right. injection E as <-. by exists r.
  - done.
Qed.
Lemma resume_ok s n s' : queue_ok s -> resume n s = Some s' -> queue_ok s'.
Proof.
  intros Hok (c & Hc & [(Hw & Hs & ->)|[(v & n' & a & -> & Hw & Hl & Hv)|(r & Hr & ->)]])%resume_inv.
  - apply advance_ok; try done; [by unfold Sender.left; rewrite Hw|]. by eapply settled_first.
  - apply advance_ok; try done. by eapply ok_turn.
  - apply leave_ok; try done; [by rewrite Hr|by unfold Sender.left; rewrite Hr].
Qed.
Lemma node_ok node' s : queue_ok s -> queue_ok (QueueState.with_node node' s).
Proof. by intros [? ? ? ?]. Qed.
Lemma initial_ok : queue_ok (QueueState.initial start).
Proof. by constructor; [apply wf_empty|..|intros key j d Hj%Nat.nlt_0_r]. Qed.
Lemma reachable_ok s : reachable moves start s -> queue_ok s.
Proof.
  induction 1 as [|s s' _ IH Hstep]; [apply initial_ok|]. destruct Hstep.
  - by apply enter_ok.
  - by eapply resume_ok.
  - by apply node_ok.
Qed.

(** A call that has begun and not left. *)
Definition inside c : bool := match Sender.stage c with Waiting | Left _ => false | _ => true end.

Lemma inside_alone s m n c d : queue_ok s -> QueueState.calls s !! m = Some c -> QueueState.calls s !! n = Some d ->
  Sender.key c = Sender.key d -> inside c = true -> inside d = true -> m = n.
Proof.
  intros Hok Hc Hd Hk Hic Hid. unfold inside in *.
  destruct (lt_eq_lt_dec m n) as [[Hlt|Heq]|Hlt]; [exfalso|done|exfalso].
  - assert (Hl : Sender.left c = true) by (apply (ok_turn _ Hok n d Hd) with (j := m); [by intros Hw; rewrite Hw in Hid|done..]).
    unfold Sender.left in Hl. by destruct (Sender.stage c).
  - assert (Hl : Sender.left d = true) by (apply (ok_turn _ Hok m c Hc) with (j := n); [by intros Hw; rewrite Hw in Hic|done..]).
    unfold Sender.left in Hl. by destruct (Sender.stage d).
Qed.

(** C26: Under any interleaving of calls of [sendAs], at most one call of a
    wallet has begun and not left, and a call only begins when all the calls
    of its wallet made before it have left: they go in the order they were
    made.  The map holds a promise for a wallet exactly while one of its calls
    is unfinished. *)
Theorem sends_take_turns s : reachable moves start s ->
  (forall m n c d, QueueState.calls s !! m = Some c -> QueueState.calls s !! n = Some d -> Sender.key c = Sender.key d ->
     (inside c = true -> inside d = true -> m = n) /\
     ((m < n)%nat -> Sender.stage d <> Waiting -> Sender.left c = true)) /\
  (forall key, get key (QueueState.sendQueues s) = None <->
     forall n c, QueueState.calls s !! n = Some c -> Sender.key c = key -> Sender.left c = true).
Proof.
  intros Hr%reachable_ok. split.
  - intros m n c d Hc Hd Hk. split; [by apply (inside_alone s)|]. intros Hlt Hw. by apply (ok_turn _ Hr n d Hd Hw m c).
  - intros key. pose proof (ok_mapped _ Hr key) as Hm. destruct (get key (QueueState.sendQueues s)) as [p|]; simpl in Hm; split; try done.
    + intros Hall. destruct Hm as (Ha & m & d & -> & Hd & Hl). destruct Ha as (_ & (e & He & Hk) & _).
      rewrite Hd in He. injection He as <-. by rewrite (Hall m d) in Hl.
    + intros _ n c Hc Hk. apply (Hm n c); [by eapply lookup_lt_Some|done..].
Qed.

(** ** Every call gets its turn *)

(** How often a call can still go on. *)
Definition left_to_do c : nat :=
  match Sender.stage c with Waiting => 5 | Asking => 4 | Estimating _ => 3 | Sending _ _ => 2 | Leaving _ => 1 | Left _ => 0 end.
Definition work s : nat := sum_list_with left_to_do (QueueState.calls s).

Lemma work_advance l n c c' : l !! n = Some c -> (left_to_do c' < left_to_do c)%nat ->
  (sum_list_with left_to_do (<[n := c']> l) < sum_list_with left_to_do l)%nat.
Proof.
  revert n. induction l as [|x l IH]; intros [|n] Hc Hlt; simpl; try done; [simpl in Hc; injection Hc as ->; lia|].
  specialize (IH n Hc Hlt). lia.
Qed.
(** The stage of [c] is known by [Hs]. *)
#[local] Ltac lighter := eexists; split; [done|]; unfold left_to_do; match goal with Hs : Sender.stage _ = _ |- _ => rewrite Hs end; simpl; lia.
Lemma resume_work s n s' : resume n s = Some s' -> (work s' < work s)%nat.
Proof.
  unfold resume. destruct (QueueState.calls s !! n) as [c|] eqn:Hc; [|done]. simpl. intros E.
  assert (Hw : exists c', QueueState.calls s' = <[n := c']> (QueueState.calls s) /\ (left_to_do c' < left_to_do c)%nat).
  { unfold ask in E. destruct (Sender.stage c) as [| |nonce|nonce gas|r|r] eqn:Hs.
    - destruct (settled _ _ _); [|done]. injection E as <-. by lighter.
    - destruct (rpc_getTransactionCount _ _ _) as [[e|k] n1]; injection E as <-; [by lighter|].
      destruct (PreparedTransaction.gasLimit (Sender.prepared c)); by lighter.
    - destruct (rpc_estimateGas _ _) as [[e|k] n1]; injection E as <-; by lighter.
    - destruct (rpc_sendTransaction _ _ _ _) as [[e|k] n1]; injection E as <-; by lighter.
    - injection E as <-. unfold leave. case_bool_decide; by lighter.
    - done. }
  destruct Hw as (c' & E' & Hlt). unfold work. rewrite E'. by apply work_advance with c.
Qed.

(** Of the wallet of an unfinished call, one can go on. *)
Lemma line_moves s n c : queue_ok s -> QueueState.calls s !! n = Some c -> Sender.left c = false ->
  exists m d s', (m <= n)%nat /\ QueueState.calls s !! m = Some d /\ Sender.key d = Sender.key c /\ resume m s = Some s'.
Proof.
  intros Hok. revert c. induction (lt_wf n) as [n _ IH]. intros c Hc Hl.
  destruct (resume n s) as [s'|] eqn:E; [by exists n, c, s'|].
  pose proof E as Hn. unfold resume in Hn. rewrite Hc in Hn. simpl in Hn. unfold Sender.left in Hl.
  destruct (Sender.stage c); try (unfold ask in Hn; by repeat case_match). pose proof (ok_awaits _ Hok _ _ Hc) as Ha.
  assert (Hlen : (n <= length (QueueState.calls s))%nat) by (apply lookup_lt_Some in Hc; lia).
  destruct (settled (length (QueueState.calls s)) (QueueState.calls s) (Sender.previous c)) eqn:Hs; [done|].
  destruct (Sender.previous c) as [|m] eqn:Hp; [by destruct (length _)|]. destruct Ha as (Hm & (d & Hd & Hk) & Hlast).
  destruct (Sender.left d) eqn:Hld.
  - assert (Hf : first_in_line (QueueState.calls s) n (Sender.key c)).
    { intros j e Hj He Hke. destruct (lt_eq_lt_dec j m) as [[Hlt| ->]|Hgt]; [|congruence|by destruct (Hlast j e)].
      apply (ok_turn _ Hok m d Hd) with (j := j); [|done..|congruence]. intros Hw. unfold Sender.left in Hld. by rewrite Hw in Hld. }
    rewrite <- Hp in Hs. by rewrite (first_settled s _ n c) in Hs.
  - destruct (IH m Hm d Hd Hld) as (j & e & s' & Hj & He & Hke & Hr). exists j, e, s'. split_and!; [lia|done|congruence|done].
Qed.

(** C28: Without new calls every call of [sendAs] comes to its end, whatever the
    node answers and whatever else happens to it: the calls go on at most five
    times each, and when none of them can go on any more they have all left
    and the map is empty. *)
Theorem sends_drain s k s' : reachable moves start s -> drains moves k s s' ->
  (k <= 5 * length (QueueState.calls s))%nat /\
  ((forall n, resume n s' = None) ->
     (forall n c, QueueState.calls s' !! n = Some c -> Sender.left c = true) /\ QueueState.sendQueues s' = empty_map).
Proof.
  intros Hok%reachable_ok Hd. split.
  - assert (Hk : (k + work s' <= work s)%nat).
    { clear Hok. induction Hd as [|k n s s1 s' Hr _ IH|k n s s' _ _ IH]; [lia|apply resume_work in Hr; lia|exact IH]. }
    assert (Hw : (work s <= 5 * length (QueueState.calls s))%nat); [clear; unfold work|lia].
    induction (QueueState.calls s) as [|c l IH]; simpl; [lia|]. assert (left_to_do c <= 5)%nat by (unfold left_to_do; case_match; lia). lia.
  - intros Hstuck. assert (Hok' : queue_ok s').
    { clear Hstuck. induction Hd as [|k n s s1 s' Hr _ IH|k n s s' _ _ IH]; [done|by eapply IH, resume_ok|by apply IH, node_ok]. }
    assert (Hall : forall n c, QueueState.calls s' !! n = Some c -> Sender.left c = true).
    { intros n c Hc. destruct (Sender.left c) eqn:Hl; [done|]. destruct (line_moves s' n c Hok' Hc Hl) as (m & ? & ? & _ & _ & _ & Hm).
      by rewrite Hstuck in Hm. }
    split; [done|]. destruct (QueueState.sendQueues s') as [|[key p] q] eqn:Hq; [done|]. pose proof (ok_mapped _ Hok' key) as Hm.
    rewrite Hq in Hm. simpl in Hm. rewrite String.eqb_refl in Hm. destruct Hm as (_ & m & d & -> & Hm & Hl). by rewrite (Hall m d) in Hl.
Qed.

(** ** Nonces *)

(** The pending transaction count of an account, by the key of its wallet: it
    is what the node answers, it never falls, and a transaction taken with a
    nonce up to it raises it beyond that nonce. *)
Class PendingCount (pending : string -> N -> Z) := {
  count_is_pending wallet n k n' : rpc_getTransactionCount wallet "pending" n = (inr k, n') -> k = pending (toLowerCase wallet) n';
  taken_counts r k gas n h n' : rpc_sendTransaction r k gas n = (inr h, n') ->
    (k <= pending (toLowerCase (CallRequest.from r)) n)%Z -> (k < pending (toLowerCase (CallRequest.from r)) n')%Z;
  count_grows wallet n key : (pending key n <= pending key (snd (rpc_getTransactionCount wallet "pending" n)))%Z;
  gas_grows r n key : (pending key n <= pending key (snd (rpc_estimateGas r n)))%Z;
  send_grows r k gas n key : (pending key n <= pending key (snd (rpc_sendTransaction r k gas n)))%Z;
  moves_grow n n' key : moves n n' -> (pending key n <= pending key n')%Z;
}.

Section Nonces.
Context (pending : string -> N -> Z) `{!PendingCount pending}.

(** The nonce a call holds. *)
Definition holds c : option Z := match Sender.stage c with Estimating k | Sending k _ => Some k | _ => None end.
(** The accepted transactions of a wallet have rising nonces and come in the
    order of the calls. *)
Definition later (a b : Accepted.t) : Prop :=
  Accepted.key a = Accepted.key b -> (Accepted.call a < Accepted.call b)%nat /\ (Accepted.nonce a < Accepted.nonce b)%Z.
Record nonces_ok s : Prop := {
  ok_queue : queue_ok s;
  ok_counted a : a ∈ QueueState.accepted s -> (Accepted.nonce a < pending (Accepted.key a) (QueueState.node s))%Z;
  ok_author a : a ∈ QueueState.accepted s -> exists c, QueueState.calls s !! Accepted.call a = Some c /\
    Sender.key c = Accepted.key a /\ ((exists r, Sender.stage c = Leaving r) \/ Sender.left c = true);
  ok_holds n c k : QueueState.calls s !! n = Some c -> holds c = Some k ->
    (k <= pending (Sender.key c) (QueueState.node s))%Z /\
    forall a, a ∈ QueueState.accepted s -> Accepted.key a = Sender.key c -> (Accepted.nonce a < k)%Z;
  ok_later i j a b : (i < j)%nat -> QueueState.accepted s !! i = Some a -> QueueState.accepted s !! j = Some b -> later a b;
}.

Lemma holds_inside c k : holds c = Some k -> inside c = true.
Proof. unfold holds, inside. by destruct (Sender.stage c). Qed.
Lemma grown_ok s node' : nonces_ok s -> (forall key, pending key (QueueState.node s) <= pending key node')%Z ->
  nonces_ok (QueueState.with_node node' s).
Proof.
  intros [Hq Hc Ha Hh Hl] Hg. constructor; simpl; try done.
  - by apply node_ok.
  - intros a Hin. specialize (Hc a Hin). specialize (Hg (Accepted.key a)). lia.
  - intros n c k Hn Hk. destruct (Hh n c k Hn Hk) as [Hle Hlt]. split; [|done]. specialize (Hg (Sender.key c)). lia.
Qed.
(** A call that changes its stage: what it holds next has been counted and is
    above what was taken before. *)
Lemma stage_ok s n c v q : nonces_ok s -> QueueState.calls s !! n = Some c ->
  ~ (exists r, Sender.stage c = Leaving r) \/ Sender.left (Sender.at_stage v c) = true ->
  Sender.left c = false ->
  queue_ok (QueueState.with_queues q (QueueState.with_call n (Sender.at_stage v c) s)) ->
  (forall k, holds (Sender.at_stage v c) = Some k -> (k <= pending (Sender.key c) (QueueState.node s))%Z /\
     forall a, a ∈ QueueState.accepted s -> Accepted.key a = Sender.key c -> (Accepted.nonce a < k)%Z) ->
  nonces_ok (QueueState.with_queues q (QueueState.with_call n (Sender.at_stage v c) s)).
Proof.
  intros [Hq Hc Ha Hh Hl] Hn Hs Hlive Hq' Hk. constructor; simpl; try done.
  - intros a Hin. destruct (Ha a Hin) as (d & Hd & Hkey & Hst). destruct (decide (Accepted.call a = n)) as [Heq|Hne].
    + rewrite Heq, Hn in Hd. rewrite Heq. injection Hd as <-. exists (Sender.at_stage v c).
      rewrite list_lookup_insert_eq by by eapply lookup_lt_Some. split_and!; [done..|].
      destruct Hst as [Hr|Hr]; [|congruence]. destruct Hs as [Hs|Hs]; [by destruct Hs|by right].
    + exists d. by rewrite list_lookup_insert_ne.
  - intros j d k [[-> ->]|[Hj Hd]]%(lookup_advance _ _ _ _ Hn) Hkd; [by apply Hk|by eapply Hh].
Qed.
(** The call [n] asks: the node only grows. *)
Lemma answer_ok s n c v node' : nonces_ok s -> QueueState.calls s !! n = Some c -> inside c = true ->
  ~ (exists r, Sender.stage c = Leaving r) -> Sender.left (Sender.at_stage v c) = false ->
  (forall key, pending key (QueueState.node s) <= pending key node')%Z ->
  (forall k, holds (Sender.at_stage v c) = Some k -> (k <= pending (Sender.key c) node')%Z /\
     forall a, a ∈ QueueState.accepted s -> Accepted.key a = Sender.key c -> (Accepted.nonce a < k)%Z) ->
  nonces_ok (QueueState.with_call n (Sender.at_stage v c) (QueueState.with_node node' s)).
Proof.
  intros Hok Hn Hi Hs Hv Hg Hk. assert (Hl : Sender.left c = false) by (unfold inside, Sender.left in *; by destruct (Sender.stage c)).
  assert (Hok' := grown_ok _ _ Hok Hg). apply (stage_ok (QueueState.with_node node' s) n c v (QueueState.sendQueues s)); try done; [by left|].
  apply (advance_ok s n c v node' (QueueState.accepted s)); try done; [by apply ok_queue|]. apply (ok_turn _ (ok_queue _ Hok) n c); [done|].
  intros Hw. unfold inside in Hi. by rewrite Hw in Hi.
Qed.
Lemma took_ok s n c k h : nonces_ok s -> QueueState.calls s !! n = Some c -> Sender.stage c = Leaving (inr h) ->
  (k < pending (Sender.key c) (QueueState.node s))%Z ->
  (forall a, a ∈ QueueState.accepted s -> Accepted.key a = Sender.key c -> (Accepted.nonce a < k)%Z /\ Accepted.call a <> n) ->
  nonces_ok (QueueState.took (Accepted.mk n (Sender.key c) k h) s).
Proof.
  intros [Hq Hc Ha Hh Hl] Hn Hs Hk Hold. assert (Hi : inside c = true) by (unfold inside; by rewrite Hs). constructor; simpl.
  - by destruct Hq.
  - intros a [Hin| ->%list_elem_of_singleton]%elem_of_app; [by apply Hc|done].
  - intros a [Hin| ->%list_elem_of_singleton]%elem_of_app; [by apply Ha|]. exists c. split_and!; [done..|]. left. by exists (inr h).
  - intros j d k' Hd Hkd. destruct (Hh j d k' Hd Hkd) as [Hle Hlt]. split; [done|].
    intros a [Hin| ->%list_elem_of_singleton]%elem_of_app Hka; [by apply Hlt|]. simpl in Hka.
    assert (n = j) as <- by (apply (inside_alone s n j c d Hq); try done; by eapply holds_inside).
    rewrite Hn in Hd. injection Hd as <-. unfold holds in Hkd. by rewrite Hs in Hkd.
  - intros i j a b Hij Hi' Hj. apply lookup_app_Some in Hj as [Hj|[Hlj [Hj0 <-]%list_lookup_singleton_Some]].
    + apply (Hl i j); try done. rewrite lookup_app_l in Hi'; [done|]. apply lookup_lt_Some in Hj. lia.
    + rewrite lookup_app_l in Hi' by lia. apply list_elem_of_lookup_2 in Hi'. intros Hkey. simpl in Hkey |- *.
      destruct (Hold a Hi' Hkey) as [Hlt Hne]. split; [|done]. destruct (Ha a Hi') as (d & Hd & Hkd & Hst).
      destruct (lt_eq_lt_dec (Accepted.call a) n) as [[?|?]|Hgt]; [done|done|exfalso].
      assert (Hleft : Sender.left c = true).
      { apply (ok_turn _ Hq _ _ Hd) with (j := n); [|done..|congruence]. intros Hw. unfold Sender.left in Hst.
        rewrite Hw in Hst. destruct Hst as [(? & [=])|?]; done. }
      unfold Sender.left in Hleft. by rewrite Hs in Hleft.
Qed.
(** The stage of the call is known and not its last. *)
#[local] Ltac not_leaving :=
  let Hx := fresh in intros [? Hx]; first [discriminate Hx | match goal with Hs : Sender.stage _ = _ |- _ => by rewrite Hs in Hx end].
Lemma resume_nonces s n s' : nonces_ok s -> resume n s = Some s' -> nonces_ok s'.
Proof.
  intros Hok E. assert (Hq' := resume_ok _ _ _ (ok_queue _ Hok) E). pose proof E as Hr. unfold resume in Hr.
  destruct (QueueState.calls s !! n) as [c|] eqn:Hc; [|done]. simpl in Hr.
  assert (Hask : forall v node', (forall key, pending key (QueueState.node s) <= pending key node')%Z ->
    inside c = true -> ~ (exists r, Sender.stage c = Leaving r) -> Sender.left (Sender.at_stage v c) = false ->
    (forall k, holds (Sender.at_stage v c) = Some k -> holds c = Some k \/ k = pending (Sender.key c) node') ->
    nonces_ok (QueueState.with_call n (Sender.at_stage v c) (QueueState.with_node node' s))).
  { intros v node' Hg Hi Hl Hv Hk. apply answer_ok; try done. intros k Hkv. destruct (Hk k Hkv) as [Hkc| ->].
    - destruct (ok_holds _ Hok n c k Hc Hkc) as [Hle Hlt]. split; [|done]. specialize (Hg (Sender.key c)). lia.
    - split; [done|]. intros a Hin <-. pose proof (ok_counted _ Hok a Hin). specialize (Hg (Accepted.key a)). lia. }
  unfold ask in Hr. destruct (Sender.stage c) as [| |k|k gas|r|r] eqn:Hs; try done.
  - destruct (settled _ _ _); [|done]. injection Hr as <-.
    apply (stage_ok s n c Asking (QueueState.sendQueues s)); try done; [left; not_leaving|by unfold Sender.left; rewrite Hs].
  - pose proof (count_grows (Sender.wallet c) (QueueState.node s)) as Hg.
    destruct (rpc_getTransactionCount _ _ _) as [[e|k] node'] eqn:Ek; injection Hr as <-; apply Hask; try done;
      try (by unfold inside; rewrite Hs); try not_leaving; try (by destruct (PreparedTransaction.gasLimit (Sender.prepared c))).
    intros k' Hk'. right. assert (k' = k) as -> by by destruct (PreparedTransaction.gasLimit (Sender.prepared c)); injection Hk'.
    by apply count_is_pending in Ek.
  - pose proof (gas_grows (Sender.request c) (QueueState.node s)) as Hg.
    destruct (rpc_estimateGas _ _) as [[e|gas] node'] eqn:Ek; injection Hr as <-; apply Hask; try done;
      try (by unfold inside; rewrite Hs); try not_leaving.
    intros k' Hk'. left. unfold holds. by rewrite Hs.
  - pose proof (send_grows (Sender.request c) k gas (QueueState.node s)) as Hg.
    destruct (rpc_sendTransaction _ _ _ _) as [[e|h] node'] eqn:Ek; injection Hr as <-; [apply Hask; try done;
      [by unfold inside; rewrite Hs|not_leaving]|].
    assert (Hhold : holds c = Some k) by (unfold holds; by rewrite Hs). destruct (ok_holds _ Hok n c k Hc Hhold) as [Hle Hlt].
    apply (took_ok _ n (Sender.at_stage (Leaving (inr h)) c)); try done.
    + apply Hask; try done; [by unfold inside; rewrite Hs|not_leaving].
    + simpl. by rewrite list_lookup_insert_eq by by eapply lookup_lt_Some.
    + simpl. by apply taken_counts in Ek.
    + intros a Hin Hkey. split; [by apply Hlt|]. intros Hcall. destruct (ok_author _ Hok a Hin) as (d & Hd & _ & Hst).
      rewrite Hcall, Hc in Hd. injection Hd as <-. rewrite Hs in Hst. unfold Sender.left in Hst. rewrite Hs in Hst.
      destruct Hst as [(? & [=])|?]; done.
  - injection Hr as <-. assert (Hl : Sender.left c = false) by (unfold Sender.left; by rewrite Hs). unfold leave in Hq' |- *.
    case_bool_decide; [apply stage_ok|apply (stage_ok s n c (Left r) (QueueState.sendQueues s))]; try done; by right.
Qed.

(** C27: No nonce is used twice, on any node whose pending count is the one of
    the documentation and under any interleaving with anything else that uses
    the node: the transactions that the node took for a wallet have strictly
    rising nonces, in the order in which the calls were made. *)
Theorem nonces_rise s i j a b : reachable moves start s ->
  (i < j)%nat -> QueueState.accepted s !! i = Some a -> QueueState.accepted s !! j = Some b -> Accepted.key a = Accepted.key b ->
  (Accepted.call a < Accepted.call b)%nat /\ (Accepted.nonce a < Accepted.nonce b)%Z.
Proof.
  intros Hr Hij Ha Hb. apply (ok_later s) with i j; [|done..]. clear Hij Ha Hb. induction Hr as [|s s' _ IH Hstep].
  - constructor; try done; [apply initial_ok|..]; simpl; try done; intros a' Hin; by apply elem_of_nil in Hin.
  - destruct Hstep as [wallet prepared s|n s s' E|node' s Hm].
    + pose proof (enter_ok wallet prepared s (ok_queue _ IH)) as Hq. destruct IH as [_ Hc Ha Hh Hl]. constructor; try done.
      * intros a' Hin. destruct (Ha a' Hin) as (d & Hd & Hk). exists d. simpl. by rewrite lookup_app_l by by eapply lookup_lt_Some.
      * intros n c k [Hn|[_ ->]]%lookup_snoc Hk; [by eapply Hh|done].
    + by eapply resume_nonces.
    + apply grown_ok; [done|]. intros key. by apply moves_grow.
Qed.
End Nonces.

(** ** One call alone *)

Lemma insert_last {A} (l : list A) x y : <[length l := y]> (l ++ [x]) = l ++ [y].
Proof. induction l as [|z l IH]; [done|]. simpl. by rewrite IH. Qed.
Lemma remove_put_fresh {V} k (v : V) (m : jsmap V) : get k m = None -> JsMap.remove k (put k v m) = m.
Proof.
  induction m as [|[k' v'] m IH]; simpl; [by rewrite String.eqb_refl|]. destruct (String.eqb k k') eqn:E; [done|].
  intros Hn. simpl. by rewrite E, IH.
Qed.
(** A state whose last call is [c], and what it becomes when [c] goes on. *)
Definition ending_in (q : jsmap promise) (l : list Sender.t) c (node : N) (a : list Accepted.t) : State := QueueState.mk q (l ++ [c]) node a.
Lemma resume_asks {A} q l c node a (question : Call N A) next :
  snd (ask (length l) c question next (ending_in q l c node a)) =
  let '(answer, node') := question node in
  ending_in q l (Sender.at_stage (match answer with inl e => Leaving (inl e) | inr x => next x end) c) node' a.
Proof. unfold ask, ending_in. simpl. destruct (question node) as [answer node']. unfold QueueState.with_call. simpl. by rewrite insert_last. Qed.
Lemma resume_last f q l c node a : resume_while (S f) (length l) (ending_in q l c node a) =
  match (match Sender.stage c with
         | Waiting => if settled (length (l ++ [c])) (l ++ [c]) (Sender.previous c)
             then Some (ending_in q l (Sender.at_stage Asking c) node a) else None
         | Asking => Some (let '(answer, node') := rpc_getTransactionCount (Sender.wallet c) "pending" node in
             ending_in q l (Sender.at_stage (match answer with inl e => Leaving (inl e) | inr nonce =>
               match PreparedTransaction.gasLimit (Sender.prepared c) with Some gas => Sending nonce gas | None => Estimating nonce end end) c)
               node' a)
         | Estimating nonce => Some (let '(answer, node') := rpc_estimateGas (Sender.request c) node in
             ending_in q l (Sender.at_stage (match answer with inl e => Leaving (inl e) | inr gas => Sending nonce (pretty gas) end) c) node' a)
         | Sending nonce gas => Some (let '(answer, node') := rpc_sendTransaction (Sender.request c) nonce gas node in
             match answer with
             | inl e => ending_in q l (Sender.at_stage (Leaving (inl e)) c) node' a
             | inr hash => ending_in q l (Sender.at_stage (Leaving (inr hash)) c) node' (a ++ [Accepted.mk (length l) (Sender.key c) nonce hash])
             end)
         | Leaving r => Some (ending_in (if bool_decide (get (Sender.key c) q = Some (Tail (length l))) then JsMap.remove (Sender.key c) q else q)
             l (Sender.at_stage (Left r) c) node a)
         | Left _ => None
         end) with
  | Some s' => resume_while f (length l) s'
  | None => ending_in q l c node a
  end.
Proof.
  cbn [resume_while]. unfold resume at 1. change (QueueState.calls (ending_in q l c node a)) with (l ++ [c]).
  rewrite list_lookup_middle by done. cbn [mbind option_bind]. destruct (Sender.stage c).
  - unfold QueueState.with_call, ending_in at 1. simpl. by rewrite insert_last.
  - by rewrite resume_asks.
  - by rewrite resume_asks.
  - pose proof (resume_asks q l c node a (rpc_sendTransaction (Sender.request c) nonce gasLimit) (fun hash => Leaving (inr hash))) as E.
    unfold ask in *. simpl in *. destruct (rpc_sendTransaction _ _ _ _) as [[e|h] node']; simpl in E |- *; rewrite E; done.
  - unfold leave, QueueState.with_call, QueueState.with_queues, ending_in. simpl. rewrite insert_last. by case_bool_decide.
  - done.
Qed.

#[local] Arguments resume_while : simpl never.
Lemma resume_end f q l c r node a : Sender.stage c = Leaving r -> get (Sender.key c) q = None ->
  resume_while (S (S f)) (length l) (ending_in (put (Sender.key c) (Tail (length l)) q) l c node a) =
  ending_in q l (Sender.at_stage (Left r) c) node a.
Proof.
  intros Hs Hq. rewrite resume_last, Hs, get_put_eq, bool_decide_eq_true_2, remove_put_fresh by done. by rewrite resume_last.
Qed.

(** C29: A call of a wallet that has no other call under way, and that nothing
    interleaves with, is [Evm.sendAs]: the same questions to the node, the same
    result, and a map as before. *)
Theorem send_alone_exact s wallet prepared : get (toLowerCase wallet) (QueueState.sendQueues s) = None ->
  let n := length (QueueState.calls s) in
  let s' := resume_while 6 n (enter wallet prepared s) in
  let '(result, node') := sendAs wallet prepared (QueueState.node s) in
  QueueState.node s' = node' /\ QueueState.sendQueues s' = QueueState.sendQueues s /\
  exists c, QueueState.calls s' = QueueState.calls s ++ [c] /\ Sender.stage c = Left result.
Proof.
  intros Hq. cbv zeta. unfold enter. rewrite Hq. destruct s as [q l node a]. simpl in Hq |- *.
  set (c := Sender.mk wallet prepared Resolved Waiting). set (k := toLowerCase wallet) in *.
  assert (Hend : forall f c' r node' a', Sender.key c' = k -> Sender.stage c' = Leaving r ->
    let s' := resume_while (S (S f)) (length l) (ending_in (put k (Tail (length l)) q) l c' node' a') in
    QueueState.node s' = node' /\ QueueState.sendQueues s' = q /\ exists c, QueueState.calls s' = l ++ [c] /\ Sender.stage c = Left r).
  { intros f c' r node' a' Hk Hs. cbv zeta. rewrite <- Hk, (resume_end f q l c' r) by (done || by rewrite Hk). split_and!; [done..|].
    by exists (Sender.at_stage (Left r) c'). }
  assert (Hset : settled (length (l ++ [c])) (l ++ [c]) Resolved = true) by by destruct (length (l ++ [c])).
  change (QueueState.mk (put k (Tail (length l)) q) (l ++ [c]) node a) with (ending_in (put k (Tail (length l)) q) l c node a).
  rewrite (resume_last 5). simpl. rewrite Hset, (resume_last 4). simpl. unfold sendAs, mbind, M_bind.
  destruct (rpc_getTransactionCount wallet "pending" node) as [[e|nonce] n1]; [by apply Hend|].
  rewrite (resume_last 3). simpl. unfold Sender.request. simpl. destruct (PreparedTransaction.gasLimit prepared) as [gas|]; simpl.
  - destruct (rpc_sendTransaction _ nonce gas n1) as [[e|h] n2]; by apply Hend.
  - destruct (rpc_estimateGas _ n1) as [[e|gas] n2]; simpl; [by apply (Hend 1)|]. rewrite (resume_last 2). simpl. unfold Sender.request. simpl.
    destruct (rpc_sendTransaction _ nonce (pretty gas) n2) as [[e|h] n3]; by apply (Hend 0).
Qed.
End Queue.

(** ** Witnesses *)

Section Demo.
#[local] Existing Instance demo_node.

(** The pool of the node may get longer by itself. *)
Definition demo_moves (n n' : DemoNode.t) : Prop := (length (DemoNode.pool n) <= length (DemoNode.pool n'))%nat.
Definition demo_pending (key : string) (n : DemoNode.t) : Z := Z.of_nat (length (DemoNode.pool n)).
#[local] Instance demo_pending_count : PendingCount demo_moves demo_pending.
Proof.
  split; unfold demo_pending.
  - intros wallet n k n' [= <- <-]. done.
  - intros r k gas n h n' [= <- <-]. simpl. rewrite length_app. simpl. lia.
  - done.
  - intros r n key. simpl. destruct (DemoNode.reverts n); simpl; lia.
  - intros r k gas n key. simpl. rewrite length_app. lia.
  - intros n n' key Hm. unfold demo_moves in Hm. lia.
Qed.

(** A schedule: calls of [sendAs], and the calls that go on, by number. *)
Inductive Action := Calls (wallet data : string) | Goes (n : nat).
Definition act (e : Action) (s : QueueState.t DemoNode.t) : QueueState.t DemoNode.t :=
  match e with
  | Calls wallet data => enter wallet (PreparedTransaction.mk wallet "0xto" data 1 None None None "AssetRegistry" "mint") s
  | Goes n => default s (resume n s)
  end.
Definition demo_begin : DemoNode.t := DemoNode.mk 0 [] true false.
Definition play (l : list Action) : QueueState.t DemoNode.t := fold_left (fun s e => act e s) l (QueueState.initial demo_begin).
Lemma play_reachable l : reachable demo_moves demo_begin (play l).
Proof.
  unfold play. assert (Hs : reachable demo_moves demo_begin (QueueState.initial demo_begin)) by constructor.
  revert Hs. generalize (QueueState.initial demo_begin). induction l as [|e l IH]; intros s Hs; [done|]. apply IH.
  destruct e as [wallet data|n]; simpl; [by eapply reachable_step, step_enter|].
  destruct (resume n s) eqn:E; [by eapply reachable_step, step_resume|done].
Qed.

(** Two calls of one wallet, the second tries to overtake. *)
Definition two_calls : list Action := [Calls "0xAb" "0x1"; Calls "0xab" "0x2"; Goes 1; Goes 0; Goes 1; Goes 0; Goes 1].
Definition until_done : list Action := two_calls ++ [Goes 0; Goes 0; Goes 0; Goes 1; Goes 1; Goes 1; Goes 1; Goes 1].
Definition stages (s : QueueState.t DemoNode.t) : list Stage := map Sender.stage (QueueState.calls s).

Lemma sends_take_turns_witness :
  stages (play two_calls) = [Estimating 0; Waiting] /\ get "0xab" (QueueState.sendQueues (play two_calls)) <> None /\
  stages (play until_done) = [Left (inr "hash of 0x1"); Left (inr "hash of 0x2")] /\ get "0xab" (QueueState.sendQueues (play until_done)) = None.
Proof.
  split; [vm_compute; reflexivity|]. split; [|split; [vm_compute; reflexivity|]].
  - intros Hn. rewrite (proj2 (sends_take_turns demo_moves demo_begin _ (play_reachable two_calls)) "0xab") in Hn.
    destruct (QueueState.calls (play two_calls) !! 1%nat) as [c|] eqn:Hc; [|by vm_compute in Hc].
    specialize (Hn 1%nat c Hc). vm_compute in Hc. injection Hc as <-. by specialize (Hn eq_refl).
  - apply (proj2 (sends_take_turns demo_moves demo_begin _ (play_reachable until_done)) "0xab").
    intros [|[|n]] c Hc _; vm_compute in Hc; [by injection Hc as <-|by injection Hc as <-|done].
Defined.

(** From the middle of the schedule to its end. *)
Fixpoint resume_all (ns : list nat) (s : QueueState.t DemoNode.t) : option (QueueState.t DemoNode.t) :=
  match ns with [] => Some s | n :: ns' => s' ← resume n s; resume_all ns' s' end.
Lemma resume_all_drains ns s s' : resume_all ns s = Some s' -> drains demo_moves (length ns) s s'.
Proof.
  revert s. induction ns as [|n ns IH]; simpl; intros s; [intros [= ->]; constructor|].
  destruct (resume n s) as [s1|] eqn:E; [|done]. simpl. intros Hr. eapply drains_resume; [exact E|by apply IH].
Qed.
Lemma two_calls_drain : drains demo_moves 8 (play two_calls) (play until_done).
Proof. apply (resume_all_drains [0; 0; 0; 1; 1; 1; 1; 1]%nat). vm_compute. reflexivity. Qed.
Lemma sends_drain_witness :
  (8 <= 5 * length (QueueState.calls (play two_calls)))%nat /\ QueueState.sendQueues (play until_done) = empty_map.
Proof.
  destruct (sends_drain demo_moves demo_begin _ 8 _ (play_reachable two_calls) two_calls_drain) as [Hk Hend]. split; [exact Hk|].
  apply Hend. intros [|[|n]]; reflexivity.
Defined.

Lemma nonces_rise_witness : exists a b, QueueState.accepted (play until_done) = [a; b] /\
  Accepted.key a = Accepted.key b /\ (Accepted.nonce a < Accepted.nonce b)%Z.
Proof.
  exists (Accepted.mk 0 "0xab" 0 "hash of 0x1"), (Accepted.mk 1 "0xab" 1 "hash of 0x2"). split; [vm_compute; reflexivity|]. split; [reflexivity|].
  apply (nonces_rise demo_moves demo_begin demo_pending (play until_done) 0 1 _ _ (play_reachable until_done)); [lia|reflexivity..].
Defined.

Lemma send_alone_exact_witness :
  exists c, QueueState.calls (resume_while 6 0 (play [Calls "0xAb" "0x1"])) = [c] /\ Sender.stage c = Left (inr "hash of 0x1").
Proof.
  pose proof (send_alone_exact (QueueState.initial demo_begin) "0xAb"
    (PreparedTransaction.mk "0xAb" "0xto" "0x1" 1 None None None "AssetRegistry" "mint") eq_refl) as E.
  cbv zeta in E. destruct (sendAs "0xAb" _ _) as [r node'] eqn:Er in E. vm_compute in Er. injection Er as <- _. exact (proj2 (proj2 E)).
Defined.
End Demo.
