(* ===== verification/Interleave.v ===== *)
(** * Interleave: handlers that run at the same time

    An [async] method gives way to others at each [await].  A [Prog] is such a
    method as the tree of what it awaits: a database or chain operation, which
    is one step on the shared state, and how it goes on with the answer.
    [run] performs it without giving way, which is what the other files of the
    library do; a pool of programs interleaves their steps. *)
From S2P Require Import Prelude Effects.
From stdpp Require Import relations.

Section Programs.
Context {X W : Type}.

Inductive Prog (A : Type) : Type :=
| Return (a : A)
| Throw (e : X)
| Await (B : Type) (op : M X W B) (k : B -> Prog A).
Arguments Return {A}. Arguments Throw {A}. Arguments Await {A B}.

#[global] Instance Prog_ret : MRet Prog := fun A a => Return a.
Fixpoint bind_prog {A B} (f : A -> Prog B) (p : Prog A) : Prog B :=
  match p with
  | Return a => f a
  | Throw e => Throw e
  | Await op k => Await op (fun b => bind_prog f (k b))
  end.
#[global] Instance Prog_bind : MBind Prog := fun A B f p => bind_prog f p.

(** [await op] *)
Definition await {B} (op : M X W B) : Prog B := Await op Return.
(** What needs no [await]: [if (b) throw e], [v ?? (throw e)]. *)
Definition check (b : bool) (e : X) : Prog unit := if b then Throw e else Return tt.
Definition demand {A} (o : option A) (e : X) : Prog A := match o with Some a => Return a | None => Throw e end.

Fixpoint run {A} (p : Prog A) : M X W A :=
  match p with
  | Return a => mret a
  | Throw e => throw e
  | Await op k => b ← op; run (k b)
  end.

(** Two computations do the same. *)
Lemma bind_ext {A B} (m m' : M X W A) (f f' : A -> M X W B) w :
  m w = m' w -> (forall a w1, f a w1 = f' a w1) -> (m ≫= f) w = (m' ≫= f') w.
Proof. unfold mbind, M_bind. intros -> Hf. by destruct (m' w) as [[e|a] w1]. Qed.

Lemma run_bind {A B} (p : Prog A) (f : A -> Prog B) w : run (p ≫= f) w = (a ← run p; run (f a)) w.
Proof.
  revert w. induction p as [a|e|C op k IH]; intros w; [done|done|]. simpl. rewrite bind_assoc.
  apply bind_ext; [done|]. intros c w1. apply IH.
Qed.
Lemma run_await {B} (op : M X W B) w : run (await op) w = op w.
Proof. unfold await. simpl. unfold mbind, M_bind. by destruct (op w) as [[e|b] w1]. Qed.
Lemma run_check b e w : run (check b e) w = throw_if b e w.
Proof. by destruct b. Qed.
Lemma run_demand {A} (o : option A) e w : run (demand o e) w = require o e w.
Proof. by destruct o. Qed.
(** [for (const x of l) await f(x);] *)
Fixpoint each {A} (l : list A) (f : A -> Prog unit) : Prog unit :=
  match l with
  | [] => Return tt
  | x :: l' => f x ≫= fun _ => each l' f
  end.
Lemma run_each {A} (l : list A) f g w : (forall x w, run (f x) w = g x w) -> run (each l f) w = for_each l g w.
Proof.
  intros Hf. revert w. induction l as [|x l IH]; intros w; [done|]. simpl. rewrite run_bind. apply bind_ext; [apply Hf|]. intros _ w1. apply IH.
Qed.

(** ** Interleaving *)

(** One step of a program; none if it has ended. *)
Definition advance {A} (p : Prog A) (w : W) : option (Prog A * W) :=
  match p with
  | Return _ | Throw _ => None
  | Await op k => let '(r, w') := op w in Some (match r with inl e => Throw e | inr b => k b end, w')
  end.
(** Some program of the pool makes a step. *)
Inductive turn {A} : list (Prog A) * W -> list (Prog A) * W -> Prop :=
| turn_of i p p' ps w w' : ps !! i = Some p -> advance p w = Some (p', w') -> turn (ps, w) (<[i := p']> ps, w').
Definition interleaves {A} : list (Prog A) * W -> list (Prog A) * W -> Prop := rtc turn.

Definition ended {A} (r : X + A) : Prog A := match r with inl e => Throw e | inr a => Return a end.

Lemma turn_solo {A} (p p' : Prog A) w w' : advance p w = Some (p', w') -> turn ([p], w) ([p'], w').
Proof. exact (turn_of 0 p p' [p] w w' eq_refl). Qed.
(** A program that nothing interleaves with does what [run] says. *)
Lemma run_interleaves {A} (p : Prog A) w r w' : run p w = (r, w') -> interleaves ([p], w) ([ended r], w').
Proof.
  revert w. induction p as [a|e|B op k IH]; simpl; intros w.
  - intros [= <- <-]. constructor.
  - intros [= <- <-]. constructor.
  - unfold mbind, M_bind. destruct (op w) as [[e|b] w1] eqn:E; intros Hr.
    + injection Hr as <- <-. apply rtc_once, turn_solo. simpl. by rewrite E.
    + eapply rtc_l; [|by apply IH]. apply turn_solo. simpl. by rewrite E.
Qed.

(** A schedule: the programs that make a step, by their places. *)
Fixpoint schedule {A} (l : list nat) (s : list (Prog A) * W) : list (Prog A) * W :=
  match l with
  | [] => s
  | i :: l' => schedule l' (match fst s !! i with
                            | Some p => match advance p (snd s) with Some (p', w') => (<[i := p']> (fst s), w') | None => s end
                            | None => s
                            end)
  end.
Lemma schedule_interleaves {A} l (s : list (Prog A) * W) : interleaves s (schedule l s).
Proof.
  revert s. induction l as [|i l IH]; intros s; [constructor|]. simpl. destruct s as [ps w]. simpl.
  destruct (ps !! i) as [p|] eqn:Hp; [|apply IH]. destruct (advance p w) as [[p' w']|] eqn:E; [|apply IH].
  eapply rtc_l; [by eapply turn_of|apply IH].
Qed.

(** ** A gate that lets one through *)

Section Gate.
(** What always holds of the state, and a condition on it that, once true,
    stays so. *)
Context (inv closed : W -> Prop).
Definition keeps_closed {B} (op : M X W B) : Prop :=
  forall w r w', op w = (r, w') -> inv w -> inv w' /\ (closed w -> closed w').
(** An operation that only answers yes while the gate is open, and closes it then. *)
Definition gate {B} (op : M X W B) (yes : B -> bool) : Prop :=
  keeps_closed op /\ forall w b w', op w = (inr b, w') -> inv w -> yes b = true -> ~ closed w /\ closed w'.
(** What an operation may answer. *)
Definition answers {B} (op : M X W B) (b : B) : Prop := exists w w', inv w /\ op w = (inr b, w').

(** Every step keeps the gate closed. *)
Fixpoint harmless {A} (p : Prog A) : Prop :=
  match p with
  | Return _ | Throw _ => True
  | Await op k => keeps_closed op /\ forall b, answers op b -> harmless (k b)
  end.
(** The program only returns after it has been let through the gate. *)
Fixpoint gated {A} (p : Prog A) : Prop :=
  match p with
  | Return _ => False
  | Throw _ => True
  | Await op k =>
      (keeps_closed op /\ forall b, answers op b -> gated (k b)) \/
      (exists yes, gate op yes /\ forall b, answers op b -> if yes b then harmless (k b) else gated (k b))
  end.

Lemma harmless_bind {A B} (p : Prog A) (f : A -> Prog B) : harmless p -> (forall a, harmless (f a)) -> harmless (p ≫= f).
Proof. induction p as [a|e|C op k IH]; simpl; [by auto|done|]. intros [Ho Hk] Hf. split; [done|]. intros b Hb. by apply IH; [apply Hk|]. Qed.
Lemma harmless_await {B} (op : M X W B) : keeps_closed op -> harmless (await op).
Proof. done. Qed.
Lemma harmless_answer {A B} (op : M X W B) (f : B -> Prog A) :
  keeps_closed op -> (forall b, answers op b -> harmless (f b)) -> harmless (await op ≫= f).
Proof. done. Qed.
Lemma harmless_check b e : harmless (check b e).
Proof. by destruct b. Qed.
Lemma harmless_demand {A} (o : option A) e : harmless (demand o e).
Proof. by destruct o. Qed.
Lemma harmless_each {A} (l : list A) (f : A -> Prog unit) : (forall x, harmless (f x)) -> harmless (each l f).
Proof. intros Hf. induction l as [|x l IH]; [done|]. by apply harmless_bind; [apply Hf|]. Qed.
Lemma gated_bind {A B} (p : Prog A) (f : A -> Prog B) : harmless p -> (forall a, gated (f a)) -> gated (p ≫= f).
Proof.
  induction p as [a|e|C op k IH]; simpl; [by auto|done|]. intros [Ho Hk] Hf. left. split; [done|]. intros b Hb. by apply IH; [apply Hk|].
Qed.
Lemma gated_then {A B} (p : Prog A) (f : A -> Prog B) : gated p -> (forall a, harmless (f a)) -> gated (p ≫= f).
Proof.
  induction p as [a|e|C op k IH]; simpl; [done|done|]. intros [[Ho Hk]|(yes & Hg & Hk)] Hf; [left|right].
  - split; [done|]. intros b Hb. by apply IH; [apply Hk|].
  - exists yes. split; [done|]. intros b Hb. specialize (Hk b Hb). destruct (yes b); [by apply harmless_bind|by apply IH].
Qed.
(** With what the operation may answer; through what was demanded. *)
Lemma gated_await {A B} (op : M X W B) (f : B -> Prog A) : keeps_closed op -> (forall b, answers op b -> gated (f b)) -> gated (await op ≫= f).
Proof. intros Ho Hf. by left. Qed.
Lemma gated_demand {A B} (o : option B) e (f : B -> Prog A) : (forall b, o = Some b -> gated (f b)) -> gated (demand o e ≫= f).
Proof. destruct o; intros Hf; [by apply Hf|done]. Qed.
(** Through the gate, or a refusal. *)
Lemma gated_pass {A B} (op : M X W B) yes (f : B -> Prog A) :
  gate op yes -> (forall b, if yes b then harmless (f b) else gated (f b)) -> gated (await op ≫= f).
Proof. intros Hg Hf. right. exists yes. split; [done|]. intros b _. apply Hf. Qed.

(** A program that cannot return while the gate is closed. *)
Fixpoint barred {A} (p : Prog A) : Prop :=
  match p with
  | Return _ => False
  | Throw _ => True
  | Await op k => keeps_closed op /\ forall w b w', op w = (inr b, w') -> inv w -> closed w -> barred (k b)
  end.
Lemma gated_barred {A} (p : Prog A) : gated p -> barred p.
Proof.
  induction p as [a|e|B op k IH]; simpl; [done|done|]. intros [[Ho Hk]|(yes & [Ho Hg] & Hk)].
  - split; [done|]. intros w b w' E Hi _. apply IH, Hk. by exists w, w'.
  - split; [done|]. intros w b w' E Hi Hc. assert (Hb : answers op b) by by exists w, w'. specialize (Hk b Hb).
    destruct (yes b) eqn:Hy; [|by apply IH]. by destruct (Hg _ _ _ E Hi Hy).
Qed.
Lemma barred_bind {A B} (p : Prog A) (f : A -> Prog B) : barred p -> barred (p ≫= f).
Proof. induction p as [a|e|C op k IH]; simpl; [done|done|]. intros [Ho Hk]. split; [done|]. intros w b w' E Hi Hc. by eapply IH, Hk. Qed.
Lemma barred_skip {A B} (p : Prog A) (f : A -> Prog B) : harmless p -> (forall a, barred (f a)) -> barred (p ≫= f).
Proof.
  induction p as [a|e|C op k IH]; simpl; [by auto|done|]. intros [Ho Hk] Hf. split; [done|]. intros w b w' E Hi _.
  apply IH; [|done]. apply Hk. by exists w, w'.
Qed.
Lemma barred_await {A B} (op : M X W B) (f : B -> Prog A) :
  keeps_closed op -> (forall w b w', op w = (inr b, w') -> inv w -> closed w -> barred (f b)) -> barred (await op ≫= f).
Proof. done. Qed.

(** What a harmless program returns with. *)
Fixpoint sound {A} (Q : A -> Prop) (p : Prog A) : Prop :=
  match p with
  | Return a => Q a
  | Throw _ => True
  | Await op k => keeps_closed op /\ forall b, answers op b -> sound Q (k b)
  end.
Lemma sound_bind {A B} (Q : A -> Prop) (R : B -> Prop) (p : Prog A) f :
  sound Q p -> (forall a, Q a -> sound R (f a)) -> sound R (p ≫= f).
Proof. induction p as [a|e|C op k IH]; simpl; [by auto|done|]. intros [Ho Hk] Hf. split; [done|]. intros b Hb. by apply IH; [apply Hk|]. Qed.
Lemma sound_await {B} (Q : B -> Prop) (op : M X W B) : keeps_closed op -> (forall b, answers op b -> Q b) -> sound Q (await op).
Proof. done. Qed.
Lemma sound_demand {A} (Q : A -> Prop) (o : option A) e : (forall a, o = Some a -> Q a) -> sound Q (demand o e).
Proof. destruct o; simpl; auto. Qed.
Lemma harmless_after {A B} (Q : A -> Prop) (p : Prog A) (f : A -> Prog B) :
  sound Q p -> (forall a, Q a -> harmless (f a)) -> harmless (p ≫= f).
Proof. induction p as [a|e|C op k IH]; simpl; [by auto|done|]. intros [Ho Hk] Hf. split; [done|]. intros b Hb. by apply IH; [apply Hk|]. Qed.
Lemma gated_after {A B} (Q : A -> Prop) (p : Prog A) (f : A -> Prog B) :
  sound Q p -> (forall a, Q a -> gated (f a)) -> gated (p ≫= f).
Proof. induction p as [a|e|C op k IH]; simpl; [by auto|done|]. intros [Ho Hk] Hf. left. split; [done|]. intros b Hb. by apply IH; [apply Hk|]. Qed.
Lemma barred_after {A B} (Q : A -> Prop) (p : Prog A) (f : A -> Prog B) :
  sound Q p -> (forall a, Q a -> barred (f a)) -> barred (p ≫= f).
Proof.
  induction p as [a|e|C op k IH]; simpl; [by auto|done|]. intros [Ho Hk] Hf. split; [done|]. intros w b w' E Hi Hc.
  apply IH; [|done]. apply Hk. by exists w, w'.
Qed.
Lemma harmless_sound {A} (Q : A -> Prop) (p : Prog A) : sound Q p -> harmless p.
Proof. induction p as [a|e|C op k IH]; simpl; [done|done|]. intros [Ho Hk]. split; [done|]. intros b Hb. by apply IH, Hk. Qed.

(** The programs of a pool that must pass the gate, by their places. *)
Context {A : Type} (guarded : nat -> bool).
Definition proper (winner : option nat) (i : nat) (p : Prog A) : Prop :=
  if bool_decide (winner = Some i) then harmless p else if guarded i then gated p else harmless p.
Definition one_through (s : list (Prog A) * W) : Prop :=
  inv (snd s) /\ exists winner, (is_Some winner -> closed (snd s)) /\ forall i p, fst s !! i = Some p -> proper winner i p.

Lemma harmless_advance (p : Prog A) w p' w' : harmless p -> inv w -> advance p w = Some (p', w') ->
  harmless p' /\ inv w' /\ (closed w -> closed w').
Proof.
  destruct p as [a|e|B op k]; [done|done|]. simpl. intros [Ho Hk] Hi. destruct (op w) as [r w1] eqn:E. intros [= <- <-].
  destruct (Ho _ _ _ E Hi) as [Hi' Hc]. split; [|done]. destruct r as [e|b]; [done|]. apply Hk. by exists w, w1.
Qed.
Lemma gated_advance (p : Prog A) w p' w' : gated p -> inv w -> advance p w = Some (p', w') ->
  inv w' /\ (closed w -> closed w') /\ (gated p' \/ (harmless p' /\ ~ closed w /\ closed w')).
Proof.
  destruct p as [a|e|B op k]; [done|done|]. simpl. intros Hg Hi. destruct (op w) as [r w1] eqn:E. intros [= <- <-].
  destruct Hg as [[Ho Hk]|(yes & [Ho Hyes] & Hk)]; destruct (Ho _ _ _ E Hi) as [Hi' Hc]; (split; [done|]); (split; [done|]);
    destruct r as [e|b]; try by left.
  - left. apply Hk. by exists w, w1.
  - assert (Hb : answers op b) by by exists w, w1. specialize (Hk b Hb). destruct (yes b) eqn:Hy; [|by left].
    right. split; [done|]. by eapply Hyes.
Qed.
Lemma barred_advance (p : Prog A) w p' w' : barred p -> inv w -> closed w -> advance p w = Some (p', w') -> inv w' /\ closed w' /\ barred p'.
Proof.
  destruct p as [a|e|B op k]; [done|done|]. simpl. intros [Ho Hk] Hi Hc. destruct (op w) as [r w1] eqn:E. intros [= <- <-].
  destruct (Ho _ _ _ E Hi) as [Hi' Hc']. split_and!; [done|by apply Hc'|]. destruct r as [e|b]; [done|]. by eapply Hk.
Qed.
Lemma one_through_turn s s' : one_through s -> turn s s' -> one_through s'.
Proof.
  intros (Hinv & winner & Hw & Hp) Hs. destruct Hs as [i p p' ps w w' Hi E]. simpl in *.
  assert (Hothers : forall win : option nat, (forall j q, j <> i -> ps !! j = Some q -> proper win j q) -> proper win i p' ->
    forall j q, <[i := p']> ps !! j = Some q -> proper win j q).
  { intros win Ho Hi' j q. destruct (decide (j = i)) as [->|Hj].
    - rewrite list_lookup_insert_eq by by eapply lookup_lt_Some. by intros [= <-].
    - rewrite list_lookup_insert_ne by done. by apply Ho. }
  assert (Hsame : inv w' /\ (closed w -> closed w') -> proper winner i p' -> one_through (<[i := p']> ps, w')).
  { intros [Hi' Hc] Hpi. split; [done|]. exists winner. split; [auto|]. apply Hothers; [|done]. intros j q _. apply Hp. }
  pose proof (Hp i p Hi) as Hpi. unfold proper in Hpi, Hsame. case_bool_decide as Hwin.
  { destruct (harmless_advance _ _ _ _ Hpi Hinv E) as [Hh Hc]. by apply Hsame. }
  destruct (guarded i) eqn:Hg; [|destruct (harmless_advance _ _ _ _ Hpi Hinv E) as [Hh Hc]; by apply Hsame].
  destruct (gated_advance _ _ _ _ Hpi Hinv E) as (Hi' & Hc & [Hgd|(Hh & Hopen & Hclosed)]); [by apply Hsame|].
  split; [done|]. exists (Some i). split; [done|]. apply Hothers; unfold proper; [|by rewrite bool_decide_eq_true_2].
  intros j q Hj Hq. rewrite bool_decide_eq_false_2 by congruence. specialize (Hp j q Hq). unfold proper in Hp.
  rewrite bool_decide_eq_false_2 in Hp; [done|]. intros ->. apply Hopen, Hw. by eexists.
Qed.
Lemma one_through_run s s' : one_through s -> interleaves s s' -> one_through s'.
Proof. intros Hs Hr. induction Hr as [s|s s1 s2 Ht _ IH]; [done|]. by eapply IH, one_through_turn. Qed.

(** Of the programs that must pass the gate at most one returns. *)
Lemma at_most_one (ps ps' : list (Prog A)) (w w' : W) : inv w ->
  (forall i p, ps !! i = Some p -> if guarded i then gated p else harmless p) -> interleaves (ps, w) (ps', w') ->
  forall i j (a b : A), guarded i = true -> guarded j = true -> ps' !! i = Some (Return a) -> ps' !! j = Some (Return b) -> i = j.
Proof.
  intros Hinv Hp Hr i j a b Hi Hj Hpi Hpj.
  assert (Hs : one_through (ps, w)) by (split; [done|]; exists None; split; [by intros []|exact Hp]).
  apply (one_through_run _ _ Hs) in Hr as (_ & winner & _ & Hp'). simpl in Hp'.
  assert (Hwin : forall k c, guarded k = true -> ps' !! k = Some (Return c) -> winner = Some k).
  { intros k c Hk Hc. specialize (Hp' k _ Hc). unfold proper in Hp'. rewrite Hk in Hp'. by case_bool_decide. }
  rewrite (Hwin i a Hi Hpi) in Hwin. specialize (Hwin j b Hj Hpj). congruence.
Qed.
(** None does if it was closed from the start; nor does a program that
    cannot get to its end while the gate is closed. *)
Definition none_through (s : list (Prog A) * W) : Prop :=
  inv (snd s) /\ closed (snd s) /\ forall i p, fst s !! i = Some p -> if guarded i then barred p else harmless p.
Lemma none_through_turn s s' : none_through s -> turn s s' -> none_through s'.
Proof.
  intros (Hinv & Hcl & Hp) Hs. destruct Hs as [i p p' ps w w' Hi E]. simpl in *. pose proof (Hp i p Hi) as Hpi.
  assert (Hnew : inv w' /\ closed w' /\ (if guarded i then barred p' else harmless p')).
  { destruct (guarded i).
    - by eapply barred_advance.
    - destruct (harmless_advance _ _ _ _ Hpi Hinv E) as (? & ? & Hc). by split_and!; [|apply Hc|]. }
  destruct Hnew as (? & ? & Hp'). split_and!; [done..|]. simpl. intros j q. destruct (decide (j = i)) as [->|Hj].
  - rewrite list_lookup_insert_eq by by eapply lookup_lt_Some. by intros [= <-].
  - rewrite list_lookup_insert_ne by done. by apply Hp.
Qed.
Lemma none_passes (ps ps' : list (Prog A)) (w w' : W) : inv w -> closed w ->
  (forall i p, ps !! i = Some p -> if guarded i then barred p else harmless p) -> interleaves (ps, w) (ps', w') ->
  forall i a, guarded i = true -> ps' !! i <> Some (Return a).
Proof.
  intros Hinv Hcl Hp Hr i a Hi Hpi. assert (Hs : none_through (ps, w)) by done.
  assert (Hs' : none_through (ps', w')).
  { remember (ps', w') as s' eqn:Es. clear Es. induction Hr as [s|s s1 s2 Ht _ IH]; [done|]. by eapply IH, none_through_turn. }
  destruct Hs' as (_ & _ & Hp'). specialize (Hp' i _ Hpi). by rewrite Hi in Hp'.
Qed.
Lemma none_returns (ps ps' : list (Prog A)) (w w' : W) : inv w -> closed w ->
  (forall i p, ps !! i = Some p -> if guarded i then gated p else harmless p) -> interleaves (ps, w) (ps', w') ->
  forall i a, guarded i = true -> ps' !! i <> Some (Return a).
Proof.
  intros Hinv Hcl Hp. apply none_passes; [done|done|]. intros i p Hi. specialize (Hp i p Hi). destruct (guarded i); [by apply gated_barred|done].
Qed.
(** Harmless programs keep what always holds, and the gate closed. *)
Lemma harmless_pool (ps ps' : list (Prog A)) (w w' : W) :
  (forall i p, ps !! i = Some p -> harmless p) -> inv w -> interleaves (ps, w) (ps', w') -> inv w' /\ (closed w -> closed w').
Proof.
  intros Hp Hi Hr. remember (ps, w) as s eqn:Es. remember (ps', w') as s' eqn:Es'. revert ps w Hp Hi Es.
  induction Hr as [s|s s1 s2 Ht _ IH]; intros ps w Hp Hi ->; [by injection Es' as <- <-|].
  inversion Ht as [j p p' qs u u' Hj E]; subst. destruct (harmless_advance _ _ _ _ (Hp j p Hj) Hi E) as (Hp' & Hi' & Hc).
  destruct (IH eq_refl (<[j := p']> ps) u') as [Hi2 Hc2]; [|done|done|by split; [|auto]].
  intros k q. destruct (decide (k = j)) as [->|Hk].
  - rewrite list_lookup_insert_eq by by eapply lookup_lt_Some. by intros [= <-].
  - rewrite list_lookup_insert_ne by done. apply Hp.
Qed.
Lemma harmless_run (p : Prog A) w r w' : harmless p -> inv w -> run p w = (r, w') -> inv w'.
Proof.
  intros Hp Hi Hr%run_interleaves. refine (proj1 (harmless_pool _ _ _ _ _ Hi Hr)). intros i q Hq. by apply list_lookup_singleton_Some in Hq as [_ <-].
Qed.
End Gate.
End Programs.
Arguments Prog X W A : clear implicits.
Arguments Return {X W A}. Arguments Throw {X W A}. Arguments Await {X W A B}.

(** [run] of a program against the method it stands for, [await] by [await];
    [auto with bel] for the parts that are programs themselves. *)
Ltac same_run :=
  repeat first
    [ rewrite run_bind; apply bind_ext; [|intros]
    | rewrite run_await | rewrite run_check | rewrite run_demand | apply run_each; intros
    | progress (cbv zeta)
    | done
    | solve [auto with bel]
    | lazymatch goal with |- run (match ?x with _ => _ end) _ = _ => destruct x end ].
