(* ===== verification/AuthRaces.v ===== *)
(** * AuthRaces: the authentication service under concurrency

    Every method of [backend/src/auth/auth.service.ts] as the program of its
    [await]s; without interleaving each is the method of [Auth]. *)
From S2P Require Import Prelude Effects JsString JsMap JsValue Crypto Shared Errors World Repositories Auth AuthCorrect MockChain Concrete Interleave.
Local Open Scope string_scope.
Local Open Scope list_scope.

Section Programs.
Context `{PF : Platform} {C : Type}.
Abbreviation W := (World C).
Abbreviation P := (Prog exn (World C)).

(** [device ? await findById(device.identityId) : null] and the like *)
Definition identity_of_device_steps (device : option Device.t) : P (option Identity.t) :=
  match device with Some d => await (identities_findById (Device.identityId d)) | None => mret None end.
Definition user_of_steps (identity : option Identity.t) : P (option User.t) :=
  match identity with Some i => await (users_findByIdentityId (Identity.identityId i)) | None => mret None end.
Definition wallets_of_identity_steps (identity : option Identity.t) : P (list Wallet.t) :=
  match identity with Some i => await (wallets_listByIdentityId (Identity.identityId i)) | None => mret [] end.

(** The challenge is made and handed to the repository at once. *)
Definition issue (deviceId : string) (purpose : ChallengePurpose) (minutes : Z) (metadata : option payload) : M exn W ProvisioningChallenge.t :=
  challengeId ← randomUUID;
  challenge ← randomChallenge;
  t ← now;
  let ch := ProvisioningChallenge.mk challengeId deviceId challenge purpose (toISOString (t + minutes * 60 * 1000)%Z) None metadata in
  challenges_save ch;;
  mret ch.

Definition requestAuthenticationChallenge_steps (deviceId : string) : P ProvisioningChallenge.t :=
  device ← await (devices_findById deviceId);
  identity ← identity_of_device_steps device;
  wallets ← wallets_of_identity_steps identity;
  let wallet := find_wallet (fun x => wallet_active x && String.eqb (Wallet.deviceId x) deviceId) wallets in
  check (negb (device_active device) || negb (identity_active identity) || negb (bool_decide (is_Some wallet))) inactive;;
  await (issue deviceId AUTHENTICATION 5 None).

Definition activeSession_steps (session : SessionRecord.t) : P bool :=
  identity ← await (identities_findById (SessionRecord.identityId session));
  device ← await (devices_findById (SessionRecord.deviceId session));
  wallet ← await (wallets_findByAddress (SessionRecord.walletAddress session));
  mret (match identity, device, wallet with
        | Some i, Some d, Some x =>
            bool_decide (Identity.status i = Identity_ACTIVE) && bool_decide (Device.status d = ACTIVE) &&
            wallet_active x && String.eqb (Wallet.deviceId x) (Device.deviceId d) &&
            String.eqb (Wallet.identityId x) (Identity.identityId i)
        | _, _, _ => false
        end).
Definition require_session_steps (token : string) : P SessionRecord.t :=
  found ← await (sessions_find token);
  session ← demand found default_unauthorized;
  t ← await now;
  check (num_le (SessionRecord.expiresAt session) (num_of_Z t)) default_unauthorized;;
  ok ← activeSession_steps session;
  check (negb ok) default_unauthorized;;
  mret session.

Definition requestFreshAuthenticationChallenge_steps (token operation : string) (resourceId : option string) : P ProvisioningChallenge.t :=
  session ← require_session_steps token;
  check (blank operation) (UnauthorizedError "Fresh-auth operation is required");;
  await (issue (SessionRecord.deviceId session) FRESH_AUTHENTICATION 2
    (Some [("operation", VStr (trim operation));
           ("resourceId", let r := trim <$> resourceId in if truthy_string r then nullable r else VNull);
           ("sessionHash", VStr (sessionHash token))])).

Definition verifyFreshAuthentication_steps (token : string) (input : FreshAuthProofInput.t) (operation : string)
    (resourceId : option string) : P unit :=
  session ← require_session_steps token;
  found ← await (challenges_findById (FreshAuthProofInput.challengeId input));
  ch ← demand found (UnauthorizedError "Invalid fresh-authentication challenge");
  check (negb (fresh_challenge_ok ch session token operation resourceId))
    (UnauthorizedError "Invalid fresh-authentication challenge");;
  t ← await now;
  check (expired (ProvisioningChallenge.expiresAt ch) t)
    (UnauthorizedError "Fresh-authentication challenge has expired");;
  device ← await (devices_findById (SessionRecord.deviceId session));
  identity ← identity_of_device_steps device;
  wallets ← wallets_of_identity_steps identity;
  let wallet := find_wallet (fun x => String.eqb (Wallet.address x) (SessionRecord.walletAddress session) &&
    wallet_active x && String.eqb (Wallet.deviceId x) (SessionRecord.deviceId session)) wallets in
  match device, identity, wallet with
  | Some d, Some i, Some x =>
      check (negb (bool_decide (Device.status d = ACTIVE)) || negb (bool_decide (Identity.status i = Identity_ACTIVE)) ||
        negb (truthy_string (Device.publicKey d)) ||
        negb (bool_decide (Device.publicKey d = Some (FreshAuthProofInput.publicKey input)))) inactive;;
      let key := default "" (Device.publicKey d) in
      check (evmCryptoEnabled && negb (bool_decide (is_Some (assertWalletMatchesPublicKey (Wallet.address x) key))))
        (UnauthorizedError "Wallet address does not match device public key");;
      check (negb (verifyProof (ProvisioningChallenge.challenge ch) key (FreshAuthProofInput.signature input)))
        (UnauthorizedError "Invalid fresh-authentication proof");;
      usedAt ← await nowISO;
      ok ← await (consumeIfUnused (ProvisioningChallenge.challengeId ch) usedAt);
      check (negb ok) (UnauthorizedError "Fresh-authentication challenge has already been used")
  | _, _, _ => Throw inactive
  end.

Definition loginWithProof_steps (input : LoginProofInput.t) : P (User.t * string) :=
  found ← await (challenges_findById (LoginProofInput.challengeId input));
  ch ← demand found (UnauthorizedError "Invalid authentication challenge");
  check (negb (bool_decide (ProvisioningChallenge.purpose ch = AUTHENTICATION)) ||
         truthy_string (ProvisioningChallenge.usedAt ch) ||
         negb (String.eqb (ProvisioningChallenge.deviceId ch) (LoginProofInput.deviceId input)))
    (UnauthorizedError "Invalid authentication challenge");;
  t ← await now;
  check (expired (ProvisioningChallenge.expiresAt ch) t) (UnauthorizedError "Authentication challenge has expired");;
  device ← await (devices_findById (LoginProofInput.deviceId input));
  identity ← identity_of_device_steps device;
  user ← user_of_steps identity;
  wallets ← wallets_of_identity_steps identity;
  let wallet := find_wallet (fun x => wallet_active x && String.eqb (Wallet.deviceId x) (LoginProofInput.deviceId input)) wallets in
  match device, identity, user, wallet with
  | Some d, Some i, Some u, Some x =>
      check (negb (bool_decide (Device.status d = ACTIVE)) || negb (identity_complete i) ||
        negb (bool_decide (Identity.status i = Identity_ACTIVE)) || negb (truthy_string (Device.publicKey d)) ||
        negb (bool_decide (Device.publicKey d = Some (LoginProofInput.publicKey input)))) inactive;;
      role ← demand (Identity.role i) inactive;
      let key := default "" (Device.publicKey d) in
      check (evmCryptoEnabled && negb (bool_decide (is_Some (assertWalletMatchesPublicKey (Wallet.address x) key))))
        (UnauthorizedError "Wallet address does not match device public key");;
      check (negb (verifyProof (ProvisioningChallenge.challenge ch) key (LoginProofInput.signature input)))
        (UnauthorizedError "Invalid authentication proof");;
      usedAt ← await nowISO;
      ok ← await (consumeIfUnused (ProvisioningChallenge.challengeId ch) usedAt);
      check (negb ok) (UnauthorizedError "Authentication challenge has already been used");;
      await (open_session u i role d x)
  | _, _, _, _ => Throw inactive
  end.

Definition login_credential_steps (deviceCredential : string) : P (User.t * string) :=
  check is_production (ForbiddenError "Legacy device-credential login is disabled in production");;
  check (blank deviceCredential) (UnauthorizedError "Invalid device credential");;
  deviceId ← await (credentials_findDeviceId (hashCredential deviceCredential));
  check (negb (truthy_string deviceId)) (UnauthorizedError "Invalid device credential");;
  device ← await (devices_findById (default "" deviceId));
  identity ← identity_of_device_steps device;
  user ← user_of_steps identity;
  wallets ← wallets_of_identity_steps identity;
  let wallet := find_wallet wallet_active wallets in
  match device, identity, user, wallet with
  | Some d, Some i, Some u, Some x =>
      check (negb (bool_decide (Device.status d = ACTIVE)) || negb (identity_complete i) ||
        negb (String.eqb (Wallet.deviceId x) (Device.deviceId d))) inactive;;
      role ← demand (Identity.role i) inactive;
      check (negb (bool_decide (Identity.status i = Identity_ACTIVE)))
        (ForbiddenError ("Identity is " +:+ IdentityStatus_string (Identity.status i)));;
      await (open_session u i role d x)
  | _, _, _, _ => Throw inactive
  end.
Definition login_steps (input : LoginInput) : P (User.t * string) :=
  match input with
  | Credential s => login_credential_steps s
  | Proof_of p => loginWithProof_steps p
  end.

Definition validateSession_steps (token : string) : P (option User.t) :=
  found ← await (sessions_find token);
  match found with
  | None => mret None
  | Some session =>
      t ← await now;
      if num_le (SessionRecord.expiresAt session) (num_of_Z t) then await (sessions_delete token);; mret None
      else
        identity ← await (identities_findById (SessionRecord.identityId session));
        device ← await (devices_findById (SessionRecord.deviceId session));
        wallet ← await (wallets_findByAddress (SessionRecord.walletAddress session));
        user ← user_of_steps identity;
        match session_user identity device wallet user with
        | None => await (sessions_delete token);; mret None
        | Some u => mret (Some u)
        end
  end.
Definition logout_steps (token : string) : P unit := await (sessions_delete token).

(** A call of the service, its result dropped. *)
Definition auth_program (c : auth_call) : P unit :=
  match c with
  | Auth_request d => requestAuthenticationChallenge_steps d;; mret tt
  | Auth_request_fresh t o r => requestFreshAuthenticationChallenge_steps t o r;; mret tt
  | Auth_verify_fresh t p o r => verifyFreshAuthentication_steps t p o r
  | Auth_login i => login_steps i;; mret tt
  | Auth_validate t => validateSession_steps t;; mret tt
  | Auth_logout t => logout_steps t
  end.

(** ** Without interleaving *)

Lemma run_identity_of_device d (w : W) : run (identity_of_device_steps d) w = identity_of_device d w.
Proof. by destruct d. Qed.
Lemma run_user_of i (w : W) : run (user_of_steps i) w = user_of i w.
Proof. by destruct i. Qed.
Lemma run_wallets_of_identity i (w : W) : run (wallets_of_identity_steps i) w = wallets_of_identity i w.
Proof. by destruct i. Qed.
Lemma run_activeSession s (w : W) : run (activeSession_steps s) w = activeSession s w.
Proof. unfold activeSession_steps, activeSession. same_run. Qed.
Hint Resolve run_identity_of_device run_user_of run_wallets_of_identity run_activeSession : bel.
Lemma run_require_session t (w : W) : run (require_session_steps t) w = require_session t w.
Proof. unfold require_session_steps, require_session. same_run. Qed.
Hint Resolve run_require_session : bel.
Lemma run_auth_program c (w : W) : run (auth_program c) w = run_auth c w.
Proof.
  destruct c as [d|t o r|t p o r|i|t|t]; cbn [auth_program run_auth].
  - unfold requestAuthenticationChallenge_steps, requestAuthenticationChallenge. same_run.
  - unfold requestFreshAuthenticationChallenge_steps, requestFreshAuthenticationChallenge. same_run.
  - unfold verifyFreshAuthentication_steps, verifyFreshAuthentication. same_run.
  - destruct i as [s|p]; cbn [login_steps login];
      [unfold login_credential_steps, login_credential|unfold loginWithProof_steps, loginWithProof]; same_run.
  - unfold validateSession_steps, validateSession. same_run.
  - same_run.
Qed.
End Programs.

(** ** One challenge, many callers *)

Section Races.
Context `{PF : Platform} `{!PlatformLaws PF} {C : Type} (id : string).
Abbreviation W := (World C).
Abbreviation P := (Prog exn (World C)).
Abbreviation closed := (@challenge_used C id).
Abbreviation inv := (@challenges_drawn PF C).

Lemma step_kept {A} (op : M exn W A) : (forall w r w', op w = (r, w') -> challenge_step w w') -> keeps_closed inv closed op.
Proof. intros Hop w r w' E%Hop Hd. split; [by eapply drawn_step|]. intros Hu. by eapply used_step. Qed.
Lemma read_kept {A} (op : M exn W A) : keeps challenge_state op -> keeps_closed inv closed op.
Proof. intros Hop. apply step_kept. intros w r w' E. by eapply kept_challenge_step. Qed.
Lemma issue_kept d purpose minutes metadata : keeps_closed inv closed (issue d purpose minutes metadata).
Proof.
  apply step_kept. intros w r w' [= _ <-]. eapply (challenge_issue w _ (w_uuidReads w)); [| | |simpl; reflexivity]; simpl; try done; lia.
Qed.
Lemma session_kept u i role d x : keeps_closed inv closed (open_session u i role d x).
Proof. apply step_kept. intros w r w' [? ?]%open_session_step. by apply challenge_same. Qed.
Lemma consume_kept k t : t <> "" -> keeps_closed inv closed (consumeIfUnused k t).
Proof. intros Ht. apply step_kept. intros w r w' E. by eapply consume_step. Qed.
(** Only one caller is told that the challenge was unused. *)
Lemma consume_gate t : t <> "" -> gate inv closed (consumeIfUnused id t) (fun b => b).
Proof.
  intros Ht. split; [by apply consume_kept|]. intros w b w' E _ ->. apply consumeIfUnused_inv in E. unfold challenge_used.
  destruct (get id (w_challenges w)) as [ch|] eqn:Hch; [|by destruct E].
  destruct (truthy_string (ProvisioningChallenge.usedAt ch)) eqn:Hu; [by destruct E|].
  destruct E as [_ ->]. split; [intros (ch' & [= <-] & Hu'); congruence|]. simpl. rewrite get_put_eq. eexists. split; [done|].
  simpl. by apply negb_true_iff, bool_decide_eq_false.
Qed.
Lemma answer_time t : answers inv (nowISO : M exn W string) t -> t <> "".
Proof. intros (w & w' & _ & [[= ->] _]%nowISO_inv). apply toISOString_nonempty. Qed.
Lemma answer_challenge k ch : answers inv (challenges_findById k : M exn W _) (Some ch) -> ProvisioningChallenge.challengeId ch = k.
Proof. intros (w & w' & Hd & E). unfold challenges_findById, gets in E. injection E as E _. by apply Hd in E as [? _]. Qed.

Abbreviation safe := (harmless inv closed).
Abbreviation guarded := (gated inv closed).
(** [safe] programs piece by piece. *)
Ltac safely :=
  repeat lazymatch goal with
    | |- harmless _ _ (mbind _ (check _ _)) => apply harmless_bind; [apply harmless_check|intros]
    | |- harmless _ _ (mbind _ _) => apply harmless_bind; [|intros]
    | |- harmless _ _ (await _) => apply harmless_await;
        first [apply issue_kept | apply session_kept |
          apply read_kept; solve [apply keeps_now_challenges|apply keeps_nowISO_challenges|auto with bel|rframe]]
    | |- harmless _ _ (check _ _) => apply harmless_check
    | |- harmless _ _ (demand _ _) => apply harmless_demand
    | |- harmless _ _ (mret _) => done
    | |- harmless _ _ (Throw _) => done
    | |- harmless _ _ (match ?x with _ => _ end) => destruct x
    end; try done.
Lemma safe_identity d : safe (identity_of_device_steps d).
Proof. unfold identity_of_device_steps. safely. Qed.
Lemma safe_user i : safe (user_of_steps i).
Proof. unfold user_of_steps. safely. Qed.
Lemma safe_wallets i : safe (wallets_of_identity_steps i).
Proof. unfold wallets_of_identity_steps. safely. Qed.
Lemma safe_session t : safe (require_session_steps t).
Proof. unfold require_session_steps, activeSession_steps. safely. Qed.
#[local] Hint Resolve safe_identity safe_user safe_wallets safe_session : bel.
Ltac safe_parts := safely; auto with bel.

Lemma safe_request d : safe (requestAuthenticationChallenge_steps d).
Proof. unfold requestAuthenticationChallenge_steps. by safe_parts. Qed.
Lemma safe_request_fresh t o r : safe (requestFreshAuthenticationChallenge_steps t o r).
Proof. unfold requestFreshAuthenticationChallenge_steps. by safe_parts. Qed.
Lemma safe_credential s : safe (login_credential_steps s).
Proof. unfold login_credential_steps. by safe_parts. Qed.
Lemma safe_validate t : safe (validateSession_steps t).
Proof. unfold validateSession_steps. by safe_parts. Qed.
(** The end of both proofs, for this or another challenge. *)
Lemma safe_consume k t {A} (f : bool -> P A) : t <> "" -> (forall b, safe (f b)) -> safe (ok ← await (consumeIfUnused k t); f ok).
Proof. intros Ht Hf. apply harmless_answer; [by apply consume_kept|by intros b _]. Qed.
Lemma guarded_consume t {A} e (f : P A) : t <> "" -> safe f -> guarded (ok ← await (consumeIfUnused id t); check (negb ok) e;; f).
Proof. intros Ht Hf. eapply gated_pass; [by apply consume_gate|]. intros []; [by apply harmless_bind|done]. Qed.

Lemma safe_time {A} (f : string -> P A) : (forall t, t <> "" -> safe (f t)) -> safe (t ← await nowISO; f t).
Proof. intros Hf. apply harmless_answer; [apply read_kept, keeps_nowISO_challenges|]. intros t Ht. by apply Hf, answer_time. Qed.
Lemma guarded_time {A} (f : string -> P A) : (forall t, t <> "" -> guarded (f t)) -> guarded (t ← await nowISO; f t).
Proof. intros Hf. apply gated_await; [apply read_kept, keeps_nowISO_challenges|]. intros t Ht. by apply Hf, answer_time. Qed.
(** The found challenge is the one asked for. *)
Lemma guarded_find {A} k e (f : ProvisioningChallenge.t -> P A) : (forall ch, ProvisioningChallenge.challengeId ch = k -> guarded (f ch)) ->
  guarded (found ← await (challenges_findById k); ch ← demand found e; f ch).
Proof.
  intros Hf. apply gated_await; [apply read_kept; rframe|]. intros found Hfound. apply gated_demand. intros ch ->.
  by apply Hf, answer_challenge.
Qed.
Ltac guardedly :=
  repeat lazymatch goal with
    | |- gated _ _ (mbind _ (check _ _)) => apply gated_bind; [apply harmless_check|intros]
    | |- gated _ _ (mbind _ (demand _ _)) => apply gated_bind; [apply harmless_demand|intros]
    | |- gated _ _ (mbind _ (await nowISO)) => apply guarded_time; intros
    | |- gated _ _ (mbind _ (await (challenges_findById _))) => apply guarded_find; intros
    | |- gated _ _ (mbind _ (await (consumeIfUnused _ _))) => fail
    | |- gated _ _ (mbind _ _) => apply gated_bind; [by safe_parts|intros]
    | |- gated _ _ (match ?x with _ => _ end) => destruct x
    end.
Lemma guarded_login p : LoginProofInput.challengeId p = id -> guarded (loginWithProof_steps p).
Proof.
  intros Hid. unfold loginWithProof_steps. rewrite Hid. guardedly; try done.
  match goal with Hch : ProvisioningChallenge.challengeId _ = id |- _ => rewrite Hch end. apply guarded_consume; [done|by safe_parts].
Qed.
Lemma guarded_verify t p o r : FreshAuthProofInput.challengeId p = id -> guarded (verifyFreshAuthentication_steps t p o r).
Proof.
  intros Hid. unfold verifyFreshAuthentication_steps. rewrite Hid. guardedly; try done.
  match goal with Hch : ProvisioningChallenge.challengeId _ = id |- _ => rewrite Hch end.
  eapply gated_pass; [by apply consume_gate|]. by intros [].
Qed.
(** A proof for any challenge. *)
Ltac safely_consumes :=
  repeat lazymatch goal with
    | |- harmless _ _ (mbind _ (await nowISO)) => apply safe_time; intros
    | |- harmless _ _ (mbind _ (await (consumeIfUnused _ _))) => apply safe_consume; [done|intros]
    | |- harmless _ _ (mbind _ _) => apply harmless_bind; [by safe_parts|intros]
    | |- harmless _ _ (match ?x with _ => _ end) => destruct x
    | |- _ => by safe_parts
    end.
Lemma safe_login p : safe (loginWithProof_steps p).
Proof. unfold loginWithProof_steps. safely_consumes. Qed.
Lemma safe_verify t p o r : safe (verifyFreshAuthentication_steps t p o r).
Proof. unfold verifyFreshAuthentication_steps. safely_consumes. Qed.

(** The call proves possession of a device with this challenge. *)
Definition proves (c : auth_call) : bool :=
  match c with
  | Auth_verify_fresh _ p _ _ => String.eqb (FreshAuthProofInput.challengeId p) id
  | Auth_login (Proof_of p) => String.eqb (LoginProofInput.challengeId p) id
  | _ => false
  end.
Lemma safe_program c : safe (auth_program c).
Proof.
  destruct c as [d|t o r|t p o r|[s|p]|t|t]; cbn [auth_program login_steps];
    try (apply harmless_bind; [|done]);
    eauto using safe_request, safe_request_fresh, safe_verify, safe_credential, safe_login, safe_validate.
  unfold logout_steps. by safe_parts.
Qed.
Lemma guarded_program c : proves c = true -> guarded (auth_program c).
Proof.
  destruct c as [d|t o r|t p o r|[s|p]|t|t]; cbn [auth_program login_steps proves]; try done; intros Hid%String.eqb_eq.
  - by apply guarded_verify.
  - apply gated_then; [by apply guarded_login|done].
Qed.
Lemma programs_proper (l : list auth_call) : let proving i := match l !! i with Some c => proves c | None => false end in
  forall i p, map auth_program l !! i = Some p -> if proving i then guarded p else safe p.
Proof.
  intros proving i p Hp. rewrite list_lookup_fmap in Hp. unfold proving. destruct (l !! i) as [c|]; [|done]. injection Hp as <-.
  destruct (proves c) eqn:Hc; [by apply guarded_program|apply safe_program].
Qed.
End Races.

Section Theorems.
Context `{PF : Platform} `{!PlatformLaws PF} {C : Type}.
Abbreviation W := (World C).

(** However any number of calls of the authentication service interleave,
    of all the logins and fresh authentications with one challenge at most one
    returns, and none if the challenge had been used before. *)
Theorem proofs_race_once (l : list auth_call) (w w' : W) ps id :
  challenges_drawn w -> interleaves (map auth_program l, w) (ps, w') ->
  (forall i j c d, l !! i = Some c -> l !! j = Some d -> proves id c = true -> proves id d = true ->
     ps !! i = Some (Return tt) -> ps !! j = Some (Return tt) -> i = j) /\
  (challenge_used id w -> forall i c, l !! i = Some c -> proves id c = true -> ps !! i <> Some (Return tt)).
Proof.
  intros Hd Hr. split.
  - intros i j c d Hi Hj Hc Hdd. apply (at_most_one _ _ _ _ _ _ _ Hd (programs_proper id l) Hr); [by rewrite Hi|by rewrite Hj].
  - intros Hu i c Hi Hc. apply (none_returns _ _ _ _ _ _ _ Hd Hu (programs_proper id l) Hr). by rewrite Hi.
Qed.

(** A call that nothing interleaves with does what the sequential method
    of [Auth] does. *)
Theorem auth_program_alone c (w w' : W) r : run_auth c w = (r, w') -> interleaves ([auth_program c], w) ([ended r], w').
Proof. intros E. apply run_interleaves. by rewrite run_auth_program. Qed.
End Theorems.

(** ** Witnesses *)

Section Demo.
#[local] Existing Instance dev.
(** Two logins with one proof; both have read the challenge while it was
    unused before either consumes it. *)
Definition two_logins : list auth_call := [Auth_login (Proof_of demo_proof); Auth_login (Proof_of demo_proof)].
Definition raced : list (Prog exn (World MockChain) unit) * World MockChain :=
  schedule ([0; 1; 0; 1; 0; 1; 0; 1; 0; 1; 0; 1; 0; 1] ++ [1; 0; 1; 0; 1])%nat (map auth_program two_logins, challenged_world).
Definition outcomes {X W A} (ps : list (Prog X W A)) : list (option (X + A)) :=
  map (fun p => match p with Return a => Some (inr a) | Throw e => Some (inl e) | Await _ _ => None end) ps.
Lemma raced_outcomes : outcomes (fst raced) = [Some (inl (UnauthorizedError "Authentication challenge has already been used")); Some (inr tt)].
Proof. vm_compute. reflexivity. Qed.

Lemma proofs_race_once_witness :
  interleaves (map auth_program two_logins, challenged_world) raced /\ fst raced !! 0%nat <> Some (Return tt) /\ length (fst raced) = 2%nat.
Proof.
  assert (Hr : interleaves (map auth_program two_logins, challenged_world) raced) by apply schedule_interleaves.
  split; [exact Hr|]. split; [|vm_compute; reflexivity]. intros H0. pose proof Hr as Hr'. rewrite (surjective_pairing raced) in Hr'.
  assert (H1 : fst raced !! 1%nat = Some (Return tt)) by (vm_compute; reflexivity).
  pose proof (proj1 (proofs_race_once two_logins challenged_world (snd raced) (fst raced) (LoginProofInput.challengeId demo_proof)
    challenged_world_drawn Hr') 0%nat 1%nat _ _ eq_refl eq_refl eq_refl eq_refl H0 H1) as E. discriminate E.
Defined.

Lemma auth_program_alone_witness : exists ps w', interleaves ([auth_program (Auth_login (Proof_of demo_proof))], challenged_world) (ps, w') /\
  outcomes ps = [Some (inr tt)].
Proof.
  destruct (run_auth (Auth_login (Proof_of demo_proof)) challenged_world) as [r w'] eqn:E. exists [ended r], w'. split.
  - apply (auth_program_alone _ _ _ _ E).
  - vm_compute in E. by injection E as <- _.
Defined.
End Demo.
