(* ===== verification/JobRaces.v ===== *)
(** * JobRaces: job mutations under concurrency

    The methods of [backend/src/jobs/jobs.service.ts] that change something as
    programs of their [await]s.  A mutation looks at the stored job, waits for
    the chain and then stores the job: two of them can both have looked before
    either stores.  What keeps them apart is the contract.  A program works on
    the copy of the job it was handed, as with the database repository; the
    memory repository hands out the stored object itself ([LiveJobs]). *)
From S2P Require Import Prelude Effects JsString JsMap JsValue Shared Errors World Repositories Jobs MockChain Concrete Interleave.
Local Open Scope string_scope.
Local Open Scope list_scope.

(** A call of a mutation. *)
Module Mutation.
Record t := mk { type : JobMutation; job : string; argument : string; actor : Actor.t }.
End Mutation.

Section Programs.
Context `{PF : Platform} {C : Type} `{BlockchainService C} `{Wiring}.
Abbreviation W := (World C).
Abbreviation P := (Prog exn (World C)).

(** The transaction is made and handed to the chain at once. *)
Definition hand_over (type : TransactionType) (actor : Actor.t) (p : payload) : M exn W TxResult.t :=
  let signature := trim <$> Actor.signature actor in
  txId ← randomUUID;
  timestamp ← nowISO;
  on_chain (submitTransaction (Transaction.mk txId type (Actor.identityId actor)
    (Actor.walletAddress actor) p timestamp
    (if truthy_string signature then default "" signature else "development"))).
Definition submit_steps (type : TransactionType) (actor : Actor.t) (p : payload) : P unit :=
  let signature := trim <$> Actor.signature actor in
  check (evmCryptoEnabled && (negb (truthy_string signature) || bool_decide (signature = Some "development")))
    (BlockchainError SIGNER ("A device-signed raw transaction is required for EVM " +:+ TransactionType_string type));;
  result ← await (hand_over type actor p);
  check (negb (bool_decide (TxResult.status result = SUCCESS)))
    (Error ("Blockchain rejected " +:+ TransactionType_string type +:+ revert_detail (TxResult.revert result))).

Definition check_identity_steps (id : string) : P unit :=
  if wired_identityExists
  then o ← await (identities_findById id); check (negb (bool_decide (is_Some o))) (NotFoundError ("No identity " +:+ id))
  else mret tt.
Definition assertTransition_steps (current next : JobStatus) : P unit :=
  check (negb (bool_decide (next ∈ ALLOWED_TRANSITIONS current)))
    (Error ("Invalid job transition: " +:+ JobStatus_string current +:+ " -> " +:+ JobStatus_string next)).
Definition requireAssignedTechnician_steps (job : Job.t) (actor : Actor.t) : P unit :=
  check (bool_decide (Job.assignedTo job = "") || negb (String.eqb (Job.assignedTo job) (Actor.identityId actor)))
    (ForbiddenError "Only the assigned technician may perform maintenance").
Definition requireIndependentVerifier_steps (job : Job.t) (actor : Actor.t) : P unit :=
  check (String.eqb (Job.assignedTo job) (Actor.identityId actor))
    (ForbiddenError "The assigned technician cannot verify their own work");;
  check (truthy_string (Job.verifierId job) && negb (bool_decide (Job.verifierId job = Some (Actor.identityId actor))))
    (ForbiddenError "Only the assigned verifier may verify this job").

Definition create_steps (input : PartialJob.t) (actor : Actor.t) : P Job.t :=
  let errors := required (PartialJob.assetId input) "assetId is required"
    ++ required (PartialJob.createdBy input) "createdBy is required"
    ++ (match PartialJob.priority input with None => ["priority is required"] | Some _ => [] end) in
  check (negb (bool_decide (errors = []))) (ValidationError errors);;
  jobId ← (match PartialJob.jobId input with
           | Some s => if blank s then n ← await jobs_list; mret ("JOB-" +:+ pretty (length n + 1)%nat) else mret (trim s)
           | None => n ← await jobs_list; mret ("JOB-" +:+ pretty (length n + 1)%nat)
           end);
  createdAt ← await nowISO;
  let job := Job.mk jobId (default "" (PartialJob.assetId input)) (default "" (PartialJob.createdBy input))
    "" (PartialJob.verifierId input) CREATED (default MEDIUM (PartialJob.priority input)) createdAt None in
  (if wired_assets
   then a ← await (assets_findById (Job.assetId job));
        check (negb (bool_decide (is_Some a))) (NotFoundError ("No asset " +:+ Job.assetId job))
   else mret tt);;
  check_identity_steps (Job.createdBy job);;
  dup ← await (jobs_findById (Job.jobId job));
  check (bool_decide (is_Some dup)) (ValidationError ["jobId " +:+ Job.jobId job +:+ " already exists"]);;
  submit_steps JOB_CREATE actor [("jobId", VStr (Job.jobId job)); ("assetId", VStr (Job.assetId job))];;
  await (jobs_save job);;
  mret job.
Definition assign_steps (id technicianId : string) (actor : Actor.t) : P Job.t :=
  found ← await (jobs_findById id);
  job ← demand found (NotFoundError ("No job " +:+ id));
  check (blank technicianId) (ValidationError ["technicianId is required"]);;
  check_identity_steps technicianId;;
  assertTransition_steps (Job.status job) ASSIGNED;;
  submit_steps JOB_ASSIGN actor [("jobId", VStr (Job.jobId job)); ("technicianId", VStr technicianId)];;
  let job' := Job.assigned technicianId job in
  await (jobs_save job');;
  mret job'.
Definition start_steps (id : string) (actor : Actor.t) : P Job.t :=
  found ← await (jobs_findById id);
  job ← demand found (NotFoundError ("No job " +:+ id));
  assertTransition_steps (Job.status job) IN_PROGRESS;;
  requireAssignedTechnician_steps job actor;;
  submit_steps JOB_START actor [("jobId", VStr (Job.jobId job))];;
  let job' := Job.started job in
  await (jobs_save job');;
  mret job'.
Definition complete_steps (id evidenceHash : string) (actor : Actor.t) : P Job.t :=
  found ← await (jobs_findById id);
  job ← demand found (NotFoundError ("No job " +:+ id));
  check (negb (valid_evidence_hash evidenceHash)) (ValidationError ["evidenceHash must be a 64-character SHA-256 hex digest"]);;
  assertTransition_steps (Job.status job) COMPLETED;;
  requireAssignedTechnician_steps job actor;;
  submit_steps JOB_COMPLETE actor [("jobId", VStr (Job.jobId job)); ("evidenceHash", VStr evidenceHash)];;
  completedAt ← await nowISO;
  let job' := Job.completed completedAt job in
  await (jobs_save job');;
  mret job'.
Definition approve_steps (id : string) (actor : Actor.t) : P Job.t :=
  found ← await (jobs_findById id);
  job ← demand found (NotFoundError ("No job " +:+ id));
  assertTransition_steps (Job.status job) VERIFIED;;
  requireIndependentVerifier_steps job actor;;
  submit_steps JOB_APPROVE actor [("jobId", VStr (Job.jobId job))];;
  let job' := Job.judged VERIFIED (Actor.identityId actor) job in
  await (jobs_save job');;
  mret job'.
Definition reject_steps (id reason : string) (actor : Actor.t) : P Job.t :=
  found ← await (jobs_findById id);
  job ← demand found (NotFoundError ("No job " +:+ id));
  check (blank reason) (ValidationError ["reason is required"]);;
  assertTransition_steps (Job.status job) REJECTED;;
  requireIndependentVerifier_steps job actor;;
  submit_steps JOB_REJECT actor [("jobId", VStr (Job.jobId job)); ("reason", VStr reason)];;
  let job' := Job.judged REJECTED (Actor.identityId actor) job in
  await (jobs_save job');;
  mret job'.

Definition run_call (c : Mutation.t) : M exn W Job.t :=
  run_mutation (Mutation.type c) (Mutation.job c) (Mutation.argument c) (Mutation.actor c).
Definition job_program (c : Mutation.t) : P Job.t :=
  match Mutation.type c with
  | M_ASSIGN => assign_steps (Mutation.job c) (Mutation.argument c) (Mutation.actor c)
  | M_START => start_steps (Mutation.job c) (Mutation.actor c)
  | M_COMPLETE => complete_steps (Mutation.job c) (Mutation.argument c) (Mutation.actor c)
  | M_APPROVE => approve_steps (Mutation.job c) (Mutation.actor c)
  | M_REJECT => reject_steps (Mutation.job c) (Mutation.argument c) (Mutation.actor c)
  end.

(** ** Without interleaving *)

(** [submit] is the hand-over and the look at its result. *)
Lemma submit_hands_over type actor p (w : W) : submit type actor p w =
  (let signature := trim <$> Actor.signature actor in
   throw_if (evmCryptoEnabled && (negb (truthy_string signature) || bool_decide (signature = Some "development")))
     (BlockchainError SIGNER ("A device-signed raw transaction is required for EVM " +:+ TransactionType_string type));;
   result ← hand_over type actor p;
   throw_if (negb (bool_decide (TxResult.status result = SUCCESS)))
     (Error ("Blockchain rejected " +:+ TransactionType_string type +:+ revert_detail (TxResult.revert result)))) w.
Proof.
  unfold submit. cbv zeta. apply bind_ext; [done|]. intros _ w1. symmetry.
  unfold hand_over. cbv zeta. rewrite !bind_assoc. apply bind_ext; [done|]. intros u w2. rewrite bind_assoc. done.
Qed.
Lemma run_submit type actor p (w : W) : run (submit_steps type actor p) w = submit type actor p w.
Proof. rewrite submit_hands_over. unfold submit_steps. same_run. Qed.
Lemma run_check_identity id (w : W) : run (check_identity_steps id) w = check_identity id w.
Proof. unfold check_identity_steps, check_identity. destruct wired_identityExists; [same_run|done]. Qed.
Lemma run_independent j a (w : W) : run (requireIndependentVerifier_steps j a) w = requireIndependentVerifier j a w.
Proof. unfold requireIndependentVerifier_steps, requireIndependentVerifier. same_run. Qed.
Lemma run_assigned j a (w : W) : run (requireAssignedTechnician_steps j a) w = requireAssignedTechnician j a w.
Proof. apply run_check. Qed.
Lemma run_transition a b (w : W) : run (assertTransition_steps a b) w = assertTransition a b w.
Proof. apply run_check. Qed.
Hint Resolve run_submit run_check_identity run_independent run_assigned run_transition : bel.
Lemma run_job_program c (w : W) : run (job_program c) w = run_call c w.
Proof.
  unfold job_program, run_call, run_mutation. destruct (Mutation.type c);
    [unfold assign_steps, assign|unfold start_steps, start|unfold complete_steps, complete|unfold approve_steps, approve|unfold reject_steps, reject];
    same_run.
Qed.
Lemma run_create_job input a (w : W) : run (create_steps input a) w = create input a w.
Proof. unfold create_steps, create. same_run. Qed.
End Programs.

(** ** The contract decides *)

(** The status a chain holds of a job, as the contract [JobManager] keeps it:
    a transaction of a mutation is only accepted from a status the mutation
    may start at, and moves the job to the status it ends at; nothing else
    moves a job that exists. *)
Class JobContract {C} `{BlockchainService C} (status_of : string -> C -> option JobStatus) := {
  contract_accepts m id tx c res c' :
    Transaction.type tx = mutation_type m -> field "jobId" (Transaction.payload tx) = VStr id ->
    submitTransaction tx c = (inr res, c') -> TxResult.status res = SUCCESS ->
    exists s, status_of id c = Some s /\ mutation_target m ∈ ALLOWED_TRANSITIONS s /\ status_of id c' = Some (mutation_target m);
  contract_keeps tx c r c' id s : submitTransaction tx c = (r, c') -> status_of id c = Some s ->
    status_of id c' = Some s \/
    exists m res, Transaction.type tx = mutation_type m /\ field "jobId" (Transaction.payload tx) = VStr id /\
      r = inr res /\ TxResult.status res = SUCCESS;
}.

Section Races.
Context `{PF : Platform} {C : Type} `{BlockchainService C} `{Wiring} (status_of : string -> C -> option JobStatus)
  `{!JobContract status_of} (id : string).
Abbreviation W := (World C).
Abbreviation P := (Prog exn (World C)).

(** Every job is stored under its id. *)
Definition jobs_keyed (w : W) : Prop := forall k j, get k (w_jobs w) = Some j -> Job.jobId j = k.
(** The contract holds a judgement of the job. *)
Definition judged (w : W) : Prop := status_of id (w_chain w) = Some VERIFIED \/ status_of id (w_chain w) = Some REJECTED.
Abbreviation safe := (harmless jobs_keyed judged).
Abbreviation guarded := (gated jobs_keyed judged).

Definition jobs_and_chain (w : W) := (w_jobs w, w_chain w).
Lemma jobs_read_kept {A} (op : M exn W A) : keeps jobs_and_chain op -> keeps_closed jobs_keyed judged op.
Proof.
  intros Hop w r w' E Hk. pose proof (keeps_run _ _ _ _ _ Hop E) as Hs. injection Hs as Hj Hc. unfold jobs_keyed, judged. by rewrite Hj, Hc.
Qed.
Lemma save_kept j : keeps_closed jobs_keyed judged (jobs_save j).
Proof.
  intros w r w' [= _ <-] Hk. split; [|done]. intros k j'. simpl. rewrite get_put.
  destruct (String.eqb_spec k (Job.jobId j)) as [->|]; [by intros [= <-]|]. apply Hk.
Qed.
Lemma hand_over_inv type actor p (w : W) r w' : hand_over type actor p w = (r, w') ->
  exists tx c, Transaction.type tx = type /\ Transaction.payload tx = p /\ submitTransaction tx (w_chain w) = (r, c) /\
    w_jobs w' = w_jobs w /\ w_chain w' = c.
Proof.
  intros [(e & _ & E)|(u & w1 & E1 & E)]%bind_inv; [done|]. apply bind_inv in E as [(e & _ & E)|(t & w2 & E2 & E)]; [done|].
  injection E1 as _ <-. apply nowISO_inv in E2 as [_ ->]. apply on_chain_inv in E as (c & E & ->).
  eexists _, c. split; [|split; [|split; [exact E|done]]]; done.
Qed.
(** Whatever is handed over for another job, or for this one as long as it is
    not assigned again, leaves it judged. *)
Lemma hand_over_kept m actor p k : field "jobId" p = VStr k -> m <> M_ASSIGN \/ k <> id ->
  keeps_closed jobs_keyed judged (hand_over (mutation_type m) actor p).
Proof.
  intros Hp Hm w r w' (tx & c & Ht & Hpl & E & Hj & Hc)%hand_over_inv Hk. split; [unfold jobs_keyed; by rewrite Hj|].
  assert (Hs : forall s, s = VERIFIED \/ s = REJECTED -> status_of id (w_chain w) = Some s -> status_of id c = Some s).
  { intros s Hs Hst. destruct (contract_keeps tx _ _ _ id s E Hst) as [?|(m' & res & Ht' & Hf & -> & Hok)]; [done|].
    rewrite Hpl, Hp in Hf. injection Hf as ->. destruct (contract_accepts m' id tx _ _ _ Ht' ltac:(by rewrite Hpl) E Hok) as (s' & Hs' & Hin & _).
    rewrite Hst in Hs'. injection Hs' as <-. rewrite Ht in Ht'. assert (m = m') as <- by (by destruct m, m').
    destruct Hm as [Hm|Hm]; [|done]. destruct Hs as [-> | ->]; simpl in Hin; [by apply elem_of_nil in Hin|].
    apply list_elem_of_singleton in Hin. by destruct m. }
  unfold judged. rewrite Hc. intros [?|?]; [left|right]; apply Hs; auto.
Qed.
Lemma judge_gate m actor p : m = M_APPROVE \/ m = M_REJECT -> field "jobId" p = VStr id ->
  gate jobs_keyed judged (hand_over (mutation_type m) actor p) (fun res => bool_decide (TxResult.status res = SUCCESS)).
Proof.
  intros Hm Hp. split; [apply (hand_over_kept m actor p id); [done|]; left; by destruct Hm as [-> | ->]|].
  intros w res w' (tx & c & Ht & Hpl & E & Hj & Hc)%hand_over_inv _ Hok%bool_decide_eq_true. unfold judged. rewrite Hc.
  destruct (contract_accepts m id tx _ _ _ Ht ltac:(by rewrite Hpl) E Hok) as (s & Hs & Hin & Hs'). rewrite Hs, Hs'. split.
  - intros [[= ->]|[= ->]]; destruct Hm as [-> | ->]; simpl in Hin;
      first [by apply elem_of_nil in Hin | by apply list_elem_of_singleton in Hin].
  - destruct Hm as [-> | ->]; [by left|by right].
Qed.

Lemma safe_submit m actor p k : field "jobId" p = VStr k -> m <> M_ASSIGN \/ k <> id -> safe (submit_steps (mutation_type m) actor p).
Proof.
  intros Hp Hm. apply harmless_bind; [apply harmless_check|]. intros _. apply harmless_bind; [|intros; apply harmless_check].
  apply harmless_await. by eapply hand_over_kept.
Qed.
Lemma guarded_submit m actor p : m = M_APPROVE \/ m = M_REJECT -> field "jobId" p = VStr id -> guarded (submit_steps (mutation_type m) actor p).
Proof.
  intros Hm Hp. apply gated_bind; [apply harmless_check|]. intros _. eapply gated_pass; [by apply judge_gate|].
  intros res. unfold check. by destruct (bool_decide (TxResult.status res = SUCCESS)).
Qed.

(** The job found is the one asked for. *)
Lemma answer_job k j : answers jobs_keyed (jobs_findById k : M exn W _) (Some j) -> Job.jobId j = k.
Proof. intros (w & w' & Hk & E). unfold jobs_findById, gets in E. injection E as E _. by apply Hk. Qed.
Lemma job_safe_find {A} k e (f : Job.t -> P A) :
  (forall j, Job.jobId j = k -> safe (f j)) -> safe (found ← await (jobs_findById k); j ← demand found e; f j).
Proof.
  intros Hf. apply harmless_answer; [apply jobs_read_kept; rframe|]. intros [j|] Hj; [|done]. by apply Hf, answer_job.
Qed.
Lemma job_guarded_find {A} k e (f : Job.t -> P A) :
  (forall j, Job.jobId j = k -> guarded (f j)) -> guarded (found ← await (jobs_findById k); j ← demand found e; f j).
Proof.
  intros Hf. apply gated_await; [apply jobs_read_kept; rframe|]. intros [j|] Hj; [|done]. by apply Hf, answer_job.
Qed.
Lemma safe_check_identity k : safe (check_identity_steps k).
Proof.
  unfold check_identity_steps. destruct wired_identityExists; [|done].
  apply harmless_bind; [apply harmless_await, jobs_read_kept; rframe|intros; apply harmless_check].
Qed.
Lemma safe_transition a b : safe (assertTransition_steps a b).
Proof. apply harmless_check. Qed.
Lemma safe_assigned j a : safe (requireAssignedTechnician_steps j a).
Proof. apply harmless_check. Qed.
Lemma safe_independent j a : safe (requireIndependentVerifier_steps j a).
Proof. apply harmless_bind; [apply harmless_check|intros; apply harmless_check]. Qed.
Lemma job_safe_time : safe (await nowISO).
Proof. apply harmless_await, jobs_read_kept. by intros w. Qed.
Lemma safe_save j : safe (await (jobs_save j);; mret j).
Proof. apply harmless_bind; [apply harmless_await, save_kept|done]. Qed.
#[local] Hint Resolve safe_check_identity safe_transition safe_assigned safe_independent job_safe_time safe_save harmless_check : bel.

(** A mutation that cannot take the judgement back. *)
Definition lets_stand (c : Mutation.t) : Prop := Mutation.type c <> M_ASSIGN \/ Mutation.job c <> id.
Definition judges (c : Mutation.t) : bool :=
  String.eqb (Mutation.job c) id && match Mutation.type c with M_APPROVE | M_REJECT => true | _ => false end.

Ltac safely := repeat first [solve [auto with bel] | apply harmless_bind; [solve [auto with bel]|intros _ || intros ?]].
Ltac submits m := apply harmless_bind; [eapply (safe_submit m); [reflexivity|done]|intros _].
Lemma job_safe_program c : lets_stand c -> safe (job_program c).
Proof.
  unfold lets_stand, job_program. destruct c as [m k arg actor]. simpl. intros Hl.
  destruct m; (apply job_safe_find; intros j <-); safely.
  - submits M_ASSIGN. safely.
  - submits M_START. safely.
  - submits M_COMPLETE. safely.
  - submits M_APPROVE. safely.
  - submits M_REJECT. safely.
Qed.
Lemma job_guarded_program c : judges c = true -> guarded (job_program c).
Proof.
  unfold judges, job_program. destruct c as [m k arg actor]. simpl. intros [->%String.eqb_eq Hm]%andb_true_iff.
  assert (Hend : forall ty j p (j' : Job.t), ty = M_APPROVE \/ ty = M_REJECT -> field "jobId" p = VStr (Job.jobId j) -> Job.jobId j = id ->
    guarded (submit_steps (mutation_type ty) actor p;; await (jobs_save j');; mret j')).
  { intros ty j p j' Hty Hp Hj. apply gated_then; [|intros _; apply safe_save]. apply guarded_submit; [done|by rewrite Hp, Hj]. }
  destruct m; try done; (apply job_guarded_find; intros j Hj); repeat (apply gated_bind; [solve [auto with bel]|intros _]).
  - apply (Hend M_APPROVE j); auto.
  - apply (Hend M_REJECT j); auto.
Qed.
Lemma job_programs_fit (l : list Mutation.t) : Forall lets_stand l ->
  let judging i := match l !! i with Some c => judges c | None => false end in
  forall i p, map job_program l !! i = Some p -> if judging i then guarded p else safe p.
Proof.
  intros Hl judging i p Hp. rewrite list_lookup_fmap in Hp. unfold judging. destruct (l !! i) as [c|] eqn:Hc; [|done]. injection Hp as <-.
  destruct (judges c) eqn:Hj; [by apply job_guarded_program|apply job_safe_program]. rewrite Forall_lookup in Hl. by eapply Hl.
Qed.

(** C15: However job mutations interleave, on a chain that keeps the status of a
    job as the contract does at most one judgement of a job returns, as long as
    nobody assigns the job again; none does if the contract holds one. *)
Theorem judged_once (l : list Mutation.t) (w w' : W) ps :
  jobs_keyed w -> Forall lets_stand l -> interleaves (map job_program l, w) (ps, w') ->
  (forall i j c d a b, l !! i = Some c -> l !! j = Some d -> judges c = true -> judges d = true ->
     ps !! i = Some (Return a) -> ps !! j = Some (Return b) -> i = j) /\
  (judged w -> forall i c a, l !! i = Some c -> judges c = true -> ps !! i <> Some (Return a)).
Proof.
  intros Hk Hl Hr. split.
  - intros i j c d a b Hi Hj Hc Hd. apply (at_most_one _ _ _ _ _ _ _ Hk (job_programs_fit l Hl) Hr); [by rewrite Hi|by rewrite Hj].
  - intros Hu i c a Hi Hc. apply (none_returns _ _ _ _ _ _ _ Hk Hu (job_programs_fit l Hl) Hr). by rewrite Hi.
Qed.
End Races.

(** ** Witnesses *)

Section Demo.
#[local] Existing Instance dev.
#[local] Instance demo_wires : Wiring := {| wired_assets := true; wired_identityExists := false |}.

(** A chain of job statuses that decides as the contract does. *)
Definition mutation_of (t : TransactionType) : option JobMutation :=
  match t with
  | JOB_ASSIGN => Some M_ASSIGN | JOB_START => Some M_START | JOB_COMPLETE => Some M_COMPLETE
  | JOB_APPROVE => Some M_APPROVE | JOB_REJECT => Some M_REJECT | _ => None
  end.
Definition answer (s : TxStatus) : TxResult.t := TxResult.mk "tx" s None None None None None.
Definition contract_submit (tx : Transaction.t) : M exn (jsmap JobStatus) TxResult.t := fun c =>
  match mutation_of (Transaction.type tx), field "jobId" (Transaction.payload tx) with
  | Some m, VStr id =>
      match JsMap.get id c with
      | Some s =>
          if bool_decide (mutation_target m ∈ ALLOWED_TRANSITIONS s) then (inr (answer SUCCESS), put id (mutation_target m) c)
          else (inr (answer TX_REJECTED), c)
      | None => (inr (answer TX_REJECTED), c)
      end
  | _, _ => (inr (answer TX_REJECTED), c)
  end.
Definition none {A} : M exn (jsmap JobStatus) A := throw (Error "not in the demo").
#[local] Instance demo_contract : BlockchainService (jsmap JobStatus) := {
  submitTransaction := contract_submit;
  submitTransactionDetailed := None;
  prepareTransaction := None;
  chain_getIdentity _ := none;
  chain_getWallet _ := none;
  chain_getAsset _ := none;
  chain_getStatus := none;
  chain_getValidators := none;
  chain_getCommittee _ := none;
  getAuditTrail := None;
}.
Definition demo_status (id : string) (c : jsmap JobStatus) : option JobStatus := JsMap.get id c.
#[local] Instance demo_laws : JobContract demo_status.
Proof.
  split; simpl; unfold contract_submit, demo_status.
  - intros m id tx c res c' Ht Hf. rewrite Ht, Hf. assert (mutation_of (mutation_type m) = Some m) as -> by by destruct m.
    destruct (JsMap.get id c) as [s|]; [|by intros [= <- <-]]. case_bool_decide as Hin; intros [= <- <-]; [|done]. intros _.
    exists s. by rewrite get_put_eq.
  - intros tx c r c' id s E Hs. destruct (mutation_of (Transaction.type tx)) as [m|] eqn:Hm; [|injection E as _ <-; by left].
    destruct (field "jobId" (Transaction.payload tx)) as [| | | | |k| |] eqn:Hf; try (injection E as _ <-; by left).
    destruct (JsMap.get k c) as [s'|] eqn:Hk; [|injection E as _ <-; by left]. case_bool_decide as Hin; injection E as <- <-; [|by left].
    rewrite get_put. destruct (String.eqb_spec id k) as [->|]; [right|by left]. exists m, (answer SUCCESS). split_and!; try done.
    destruct (Transaction.type tx); first [discriminate Hm | by injection Hm as <-].
Qed.

Definition done_job : Job.t := Job.mk "J" "A" "ADMIN" "TECH" None COMPLETED MEDIUM "t" (Some "t").
Definition verifier (id : string) : Actor.t := Actor.mk id "0xv" None.
(** Two verifiers judge a completed job differently at the same time. *)
Definition two_judgements : list Mutation.t :=
  [Mutation.mk M_APPROVE "J" "" (verifier "V1"); Mutation.mk M_REJECT "J" "not done" (verifier "V2")].
Definition in_turns : list nat := [0; 1; 0; 1; 0; 1; 0; 1]%nat.
Definition contract_world : World (jsmap JobStatus) :=
  mkWorld [] [] [] [] [] [] [] [] [] [] [] [("J", done_job)] [] [] [] [] [] [] [("J", COMPLETED)] 0 0 0.
Definition contract_race := schedule in_turns (map job_program two_judgements, contract_world).
Definition statuses {X W} (ps : list (Prog X W Job.t)) : list (option JobStatus) :=
  map (fun p => match p with Return j => Some (Job.status j) | _ => None end) ps.

Lemma judged_once_witness :
  statuses (fst contract_race) = [Some VERIFIED; None] /\ forall j, fst contract_race !! 1%nat <> Some (Return j).
Proof.
  split; [vm_compute; reflexivity|]. intros j H1.
  assert (Hr : interleaves (map job_program two_judgements, contract_world) contract_race) by apply schedule_interleaves.
  rewrite (surjective_pairing contract_race) in Hr.
  assert (Hk : jobs_keyed contract_world) by (intros k j'; simpl; destruct (String.eqb_spec k "J") as [->|]; [by intros [= <-]|done]).
  assert (Hl : Forall (lets_stand "J") two_judgements) by (repeat constructor; done).
  assert (H0 : fst contract_race !! 0%nat = Some (Return (Job.judged VERIFIED "V1" done_job))) by (vm_compute; reflexivity).
  pose proof (proj1 (judged_once demo_status "J" two_judgements contract_world (snd contract_race) (fst contract_race) Hk Hl Hr)
    0%nat 1%nat _ _ _ _ eq_refl eq_refl eq_refl eq_refl H0 H1) as E. discriminate E.
Defined.

(** On the mock chain, which takes every transaction, both judgements return
    and the one stored last stands. *)
Definition mock_world : World MockChain := mkWorld [] [] [] [] [] [] [] [] [] [] [] [("J", done_job)] [] [] [] [] [] [] empty_mock 0 0 0.
Definition mock_race := schedule in_turns (map job_program two_judgements, mock_world).
Theorem mock_judged_twice : statuses (fst mock_race) = [Some VERIFIED; Some REJECTED] /\
  Job.status <$> JsMap.get "J" (w_jobs (snd mock_race)) = Some REJECTED.
Proof. vm_compute. done. Qed.
End Demo.

Section Alone.
Context `{PF : Platform} {C : Type} `{BlockchainService C} `{Wiring}.
(** A mutation that nothing interleaves with does what the sequential one
    of [Jobs] does. *)
Theorem job_program_alone c (w w' : World C) r : run_call c w = (r, w') -> interleaves ([job_program c], w) ([ended r], w').
Proof. intros E. apply run_interleaves. by rewrite run_job_program. Qed.
End Alone.
