(* ===== verification/Traces.v ===== *)
(** * Traces: the steps one handler makes while others run

    Within a run of a pool, a program makes its own steps in its own order;
    between two of them the state may have moved on.  [steps] is the list of
    what each of its steps found and left, [during] says that these steps
    happen in that order within a run.  A program that returned has a trace
    that is taken apart by the [returns_*] lemmas. *)
From S2P Require Import Prelude Effects Interleave.
From stdpp Require Import relations.

Section Traces.
Context {X W : Type}.
Abbreviation P := (Prog X W).
Abbreviation trace := (list (W * W)).

Inductive steps {A} : P A -> trace -> P A -> Prop :=
| steps_none p : steps p [] p
| steps_more p w p1 w1 l q : advance p w = Some (p1, w1) -> steps p1 l q -> steps p ((w, w1) :: l) q.
Definition returns {A} (p : P A) (l : trace) (a : A) : Prop := steps p l (Return a).

Inductive during {A} : list (P A) * W -> trace -> list (P A) * W -> Prop :=
| during_none s s' : interleaves s s' -> during s [] s'
| during_more s ps w ps1 w1 l s' :
    interleaves s (ps, w) -> turn (ps, w) (ps1, w1) -> during (ps1, w1) l s' -> during s ((w, w1) :: l) s'.

(** ** In a run *)

Lemma during_before {A} (s s1 : list (P A) * W) l s' : turn s s1 -> during s1 l s' -> during s l s'.
Proof.
  intros Ht Hd. destruct Hd as [s1 s' Hr|s1 ps w ps1 w1 l s' Hr Hs Hd].
  - apply during_none. by eapply rtc_l.
  - eapply during_more; [by eapply rtc_l|done|done].
Qed.
(** The steps of the program in one place. *)
Lemma steps_during {A} i (s s' : list (P A) * W) p q :
  interleaves s s' -> fst s !! i = Some p -> fst s' !! i = Some q -> exists l, steps p l q /\ during s l s'.
Proof.
  intros Hr. revert p. induction Hr as [s|s s1 s' Ht Hr IH]; intros p Hp Hq.
  - exists []. rewrite Hp in Hq. injection Hq as <-. split; [constructor|by apply during_none].
  - destruct Ht as [j pj pj' ps w w1 Hj E]. simpl in *. destruct (decide (i = j)) as [->|Hij].
    + rewrite Hp in Hj. injection Hj as <-.
      destruct (IH pj') as (l & Hs & Hd); [by rewrite list_lookup_insert_eq by by eapply lookup_lt_Some|done|].
      exists ((w, w1) :: l). split; [by eapply steps_more|]. eapply during_more; [apply rtc_refl|exact (turn_of j _ _ _ _ _ Hp E)|done].
    + destruct (IH p) as (l & Hs & Hd); [by rewrite list_lookup_insert_ne|done|].
      exists l. split; [done|]. eapply during_before; [exact (turn_of j _ _ _ _ _ Hj E)|done].
Qed.
Lemma during_app {A} (s : list (P A) * W) l1 l2 s' :
  during s (l1 ++ l2) s' -> exists m, during s l1 m /\ during m l2 s'.
Proof.
  revert s. induction l1 as [|[w w1] l1 IH]; simpl; intros s Hd.
  - exists s. split; [by apply during_none, rtc_refl|done].
  - inversion Hd as [|s0 ps w0 ps1 w10 l0 s0' Hr Ht Hd']; subst. destruct (IH _ Hd') as (m & H1 & H2).
    exists m. split; [by eapply during_more|done].
Qed.
(** Each step is one of the run. *)
Lemma during_step {A} (s : list (P A) * W) l s' st : during s l s' -> In st l ->
  exists ps ps1, interleaves s (ps, fst st) /\ turn (ps, fst st) (ps1, snd st) /\ interleaves (ps1, snd st) s'.
Proof.
  assert (Hall : forall (s : list (P A) * W) l s', during s l s' -> interleaves s s').
  { intros s0 l0 s0' Hd. induction Hd as [|s0 ps w ps1 w1 l0 s0' Hr Ht _ IH]; [done|]. etrans; [done|]. by eapply rtc_l. }
  intros Hd. induction Hd as [|s ps w ps1 w1 l s' Hr Ht Hd IH]; [done|]. intros [<-|Hin].
  - exists ps, ps1. split_and!; [done|done|by eapply Hall].
  - destruct (IH Hin) as (qs & qs1 & H1 & H2 & H3). exists qs, qs1. split_and!; [|done|done]. etrans; [done|]. by eapply rtc_l.
Qed.

(** ** Of a program *)

Lemma steps_return {A} (a : A) l q : steps (Return a) l q -> l = [] /\ q = Return a.
Proof. inversion 1 as [|p w p1 w1 l0 q0 E]; subst; [done|discriminate E]. Qed.
Lemma steps_throw {A} e l (q : P A) : steps (Throw e) l q -> l = [] /\ q = Throw e.
Proof. inversion 1 as [|p w p1 w1 l0 q0 E]; subst; [done|discriminate E]. Qed.
Lemma returns_ret {A} (a b : A) l : returns (mret a : P A) l b -> l = [] /\ b = a.
Proof. intros [-> [= ->]]%steps_return. done. Qed.
Lemma returns_throw {A} e l (b : A) : returns (Throw e : P A) l b -> False.
Proof. by intros [_ [=]]%steps_throw. Qed.
Lemma returns_await_bind {A B} (op : M X W B) (k : B -> P A) l a : returns (Await op k) l a ->
  exists w w1 l' b, l = (w, w1) :: l' /\ op w = (inr b, w1) /\ returns (k b) l' a.
Proof.
  unfold returns. inversion 1 as [|p w p1 w1 l0 q0 E Hs]; subst. simpl in E. destruct (op w) as [[e|b] w2] eqn:Eop; injection E as <- <-.
  - by apply steps_throw in Hs as [_ [=]].
  - by exists w, w2, l0, b.
Qed.
Lemma returns_bind {A B} (p : P A) (f : A -> P B) l b : returns (p ≫= f) l b ->
  exists l1 l2 a, l = l1 ++ l2 /\ returns p l1 a /\ returns (f a) l2 b.
Proof.
  revert l. induction p as [a|e|D op k IH]; intros l Hr.
  - exists [], l, a. split_and!; [done|constructor|done].
  - by apply returns_throw in Hr.
  - change (Await op k ≫= f) with (Await op (fun d => k d ≫= f)) in Hr.
    apply returns_await_bind in Hr as (w & w1 & l' & d & -> & Eop & Hr). apply IH in Hr as (l1 & l2 & a & -> & H1 & H2).
    exists ((w, w1) :: l1), l2, a. split_and!; [done| |done]. eapply steps_more; [|exact H1]. simpl. by rewrite Eop.
Qed.
Lemma returns_await {B} (op : M X W B) l b : returns (await op) l b -> exists w w1, l = [(w, w1)] /\ op w = (inr b, w1).
Proof. intros (w & w1 & l' & b' & -> & E & [-> [= ->]]%steps_return)%returns_await_bind. by exists w, w1. Qed.
Lemma returns_check b e l u : returns (check b e : P unit) l u -> l = [] /\ b = false.
Proof. destruct b; [by intros ?%returns_throw|by intros [-> _]%returns_ret]. Qed.
Lemma returns_demand {A} (o : option A) e l a : returns (demand o e : P A) l a -> l = [] /\ o = Some a.
Proof. destruct o; [by intros [-> ->]%returns_ret|by intros ?%returns_throw]. Qed.

(** A program that returned in a run, by its trace. *)
Lemma returned {A} i (ps ps' : list (P A)) w w' p a :
  interleaves (ps, w) (ps', w') -> ps !! i = Some p -> ps' !! i = Some (Return a) ->
  exists l, returns p l a /\ during (ps, w) l (ps', w').
Proof. intros Hr Hp Ha. exact (steps_during i _ _ p _ Hr Hp Ha). Qed.

(** The last steps of every trace a program returns with. *)
Definition ends {A} (p : P A) (Q : trace -> A -> Prop) : Prop :=
  forall l a, returns p l a -> exists l1 l2, l = l1 ++ l2 /\ Q l2 a.
Lemma ends_bind {A B} (p : P A) (f : A -> P B) Q : (forall l a, returns p l a -> ends (f a) Q) -> ends (p ≫= f) Q.
Proof.
  intros Hf l b (l1 & l2 & a & -> & H1 & H2)%returns_bind. destruct (Hf l1 a H1 l2 b H2) as (l3 & l4 & -> & HQ).
  exists (l1 ++ l3), l4. by rewrite app_assoc.
Qed.
Lemma ends_ret {A B} (p : P A) (g : A -> B) Q : ends p (fun l a => Q l (g a)) -> ends (a ← p; mret (g a)) Q.
Proof.
  intros Hp l b (l1 & l2 & a & -> & H1 & [-> ->]%returns_ret)%returns_bind. rewrite app_nil_r. by apply Hp.
Qed.
End Traces.

(** Take the trace of a [bind] apart, an [await], a guard. *)
Ltac rtrace H :=
  lazymatch type of H with
  | returns (mbind _ _) _ _ =>
      let l1 := fresh "l" in let l2 := fresh "l" in let a := fresh "a" in let H1 := fresh "H" in
      apply returns_bind in H as (l1 & l2 & a & -> & H1 & H); rtrace H1
  | returns (await _) _ _ =>
      let w := fresh "w" in let w1 := fresh "w" in apply returns_await in H as (w & w1 & -> & H)
  | returns (check _ _) _ _ => let Hb := fresh "Hb" in apply returns_check in H as [-> Hb]
  | returns (demand _ _) _ _ => let Hb := fresh "Hb" in apply returns_demand in H as [-> Hb]
  | returns (mret _) _ _ => apply returns_ret in H as [-> ->]
  | _ => idtac
  end.
