(* ===== verification/AssetRaces.v ===== *)
(** * AssetRaces: asset requests under concurrency

    The methods of [backend/src/assets/assets.service.ts] as programs of their
    [await]s.  A step that only touches the service's map is a step of its
    own, so the pool has at least the interleavings the runtime has. *)
From S2P Require Import Prelude Effects JsString JsMap JsValue Shared Errors World Repositories MockChain Concrete Assets Payloads Interleave Traces.
Local Open Scope string_scope.
Local Open Scope list_scope.

(** A request to the service. *)
Module Request.
Inductive t :=
| Get (id : string)
| Create (input : PartialAsset.t)
| Transfer (id newOwnerId : string) (newCustodianId : option string)
| SetState (id newState : string)
| Attach (parentAssetId componentId : string)
| Remove (parentAssetId componentId : string).
End Request.

Section Programs.
Context `{PF : Platform} {C : Type} `{BlockchainService C} `{Wiring}.
Abbreviation W := (World C).
Abbreviation P := (Prog exn (World C)).

(** [this.assets.get(id) ?? await this.repository.findById(id)] *)
Definition recall (id : string) : M exn W (option Asset.t) :=
  inCache ← cache_get id;
  match inCache with Some a => mret (Some a) | None => assets_findById id end.
Definition getById_steps (id : string) : P (option Asset.t) :=
  cached ← await (recall id);
  onChain ← await (on_chain (chain_getAsset id));
  match onChain with
  | Some a => let reconciled := mergeAsset a cached in await (cache_set id reconciled);; mret (Some reconciled)
  | None => mret cached
  end.
Definition requiredString_steps (v : value) (field : string) : P string :=
  match v with
  | VStr s => if blank s then Throw (ValidationError [field +:+ " is required"]) else mret (trim s)
  | _ => Throw (ValidationError [field +:+ " is required"])
  end.
Definition requireAsset_steps (id field : string) : P Asset.t :=
  asset ← getById_steps id;
  demand asset (if String.eqb field "assetId" then NotFoundError ("No asset " +:+ id)
                else ValidationError [field +:+ " " +:+ id +:+ " does not exist"]).

(** The transaction is made and handed to the chain at once; its result is
    looked at before anything else happens. *)
Definition send (type : TransactionType) (actor : option Actor.t) (p : payload) : M exn W TxResult.t :=
  tx ← transaction type actor p;
  submit tx.
Definition reconcile_steps (assetId : string) (result : TxResult.t) (fallback : Asset.t) : P Asset.t :=
  onChain ← await (on_chain (chain_getAsset assetId));
  match onChain with
  | Some a => mret (mergeAsset a (Some fallback))
  | None =>
      if truthy_string (TxResult.nftId result)
      then mret (Asset.with_nftId (default "" (TxResult.nftId result)) fallback)
      else Throw (BlockchainStateUnavailableError assetId (TxResult.txId result))
  end.
Definition remember (id : string) (a : Asset.t) : M exn W unit := cache_set id a;; assets_save a.
Definition submit_and_store_steps (id : string) (type : TransactionType) (actor : option Actor.t) (p : payload)
    (fallback : Asset.t) : P Asset.t :=
  result ← await (send type actor p);
  reconciled ← reconcile_steps id result fallback;
  await (remember id reconciled);;
  mret reconciled.

Definition known_owner_steps (ownerId : string) : P unit :=
  if wired_identityExists
  then ok ← await (identity_exists ownerId); check (negb ok) (NotFoundError ("No identity " +:+ ownerId))
  else mret tt.
Definition create_steps (input : PartialAsset.t) (actor : option Actor.t) : P Asset.t :=
  assetType ← requiredString_steps (opt_value (PartialAsset.assetType input)) "assetType";
  ownerId ← requiredString_steps (opt_value (PartialAsset.ownerId input)) "ownerId";
  custodianId ← requiredString_steps (opt_value (PartialAsset.custodianId input)) "custodianId";
  (if wired_identityExists
   then ownerExists ← await (identity_exists ownerId);
        custodianExists ← (match ownerExists with true => await (identity_exists custodianId) | false => mret false end);
        check (negb custodianExists) (NotFoundError "Asset owner and custodian identities must exist")
   else mret tt);;
  check (negb (String.eqb custodianId ownerId)) (ValidationError [mint_custody_message]);;
  assetId ← (let given := trim <$> PartialAsset.assetId input in
             if truthy_string given then mret (default "" given) else u ← await randomUUID; mret ("AST-" +:+ u));
  existing ← getById_steps assetId;
  check (bool_decide (is_Some existing)) (ValidationError ["assetId " +:+ assetId +:+ " already exists"]);;
  (match PartialAsset.parentAssetId input with
   | Some p => requireAsset_steps p "parentAssetId";; mret tt
   | None => mret tt
   end);;
  submit_and_store_steps assetId ASSET_MINT actor
    [("assetId", VStr assetId); ("assetType", VStr assetType); ("ownerId", VStr ownerId);
     ("custodianId", VStr custodianId); ("parentAssetId", nullable (PartialAsset.parentAssetId input))]
    (Asset.mk assetId "" assetType ownerId custodianId (PartialAsset.parentAssetId input) Asset_ACTIVE).

Definition transfer_steps (id newOwnerId : string) (newCustodianId : option string) (actor : option Actor.t) : P Asset.t :=
  asset ← requireAsset_steps id "assetId";
  ownerId ← requiredString_steps (VStr newOwnerId) "newOwnerId";
  known_owner_steps ownerId;;
  custodianId ← (match newCustodianId with
                 | None => mret ownerId
                 | Some c => requiredString_steps (VStr c) "newCustodianId"
                 end);
  check (negb (String.eqb custodianId ownerId)) (ValidationError [transfer_custody_message]);;
  check (bool_decide (Asset.status asset = DECOMMISSIONED))
    (ValidationError ["Asset " +:+ id +:+ " is decommissioned and cannot be transferred"]);;
  check (bool_decide (is_Some (Asset.parentAssetId asset)))
    (ValidationError ["Component " +:+ id +:+ " must be detached before transfer"]);;
  check (String.eqb (Asset.ownerId asset) ownerId)
    (ValidationError ["Asset " +:+ id +:+ " is already owned by " +:+ ownerId]);;
  submit_and_store_steps id ASSET_TRANSFER actor
    [("assetId", VStr (Asset.assetId asset)); ("nftId", VStr (Asset.nftId asset));
     ("newOwnerId", VStr ownerId); ("newCustodianId", VStr custodianId)]
    (Asset.with_owner ownerId custodianId asset).

Definition changeAssetState_steps (id newState : string) (actor : option Actor.t) : P Asset.t :=
  next ← demand (parse_AssetStatus newState) (ValidationError [states_message]);
  asset ← requireAsset_steps id "assetId";
  check (negb (bool_decide (next ∈ allowed_states (Asset.status asset))))
    (ValidationError ["Invalid asset state transition: " +:+ AssetStatus_string (Asset.status asset) +:+ " -> " +:+ AssetStatus_string next]);;
  submit_and_store_steps id ASSET_STATE_CHANGE actor
    [("assetId", VStr (Asset.assetId asset)); ("nftId", VStr (Asset.nftId asset));
     ("previousState", VStr (AssetStatus_string (Asset.status asset))); ("newState", VStr newState)]
    (Asset.with_status next asset).

Fixpoint assertNoCycle_loop_steps (fuel : nat) (componentId : string) (current : option Asset.t) (visited : list string) : P unit :=
  match fuel with
  | O => Throw OutOfFuel
  | S fuel' =>
      match current with
      | None => mret tt
      | Some a =>
          if truthy_string (Asset.parentAssetId a) then
            let parent := default "" (Asset.parentAssetId a) in
            check (bool_decide (Asset.assetId a ∈ visited)) (ValidationError ["Asset component hierarchy contains a cycle"]);;
            check (String.eqb parent componentId) (ValidationError ["Component attachment would create a cycle"]);;
            next ← getById_steps parent;
            assertNoCycle_loop_steps fuel' componentId next (Asset.assetId a :: visited)
          else mret tt
      end
  end.
Definition assertNoCycle_steps (fuel : nat) (parentAssetId componentId : string) : P unit :=
  current ← getById_steps parentAssetId;
  assertNoCycle_loop_steps fuel componentId current [].

Definition attachComponent_steps (fuel : nat) (parentAssetId componentId : string) (actor : option Actor.t) : P Asset.t :=
  parent ← requireAsset_steps parentAssetId "parentAssetId";
  component ← requireAsset_steps componentId "componentId";
  check (String.eqb parentAssetId componentId) (ValidationError ["An asset cannot be attached to itself"]);;
  check (bool_decide (Asset.status parent = DECOMMISSIONED) || bool_decide (Asset.status component = DECOMMISSIONED))
    (ValidationError ["Decommissioned assets cannot be attached"]);;
  check (bool_decide (is_Some (Asset.parentAssetId component)))
    (ValidationError ["Component " +:+ componentId +:+ " is already attached"]);;
  assertNoCycle_steps fuel parentAssetId componentId;;
  submit_and_store_steps componentId COMPONENT_ATTACH actor
    [("parentAssetId", VStr parentAssetId); ("parentNftId", VStr (Asset.nftId parent));
     ("componentId", VStr componentId); ("componentNftId", VStr (Asset.nftId component))]
    (Asset.with_parent (Some parentAssetId) component).
Definition removeComponent_steps (parentAssetId componentId : string) (actor : option Actor.t) : P Asset.t :=
  parent ← requireAsset_steps parentAssetId "parentAssetId";
  component ← requireAsset_steps componentId "componentId";
  check (negb (bool_decide (Asset.parentAssetId component = Some parentAssetId)))
    (ValidationError ["Component " +:+ componentId +:+ " is not attached to " +:+ parentAssetId]);;
  submit_and_store_steps componentId COMPONENT_REMOVE actor
    [("parentAssetId", VStr parentAssetId); ("parentNftId", VStr (Asset.nftId parent));
     ("componentId", VStr componentId); ("componentNftId", VStr (Asset.nftId component))]
    (Asset.with_parent None component).

Definition run_request (fuel : nat) (r : Request.t) (actor : Actor.t) : M exn W (option Asset.t) :=
  let actor := Some actor in
  match r with
  | Request.Get id => getById id
  | Request.Create input => a ← create input actor; mret (Some a)
  | Request.Transfer id o c => a ← transfer id o c actor; mret (Some a)
  | Request.SetState id s => a ← changeAssetState id s actor; mret (Some a)
  | Request.Attach p c => a ← attachComponent fuel p c actor; mret (Some a)
  | Request.Remove p c => a ← removeComponent p c actor; mret (Some a)
  end.
Definition asset_program (fuel : nat) (r : Request.t) (actor : Actor.t) : P (option Asset.t) :=
  let actor := Some actor in
  match r with
  | Request.Get id => getById_steps id
  | Request.Create input => a ← create_steps input actor; mret (Some a)
  | Request.Transfer id o c => a ← transfer_steps id o c actor; mret (Some a)
  | Request.SetState id s => a ← changeAssetState_steps id s actor; mret (Some a)
  | Request.Attach p c => a ← attachComponent_steps fuel p c actor; mret (Some a)
  | Request.Remove p c => a ← removeComponent_steps p c actor; mret (Some a)
  end.

(** ** Without interleaving *)

Lemma run_getById id (w : W) : run (getById_steps id) w = getById id w.
Proof.
  transitivity ((recall id ≫= fun cached => run (
    onChain ← await (on_chain (chain_getAsset id));
    match onChain with
    | Some a => let reconciled := mergeAsset a cached in await (cache_set id reconciled);; mret (Some reconciled)
    | None => mret cached
    end)) w); [done|].
  unfold recall, getById. rewrite bind_assoc. apply bind_ext; [done|]. intros inCache w1. apply bind_ext; [done|]. intros cached w2. same_run.
Qed.
Lemma run_requiredString v f (w : W) : run (requiredString_steps v f) w = requiredString v f w.
Proof. unfold requiredString_steps, requiredString. destruct v; try done. by destruct (blank s). Qed.
Hint Resolve run_getById run_requiredString : bel.
Lemma run_requireAsset id f (w : W) : run (requireAsset_steps id f) w = requireAsset id f w.
Proof.
  unfold requireAsset_steps, requireAsset. same_run. destruct a as [a|]; [done|]. simpl. by destruct (String.eqb f "assetId").
Qed.
Lemma run_submit_and_store id ty actor p fb (w : W) : run (submit_and_store_steps id ty actor p fb) w = submit_and_store id ty actor p fb w.
Proof.
  transitivity ((send ty actor p ≫= fun result => run (
    reconciled ← reconcile_steps id result fb; await (remember id reconciled);; mret reconciled)) w); [done|].
  unfold send, submit_and_store. rewrite bind_assoc. apply bind_ext; [done|]. intros tx w1. apply bind_ext; [done|]. intros res w2.
  rewrite run_bind. apply bind_ext; [unfold reconcile_steps, reconcileAfterWrite; same_run|]. intros a w3. done.
Qed.
Lemma run_known_owner o (w : W) : run (known_owner_steps o) w =
  (if wired_identityExists then ok ← identity_exists o; throw_if (negb ok) (NotFoundError ("No identity " +:+ o)) else mret tt) w.
Proof. unfold known_owner_steps. destruct wired_identityExists; [same_run|done]. Qed.
Hint Resolve run_requireAsset run_submit_and_store run_known_owner : bel.
Lemma run_loop fuel c cur visited (w : W) : run (assertNoCycle_loop_steps fuel c cur visited) w = assertNoCycle_loop fuel c cur visited w.
Proof.
  revert cur visited w. induction fuel as [|fuel IH]; intros cur visited w; [done|]. cbn [assertNoCycle_loop_steps assertNoCycle_loop].
  destruct cur as [a|]; [|done]. destruct (truthy_string (Asset.parentAssetId a)); [same_run; apply IH|done].
Qed.
Hint Resolve run_loop : bel.
Lemma run_asset_program fuel r actor (w : W) : run (asset_program fuel r actor) w = run_request fuel r actor w.
Proof.
  destruct r as [id|input|id o c|id s|p c|p c]; cbn [asset_program run_request]; [auto with bel|..]; (rewrite run_bind; apply bind_ext; [|done]).
  - unfold create_steps, create. same_run.
  - unfold transfer_steps, transfer. same_run.
  - unfold changeAssetState_steps, changeAssetState, assertStateTransition. same_run.
  - unfold attachComponent_steps, attachComponent, assertNoCycle_steps, assertNoCycle. same_run.
  - unfold removeComponent_steps, removeComponent. same_run.
Qed.
End Programs.

(** ** What a write answers *)

Section Acknowledged.
Context `{PF : Platform} {C : Type} `{BlockchainService C} `{Wiring}.
Abbreviation W := (World C).
Abbreviation P := (Prog exn (World C)).

Definition is_write (r : Request.t) : bool := match r with Request.Get _ => false | _ => true end.
(** The asset a request is about; an asset created without an id gets one. *)
Definition request_asset (r : Request.t) : option string :=
  match r with
  | Request.Create input => let given := trim <$> PartialAsset.assetId input in if truthy_string given then given else None
  | Request.Get id | Request.Transfer id _ _ | Request.SetState id _ | Request.Attach _ id | Request.Remove _ id => Some id
  end.
(** The transaction a write has to send. *)
Definition asks_for (r : Request.t) (id : string) (tx : Transaction.t) : Prop :=
  let p := Transaction.payload tx in
  match r with
  | Request.Get _ => False
  | Request.Create _ => Transaction.type tx = ASSET_MINT /\ field "assetId" p = VStr id
  | Request.Transfer _ o _ => Transaction.type tx = ASSET_TRANSFER /\ field "newOwnerId" p = VStr (trim o)
  | Request.SetState _ s => Transaction.type tx = ASSET_STATE_CHANGE /\ field "newState" p = VStr s
  | Request.Attach pa c => Transaction.type tx = COMPONENT_ATTACH /\ field "parentAssetId" p = VStr pa /\ field "componentId" p = VStr c
  | Request.Remove pa c => Transaction.type tx = COMPONENT_REMOVE /\ field "parentAssetId" p = VStr pa /\ field "componentId" p = VStr c
  end.
(** The call of the chain a transaction is handed over with. *)
Definition chain_takes (tx : Transaction.t) : M exn C TxResult.t :=
  match submitTransactionDetailed with Some detailed => detailed tx | None => submitTransaction tx end.
(** [a] is the asset as the chain gave it. *)
Definition shows (a : Asset.t) (result : TxResult.t) (o : option OnChainAsset.t) : Prop :=
  match o with
  | Some on =>
      let b := OnChainAsset.asset on in
      Asset.nftId a = Asset.nftId b /\ Asset.ownerId a = Asset.ownerId b /\ Asset.custodianId a = Asset.custodianId b /\
      Asset.status a = Asset.status b /\ (OnChainAsset.parent_undefined on = false -> Asset.parentAssetId a = Asset.parentAssetId b)
  | None => TxResult.nftId result = Some (Asset.nftId a) /\ Asset.nftId a <> ""
  end.
(** The last three steps of a write: the chain takes its transaction, then is
    asked for the asset, and its answer is stored. *)
Inductive acknowledged (r : Request.t) (id : string) (a : Asset.t) : list (W * W) -> Prop :=
| acknowledged_by tx result o sent sent' read read' stored stored' :
    asks_for r id tx -> chain_takes tx (w_chain sent) = (inr result, w_chain sent') -> TxResult.status result = SUCCESS ->
    chain_getAsset id (w_chain read) = (inr o, w_chain read') -> shows a result o ->
    get id (w_assetCache stored') = Some a -> get (Asset.assetId a) (w_assetRecords stored') = Some a -> w_chain stored' = w_chain stored ->
    acknowledged r id a [(sent, sent'); (read, read'); (stored, stored')].

Lemma transaction_inv ty actor p (w w1 : W) tx : transaction ty actor p w = (inr tx, w1) ->
  Transaction.type tx = ty /\ Transaction.payload tx = p.
Proof.
  unfold transaction. intros (signer & w2 & _ & E)%bind_inr. apply bind_inr in E as (u & w3 & _ & E).
  apply bind_inr in E as (x & w4 & _ & E). apply bind_inr in E as (t & w5 & _ & E). by injection E as <- _.
Qed.
(** What the requests share. *)
Definition registry (w : W) := (w_chain w, w_assetCache w, w_assetRecords w).
Lemma keeps_transaction ty actor p : keeps registry (transaction ty actor p : M exn W _).
Proof.
  unfold transaction, requireActor, requiredString. rframe; by intros [].
Qed.
Lemma send_inv ty actor p (w w1 : W) r : send ty actor p w = (r, w1) ->
  (exists e, r = inl e /\ registry w1 = registry w) \/
  exists tx r' c, Transaction.type tx = ty /\ Transaction.payload tx = p /\ chain_takes tx (w_chain w) = (r', c) /\
    registry w1 = (c, w_assetCache w, w_assetRecords w) /\
    (forall res, r = inr res -> r' = inr res /\ TxResult.status res = SUCCESS).
Proof.
  intros [(e & -> & E)|(tx & w0 & E & Es)]%bind_inv; [left; exists e; split; [done|exact (keeps_run _ _ _ _ _ (keeps_transaction _ _ _) E)]|right].
  pose proof (keeps_run _ _ _ _ _ (keeps_transaction _ _ _) E) as Hk. injection Hk as Hc Ha Hr. apply transaction_inv in E as [Ht Hp].
  apply bind_inv in Es as [(e & -> & E)|(res & w2 & E & Es)]; apply on_chain_inv in E as (c & E & ->).
  - exists tx, (inl e), c. rewrite Hc in E. unfold registry. simpl. rewrite Ha, Hr. by split_and!.
  - exists tx, (inr res), c. rewrite Hc in E. unfold registry. apply bind_inv in Es as [(e & -> & E')|(u & w3 & E' & Es)].
    + apply throw_if_inl in E' as (_ & _ & <-). simpl. by rewrite Ha, Hr.
    + apply throw_if_inr in E' as [Hok <-]. injection Es as <- <-. simpl. rewrite Ha, Hr. split_and!; try done.
      intros res' [= <-]. split; [done|]. by apply negb_false_iff, bool_decide_eq_true in Hok.
Qed.
Lemma reconcile_trace id res fb l a : returns (reconcile_steps id res fb : P _) l a ->
  exists w w1 o, l = [(w, w1)] /\ chain_getAsset id (w_chain w) = (inr o, w_chain w1) /\ shows a res o.
Proof.
  unfold reconcile_steps. intros (l1 & l2 & o & -> & H1 & H2)%returns_bind. apply returns_await in H1 as (w & w1 & -> & E).
  apply on_chain_inv in E as (c & E & ->). exists w, (upd_chain (fun _ => c) w), o. destruct o as [on|].
  - apply returns_ret in H2 as [-> ->]. split_and!; [done|done|..]; simpl; split_and!; try done. by intros ->.
  - destruct (TxResult.nftId res) as [n|] eqn:Hn; simpl in H2; [|by apply returns_throw in H2]. case_bool_decide as Hne;
      [by apply returns_throw in H2|].
    apply returns_ret in H2 as [-> ->]. split_and!; [done|done|]. simpl. rewrite Hn. done.
Qed.
(** Where a request ends, and how. *)
Definition answered (r : Request.t) (l : list (W * W)) (a : Asset.t) : Prop :=
  exists id, (forall k, request_asset r = Some k -> id = k) /\ acknowledged r id a l.
Lemma write_ends r id ty actor p fb : (forall tx, Transaction.type tx = ty -> Transaction.payload tx = p -> asks_for r id tx) ->
  (forall k, request_asset r = Some k -> id = k) -> ends (submit_and_store_steps id ty actor p fb : P _) (answered r).
Proof.
  intros Hask Hid l a Hr. unfold submit_and_store_steps in Hr. apply returns_bind in Hr as (l1 & l2 & res & -> & H1 & Hr).
  apply returns_await in H1 as (w & w1 & -> & Es). apply returns_bind in Hr as (l3 & l4 & b & -> & (w2 & w3 & o & -> & Eg & Hs)%reconcile_trace & Hr).
  apply returns_bind in Hr as (l5 & l6 & u & -> & (w4 & w5 & -> & E)%returns_await & [-> ->]%returns_ret). injection E as _ <-.
  apply send_inv in Es as [(e & [=] & _)|(tx & r' & c & Ht & Hp & Et & Hreg & Hres)]. destruct (Hres res eq_refl) as [-> Hok].
  injection Hreg as Hc _ _. exists [], [(w, w1); (w2, w3); (w4, upd_assetRecords (put (Asset.assetId b) b) (upd_assetCache (put id b) w4))].
  split; [done|]. exists id. split; [done|]. apply (acknowledged_by r id b tx res o); simpl; rewrite ?get_put_eq; try done;
    [by apply Hask|by rewrite Hc].
Qed.
Lemma requiredString_trace v f l s : returns (requiredString_steps v f : P _) l s -> exists t, v = VStr t /\ s = trim t.
Proof.
  unfold requiredString_steps. destruct v; try by intros ?%returns_throw. destruct (blank _); [by intros ?%returns_throw|].
  intros [_ ->]%returns_ret. by eexists.
Qed.

Ltac to_the_end :=
  repeat first
    [ apply write_ends; [intros tx Ht Hp; simpl; by rewrite Ht, Hp|by intros k [= ->]]
    | apply ends_bind; intros ? ? _ ].
Lemma request_ends fuel r actor : is_write r = true ->
  ends (asset_program fuel r actor) (fun l o => exists a, o = Some a /\ answered r l a).
Proof.
  assert (Hput : forall p : P Asset.t, ends p (answered r) -> ends (a ← p; mret (Some a)) (fun l o => exists a, o = Some a /\ answered r l a)).
  { intros p Hp. apply ends_ret. intros l a (l1 & l2 & -> & Ha)%Hp. exists l1, l2. split; [done|]. by exists a. }
  intros Hw. destruct r as [id|input|id o c|id s|p c|p c]; [done|..]; cbn [asset_program]; apply Hput.
  - unfold create_steps. do 5 (apply ends_bind; intros ? ? _). apply ends_bind. intros lid id Hid.
    do 3 (apply ends_bind; intros ? ? _). apply write_ends; [intros tx Ht Hp; simpl; by rewrite Ht, Hp|]. cbv zeta in Hid.
    unfold request_asset. cbv zeta. intros k. destruct (truthy_string (trim <$> PartialAsset.assetId input)); [|done].
    apply returns_ret in Hid as [_ ->]. by intros ->.
  - unfold transfer_steps. apply ends_bind. intros _ asset _. apply ends_bind. intros _ o' (t & [= <-] & ->)%requiredString_trace. to_the_end.
  - unfold changeAssetState_steps. to_the_end.
  - unfold attachComponent_steps. to_the_end.
  - unfold removeComponent_steps. to_the_end.
Qed.

(** C16: However requests interleave, a write of the registry only answers after
    the chain took its transaction and was then asked for the asset; what it
    answers is what the chain said, and is what it stores. *)
Theorem write_acknowledged fuel (ps ps' : list (P (option Asset.t))) (w w' : W) i r actor o :
  ps !! i = Some (asset_program fuel r actor) -> is_write r = true ->
  interleaves (ps, w) (ps', w') -> ps' !! i = Some (Return o) ->
  exists a before last, o = Some a /\ answered r last a /\ during (ps, w) (before ++ last) (ps', w').
Proof.
  intros Hp Hw Hr Ho. destruct (returned i _ _ _ _ _ o Hr Hp Ho) as (l & Hl & Hd).
  destruct (request_ends fuel r actor Hw l o Hl) as (before & last & -> & a & -> & Ha). by exists a, before, last.
Qed.
End Acknowledged.

(** ** The contract decides *)

(** The token a payload names, as [nftRef] of [payloads.ts] finds it: the
    first positive number under its token keys, else the token that was minted
    for the asset id. *)
Definition refers (minted : string -> option Z) (p : payload) (idKeys nftKeys : list string) : option Z :=
  match first_nft p nftKeys with Some n => Some n | None => first_string p idKeys ≫= minted end.
(** The tokens that a transaction on a decommissioned asset names. *)
Definition names (minted : string -> option Z) (tx : Transaction.t) (n : Z) : Prop :=
  let p := Transaction.payload tx in
  match Transaction.type tx with
  | ASSET_TRANSFER | ASSET_STATE_CHANGE => refers minted p ["assetId"] ["nftId"] = Some n
  | COMPONENT_ATTACH =>
      refers minted p ["parentAssetId"] ["parentNftId"] = Some n \/
      refers minted p ["componentAssetId"; "componentId"] ["componentNftId"] = Some n
  | _ => False
  end.
(** The contract [AssetRegistry], as the adapter shows it: every asset id gets
    at most one token, for good; the status is kept by token; a decommissioned
    asset is no longer transferred, attached, attached to, or moved to another
    state; and asking for an asset, which gives its token, changes nothing. *)
Class AssetContract {C} `{BlockchainService C} (token_of : string -> C -> option Z) (status_of : Z -> C -> option AssetStatus) := {
  contract_refuses tx n c res c' : names (fun k => token_of k c) tx n -> chain_takes tx c = (inr res, c') ->
    TxResult.status res = SUCCESS -> status_of n c <> Some DECOMMISSIONED;
  contract_retires tx n c res c' :
    Transaction.type tx = ASSET_STATE_CHANGE ->
    refers (fun k => token_of k c) (Transaction.payload tx) ["assetId"] ["nftId"] = Some n ->
    field "newState" (Transaction.payload tx) = VStr "DECOMMISSIONED" ->
    chain_takes tx c = (inr res, c') -> TxResult.status res = SUCCESS -> status_of n c' = Some DECOMMISSIONED;
  contract_final tx n c r c' : chain_takes tx c = (r, c') -> status_of n c = Some DECOMMISSIONED -> status_of n c' = Some DECOMMISSIONED;
  contract_tokens tx k n c r c' : chain_takes tx c = (r, c') -> token_of k c = Some n -> token_of k c' = Some n;
  contract_reads k c r c' : chain_getAsset k c = (r, c') -> (forall n, status_of n c' = status_of n c) /\ forall j, token_of j c' = token_of j c;
  contract_names k c on c' : chain_getAsset k c = (inr (Some on), c') -> Asset.assetId (OnChainAsset.asset on) = k /\
    exists n, token_of k c = Some n /\ (0 < n)%Z /\ nft_number (VStr (Asset.nftId (OnChainAsset.asset on))) = Some n;
  contract_unknown k c c' : chain_getAsset k c = (inr None, c') -> token_of k c = None;
}.

Section Races.
Context `{PF : Platform} {C : Type} `{BlockchainService C} `{Wiring}
  (token_of : string -> C -> option Z) (status_of : Z -> C -> option AssetStatus) `{!AssetContract token_of status_of} (id : string) (n : Z)
  (Htrim : trim id = id) (Hne : id <> "").
Abbreviation W := (World C).
Abbreviation P := (Prog exn (World C)).

(** What is remembered of the asset [id] names its token [n], if any. *)
Definition fits (a : Asset.t) : Prop := forall m, nft_number (VStr (Asset.nftId a)) = Some m -> (0 < m)%Z -> m = n.
Definition is_asset (k : string) (a : Asset.t) : Prop := Asset.assetId a = k /\ (k = id -> fits a).
(** The asset has its token, and every asset is remembered under its id. *)
Definition assets_keyed (w : W) : Prop :=
  token_of id (w_chain w) = Some n /\
  (forall k a, get k (w_assetCache w) = Some a -> is_asset k a) /\ (forall k a, get k (w_assetRecords w) = Some a -> is_asset k a).
Definition decommissioned (w : W) : Prop := status_of n (w_chain w) = Some DECOMMISSIONED.
Abbreviation safe := (harmless assets_keyed decommissioned).
Abbreviation guarded := (gated assets_keyed decommissioned).
Abbreviation refused := (barred assets_keyed decommissioned).
Abbreviation kept := (keeps_closed assets_keyed decommissioned).
Abbreviation holds := (sound assets_keyed decommissioned).

Lemma registry_kept {A} (op : M exn W A) : keeps registry op -> kept op.
Proof.
  intros Hop w r w' E Hk. pose proof (keeps_run _ _ _ _ _ Hop E) as Hs. injection Hs as Hc Ha Hr.
  unfold assets_keyed, decommissioned. by rewrite Hc, Ha, Hr.
Qed.
Lemma getAsset_kept k : kept (on_chain (chain_getAsset k)).
Proof.
  intros w r w' (c & E & ->)%on_chain_inv (Ht & Hk). destruct (contract_reads _ _ _ _ E) as [Hs Hj]. unfold assets_keyed, decommissioned. simpl.
  by rewrite Hs, Hj.
Qed.
Lemma keyed_put (m : jsmap Asset.t) k a : is_asset k a -> (forall j b, get j m = Some b -> is_asset j b) ->
  forall j b, get j (put k a m) = Some b -> is_asset j b.
Proof. intros Ha Hm j b. rewrite get_put. destruct (String.eqb_spec j k) as [->|]; [by intros [= <-]|apply Hm]. Qed.
Lemma cache_kept k a : is_asset k a -> kept (cache_set k a).
Proof. intros Ha w r w' [= _ <-] (Ht & Hc & Hr). split; [|done]. split; [done|]. split; [|done]. by apply keyed_put. Qed.
Lemma remember_kept k a : is_asset k a -> kept (remember k a).
Proof.
  intros Ha w r w' [= _ <-] (Ht & Hc & Hr). split; [|done]. split; [done|]. split; simpl; [by apply keyed_put|].
  destruct Ha as [Hid Hf]. rewrite Hid. by apply keyed_put.
Qed.
Lemma send_kept ty actor p : kept (send ty actor p).
Proof.
  intros w r w' [(e & -> & Hs)|(tx & r' & c & _ & _ & E & Hs & _)]%send_inv (Ht & Hk); injection Hs as Hc Ha Hr;
    unfold assets_keyed, decommissioned; rewrite Hc, Ha, Hr; [done|].
  split; [split; [by eapply contract_tokens|done]|by eapply contract_final].
Qed.

Lemma sound_recall k : holds (fun o => forall a, o = Some a -> is_asset k a) (await (recall k)).
Proof.
  apply sound_await; [apply registry_kept; unfold recall, cache_get; rframe|]. intros o (w & w' & (_ & Hc & Hr) & E) a ->.
  unfold recall, cache_get, assets_findById in E. apply bind_inr in E as (o & w1 & [= <- <-] & E).
  destruct (get k (w_assetCache w)) as [b|] eqn:Hb; injection E as E _; [subst; by apply Hc|by apply Hr].
Qed.
(** The chain knows the asset [id], by its token. *)
Definition on_asset (k : string) (o : option OnChainAsset.t) : Prop :=
  match o with Some on => is_asset k (OnChainAsset.asset on) | None => k <> id end.
Lemma sound_getAsset k : holds (on_asset k) (await (on_chain (chain_getAsset k))).
Proof.
  apply sound_await; [apply getAsset_kept|]. intros o (w & w' & (Ht & _) & (c & E & _)%on_chain_inv). destruct o as [on|]; simpl.
  - destruct (contract_names _ _ _ _ E) as (Hk & m & Hm & _ & Hn). split; [done|]. intros -> m' Hm' _. congruence.
  - intros ->. apply contract_unknown in E. congruence.
Qed.
Lemma merged_id k on cached : is_asset k (OnChainAsset.asset on) -> (forall a, cached = Some a -> is_asset k a) ->
  is_asset k (mergeAsset on cached).
Proof.
  intros [Hon Hf] Hc. split; [|exact Hf]. simpl. unfold first_nonempty. rewrite Hon. case_bool_decide as Hk; [|done].
  destruct cached as [a|]; simpl; [by apply Hc|by rewrite Hk].
Qed.
Lemma sound_getById k : holds (fun o => forall a, o = Some a -> is_asset k a) (getById_steps k).
Proof.
  unfold getById_steps. eapply sound_bind; [apply sound_recall|]. intros cached Hc. eapply sound_bind; [apply sound_getAsset|].
  intros [on|] Hon; [|done]. split; [by apply cache_kept, merged_id|]. intros _ _ a [= <-]. by apply merged_id.
Qed.
Lemma sound_requireAsset k f : holds (is_asset k) (requireAsset_steps k f).
Proof.
  unfold requireAsset_steps. eapply sound_bind; [apply sound_getById|]. intros o Ho. apply sound_demand. intros a ->. by apply Ho.
Qed.
Lemma sound_reconcile k res fb : is_asset k fb -> holds (is_asset k) (reconcile_steps k res fb).
Proof.
  intros Hfb. unfold reconcile_steps. eapply sound_bind; [apply sound_getAsset|]. intros [on|] Hon.
  - apply merged_id; [done|]. by intros a [= <-].
  - destruct (truthy_string (TxResult.nftId res)); [|done]. destruct Hfb as [Hid _]. by split; [destruct fb|].
Qed.

Lemma safe_getById k : safe (getById_steps k).
Proof. eapply harmless_sound, sound_getById. Qed.
Lemma safe_requireAsset k f : safe (requireAsset_steps k f).
Proof. eapply harmless_sound, sound_requireAsset. Qed.
Lemma safe_requiredString v f : safe (requiredString_steps v f).
Proof. unfold requiredString_steps. destruct v; try done. by destruct (blank _). Qed.
Lemma safe_identity_exists k : safe (await (identity_exists k)).
Proof. apply harmless_await, registry_kept. unfold identity_exists. rframe. Qed.
Lemma safe_known_owner o : safe (known_owner_steps o).
Proof.
  unfold known_owner_steps. destruct wired_identityExists; [|done]. apply harmless_bind; [apply safe_identity_exists|intros; apply harmless_check].
Qed.
Hint Resolve safe_getById safe_requireAsset safe_requiredString safe_identity_exists safe_known_owner harmless_check : bel.
Lemma safe_loop fuel c cur visited : safe (assertNoCycle_loop_steps fuel c cur visited).
Proof.
  revert cur visited. induction fuel as [|fuel IH]; intros cur visited; [done|]. cbn [assertNoCycle_loop_steps]. destruct cur as [a|]; [|done].
  destruct (truthy_string (Asset.parentAssetId a)); [|done]. repeat (apply harmless_bind; [solve [auto with bel]|intros ?]). apply IH.
Qed.
Lemma safe_assertNoCycle fuel p c : safe (assertNoCycle_steps fuel p c).
Proof. apply harmless_bind; [auto with bel|intros; apply safe_loop]. Qed.
Hint Resolve safe_assertNoCycle : bel.

(** After the chain took the transaction the write goes on harmlessly. *)
Lemma safe_after_send k res fb : is_asset k fb ->
  safe (reconciled ← reconcile_steps k res fb; await (remember k reconciled);; mret reconciled).
Proof.
  intros Hfb. eapply harmless_after; [by apply sound_reconcile|]. intros a Ha. apply harmless_bind; [by apply harmless_await, remember_kept|done].
Qed.
Lemma safe_write k ty actor p fb : is_asset k fb -> safe (submit_and_store_steps k ty actor p fb).
Proof. intros Hfb. apply harmless_bind; [apply harmless_await, send_kept|]. intros res. by apply safe_after_send. Qed.
(** The payload of a write on the asset names its token, one way or the other. *)
Lemma refers_fits minted p idKeys k a : minted id = Some n -> is_asset id a -> first_string p idKeys = Some id ->
  field k p = VStr (Asset.nftId a) -> refers minted p idKeys [k] = Some n.
Proof.
  intros Hm [_ Hf] Hid Hk. unfold refers. cbn [first_nft]. rewrite Hk, Hid. specialize (Hf eq_refl).
  destruct (nft_number _) as [m|] eqn:Em; [|done]. destruct (Z.ltb_spec 0 m); [|done]. by rewrite (Hf m Em).
Qed.
Lemma first_id k p ks : field k p = VStr id -> first_string p (k :: ks) = Some id.
Proof. intros Hk. cbn [first_string]. rewrite Hk, Htrim. by rewrite bool_decide_eq_false_2. Qed.
(** A write the contract refuses. *)
Lemma refused_by_chain k ty actor p fb :
  (forall tx minted, Transaction.type tx = ty -> Transaction.payload tx = p -> minted id = Some n -> names minted tx n) ->
  refused (submit_and_store_steps k ty actor p fb).
Proof.
  intros Hn. apply barred_await; [apply send_kept|].
  intros w res w' [(e & [=] & _)|(tx & r' & c & Ht & Hp & E & _ & Hres)]%send_inv (Htok & _) Hd.
  destruct (Hres res eq_refl) as [-> Hok]. by destruct (contract_refuses tx n _ _ _ (Hn tx (fun k => token_of k (w_chain w)) Ht Hp Htok) E Hok).
Qed.
(** A write that decommissions the asset passes a gate. *)
Lemma guarded_retire k actor p fb : is_asset k fb ->
  (forall minted, minted id = Some n -> refers minted p ["assetId"] ["nftId"] = Some n) -> field "newState" p = VStr "DECOMMISSIONED" ->
  guarded (submit_and_store_steps k ASSET_STATE_CHANGE actor p fb).
Proof.
  intros Hfb Hid Hnew. apply (gated_pass _ _ _ (fun _ => true)); [|intros res; by apply safe_after_send]. split; [apply send_kept|].
  intros w res w' [(e & [=] & _)|(tx & r' & c & Ht & <- & E & Hs & Hres)]%send_inv (Htok & _) _. destruct (Hres res eq_refl) as [-> Hok].
  injection Hs as Hc _ _. unfold decommissioned. rewrite Hc. pose proof (Hid (fun k => token_of k (w_chain w)) Htok) as Hn. split.
  - eapply (contract_refuses tx n); [|exact E|done]. unfold names. by rewrite Ht.
  - by eapply (contract_retires tx n).
Qed.

(** The requests that decommission the asset, and those the contract refuses
    once it is. *)
Definition retires (r : Request.t) : bool :=
  match r with Request.SetState k s => String.eqb k id && String.eqb s "DECOMMISSIONED" | _ => false end.
Definition touches (r : Request.t) : bool :=
  match r with
  | Request.Transfer k _ _ | Request.SetState k _ => String.eqb k id
  | Request.Attach p c => String.eqb p id || String.eqb c id
  | _ => false
  end.

Lemma is_asset_same k a b : Asset.assetId b = Asset.assetId a -> Asset.nftId b = Asset.nftId a -> is_asset k a -> is_asset k b.
Proof. unfold is_asset, fits. by intros -> ->. Qed.
Hint Extern 2 (is_asset _ _) => (eapply is_asset_same; [..|eassumption]; reflexivity) : bel.
Ltac piece := first
  [ apply harmless_bind; [solve [auto with bel]|intros ?]
  | eapply harmless_after; [apply sound_requireAsset|intros ? ?]
  | apply safe_write; solve [auto with bel] ].
Lemma minted_asset k ty o c par : is_asset k (Asset.mk k "" ty o c par Asset_ACTIVE).
Proof. by split. Qed.
Hint Resolve minted_asset : bel.
Lemma safe_asset_request fuel r actor : safe (asset_program fuel r actor).
Proof.
  destruct r as [k|input|k o c|k s|p c|p c]; cbn [asset_program]; [auto with bel|..]; (apply harmless_bind; [|done]).
  - unfold create_steps. do 3 piece. apply harmless_bind.
    { destruct wired_identityExists; [|done]. apply harmless_bind; [apply safe_identity_exists|]. intros b.
      apply harmless_bind; [destruct b; [apply safe_identity_exists|done]|]. intros; apply harmless_check. }
    intros _. piece. apply harmless_bind.
    { cbv zeta. destruct (truthy_string _); [done|]. apply harmless_bind; [|done]. apply harmless_await, registry_kept. by intros w. }
    intros k. do 2 piece. apply harmless_bind; [|intros _; piece].
    destruct (PartialAsset.parentAssetId input); [|done]. apply harmless_bind; [apply safe_requireAsset|done].
  - unfold transfer_steps. eapply harmless_after; [apply sound_requireAsset|]. intros a Ha. do 2 piece. apply harmless_bind.
    { destruct c; [apply safe_requiredString|done]. }
    intros cu. repeat piece.
  - unfold changeAssetState_steps. apply harmless_bind; [apply harmless_demand|]. intros st.
    eapply harmless_after; [apply sound_requireAsset|]. intros a Ha. repeat piece.
  - unfold attachComponent_steps. piece. eapply harmless_after; [apply sound_requireAsset|]. intros comp Hc. repeat piece.
  - unfold removeComponent_steps. piece. eapply harmless_after; [apply sound_requireAsset|]. intros comp Hc. repeat piece.
Qed.
Lemma guarded_request fuel r actor : retires r = true -> guarded (asset_program fuel r actor).
Proof.
  destruct r as [k|input|k o c|k s|p c|p c]; try done. intros [->%String.eqb_eq ->%String.eqb_eq]%andb_true_iff.
  cbn [asset_program]. apply gated_then; [|done]. unfold changeAssetState_steps. apply gated_bind; [apply harmless_demand|]. intros st.
  eapply gated_after; [apply sound_requireAsset|]. intros a Ha. apply gated_bind; [apply harmless_check|]. intros _.
  apply guarded_retire; [auto with bel| |done]. intros minted Hm. apply (refers_fits _ _ _ _ a); [done|done| |done].
  apply first_id. destruct Ha as [Hid _]. simpl. by rewrite Hid.
Qed.
Lemma refused_request fuel r actor : touches r = true -> refused (asset_program fuel r actor).
Proof.
  destruct r as [k|input|k o c|k s|p c|p c]; try done; cbn [touches asset_program]; intros Hr; apply barred_bind.
  - apply String.eqb_eq in Hr as ->. unfold transfer_steps. eapply barred_after; [apply sound_requireAsset|]. intros a Ha.
    do 7 (apply barred_skip; [first [solve [auto with bel]|destruct c; [apply safe_requiredString|done]]|intros ?]).
    apply refused_by_chain. intros tx minted Ht Hp Hm. unfold names. rewrite Ht, Hp. apply (refers_fits _ _ _ _ a); [done|done| |done].
    apply first_id. destruct Ha as [Hid _]. simpl. by rewrite Hid.
  - apply String.eqb_eq in Hr as ->. unfold changeAssetState_steps. apply barred_skip; [apply harmless_demand|]. intros st.
    eapply barred_after; [apply sound_requireAsset|]. intros a Ha. apply barred_skip; [apply harmless_check|]. intros _.
    apply refused_by_chain. intros tx minted Ht Hp Hm. unfold names. rewrite Ht, Hp. apply (refers_fits _ _ _ _ a); [done|done| |done].
    apply first_id. destruct Ha as [Hid _]. simpl. by rewrite Hid.
  - unfold attachComponent_steps. eapply barred_after; [apply sound_requireAsset|]. intros pa Hpa.
    eapply barred_after; [apply sound_requireAsset|]. intros ca Hca. do 4 (apply barred_skip; [solve [auto with bel]|intros ?]).
    apply refused_by_chain. intros tx minted Ht Hp Hm. unfold names. rewrite Ht, Hp.
    apply orb_true_iff in Hr as [->%String.eqb_eq | ->%String.eqb_eq]; [left|right].
    + apply (refers_fits _ _ _ _ pa); [done|done|by apply first_id|done].
    + apply (refers_fits _ _ _ _ ca); [done|done| |done].
      by rewrite <-(first_id "componentId" [("componentId", VStr id)] [] eq_refl).
Qed.

(** The programs of a list of requests. *)
Definition asset_pool (fuel : nat) (l : list (Request.t * Actor.t)) : list (P (option Asset.t)) :=
  map (fun c => asset_program fuel (fst c) (snd c)) l.
Definition chosen (f : Request.t -> bool) (l : list (Request.t * Actor.t)) (i : nat) : bool :=
  match l !! i with Some c => f (fst c) | None => false end.
Lemma pool_inv fuel l i p : asset_pool fuel l !! i = Some p ->
  exists c, l !! i = Some c /\ p = asset_program fuel (fst c) (snd c).
Proof. unfold asset_pool. rewrite list_lookup_fmap. destruct (l !! i) as [c|]; [intros [= <-]; by exists c|done]. Qed.

(** C17: However requests interleave, on a chain that keeps tokens and statuses
    as the contract does, of the requests to decommission an asset that has its
    token at most one returns; once the chain holds the token decommissioned no
    request to transfer the asset, change its state, attach it or attach to it
    returns. *)
Theorem decommissioned_once fuel (l : list (Request.t * Actor.t)) (w w' : W) ps :
  assets_keyed w -> interleaves (asset_pool fuel l, w) (ps, w') ->
  (forall i j a b, chosen retires l i = true -> chosen retires l j = true ->
     ps !! i = Some (Return a) -> ps !! j = Some (Return b) -> i = j) /\
  (decommissioned w -> forall i a, chosen touches l i = true -> ps !! i <> Some (Return a)).
Proof.
  intros Hk Hr. split.
  - intros i j a b. refine (at_most_one assets_keyed decommissioned (chosen retires l) _ _ w w' Hk _ Hr i j a b). intros k p (c & Hc & ->)%pool_inv.
    unfold chosen. rewrite Hc. destruct (retires (fst c)) eqn:E; [by apply guarded_request|apply safe_asset_request].
  - intros Hd. refine (none_passes assets_keyed decommissioned (chosen touches l) _ _ w w' Hk Hd _ Hr). intros k p (c & Hc & ->)%pool_inv.
    unfold chosen. rewrite Hc. destruct (touches (fst c)) eqn:E; [by apply refused_request|apply safe_asset_request].
Qed.
End Races.

(** ** Witnesses *)

Section Demo.
#[local] Existing Instance dev.
#[local] Instance asset_wires : Wiring := {| wired_assets := true; wired_identityExists := false |}.

(** A chain with two assets that takes state changes as the contract does:
    the states of the tokens, of which 7 is that of A and 8 that of B. *)
Definition token (id : string) : option Z :=
  if String.eqb id "A" then Some 7%Z else if String.eqb id "B" then Some 8%Z else None.
Definition States : Type := Z -> AssetStatus.
Definition set_state (n : Z) (st : AssetStatus) (c : States) : States := fun m => if (m =? n)%Z then st else c m.
Definition registry_submit (tx : Transaction.t) : M exn States TxResult.t := fun c =>
  let rejected := (inr (TxResult.mk "tx" TX_REJECTED None None None None None), c) in
  match Transaction.type tx, refers token (Transaction.payload tx) ["assetId"] ["nftId"], field "newState" (Transaction.payload tx) with
  | ASSET_STATE_CHANGE, Some n, VStr new =>
      match parse_AssetStatus new with
      | Some st =>
          if bool_decide (c n = st) || bool_decide (c n = DECOMMISSIONED) then rejected
          else (inr (TxResult.mk "tx" SUCCESS None None None None None), set_state n st c)
      | None => rejected
      end
  | _, _, _ => rejected
  end.
Definition unused {A} : M exn States A := throw (Error "not in the demo").
Definition shown (id : string) (c : States) : option OnChainAsset.t :=
  (fun n => OnChainAsset.mk (Asset.mk id (pretty n) "" "OWNER" "OWNER" None (c n)) false) <$> token id.
#[local] Instance registry_chain : BlockchainService States := {
  submitTransaction := registry_submit;
  submitTransactionDetailed := None;
  prepareTransaction := None;
  chain_getIdentity _ := unused;
  chain_getWallet _ := unused;
  chain_getAsset id := gets (shown id);
  chain_getStatus := unused;
  chain_getValidators := unused;
  chain_getCommittee _ := unused;
  getAuditTrail := None;
}.
Definition minted (id : string) (_ : States) : option Z := token id.
Definition held (n : Z) (c : States) : option AssetStatus := Some (c n).
Lemma registry_submit_inv tx c r c' : registry_submit tx c = (r, c') ->
  (exists res, r = inr res /\ TxResult.status res = TX_REJECTED /\ c' = c) \/
  exists n st new, Transaction.type tx = ASSET_STATE_CHANGE /\ refers token (Transaction.payload tx) ["assetId"] ["nftId"] = Some n /\
    field "newState" (Transaction.payload tx) = VStr new /\ parse_AssetStatus new = Some st /\ c n <> DECOMMISSIONED /\ c' = set_state n st c.
Proof.
  unfold registry_submit. destruct (Transaction.type tx) eqn:Ht; try (intros [= <- <-]; left; by eexists).
  destruct (refers _ _ _ _) as [n|] eqn:Hid; [|intros [= <- <-]; left; by eexists].
  destruct (field "newState" (Transaction.payload tx)) as [| | | | |new| |] eqn:Hnew; try (intros [= <- <-]; left; by eexists).
  destruct (parse_AssetStatus new) as [st|] eqn:Hst; [|intros [= <- <-]; left; by eexists].
  destruct (bool_decide (c n = st) || bool_decide (c n = DECOMMISSIONED)) eqn:Hb; [intros [= <- <-]; left; by eexists|].
  apply orb_false_iff in Hb as [_ Hd%bool_decide_eq_false]. intros [= <- <-]. right. by exists n, st, new.
Qed.
#[local] Instance registry_laws : AssetContract minted held.
Proof.
  split; unfold chain_takes, held, minted; simpl.
  - intros tx n c res c' Hn [(r & [= <-] & Hs & _)|(m & st & new & Ht & Hk & _ & _ & Hd & _)]%registry_submit_inv Hok; [congruence|].
    unfold names in Hn. rewrite Ht in Hn. change (fun k => token k) with token in Hn. congruence.
  - intros tx n c res c' _ Hid Hnew [(r & [= <-] & Hs & _)|(m & st & new & _ & Hk & Hn & Hst & _ & ->)]%registry_submit_inv Hok; [congruence|].
    change (fun k => token k) with token in Hid. rewrite Hid in Hk. injection Hk as <-. rewrite Hnew in Hn. injection Hn as <-.
    injection Hst as <-. unfold set_state. by rewrite Z.eqb_refl.
  - intros tx n c r c' [(res & -> & _ & ->)|(m & st & new & _ & _ & _ & _ & Hd & ->)]%registry_submit_inv Hs; [done|].
    unfold set_state. destruct (Z.eqb_spec n m) as [->|]; [congruence|done].
  - done.
  - by intros k c r c' [= _ <-].
  - intros k c on c'. unfold gets, shown, token. destruct (String.eqb_spec k "A") as [->|]; [intros [= <- _]; split; [done|by exists 7%Z]|].
    destruct (String.eqb_spec k "B") as [->|]; [intros [= <- _]; split; [done|by exists 8%Z]|done].
  - intros k c c'. unfold gets, shown. destruct (token k); [done|]. by intros [= _].
Qed.

Definition admin (id : string) : Actor.t := Actor.mk id "0xa" None.
(** Two administrators decommission an asset at the same time. *)
Definition two_retirements : list (Request.t * Actor.t) :=
  [(Request.SetState "A" "DECOMMISSIONED", admin "ADMIN1"); (Request.SetState "A" "DECOMMISSIONED", admin "ADMIN2")].
Definition alternate (n : nat) : list nat := concat (repeat [0; 1] n)%nat.
Definition registry_world : World States :=
  mkWorld [] [] [] [] [] [] [] [] [] [] [] [] [] [] [] [] [] [] (fun _ => Asset_ACTIVE) 0 0 0.
Definition retirement_race := schedule (alternate 8) (asset_pool 5 two_retirements, registry_world).
Definition answers_of {W} (ps : list (Prog exn W (option Asset.t))) : list (option (option AssetStatus)) :=
  map (fun p => match p with Return o => Some (Asset.status <$> o) | _ => None end) ps.
Lemma retirement_runs : interleaves (asset_pool 5 two_retirements, registry_world) (fst retirement_race, snd retirement_race).
Proof. rewrite <- surjective_pairing. apply schedule_interleaves. Qed.
Lemma registry_keyed : assets_keyed minted "A" 7 registry_world.
Proof. by split. Qed.
Definition retired_asset : Asset.t := Asset.mk "A" "7" "" "OWNER" "OWNER" None DECOMMISSIONED.

Lemma decommissioned_once_witness :
  answers_of (fst retirement_race) = [Some (Some DECOMMISSIONED); None] /\ forall a, fst retirement_race !! 1%nat <> Some (Return a).
Proof.
  split; [vm_compute; reflexivity|]. intros a Ha.
  assert (H0 : fst retirement_race !! 0%nat = Some (Return (Some retired_asset))) by (vm_compute; reflexivity).
  pose proof (proj1 (decommissioned_once minted held "A" 7 eq_refl ltac:(done) 5 two_retirements _ _ _ registry_keyed retirement_runs) 0%nat 1%nat _ _ eq_refl eq_refl H0 Ha) as E.
  discriminate E.
Defined.
Lemma write_acknowledged_witness :
  exists a before last, Some retired_asset = Some a /\ answered (Request.SetState "A" "DECOMMISSIONED") last a /\
    during (asset_pool 5 two_retirements, registry_world) (before ++ last) retirement_race.
Proof.
  rewrite (surjective_pairing retirement_race). apply (write_acknowledged 5 _ _ _ _ 0 _ (admin "ADMIN1")).
  - reflexivity.
  - reflexivity.
  - exact retirement_runs.
  - vm_compute. reflexivity.
Defined.

(** On the mock chain, which takes every transaction, two attachments that
    both looked at the hierarchy before either was sent make a cycle. *)
Definition loose (id : string) : Asset.t := Asset.mk id "1" "PUMP" "OWNER" "OWNER" None Asset_ACTIVE.
Definition loose_world : World MockChain :=
  mkWorld [] [] [] [] [] [] [] [] [] [] [] [] [] [] [] [] [] [] (set_assets [("A", loose "A"); ("B", loose "B")] empty_mock) 0 0 0.
Definition crossing : list (Request.t * Actor.t) :=
  [(Request.Attach "A" "B", admin "ADMIN1"); (Request.Attach "B" "A", admin "ADMIN2")].
Definition crossing_race := schedule (alternate 14) (asset_pool 5 crossing, loose_world).
Theorem mock_attached_both : answers_of (fst crossing_race) = [Some (Some Asset_ACTIVE); Some (Some Asset_ACTIVE)] /\
  map (fun id => Asset.parentAssetId <$> JsMap.get id (m_assets (w_chain (snd crossing_race)))) ["A"; "B"] = [Some (Some "B"); Some (Some "A")].
Proof. vm_compute. done. Qed.
End Demo.

Section Alone.
Context `{PF : Platform} {C : Type} `{BlockchainService C} `{Wiring}.
(** A request that nothing interleaves with does what [Assets] says. *)
Theorem asset_program_alone fuel r actor (w w' : World C) x :
  run_request fuel r actor w = (x, w') -> interleaves ([asset_program fuel r actor], w) ([ended x], w').
Proof. intros E. apply run_interleaves. by rewrite run_asset_program. Qed.
End Alone.
