(* ===== verification/UserRaces.v ===== *)
(** * UserRaces: the identity service under concurrency

    Every method of [backend/src/users/users.service.ts] that changes
    something as the program of its [await]s; a step that needs no [await] of
    its own may be one here, so the pool has at least the interleavings the
    runtime has.  A commitment is one step: the counter and the record are
    written before the first [await] of the adapter. *)
From S2P Require Import Prelude Effects JsString JsMap JsValue Crypto Shared Errors World Repositories Integrity Auth Users MockChain.
From S2P Require Import Concrete AuthCorrect UsersCorrect Interleave AuthRaces.
Local Open Scope string_scope.
Local Open Scope list_scope.

Section Programs.
Context `{PF : Platform} {C : Type} `{BlockchainService C} `{DeviceAttestationAdapter} `{IntegrityWiring}.
Abbreviation W := (World C).
Abbreviation P := (Prog exn (World C)).

Definition resolveIdentity_steps (id : string) : P (option Identity.t) :=
  direct ← await (identities_findById id);
  match direct with Some i => mret (Some i) | None => await (identities_findByEmployeeId id) end.
Definition requireIdentity_steps (i : option Identity.t) : P Identity.t := demand i (NotFoundError "No identity").
Definition the_identity_steps (id : string) : P Identity.t := i ← resolveIdentity_steps id; requireIdentity_steps i.
Definition requireActiveIdentity_steps (i : Identity.t) : P unit :=
  check (negb (bool_decide (Identity.status i = Identity_ACTIVE)))
    (ForbiddenError ("Identity is " +:+ IdentityStatus_string (Identity.status i))).

Definition attestDevice_steps (deviceId : string) (metadata : value) : P DeviceAttestationResult.t :=
  check (containsSensitiveKey metadata) (ValidationError ["private-key material is not accepted"]);;
  mret (attest deviceId metadata).
Definition requireAttestation_steps (r : DeviceAttestationResult.t) : P unit :=
  check (negb (DeviceAttestationResult.verified r) || negb (DeviceAttestationResult.managedDevice r) ||
            negb (DeviceAttestationResult.networkApproved r)) (ForbiddenError "Device attestation was not approved").

Definition validateEvmWalletBinding_steps (address publicKey : string) : P unit :=
  check (evmCryptoEnabled && negb (bool_decide (is_Some (assertWalletMatchesPublicKey address publicKey))))
    (ValidationError ["walletAddress must be the EVM address derived from the canonical 64-byte public key"]).

(** The transaction is made and handed to the chain at once. *)
Definition hand_in (type : TransactionType) (actor : Identity.t) (actorWallet : string) (p : payload) : M exn W TxResult.t :=
  txId ← randomUUID;
  timestamp ← nowISO;
  on_chain (submitTransaction (Transaction.mk txId type
    (if bool_decide (Identity.identityId actor = "") then SYSTEM_IDENTITY else Identity.identityId actor) actorWallet p timestamp "development")).
Definition user_submit_steps (type : TransactionType) (actor : Identity.t) (p : payload) : P unit :=
  user ← await (users_findByIdentityId (Identity.identityId actor));
  let address := User.walletAddress <$> user in
  wallet ← (if truthy_string address then await (wallets_findByAddress (default "" address)) else mret None);
  let actorWallet := match wallet with
                     | Some x => if decide (Wallet.status x = ACTIVE) then Some (Wallet.address x) else None
                     | None => None
                     end in
  check (negb (truthy_string actorWallet) && evmCryptoEnabled)
    (BlockchainError SIGNER ("No active actor wallet for " +:+ Identity.identityId actor));;
  result ← await (hand_in type actor (default SYSTEM_WALLET actorWallet) p);
  check (negb (bool_decide (TxResult.status result = SUCCESS)))
    (BlockchainError REVERTED ("Blockchain rejected " +:+ TransactionType_string type)).

Definition revokeWalletObject_steps (wallet : Wallet.t) (reason : string) : P Wallet.t :=
  now ← await nowISO;
  let wallet' := Wallet.revoked now reason wallet in
  await (wallets_save wallet');;
  mret wallet'.

Definition ensureIdentityCreated_steps (actor identity : Identity.t) (walletAddress : string) : P unit :=
  existing ← (if evmCryptoEnabled then await (on_chain (chain_getWallet walletAddress)) else mret None);
  match existing with
  | Some x =>
      check (negb (String.eqb (Wallet.identityId x) (Identity.identityId identity)))
        (ConflictError ("Wallet " +:+ walletAddress +:+ " is already bound to " +:+ Wallet.identityId x +:+ " on-chain"))
  | None => user_submit_steps IDENTITY_CREATE actor [("walletAddress", VStr walletAddress); ("identityId", VStr (Identity.identityId identity))]
  end.

Definition ensureRoleAssigned_steps (actor identity : Identity.t) (walletAddress : string) : P unit :=
  onChain ← (if evmCryptoEnabled then await (on_chain (chain_getIdentity (Identity.identityId identity))) else mret None);
  if evmCryptoEnabled && bool_decide (is_Some onChain) && bool_decide (onChain ≫= Identity.role = Identity.role identity)
  then mret tt
  else user_submit_steps ROLE_ASSIGN actor [("walletAddress", VStr walletAddress); ("identityId", VStr (Identity.identityId identity));
                                 ("role", role_value (Identity.role identity))].

Definition ensureWalletActive_steps (actor : Identity.t) (walletAddress deviceId identityId : string) : P unit :=
  onChain ← (if evmCryptoEnabled then await (on_chain (chain_getWallet walletAddress)) else mret None);
  match Wallet.status <$> onChain with
  | Some ACTIVE => mret tt
  | Some REVOKED => Throw (ConflictError ("Wallet " +:+ walletAddress +:+ " is already revoked on-chain"))
  | _ => user_submit_steps WALLET_ACTIVATE actor [("address", VStr walletAddress); ("deviceId", VStr deviceId); ("identityId", VStr identityId)]
  end.

Definition ensureWalletRevoked_steps (actor : Identity.t) (walletAddress reason : string) : P unit :=
  onChain ← (if evmCryptoEnabled then await (on_chain (chain_getWallet walletAddress)) else mret None);
  match Wallet.status <$> onChain with
  | Some REVOKED => mret tt
  | _ => user_submit_steps WALLET_REVOKE actor [("address", VStr walletAddress); ("reason", VStr reason)]
  end.

(** ** Identities *)

Definition createUser_steps (input : CreateIdentityInput.t) (actorId : option string) : P (Identity.t * User.t) :=
  let employeeId := CreateIdentityInput.employeeId input in
  role ← (match CreateIdentityInput.role input with
          | Some r => if bool_decide (employeeId = "") then Throw (ValidationError ["employeeId and a valid role are required"]) else mret r
          | None => Throw (ValidationError ["employeeId and a valid role are required"])
          end);
  taken ← await (identities_findByEmployeeId employeeId);
  check (bool_decide (is_Some taken)) (ConflictError ("Employee " +:+ employeeId +:+ " already exists"));;
  (if truthy_string (CreateIdentityInput.identityId input) then
     let id := default "" (CreateIdentityInput.identityId input) in
     i ← await (identities_findById id);
     check (bool_decide (is_Some i)) (ConflictError ("Identity " +:+ id +:+ " already exists"))
   else mret tt);;
  identityId ← (match CreateIdentityInput.identityId input with Some i => mret i | None => u ← await randomUUID; mret ("DID:BEL:" +:+ u) end);
  createdAt ← (match CreateIdentityInput.createdAt input with Some t => mret t | None => await nowISO end);
  let identity := Identity.mk identityId (Some employeeId) (default employeeId (CreateIdentityInput.fullName input)) (Some role)
    (Some (default "UNSPECIFIED" (CreateIdentityInput.department input)))
    (default Identity_ACTIVE (CreateIdentityInput.status input)) createdAt None None in
  onChainIdentity ← (if evmCryptoEnabled then await (on_chain (chain_getIdentity identityId)) else mret None);
  check (evmCryptoEnabled && negb (bool_decide (is_Some onChainIdentity)))
    (ConflictError "Legacy user creation cannot create an EVM identity without a registered wallet; use account initialization and administrator activation");;
  (match onChainIdentity with
   | Some oc =>
       if decide (Identity.role oc = Some role) then mret tt
       else actor ← the_identity_steps (default identityId actorId);
            user_submit_steps ROLE_ASSIGN actor [("identityId", VStr identityId); ("role", VStr (Role_string role))]
   | None => mret tt
   end);;
  await (identities_save identity);;
  let user := toUser identity "" in
  await (users_save user);;
  await (commit E_IDENTITY identityId "IDENTITY_CREATE" identityId
    [("entityType", VStr "IDENTITY"); ("entityId", VStr identityId); ("status", identity_status_value (Identity.status identity));
      ("role", VStr (Role_string role))]);;
  await (commit E_IDENTITY identityId "ROLE_ASSIGN" identityId
    [("entityType", VStr "IDENTITY"); ("entityId", VStr identityId); ("role", VStr (Role_string role))]);;
  (match onChainIdentity with
   | None =>
       user_submit_steps IDENTITY_CREATE identity [("identityId", VStr identityId);
         ("status", identity_status_value (Identity.status identity)); ("role", VStr (Role_string role))];;
       user_submit_steps ROLE_ASSIGN identity [("identityId", VStr identityId); ("role", VStr (Role_string role))]
   | Some _ => mret tt
   end);;
  mret (identity, user).

(** The challenge is made and handed to the repository at once. *)
Definition provision (deviceId : string) (attestation : DeviceAttestationResult.t) : M exn W ProvisioningChallenge.t :=
  t ← now;
  challengeId ← randomUUID;
  challenge ← randomChallenge;
  let ch := ProvisioningChallenge.mk challengeId deviceId challenge WALLET_INITIALIZATION
    (toISOString (t + 5 * 60 * 1000)%Z) None (Some (attestation_metadata attestation)) in
  challenges_save ch;;
  mret ch.
Definition requestProvisioningChallenge_steps (deviceId : string) (deviceMetadata : value) : P ProvisioningChallenge.t :=
  check (blank deviceId) (ValidationError ["deviceId is required"]);;
  check (negb (is_object deviceMetadata)) (ValidationError ["deviceMetadata is required"]);;
  attestation ← attestDevice_steps deviceId deviceMetadata;
  requireAttestation_steps attestation;;
  await (provision deviceId attestation).

Definition initializeAccount_steps (input : InitializeAccountRequest.t) : P PendingRegistration.t :=
  check (InitializeAccountRequest.has_privateKey input) (ValidationError ["privateKey must never be submitted"]);;
  let errors := initialization_errors input in
  check (negb (bool_decide (errors = []))) (ValidationError errors);;
  let challengeId := string_of (InitializeAccountRequest.challengeId input) in
  let deviceId := string_of (InitializeAccountRequest.deviceId input) in
  let publicKey := string_of (InitializeAccountRequest.publicKey input) in
  let walletAddress := string_of (InitializeAccountRequest.walletAddress input) in
  found ← await (challenges_findById challengeId);
  ch ← demand found (ValidationError ["challenge is invalid"]);
  check (negb (bool_decide (ProvisioningChallenge.purpose ch = WALLET_INITIALIZATION))) (ValidationError ["challenge is invalid"]);;
  check (truthy_string (ProvisioningChallenge.usedAt ch)) (ConflictError "challenge has already been used");;
  t ← await now;
  check (expired (ProvisioningChallenge.expiresAt ch) t) (ValidationError ["challenge has expired"]);;
  check (negb (String.eqb (ProvisioningChallenge.deviceId ch) deviceId)) (ValidationError ["challenge is bound to another device"]);;
  validateEvmWalletBinding_steps walletAddress publicKey;;
  check (negb (verifyProof (ProvisioningChallenge.challenge ch) publicKey (string_of (InitializeAccountRequest.signature input))))
    (ForbiddenError "Invalid provisioning proof");;
  attestation ← attestDevice_steps deviceId (InitializeAccountRequest.deviceMetadata input);
  requireAttestation_steps attestation;;
  existingWallet ← await (wallets_findByAddress walletAddress);
  check (bool_decide (is_Some existingWallet)) (ConflictError "Wallet address is already registered");;
  existingDevice ← await (devices_findById deviceId);
  check (bool_decide (is_Some existingDevice)) (ConflictError "Device is already registered");;
  (if truthy_string (InitializeAccountRequest.employeeId input) then
     existing ← await (identities_findByEmployeeId (default "" (InitializeAccountRequest.employeeId input)));
     check (bool_decide (is_Some existing)) (ConflictError "Employee is already registered")
   else mret tt);;
  u ← await randomUUID;
  createdAt ← await nowISO;
  let identity := Identity.mk ("DID:BEL:" +:+ u) (trimmed_or_null (InitializeAccountRequest.employeeId input))
    (trim (string_of (InitializeAccountRequest.fullName input))) None
    (trimmed_or_null (InitializeAccountRequest.department input)) Identity_PENDING createdAt None None in
  let id := Identity.identityId identity in
  let device := Device.mk (trim deviceId) id PENDING createdAt None None (Some publicKey) (Some (attestation_metadata attestation)) in
  let wallet := Wallet.mk (trim walletAddress) id (trim deviceId) PENDING None None None (Some publicKey) in
  usedAt ← await nowISO;
  consumed ← await (consumeIfUnused challengeId usedAt);
  check (negb consumed) (ConflictError "challenge has already been used");;
  await (identities_save identity);;
  await (devices_save device);;
  await (wallets_save wallet);;
  await (commit E_IDENTITY id "ACCOUNT_INITIALIZATION" id
    [("entityType", VStr "IDENTITY"); ("entityId", VStr id); ("status", VStr "PENDING"); ("fullName", VStr (Identity.fullName identity))]);;
  await (commit E_DEVICE (Device.deviceId device) "DEVICE_REGISTER" id
    [("entityType", VStr "DEVICE"); ("entityId", VStr (Device.deviceId device)); ("identityId", VStr id); ("status", VStr "PENDING");
      ("publicKey", VStr publicKey)]);;
  await (commit E_WALLET (Wallet.address wallet) "WALLET_REGISTER" id
    [("entityType", VStr "WALLET"); ("entityId", VStr (Wallet.address wallet)); ("identityId", VStr id);
     ("deviceId", VStr (Wallet.deviceId wallet)); ("status", VStr "PENDING"); ("publicKey", VStr publicKey)]);;
  mret (PendingRegistration.mk identity device wallet).

Definition verifyRegistration_steps (actorId userId : string) (employeeId department : string) : P Identity.t :=
  actor ← the_identity_steps actorId;
  check (negb (is_admin actor)) (ForbiddenError "Only an active admin may verify registrations");;
  check (blank employeeId || blank department) (ValidationError ["employeeId and department are required"]);;
  target ← the_identity_steps userId;
  check (negb (bool_decide (Identity.status target = Identity_PENDING))) (ConflictError "Only pending registrations can be verified");;
  existing ← await (identities_findByEmployeeId employeeId);
  check (match existing with Some e => negb (String.eqb (Identity.identityId e) (Identity.identityId target)) | None => false end)
    (ConflictError "Employee is already registered");;
  verifiedAt ← await nowISO;
  let target' := Identity.with_verification (trim employeeId) (trim department) verifiedAt (Identity.identityId actor) target in
  await (identities_save target');;
  await (commit E_IDENTITY (Identity.identityId target) "ADMIN_VERIFY" (Identity.identityId actor)
    [("entityType", VStr "IDENTITY"); ("entityId", VStr (Identity.identityId target)); ("employeeId", VStr (trim employeeId));
     ("department", VStr (trim department)); ("status", VStr "PENDING")]);;
  mret target'.

Definition activateRegistration_steps (actorId userId : string) : P PendingRegistration.t :=
  actor ← the_identity_steps actorId;
  check (negb (is_admin actor)) (ForbiddenError "Only an active admin may activate registrations");;
  identity ← the_identity_steps userId;
  check (negb (bool_decide (Identity.status identity = Identity_PENDING)) || negb (identity_complete identity))
    (ConflictError "Registration must be verified and assigned a role before activation");;
  devices ← await (devices_listByIdentityId (Identity.identityId identity));
  wallets ← await (wallets_listByIdentityId (Identity.identityId identity));
  match List.find pending_device devices, List.find pending_wallet wallets with
  | Some device, Some wallet =>
      check (negb (truthy_string (Wallet.publicKey wallet)) || negb (truthy_string (Device.publicKey device)) ||
                negb (bool_decide (Wallet.publicKey wallet = Device.publicKey device)))
        (ForbiddenError "Wallet public key is not bound to the registered device");;
      validateEvmWalletBinding_steps (Wallet.address wallet) (default "" (Wallet.publicKey wallet));;
      ensureIdentityCreated_steps actor identity (Wallet.address wallet);;
      ensureRoleAssigned_steps actor identity (Wallet.address wallet);;
      ensureWalletActive_steps actor (Wallet.address wallet) (Device.deviceId device) (Identity.identityId identity);;
      now ← await nowISO;
      let identity' := Identity.with_status Identity_ACTIVE identity in
      await (identities_save identity');;
      let device' := Device.activated now device in
      await (devices_save device');;
      let wallet' := Wallet.activated now wallet in
      await (wallets_save wallet');;
      await (users_save (toUser identity' (Wallet.address wallet)));;
      await (commit E_IDENTITY (Identity.identityId identity) "ROLE_ASSIGN" (Identity.identityId actor)
        [("entityType", VStr "IDENTITY"); ("entityId", VStr (Identity.identityId identity)); ("role", role_value (Identity.role identity))]);;
      await (commit E_DEVICE (Device.deviceId device) "DEVICE_REGISTER" (Identity.identityId actor)
        [("entityType", VStr "DEVICE"); ("entityId", VStr (Device.deviceId device)); ("status", VStr "ACTIVE")]);;
      await (commit E_WALLET (Wallet.address wallet) "WALLET_ACTIVATE" (Identity.identityId actor)
        [("entityType", VStr "WALLET"); ("entityId", VStr (Wallet.address wallet)); ("status", VStr "ACTIVE")]);;
      mret (PendingRegistration.mk identity' device' wallet')
  | _, _ => Throw (ConflictError "Pending device and wallet are required")
  end.

(** ** Devices and wallets *)

Definition registerDevice_steps (userId deviceId : string) (credential publicKey : option string) : P Device.t :=
  let cred := default deviceId credential in
  check (blank deviceId || blank cred) (ValidationError ["deviceId and credential are required"]);;
  check (evmCryptoEnabled && negb (truthy_string publicKey)) (ValidationError ["publicKey is required for EVM wallet registration"]);;
  check (evmCryptoEnabled && negb (bool_decide (is_Some (publicKeyToEvmAddress (default "" publicKey)))))
    (ValidationError ["publicKey must be exactly the canonical 64-byte secp256k1 X || Y representation"]);;
  identity ← the_identity_steps userId;
  existing ← await (devices_findById deviceId);
  check (match existing with Some e => negb (String.eqb (Device.identityId e) (Identity.identityId identity)) | None => false end)
    (ConflictError ("Device " +:+ deviceId +:+ " is already registered"));;
  check (match existing with Some e => bool_decide (Device.status e = ACTIVE) | None => false end)
    (ConflictError ("Device " +:+ deviceId +:+ " is already active"));;
  registeredAt ← (match existing with Some e => mret (Device.registeredAt e) | None => await nowISO end);
  activatedAt ← await nowISO;
  let device := Device.mk deviceId (Identity.identityId identity) ACTIVE registeredAt (Some activatedAt) None
    (or_else publicKey (existing ≫= Device.publicKey)) None in
  await (devices_save device);;
  await (credentials_save (hashCredential cred) deviceId);;
  await (commit E_DEVICE deviceId "DEVICE_REGISTER" (Identity.identityId identity)
    [("entityType", VStr "DEVICE"); ("entityId", VStr deviceId); ("identityId", VStr (Identity.identityId identity)); ("status", VStr "ACTIVE")]);;
  mret device.

Definition revokeDevice_steps (deviceId : string) (actorId : option string) : P Device.t :=
  found ← await (devices_findById deviceId);
  device ← demand found (NotFoundError ("No device " +:+ deviceId));
  let wasRevoked := bool_decide (Device.status device = REVOKED) in
  actor ← the_identity_steps (default (Device.identityId device) actorId);
  all ← await (wallets_listByIdentityId (Device.identityId device));
  let wallets := List.filter (fun x => String.eqb (Wallet.deviceId x) deviceId && wallet_active x) all in
  each wallets (fun x => ensureWalletRevoked_steps actor (Wallet.address x) "Device revoked");;
  now ← await nowISO;
  let device' := if wasRevoked then device else Device.revoked now device in
  (if wasRevoked then mret tt else await (devices_save device'));;
  await (credentials_revokeForDevice deviceId);;
  each wallets (fun x =>
    let x' := Wallet.revoked now "Device revoked" x in
    await (wallets_save x');;
    await (commit E_WALLET (Wallet.address x) "WALLET_REVOKE" (Device.identityId device)
      (wallet_state x' ++ [("reason", VStr "Device revoked")])));;
  (if wasRevoked then mret tt
   else await (commit E_DEVICE deviceId "DEVICE_REVOKE" (Device.identityId device)
     [("entityType", VStr "DEVICE"); ("entityId", VStr deviceId); ("identityId", VStr (Device.identityId device)); ("status", VStr "REVOKED")]));;
  mret device'.

(** The device of a wallet request, active and owned by the identity. *)
Definition active_device_steps (identity : Identity.t) (deviceId : string) : P Device.t :=
  found ← await (devices_findById deviceId);
  device ← demand found (ForbiddenError "Device is not active for this identity");
  check (negb (String.eqb (Device.identityId device) (Identity.identityId identity)) ||
            negb (bool_decide (Device.status device = ACTIVE))) (ForbiddenError "Device is not active for this identity");;
  mret device.

Definition registerWallet_steps (userId deviceId address : string) : P Wallet.t :=
  check (blank address) (ValidationError ["device-generated walletAddress is required"]);;
  identity ← the_identity_steps userId;
  requireActiveIdentity_steps identity;;
  device ← active_device_steps identity deviceId;
  check (negb (truthy_string (Device.publicKey device))) (ForbiddenError "A device-generated public key is required to register a wallet");;
  validateEvmWalletBinding_steps address (default "" (Device.publicKey device));;
  existing ← await (wallets_findByAddress address);
  check (bool_decide (is_Some existing)) (ConflictError ("Wallet " +:+ address +:+ " already exists"));;
  let wallet := Wallet.mk (trim address) (Identity.identityId identity) deviceId PENDING None None None (Device.publicKey device) in
  await (wallets_save wallet);;
  mret wallet.

Definition revokeWallet_steps (userId reason : string) (actorId : option string) : P Wallet.t :=
  check (blank reason) (ValidationError ["reason is required to revoke a wallet"]);;
  identity ← the_identity_steps userId;
  wallets ← await (wallets_listByIdentityId (Identity.identityId identity));
  wallet ← demand (find_wallet wallet_active wallets)
    (NotFoundError ("No active wallet for " +:+ default "null" (Identity.employeeId identity)));
  actor ← the_identity_steps (default userId actorId);
  user_submit_steps WALLET_REVOKE actor [("address", VStr (Wallet.address wallet)); ("reason", VStr reason)];;
  wallet' ← revokeWalletObject_steps wallet reason;
  await (commit E_WALLET (Wallet.address wallet) "WALLET_REVOKE" (Identity.identityId identity)
    (wallet_state wallet' ++ [("reason", VStr reason)]));;
  mret wallet'.

Definition activateWallet_steps (userId deviceId address : string) (actorId : option string) : P Wallet.t :=
  check (blank address) (ValidationError ["device-generated walletAddress is required"]);;
  identity ← the_identity_steps userId;
  requireActiveIdentity_steps identity;;
  device ← active_device_steps identity deviceId;
  existing ← await (wallets_findByAddress (trim address));
  check (match existing with Some e => negb (String.eqb (Wallet.identityId e) (Identity.identityId identity)) | None => false end)
    (ForbiddenError "Wallet belongs to another identity");;
  wallet ← demand existing (NotFoundError "No pending wallet registered for this device and public address");
  check (negb (String.eqb (Wallet.deviceId wallet) deviceId) || negb (bool_decide (Wallet.status wallet = PENDING)))
    (NotFoundError "No pending wallet registered for this device and public address");;
  check (negb (truthy_string (Wallet.publicKey wallet))) (ForbiddenError "A device-generated public key is required to activate a wallet");;
  validateEvmWalletBinding_steps address (default "" (Wallet.publicKey wallet));;
  actor ← the_identity_steps (default userId actorId);
  all ← await (wallets_listByIdentityId (Identity.identityId identity));
  each all (fun current =>
    if wallet_active current && negb (String.eqb (Wallet.address current) (Wallet.address wallet)) then
      user_submit_steps WALLET_REVOKE actor [("address", VStr (Wallet.address current)); ("reason", VStr "Replaced by wallet activation")];;
      current' ← revokeWalletObject_steps current "Replaced by wallet activation";
      await (commit E_WALLET (Wallet.address current) "WALLET_REVOKE" (Identity.identityId actor)
        (wallet_state current' ++ [("reason", VStr "Replaced by wallet activation")]))
    else mret tt);;
  ensureIdentityCreated_steps actor identity (Wallet.address wallet);;
  ensureWalletActive_steps actor (Wallet.address wallet) deviceId (Identity.identityId identity);;
  now ← await nowISO;
  let wallet' := Wallet.mk (Wallet.address wallet) (Wallet.identityId wallet) deviceId ACTIVE (Some now) None None (Wallet.publicKey wallet) in
  await (wallets_save wallet');;
  user ← await (users_findByIdentityId (Identity.identityId identity));
  (match user with Some u => await (users_save (User.with_wallet (Wallet.address wallet) u)) | None => mret tt end);;
  await (commit E_WALLET (Wallet.address wallet) "WALLET_ACTIVATE" (Identity.identityId identity) (wallet_state wallet'));;
  mret wallet'.

(** ** Roles *)

(** [role] is [None] when the request does not name one of [ROLES]. *)
Definition assignRole_steps (actorId userId : string) (role : option Role) : P User.t :=
  role ← demand role (ValidationError ["role is invalid"]);
  actor ← the_identity_steps actorId;
  check (negb (is_admin actor)) (ForbiddenError "Only an active admin may assign roles");;
  target ← the_identity_steps userId;
  check (bool_decide (Identity.status target = Identity_REVOKED)) (ForbiddenError "Revoked identities cannot receive roles");;
  user ← await (users_findByIdentityId (Identity.identityId target));
  let target' := Identity.with_role role target in
  let state := [("entityType", VStr "IDENTITY"); ("entityId", VStr (Identity.identityId target)); ("role", VStr (Role_string role))] in
  match user with
  | None =>
      check (negb (bool_decide (Identity.status target = Identity_PENDING)))
        (NotFoundError ("No user for " +:+ default "null" (Identity.employeeId target)));;
      await (identities_save target');;
      await (commit E_IDENTITY (Identity.identityId target) "ROLE_ASSIGN" (Identity.identityId actor) state);;
      mret (toUser target' "")
  | Some u =>
      user_submit_steps ROLE_ASSIGN actor [("identityId", VStr (Identity.identityId target)); ("role", VStr (Role_string role))];;
      await (identities_save target');;
      await (users_save (User.with_role role u));;
      await (commit E_IDENTITY (Identity.identityId target) "ROLE_ASSIGN" (Identity.identityId actor) state);;
      mret (User.with_role role u)
  end.

(** ** Grants *)

Definition createGrant_steps (actorId targetId : string) (input : GrantInput.t) : P AuthorizationGrant.t :=
  actor ← the_identity_steps actorId;
  target ← the_identity_steps targetId;
  check (negb (bool_decide (Identity.status actor = Identity_ACTIVE)) || negb (bool_decide (Identity.status target = Identity_ACTIVE)))
    (ForbiddenError "Inactive identity cannot grant authorization");;
  check (negb (bool_decide (Identity.role actor = Some ADMIN))) (ForbiddenError "Only an admin may create an authorization grant");;
  check (negb (bool_decide (GrantInput.resourceType input = ASSET)) || negb (bool_decide (GrantInput.action input = TRANSFER_ASSET)))
    (ForbiddenError "Only asset transfer grants may be created");;
  u ← await randomUUID;
  issuedAt ← await nowISO;
  let grant := AuthorizationGrant.mk ("GRANT-" +:+ u) (Identity.identityId target) (GrantInput.resourceType input)
    (GrantInput.resourceId input) (GrantInput.action input) (Identity.identityId actor) issuedAt (GrantInput.expiresAt input) Grant_ACTIVE in
  user_submit_steps GRANT_CREATE actor (grant_payload grant);;
  await (grants_save grant);;
  await (commit E_GRANT (AuthorizationGrant.authorizationGrantId grant) "GRANT_CREATE" (Identity.identityId actor) (grant_state grant));;
  mret grant.

(** The clock is read only for a grant that has an expiry. *)
Definition grantIsExpired_steps (g : AuthorizationGrant.t) : P bool :=
  match AuthorizationGrant.expiresAt g with
  | Some e => if bool_decide (e = "") then mret false else t ← await now; mret (expired e t)
  | None => mret false
  end.

Definition revokeGrant_steps (actorId grantId : string) : P AuthorizationGrant.t :=
  actor ← the_identity_steps actorId;
  found ← await (grants_findById grantId);
  grant ← demand found (NotFoundError ("No grant " +:+ grantId));
  check (negb (String.eqb (AuthorizationGrant.grantedByIdentityId grant) (Identity.identityId actor)) &&
            negb (bool_decide (Identity.role actor = Some ADMIN))) (ForbiddenError "Only the grantor or admin may revoke a grant");;
  user_submit_steps GRANT_REVOKE actor (grant_payload grant);;
  let grant' := AuthorizationGrant.with_status Grant_REVOKED grant in
  await (grants_save grant');;
  await (commit E_GRANT (AuthorizationGrant.authorizationGrantId grant) "GRANT_REVOKE" (Identity.identityId actor) (grant_state grant'));;
  mret grant'.

Definition validateGrant_steps (grantId actorId resourceId : string) (action : Action) : P bool :=
  found ← await (grants_findById grantId);
  match found with
  | None => mret false
  | Some grant =>
      if negb (grantMatches grant actorId resourceId action) || negb (bool_decide (AuthorizationGrant.status grant = Grant_ACTIVE))
      then mret false
      else
        e ← grantIsExpired_steps grant;
        match e with
        | true => await (grants_save (AuthorizationGrant.with_status Grant_EXPIRED grant));; mret false
        | false => mret true
        end
  end.

(** A call of the service, its result dropped. *)
Definition users_program (c : users_call) : P unit :=
  match c with
  | Users_createUser i a => createUser_steps i a;; mret tt
  | Users_requestChallenge d m => requestProvisioningChallenge_steps d m;; mret tt
  | Users_initialize i => initializeAccount_steps i;; mret tt
  | Users_verify a u e d => verifyRegistration_steps a u e d;; mret tt
  | Users_activate a u => activateRegistration_steps a u;; mret tt
  | Users_registerDevice u d c k => registerDevice_steps u d c k;; mret tt
  | Users_revokeDevice d a => revokeDevice_steps d a;; mret tt
  | Users_registerWallet u d x => registerWallet_steps u d x;; mret tt
  | Users_revokeWallet u r a => revokeWallet_steps u r a;; mret tt
  | Users_activateWallet u d x a => activateWallet_steps u d x a;; mret tt
  | Users_assignRole a u r => assignRole_steps a u r;; mret tt
  | Users_createGrant a t i => createGrant_steps a t i;; mret tt
  | Users_revokeGrant a g => revokeGrant_steps a g;; mret tt
  | Users_validateGrant g a r x => validateGrant_steps g a r x;; mret tt
  end.

(** ** Without interleaving *)

Lemma run_resolve id (w : W) : run (resolveIdentity_steps id) w = resolveIdentity id w.
Proof. unfold resolveIdentity_steps, resolveIdentity. same_run. Qed.
Hint Resolve run_resolve : bel.
Lemma run_the_identity id (w : W) : run (the_identity_steps id) w = the_identity id w.
Proof. unfold the_identity_steps, the_identity, requireIdentity_steps, requireIdentity. same_run. Qed.
Lemma run_requireActive i (w : W) : run (requireActiveIdentity_steps i) w = requireActiveIdentity i w.
Proof. apply run_check. Qed.
Lemma run_attestDevice d m (w : W) : run (attestDevice_steps d m) w = attestDevice d m w.
Proof. unfold attestDevice_steps, attestDevice. same_run. Qed.
Lemma run_requireAttestation r (w : W) : run (requireAttestation_steps r) w = requireAttestation r w.
Proof. apply run_check. Qed.
Lemma run_validateBinding a k (w : W) : run (validateEvmWalletBinding_steps a k) w = validateEvmWalletBinding a k w.
Proof. apply run_check. Qed.
Lemma run_user_submit type actor p (w : W) : run (user_submit_steps type actor p) w = submit type actor p w.
Proof.
  unfold user_submit_steps, submit. cbv zeta. rewrite run_bind. apply bind_ext; [apply run_await|]. intros user w1.
  rewrite run_bind. apply bind_ext; [same_run|]. intros wallet w2. rewrite run_bind. apply bind_ext; [apply run_check|]. intros _ w3.
  rewrite run_bind.
  transitivity ((hand_in type actor (default SYSTEM_WALLET (match wallet with
    | Some x => if decide (Wallet.status x = ACTIVE) then Some (Wallet.address x) else None | None => None end)) p ≫= fun r =>
    throw_if (negb (bool_decide (TxResult.status r = SUCCESS))) (BlockchainError REVERTED ("Blockchain rejected " +:+
      TransactionType_string type))) w3).
  - apply bind_ext; [apply run_await|]. intros. apply run_check.
  - unfold hand_in. rewrite bind_assoc. apply bind_ext; [done|]. intros u w4. rewrite bind_assoc. done.
Qed.
Lemma run_revokeWalletObject x r (w : W) : run (revokeWalletObject_steps x r) w = revokeWalletObject x r w.
Proof. unfold revokeWalletObject_steps, revokeWalletObject. same_run. Qed.
Lemma run_active_device i d (w : W) : run (active_device_steps i d) w = active_device i d w.
Proof. unfold active_device_steps, active_device. same_run. Qed.
Lemma run_grantIsExpired g (w : W) : run (grantIsExpired_steps g) w = grantIsExpired g w.
Proof. unfold grantIsExpired_steps, grantIsExpired. same_run. Qed.
Hint Resolve run_the_identity run_requireActive run_attestDevice run_requireAttestation run_validateBinding run_user_submit
  run_revokeWalletObject run_active_device run_grantIsExpired : bel.
Lemma run_ensureIdentity a i x (w : W) : run (ensureIdentityCreated_steps a i x) w = ensureIdentityCreated a i x w.
Proof. unfold ensureIdentityCreated_steps, ensureIdentityCreated. same_run. Qed.
Lemma run_ensureRole a i x (w : W) : run (ensureRoleAssigned_steps a i x) w = ensureRoleAssigned a i x w.
Proof. unfold ensureRoleAssigned_steps, ensureRoleAssigned. same_run. Qed.
Lemma run_ensureActive a x d i (w : W) : run (ensureWalletActive_steps a x d i) w = ensureWalletActive a x d i w.
Proof. unfold ensureWalletActive_steps, ensureWalletActive. same_run. Qed.
Lemma run_ensureRevoked a x r (w : W) : run (ensureWalletRevoked_steps a x r) w = ensureWalletRevoked a x r w.
Proof. unfold ensureWalletRevoked_steps, ensureWalletRevoked. same_run. Qed.
Hint Resolve run_ensureIdentity run_ensureRole run_ensureActive run_ensureRevoked : bel.
Lemma run_users_program c (w : W) : run (users_program c) w = run_users c w.
Proof.
  destruct c; cbn [users_program run_users]; rewrite run_bind; (apply bind_ext; [|done]).
  - unfold createUser_steps, createUser. same_run.
  - unfold requestProvisioningChallenge_steps, requestProvisioningChallenge. same_run.
  - unfold initializeAccount_steps, initializeAccount. same_run.
  - unfold verifyRegistration_steps, verifyRegistration. same_run.
  - unfold activateRegistration_steps, activateRegistration. same_run.
  - unfold registerDevice_steps, registerDevice. same_run.
  - unfold revokeDevice_steps, revokeDevice. same_run.
  - unfold registerWallet_steps, registerWallet. same_run.
  - unfold revokeWallet_steps, revokeWallet. same_run.
  - unfold activateWallet_steps, activateWallet. same_run.
  - unfold assignRole_steps, assignRole. same_run.
  - unfold createGrant_steps, createGrant. same_run.
  - unfold revokeGrant_steps, revokeGrant. same_run.
  - unfold validateGrant_steps, validateGrant. same_run.
Qed.
End Programs.

(** ** One challenge, many calls of both services *)

(** A call of the authentication or of the identity service. *)
Inductive challenge_call := Of_auth (c : auth_call) | Of_users (c : users_call).

Section Races.
Context `{PF : Platform} `{!PlatformLaws PF} {C : Type} `{BlockchainService C} `{DeviceAttestationAdapter} `{IntegrityWiring} (id : string).
Abbreviation W := (World C).
Abbreviation P := (Prog exn (World C)).
Abbreviation closed := (@challenge_used C id).
Abbreviation inv := (@challenges_drawn PF C).
Abbreviation safe := (harmless inv closed).
Abbreviation guarded := (gated inv closed).

Definition challenge_program (c : challenge_call) : P unit :=
  match c with Of_auth c => auth_program c | Of_users c => users_program c end.
(** The call offers this challenge. *)
Definition offers (c : challenge_call) : bool :=
  match c with
  | Of_auth c => proves id c
  | Of_users (Users_initialize i) => String.eqb (string_of (InitializeAccountRequest.challengeId i)) id
  | Of_users _ => false
  end.

Lemma uuid_kept : keeps_closed inv closed (randomUUID : M exn W string).
Proof. apply step_kept. intros w r w' [= _ <-]. apply challenge_same; simpl; [done|lia]. Qed.
Lemma hand_in_kept type actor x p : keeps_closed inv closed (hand_in type actor x p).
Proof.
  apply step_kept. intros w r w' [(e & _ & [=])|(u & w1 & [= _ <-] & E)]%bind_inv.
  apply bind_inv in E as [(e & _ & [=])|(t & w2 & [= _ <-] & (c & _ & ->)%on_chain_inv)]. apply challenge_same; simpl; [done|lia].
Qed.
Lemma provision_kept d a : keeps_closed inv closed (provision d a).
Proof.
  apply step_kept. intros w r w' [= _ <-]. eapply (challenge_issue w _ (w_uuidReads w)); [| | |simpl; reflexivity]; simpl; try done; lia.
Qed.
Lemma commit_kept e k ev a st : keeps_closed inv closed (commit e k ev a st : M exn W unit).
Proof. apply read_kept. unfold commit, commitState, adapter_commit. rframe. apply keeps_nowISO_challenges. Qed.

Ltac step_safe := apply harmless_await; first
  [ apply provision_kept | apply hand_in_kept | apply uuid_kept | apply commit_kept
  | apply read_kept; solve [apply keeps_now_challenges|apply keeps_nowISO_challenges|auto with bel|rframe] ].
Ltac safely :=
  repeat first
    [ done
    | solve [auto with bel]
    | lazymatch goal with
      | |- harmless _ _ (mbind _ (check _ _)) => apply harmless_bind; [apply harmless_check|intros]
      | |- harmless _ _ (mbind _ (demand _ _)) => apply harmless_bind; [apply harmless_demand|intros]
      | |- harmless _ _ (mbind _ _) => apply harmless_bind; [|intros]
      | |- harmless _ _ (await _) => step_safe
      | |- harmless _ _ (check _ _) => apply harmless_check
      | |- harmless _ _ (demand _ _) => apply harmless_demand
      | |- harmless _ _ (each _ _) => apply harmless_each; intros
      | |- harmless _ _ (match ?x with _ => _ end) => destruct x
      end
    | progress (cbv zeta) ].
Lemma safe_the_identity k : safe (the_identity_steps k).
Proof. unfold the_identity_steps, resolveIdentity_steps, requireIdentity_steps. safely. Qed.
Lemma safe_user_submit type actor p : safe (user_submit_steps type actor p).
Proof. unfold user_submit_steps. safely. Qed.
Lemma safe_revokeWalletObject x r : safe (revokeWalletObject_steps x r).
Proof. unfold revokeWalletObject_steps. safely. Qed.
Lemma safe_active_device i d : safe (active_device_steps i d).
Proof. unfold active_device_steps. safely. Qed.
Hint Resolve safe_the_identity safe_user_submit safe_revokeWalletObject safe_active_device : bel.
Lemma safe_ensureIdentity a i x : safe (ensureIdentityCreated_steps a i x).
Proof. unfold ensureIdentityCreated_steps. safely. Qed.
Lemma safe_ensureRole a i x : safe (ensureRoleAssigned_steps a i x).
Proof. unfold ensureRoleAssigned_steps. safely. Qed.
Lemma safe_ensureActive a x d i : safe (ensureWalletActive_steps a x d i).
Proof. unfold ensureWalletActive_steps. safely. Qed.
Lemma safe_ensureRevoked a x r : safe (ensureWalletRevoked_steps a x r).
Proof. unfold ensureWalletRevoked_steps. safely. Qed.
Hint Resolve safe_ensureIdentity safe_ensureRole safe_ensureActive safe_ensureRevoked : bel.
Lemma safe_createUser i a : safe (createUser_steps i a).
Proof. unfold createUser_steps. safely. Qed.
Lemma safe_binding a k : safe (validateEvmWalletBinding_steps a k).
Proof. apply harmless_check. Qed.
Lemma safe_attest d m : safe (attestDevice_steps d m).
Proof. unfold attestDevice_steps. safely. Qed.
Lemma safe_attestation r : safe (requireAttestation_steps r).
Proof. apply harmless_check. Qed.
Lemma safe_active i : safe (requireActiveIdentity_steps i).
Proof. apply harmless_check. Qed.
Hint Resolve safe_binding safe_attest safe_attestation safe_active : bel.
Lemma safe_expired g : safe (grantIsExpired_steps g).
Proof. unfold grantIsExpired_steps. safely. Qed.
Hint Resolve safe_expired : bel.

(** What an initialization does once its challenge is consumed. *)
Lemma safe_initialize i : safe (initializeAccount_steps i).
Proof.
  unfold initializeAccount_steps. cbv zeta.
  repeat lazymatch goal with
    | |- harmless _ _ (mbind _ (await nowISO)) => apply safe_time; intros
    | |- harmless _ _ (mbind _ (await (consumeIfUnused _ _))) => apply safe_consume; [done|intros]
    | |- harmless _ _ (mbind _ _) => apply harmless_bind; [by safely|intros]
    | |- _ => by safely
    end.
Qed.
Lemma guarded_initialize i : string_of (InitializeAccountRequest.challengeId i) = id -> guarded (initializeAccount_steps i).
Proof.
  intros Hid. unfold initializeAccount_steps. cbv zeta. rewrite Hid.
  repeat lazymatch goal with
    | |- gated _ _ (mbind _ (await nowISO)) => apply guarded_time; intros
    | |- gated _ _ (mbind _ (await (consumeIfUnused _ _))) => fail
    | |- gated _ _ (mbind _ _) => apply gated_bind; [by safely|intros]
    end.
  apply guarded_consume; [done|by safely].
Qed.

Lemma safe_users_program c : safe (users_program c).
Proof.
  destruct c; cbn [users_program]; apply harmless_bind; try done; [apply safe_createUser| |apply safe_initialize|..];
    [unfold requestProvisioningChallenge_steps|unfold verifyRegistration_steps|unfold activateRegistration_steps|unfold registerDevice_steps
    |unfold revokeDevice_steps|unfold registerWallet_steps|unfold revokeWallet_steps|unfold activateWallet_steps|unfold assignRole_steps
    |unfold createGrant_steps|unfold revokeGrant_steps|unfold validateGrant_steps]; by safely.
Qed.
Lemma challenge_programs_fit (l : list challenge_call) : let offering i := match l !! i with Some c => offers c | None => false end in
  forall i p, map challenge_program l !! i = Some p -> if offering i then guarded p else safe p.
Proof.
  intros offering i p Hp. rewrite list_lookup_fmap in Hp. unfold offering. destruct (l !! i) as [c|]; [|done]. injection Hp as <-.
  destruct c as [c|c]; simpl.
  - destruct (proves id c) eqn:Hc; [by apply guarded_program|apply safe_program].
  - destruct c; try apply safe_users_program. destruct (String.eqb_spec (string_of (InitializeAccountRequest.challengeId input)) id) as [Hc|];
      [|apply safe_users_program]. apply gated_then; [by apply guarded_initialize|done].
Qed.
End Races.

(** ** Commitments *)

Section Versions.
Context `{PF : Platform} {C : Type} `{BlockchainService C} `{DeviceAttestationAdapter} `{IntegrityWiring}.
Abbreviation W := (World C).
Abbreviation steady := (harmless (@versions_ok C) (fun _ => True)).

Lemma stable_kept {A} (op : M exn W A) : stable op -> keeps_closed (@versions_ok C) (fun _ => True) op.
Proof. intros Hop w r w' E Hv. split; [by eapply Hop|done]. Qed.
Ltac steadily :=
  repeat first
    [ done
    | solve [auto with bel]
    | lazymatch goal with
      | |- harmless _ _ (mbind _ _) => apply harmless_bind; [|intros]
      | |- harmless _ _ (await _) => apply harmless_await, stable_kept; unfold issue, hand_in, provision; solve [stabilise]
      | |- harmless _ _ (check _ _) => apply harmless_check
      | |- harmless _ _ (demand _ _) => apply harmless_demand
      | |- harmless _ _ (each _ _) => apply harmless_each; intros
      | |- harmless _ _ (match ?x with _ => _ end) => destruct x
      end
    | progress (cbv zeta) ].
Lemma steady_the_identity k : steady (the_identity_steps k).
Proof. unfold the_identity_steps, resolveIdentity_steps, requireIdentity_steps. steadily. Qed.
Lemma steady_user_submit type actor p : steady (user_submit_steps type actor p).
Proof. unfold user_submit_steps. steadily. Qed.
Hint Resolve steady_the_identity steady_user_submit : bel.
Lemma steady_users c : steady (users_program c).
Proof.
  destruct c; cbn [users_program]; apply harmless_bind; try done;
    unfold createUser_steps, requestProvisioningChallenge_steps, initializeAccount_steps, verifyRegistration_steps,
      activateRegistration_steps, registerDevice_steps, revokeDevice_steps, registerWallet_steps, revokeWallet_steps,
      activateWallet_steps, assignRole_steps, createGrant_steps, revokeGrant_steps, validateGrant_steps, attestDevice_steps,
      requireAttestation_steps, validateEvmWalletBinding_steps, requireActiveIdentity_steps, active_device_steps, revokeWalletObject_steps,
      ensureIdentityCreated_steps, ensureRoleAssigned_steps, ensureWalletActive_steps, ensureWalletRevoked_steps, grantIsExpired_steps;
    by steadily.
Qed.
Lemma steady_auth c : steady (auth_program c).
Proof.
  destruct c as [d|t o r|t p o r|[s|p]|t|t]; cbn [auth_program login_steps]; try (apply harmless_bind; [|done]);
    unfold requestAuthenticationChallenge_steps, requestFreshAuthenticationChallenge_steps, verifyFreshAuthentication_steps,
      login_credential_steps, loginWithProof_steps, validateSession_steps, logout_steps, require_session_steps, activeSession_steps,
      identity_of_device_steps, user_of_steps, wallets_of_identity_steps, open_session; by steadily.
Qed.
Lemma steady_call c : steady (challenge_program c).
Proof. destruct c as [c|c]; [apply steady_auth|apply steady_users]. Qed.

(** C25: However calls of the authentication and the identity service interleave,
    failed calls included, the versions committed for an entity are exactly
    1, 2, ..., n in the order they are recorded. *)
Theorem commitments_dense_interleaved (l : list challenge_call) (w w' : W) ps id :
  interleaves (map challenge_program l, w) (ps, w') -> versions_ok w ->
  versions_of id w' = map (fun n => Z.of_nat (S n)) (seq 0 (length (versions_of id w'))).
Proof.
  intros Hr Hw. refine (proj1 (proj1 (harmless_pool (@versions_ok C) (fun _ => True) _ _ w w' _ Hw Hr) id)).
  intros i p Hp. rewrite list_lookup_fmap in Hp. destruct (l !! i) as [c|]; [|done]. injection Hp as <-. apply steady_call.
Qed.
End Versions.

(** ** Theorems *)

Section Theorems.
Context `{PF : Platform} `{!PlatformLaws PF} {C : Type} `{BlockchainService C} `{DeviceAttestationAdapter} `{IntegrityWiring}.
Abbreviation W := (World C).

(** C14: However any number of calls of the authentication and the identity
    service interleave, of all the logins, fresh authentications and account
    initializations with one challenge at most one returns, and none if the
    challenge had been used before. *)
Theorem challenge_accepted_once (l : list challenge_call) (w w' : W) ps id :
  challenges_drawn w -> interleaves (map challenge_program l, w) (ps, w') ->
  (forall i j c d, l !! i = Some c -> l !! j = Some d -> offers id c = true -> offers id d = true ->
     ps !! i = Some (Return tt) -> ps !! j = Some (Return tt) -> i = j) /\
  (challenge_used id w -> forall i c, l !! i = Some c -> offers id c = true -> ps !! i <> Some (Return tt)).
Proof.
  intros Hd Hr. split.
  - intros i j c d Hi Hj Hc Hdd. apply (at_most_one _ _ _ _ _ _ _ Hd (challenge_programs_fit id l) Hr); [by rewrite Hi|by rewrite Hj].
  - intros Hu i c Hi Hc. apply (none_returns _ _ _ _ _ _ _ Hd Hu (challenge_programs_fit id l) Hr). by rewrite Hi.
Qed.

(** A call that nothing interleaves with does what [Users] says. *)
Theorem users_program_alone c (w w' : W) r : run_users c w = (r, w') -> interleaves ([users_program c], w) ([ended r], w').
Proof. intros E. apply run_interleaves. by rewrite run_users_program. Qed.
End Theorems.

(** ** Witnesses *)

Section Demo.
#[local] Existing Instance dev.
#[local] Instance race_attestation : DeviceAttestationAdapter := MockDeviceAttestationAdapter ["D2"].
#[local] Instance race_integrity : IntegrityWiring := true.
Definition provision_call : users_call := Users_requestChallenge "D2" (VObj [("model", VStr "M")]).
Definition provisioned_world : World MockChain := snd (run_users provision_call (snd (run_users provision_call empty_world))).
Definition application (n : nat) (name wallet : string) : users_call :=
  Users_initialize (InitializeAccountRequest.mk false (VStr name) (VStr "D2") (VStr "key") (VStr wallet) (VStr (randomUUID_at n))
    (VStr (randomBytes_at n)) (VObj [("model", VStr "M")]) None None).
Definition alternately (n : nat) : list nat := concat (repeat [0; 1] n)%nat.
(** Two applications with one challenge. *)
Definition two_applications : list challenge_call := [Of_users (application 0 "Ada" "0xa"); Of_users (application 0 "Bob" "0xb")].
Definition application_race := schedule (alternately 20) (map challenge_program two_applications, provisioned_world).
Lemma application_runs : interleaves (map challenge_program two_applications, provisioned_world) (fst application_race, snd application_race).
Proof. rewrite <- surjective_pairing. apply schedule_interleaves. Qed.
Lemma provisioned_drawn : challenges_drawn provisioned_world.
Proof.
  assert (Hb : forall w : World MockChain, challenges_drawn w -> challenges_drawn (snd (run_users provision_call w))).
  { intros w Hw. destruct (run_users provision_call w) as [r w'] eqn:E. rewrite <- run_users_program in E.
    exact (harmless_run _ _ _ _ _ _ (safe_users_program "" provision_call) Hw E). }
  apply Hb, Hb. by intros k ch.
Qed.
Lemma challenge_accepted_once_witness :
  outcomes (fst application_race) = [Some (inr tt); Some (inl (ConflictError "challenge has already been used"))] /\
  fst application_race !! 1%nat <> Some (Return tt).
Proof.
  split; [vm_compute; reflexivity|]. intros H1.
  assert (H0 : fst application_race !! 0%nat = Some (Return tt)) by (vm_compute; reflexivity).
  pose proof (proj1 (challenge_accepted_once two_applications provisioned_world _ _ (randomUUID_at 0) provisioned_drawn application_runs)
    0%nat 1%nat _ _ eq_refl eq_refl eq_refl eq_refl H0 H1) as E. discriminate E.
Defined.

(** Two applications for one device, each with a challenge of its own, are
    both accepted: the device and its owner are the second applicant's, and
    the first keeps a registration without a device. *)
Definition rivals : list challenge_call := [Of_users (application 0 "Ada" "0xa"); Of_users (application 1 "Bob" "0xb")].
Definition rival_race := schedule (alternately 20) (map challenge_program rivals, provisioned_world).
Theorem rivals_share_device :
  outcomes (fst rival_race) = [Some (inr tt); Some (inr tt)] /\
  map Identity.fullName (values (w_identities (snd rival_race))) = ["Ada"; "Bob"] /\
  map (fun d => Identity.fullName <$> get (Device.identityId d) (w_identities (snd rival_race))) (values (w_devices (snd rival_race))) = [Some "Bob"].
Proof. vm_compute. done. Qed.

Lemma commitments_dense_interleaved_witness : versions_of "D2" (snd application_race) = [1%Z].
Proof.
  rewrite (commitments_dense_interleaved _ _ _ _ "D2" application_runs); [vm_compute; reflexivity|].
  intros k. split; vm_compute; reflexivity.
Defined.

(** Two activations that both looked for wallets to replace before either was
    stored leave an identity with two active wallets. *)
Definition two_wallets_world : World MockChain :=
  upd_wallets (fun m => put "0xb" (Wallet.mk "0xb" "ID" "D" PENDING None None None (Some "key"))
    (put "0xa" (Wallet.mk "0xa" "ID" "D" PENDING None None None (Some "key")) m)) auth_world.
Definition two_activations : list challenge_call :=
  [Of_users (Users_activateWallet "ID" "D" "0xa" None); Of_users (Users_activateWallet "ID" "D" "0xb" None)].
Definition activation_race := schedule (alternately 40) (map challenge_program two_activations, two_wallets_world).
Theorem two_wallets_active :
  outcomes (fst activation_race) = [Some (inr tt); Some (inr tt)] /\
  map (fun x => (Wallet.address x, Wallet.status x)) (values (w_wallets (snd activation_race))) = [("0xw", REVOKED); ("0xa", ACTIVE);
    ("0xb", ACTIVE)].
Proof. vm_compute. done. Qed.
End Demo.
