(* ===== verification/Bootstrap.v ===== *)
(** * Bootstrap: the first administrator, [scripts/bootstrap-dev.ts]

    The script builds a container of its own and calls the identity service
    on it.  Whether what it writes reaches the database is decided by
    [createContainer]; [run_bootstrap] therefore takes the world of the
    database and gives back what is left of it when the process has ended. *)
From S2P Require Import Prelude Effects JsString JsMap JsValue Shared Errors World Repositories Users Result MockChain Rpc Evm Config Container.
Local Open Scope string_scope.
Local Open Scope list_scope.

(** What the script reports. *)
Inductive Bootstrapped := Already_bootstrapped | Created_admin (credential walletAddress : string).

Definition ADMIN_ID : string := "ADMIN-001".
Definition ADMIN_DEVICE : string := "BEL-DEV-ADMIN-001".

Section Bootstrap.
Context `{Platform} `{Files} {C : Type} `{BlockchainService C} `{DeviceAttestationAdapter}.
(** [$connect] and [$disconnect] of the database client. *)
Context (connect disconnect : M exn (World C) unit).
Abbreviation W := (World C).
Abbreviation MW := (M exn (World C)).

(** [try { m } finally { cleanup }]: what the clean-up throws replaces the result. *)
Definition try_finally {A} (m : MW A) (cleanup : MW unit) : MW A := fun w =>
  let '(r, w1) := m w in
  match cleanup w1 with
  | (inl e, w2) => (inl e, w2)
  | (inr _, w2) => (r, w2)
  end.
(** [await container.prisma?.$connect()] *)
Definition if_prisma (container : Container.t) (m : MW unit) : MW unit := if Container.prisma container then m else mret tt.

(** No adapter is injected. *)
Definition no_options : ContainerOptions.t := ContainerOptions.mk false false None false false false false false.
#[local] Instance bootstrap_integrity : IntegrityWiring := true.

Definition bootstrap_credential : string := default "dev-admin-001" (process_env "BEL_BOOTSTRAP_CREDENTIAL").
Definition checked_env : Result unit :=
  ensure (bool_decide (process_env "BEL_ENV" = Some "development") && bool_decide (process_env "BEL_DEV_BOOTSTRAP" = Some "true"))
    (Error "Development bootstrap requires BEL_ENV=development and BEL_DEV_BOOTSTRAP=true");;
  ensure (truthy_string (process_env "DATABASE_URL")) (Error "Development bootstrap requires DATABASE_URL and PostgreSQL").

(** The message when the row and the chain name different administrators. *)
Definition other_binding (existing : User.t) (onChain : option Wallet.t) (walletAddress : string) : exn :=
  Error ("PostgreSQL ADMIN-001 is bound to identity " +:+ User.identityId existing +:+ " / wallet " +:+ User.walletAddress existing +:+ ", " +:+
    "but the current Besu deployment uses identity " +:+ default "<missing>" (Wallet.identityId <$> onChain) +:+ " / wallet " +:+
      walletAddress +:+ ". " +:+
    "Reset the disposable integration database before starting a fresh Besu run.").
Definition admin_input (onChain : option Wallet.t) : CreateIdentityInput.t :=
  CreateIdentityInput.mk ADMIN_ID (Some ADMIN)
    (Some (match onChain with Some x => Wallet.identityId x | None => default "DID:BEL:ADMIN" (process_env "BEL_BOOTSTRAP_ADMIN_DID") end))
    (Some "BEL Development Administrator") (Some "PLATFORM") None None.

(** The body of the [try]. *)
Definition bootstrap_admin (container : Container.t) (walletAddress publicKey : string) : MW Bootstrapped :=
  if_prisma container connect;;
  onChain ← (if evmCryptoEnabled then on_chain (chain_getWallet walletAddress) else mret None);
  throw_if (evmCryptoEnabled && negb (bool_decide (Wallet.status <$> onChain = Some ACTIVE)))
    (Error "EVM bootstrap wallet must already be ACTIVE on-chain");;
  existing ← getById ADMIN_ID;
  match existing with
  | Some user =>
      throw_if (evmCryptoEnabled &&
          (negb (bool_decide (Some (User.identityId user) = Wallet.identityId <$> onChain)) ||
           negb (String.eqb (toLowerCase (User.walletAddress user)) (toLowerCase walletAddress))))
        (other_binding user onChain walletAddress);;
      mret Already_bootstrapped
  | None =>
      createUser (admin_input onChain) None;;
      registerDevice ADMIN_ID ADMIN_DEVICE (Some bootstrap_credential) (Some publicKey);;
      registerWallet ADMIN_ID ADMIN_DEVICE walletAddress;;
      wallet ← activateWallet ADMIN_ID ADMIN_DEVICE walletAddress None;
      mret (Created_admin bootstrap_credential (Wallet.address wallet))
  end.

(** [main()], on the world its container works on. *)
Definition bootstrap_main (container : Container.t) : MW Bootstrapped :=
  match process_env "BEL_BOOTSTRAP_WALLET_ADDRESS", process_env "BEL_BOOTSTRAP_PUBLIC_KEY" with
  | Some walletAddress, Some publicKey =>
      throw_if (bool_decide (walletAddress = "") || bool_decide (publicKey = ""))
        (Error "Development bootstrap requires BEL_BOOTSTRAP_WALLET_ADDRESS and BEL_BOOTSTRAP_PUBLIC_KEY");;
      try_finally (bootstrap_admin container walletAddress publicKey) (if_prisma container disconnect)
  | _, _ => throw (Error "Development bootstrap requires BEL_BOOTSTRAP_WALLET_ADDRESS and BEL_BOOTSTRAP_PUBLIC_KEY")
  end.

(** The repositories of a new process, over the same chain. *)
Definition empty_memory (c : C) : W := mkWorld [] [] [] [] [] [] [] [] [] [] [] [] [] [] [] [] [] [] c 0 0 0.
(** One run of the script.  With repositories in memory the database only
    sees what happened on the chain. *)
Definition run_bootstrap (db : W) : (exn + Bootstrapped) * W :=
  match (checked_env;; createContainer None no_options) with
  | inl e => (inl e, db)
  | inr container =>
      match Container.repositories container with
      | Store_memory =>
          let '(r, w) := bootstrap_main container (empty_memory (w_chain db)) in (r, upd_chain (fun _ => w_chain w) db)
      | _ => bootstrap_main container db
      end
  end.
End Bootstrap.
