(* ===== verification/BootstrapCorrect.v ===== *)
(** * BootstrapCorrect: what a run of the bootstrap script leaves behind

    A run that created the administrator leaves a database the administrator
    can log in to, and running the script again changes nothing; without
    [BEL_RUN_INTEGRATION=true] nothing of a run reaches the database. *)
From S2P Require Import Prelude Effects JsString JsMap JsValue Shared Errors World Repositories Integrity Auth Users Result MockChain.
From S2P Require Import Concrete AuthCorrect UsersCorrect Rpc Evm Config Container Bootstrap.
Local Open Scope string_scope.
Local Open Scope list_scope.

Lemma find_only {A} (p : A -> bool) (l : list A) v : In v l -> p v = true -> (forall x, In x l -> p x = true -> x = v) -> List.find p l = Some v.
Proof.
  intros Hv Hp Ho. destruct (List.find p l) as [x|] eqn:E.
  - apply find_some in E as [Hx Hpx]. f_equal. by apply Ho.
  - by rewrite (find_none _ _ E _ Hv) in Hp.
Qed.

Section Accounts.
Context `{PF : Platform} {C : Type} `{BlockchainService C} `{DeviceAttestationAdapter} `{IntegrityWiring}.
Abbreviation W := (World C).
Abbreviation MW := (M exn (World C)).

(** The five tables of an account. *)
Definition accounts (w : W) := (w_identities w, w_users w, w_devices w, w_wallets w, w_credentials w).

(** [resolveIdentity] reads one table. *)
Definition holds_employee (e : string) (i : Identity.t) : bool := bool_decide (Identity.employeeId i = Some e).
Definition resolved (id : string) (m : jsmap Identity.t) : option Identity.t :=
  match get id m with Some i => Some i | None => List.find (holds_employee id) (values m) end.
Lemma resolveIdentity_run id (w : W) : resolveIdentity id w = (inr (resolved id (w_identities w)), w).
Proof.
  unfold resolveIdentity, resolved, identities_findById, identities_findByEmployeeId. unfold mbind, M_bind, gets.
  by destruct (get id (w_identities w)).
Qed.
Lemma the_identity_inr id (w w' : W) i : the_identity id w = (inr i, w') -> resolved id (w_identities w) = Some i /\ w' = w.
Proof.
  unfold the_identity, requireIdentity. rewrite bind_inr. intros (o & w1 & E & [-> <-]%require_inr). rewrite resolveIdentity_run in E.
  by injection E as -> ->.
Qed.
Lemma resolved_put e iid i m : wf m -> get e m = None -> List.find (holds_employee e) (values m) = None -> Identity.employeeId i = Some e ->
  resolved e (put iid i m) = Some i.
Proof.
  intros Hwf Hg Hf He. unfold resolved. rewrite get_put. destruct (String.eqb_spec e iid); [done|]. rewrite Hg.
  apply find_only; [apply (get_values iid), get_put_eq|by apply bool_decide_eq_true|].
  intros x (k & Hk)%(values_get _ _ (wf_put _ _ _ Hwf)) Hp. rewrite get_put in Hk. destruct (String.eqb_spec k iid); [by injection Hk as <-|].
  by rewrite (find_none _ _ Hf x (get_values _ _ _ Hk)) in Hp.
Qed.

Ltac step Hrun E := apply bind_inr in Hrun as (? & ? & E & Hrun).
Lemma createUser_saves input actorId id (w w' : W) i u : CreateIdentityInput.identityId input = Some id ->
  createUser input actorId w = (inr (i, u), w') ->
  let e := CreateIdentityInput.employeeId input in
  Identity.identityId i = id /\ Identity.employeeId i = Some e /\ Identity.role i = CreateIdentityInput.role input /\
  Identity.department i = Some (default "UNSPECIFIED" (CreateIdentityInput.department input)) /\
  Identity.status i = default Identity_ACTIVE (CreateIdentityInput.status input) /\ is_Some (Identity.role i) /\
  e <> "" /\ List.find (holds_employee e) (values (w_identities w)) = None /\ (id <> "" -> get id (w_identities w) = None) /\
  accounts w' = (put id i (w_identities w), put e (toUser i "") (w_users w), w_devices w, w_wallets w, w_credentials w).
Proof.
  intros Hid Hrun. cbv zeta. unfold createUser in Hrun. cbv zeta in Hrun. rewrite Hid in Hrun.
  destruct (CreateIdentityInput.role input) as [role|] eqn:Hrole; [|by apply bind_inr in Hrun as (? & ? & [=] & _)].
  case_bool_decide as He; [by apply bind_inr in Hrun as (? & ? & [=] & _)|]. rewrite bind_ret in Hrun.
  apply bind_inr in Hrun as (taken & w1 & [Hf <-]%gets_inr & Hrun). apply bind_inr in Hrun as (? & w1 & [Ht <-]%throw_if_inr & Hrun).
  apply bind_inr in Hrun as (? & w1 & E & Hrun).
  assert (Hnew : w1 = w /\ (id <> "" -> get id (w_identities w) = None)).
  { simpl in E. case_bool_decide as Hi; simpl in E; [by injection E as _ ->|].
    apply bind_inr in E as (o & w2 & [Ho <-]%gets_inr & [Hb <-]%throw_if_inr).
    split; [done|]. intros _. rewrite Ho. apply bool_decide_eq_false in Hb. by destruct o; [destruct Hb|]. }
  destruct Hnew as [-> Hnew]. rewrite bind_ret in Hrun. apply bind_inr in Hrun as (createdAt & w1 & E1 & Hrun). kept accounts E1.
  apply bind_inr in Hrun as (oc & w2 & E2 & Hrun). kept accounts E2. apply bind_inr in Hrun as (? & w3 & [_ <-]%throw_if_inr & Hrun).
  apply bind_inr in Hrun as (? & w3 & E3 & Hrun). kept accounts E3.
  apply bind_inr in Hrun as (? & w4 & <-%modify_inr & Hrun). apply bind_inr in Hrun as (? & w4 & <-%modify_inr & Hrun).
  apply bind_inr in Hrun as (? & w5 & E4 & Hrun). kept accounts E4. apply bind_inr in Hrun as (? & w6 & E5 & Hrun). kept accounts E5.
  apply bind_inr in Hrun as (? & w7 & E6 & [[= <- <-] <-]%mret_inr). kept accounts E6.
  assert (K5 : accounts w3 = accounts w) by congruence. injection K5 as Ki Ku Kd Kw Kc.
  assert (Hfind : List.find (holds_employee (CreateIdentityInput.employeeId input)) (values (w_identities w)) = None) by by destruct taken.
  split_and!; try done. rewrite K4, K3, K2. unfold accounts. simpl. by rewrite Ki, Ku, Kd, Kw, Kc.
Qed.
Lemma registerDevice_saves uid did cred key (w w' : W) d : registerDevice uid did cred key w = (inr d, w') ->
  exists i, resolved uid (w_identities w) = Some i /\ Device.deviceId d = did /\ Device.identityId d = Identity.identityId i /\
    Device.status d = ACTIVE /\ blank (default did cred) = false /\ did <> "" /\
    accounts w' = (w_identities w, w_users w, put did d (w_devices w), w_wallets w, put (hashCredential (default did cred)) did (w_credentials w)).
Proof.
  intros Hrun. unfold registerDevice in Hrun. cbv zeta in Hrun. apply bind_inr in Hrun as (? & w1 & [[Hb Hc]%orb_false_iff <-]%throw_if_inr & Hrun).
  apply bind_inr in Hrun as (? & w1 & [_ <-]%throw_if_inr & Hrun). apply bind_inr in Hrun as (? & w1 & [_ <-]%throw_if_inr & Hrun).
  apply bind_inr in Hrun as (i & w1 & [Hi ->]%the_identity_inr & Hrun). apply bind_inr in Hrun as (ex & w1 & [_ <-]%gets_inr & Hrun).
  apply bind_inr in Hrun as (? & w1 & [_ <-]%throw_if_inr & Hrun). apply bind_inr in Hrun as (? & w1 & [_ <-]%throw_if_inr & Hrun).
  apply bind_inr in Hrun as (reg & w1 & E1 & Hrun). kept accounts E1. apply bind_inr in Hrun as (act & w2 & E2 & Hrun). kept accounts E2.
  apply bind_inr in Hrun as (? & w3 & <-%modify_inr & Hrun). apply bind_inr in Hrun as (? & w3 & <-%modify_inr & Hrun).
  apply bind_inr in Hrun as (? & w3 & E3 & [<- <-]%mret_inr). kept accounts E3.
  assert (K2 : accounts w2 = accounts w) by congruence. injection K2 as Ki Ku Kd Kw Kc.
  exists i. split_and!; try done; [by intros ->|]. rewrite K1. unfold accounts. simpl. by rewrite Ki, Ku, Kd, Kw, Kc.
Qed.
Lemma registerWallet_saves uid did address (w w' : W) x : registerWallet uid did address w = (inr x, w') ->
  exists i, resolved uid (w_identities w) = Some i /\ Wallet.address x = trim address /\ Wallet.identityId x = Identity.identityId i /\
    Wallet.deviceId x = did /\ Wallet.status x = PENDING /\
    accounts w' = (w_identities w, w_users w, w_devices w, put (trim address) x (w_wallets w), w_credentials w).
Proof.
  intros Hrun. unfold registerWallet in Hrun. apply bind_inr in Hrun as (? & w1 & [_ <-]%throw_if_inr & Hrun).
  apply bind_inr in Hrun as (i & w1 & [Hi ->]%the_identity_inr & Hrun). apply bind_inr in Hrun as (? & w1 & E1 & Hrun). kept accounts E1.
  apply bind_inr in Hrun as (dev & w2 & E2 & Hrun). kept accounts E2. apply bind_inr in Hrun as (? & w3 & [_ <-]%throw_if_inr & Hrun).
  apply bind_inr in Hrun as (? & w3 & E3 & Hrun). kept accounts E3. apply bind_inr in Hrun as (ex & w4 & [_ <-]%gets_inr & Hrun).
  apply bind_inr in Hrun as (? & w4 & [_ <-]%throw_if_inr & Hrun). apply bind_inr in Hrun as (? & w4 & <-%modify_inr & [<- <-]%mret_inr).
  assert (K2 : accounts w3 = accounts w) by congruence. injection K2 as Ki Ku Kd Kw Kc.
  exists i. split_and!; try done. unfold accounts. simpl. by rewrite Ki, Ku, Kd, Kw, Kc.
Qed.
(** All but the wallets and the users. *)
Definition settled_accounts (w : W) := (w_identities w, w_devices w, w_credentials w).
Lemma activateWallet_saves uid did address actorId (w w' : W) x : activateWallet uid did address actorId w = (inr x, w') ->
  exists i, resolved uid (w_identities w) = Some i /\ Wallet.identityId x = Identity.identityId i /\ settled_accounts w' = settled_accounts w /\
    w_users w' = match user_of_identity (Identity.identityId i) w with
                 | Some u => put (User.employeeId u) (User.with_wallet (Wallet.address x) u) (w_users w)
                 | None => w_users w
                 end.
Proof.
  intros Hrun. unfold activateWallet in Hrun.
  pose (q := fun w : W => (settled_accounts w, w_users w)).
  apply bind_inr in Hrun as (u & w1 & [_ <-]%throw_if_inr & Hrun).
  apply bind_inr in Hrun as (i & w1 & [Hi ->]%the_identity_inr & Hrun).
  apply bind_inr in Hrun as (? & w2 & E2 & Hrun). kept q E2. apply bind_inr in Hrun as (dev & w3 & E3 & Hrun). kept q E3.
  apply bind_inr in Hrun as (ex & w4 & [Hex <-]%gets_inr & Hrun). apply bind_inr in Hrun as (? & w4 & [Hown <-]%throw_if_inr & Hrun).
  apply bind_inr in Hrun as (wal & w4 & [-> <-]%require_inr & Hrun). apply negb_false_iff, String.eqb_eq in Hown.
  apply bind_inr in Hrun as (? & w4 & [_ <-]%throw_if_inr & Hrun). apply bind_inr in Hrun as (? & w4 & [_ <-]%throw_if_inr & Hrun).
  apply bind_inr in Hrun as (? & w4 & E4 & Hrun). kept q E4. apply bind_inr in Hrun as (actor & w5 & [_ ->]%the_identity_inr & Hrun).
  apply bind_inr in Hrun as (all & w6 & [_ <-]%gets_inr & Hrun). apply bind_inr in Hrun as (? & w6 & E6 & Hrun).
  assert (K6 : q w6 = q w4). { eapply (keeps_run q); [|exact E6]. apply keeps_for_each. intros y. unfold revokeWalletObject. rframe. }
  apply bind_inr in Hrun as (? & w7 & E7 & Hrun). kept q E7. apply bind_inr in Hrun as (? & w8 & E8 & Hrun). kept q E8.
  apply bind_inr in Hrun as (now & w9 & E9 & Hrun). kept q E9. apply bind_inr in Hrun as (? & w10 & <-%modify_inr & Hrun).
  apply bind_inr in Hrun as (usr & w11 & [Hu <-]%gets_inr & Hrun). apply bind_inr in Hrun as (? & w11 & E11 & Hrun).
  apply bind_inr in Hrun as (? & w12 & E12 & [<- <-]%mret_inr). kept q E12.
  assert (Kq : q w9 = q w) by congruence. unfold q, settled_accounts in Kq. injection Kq as Ki Kd Kc Ku.
  assert (Hu' : user_of_identity (Identity.identityId i) w = usr) by (rewrite <- Hu; unfold user_of_identity; simpl; by rewrite Ku).
  exists i. rewrite Hu'. unfold q, settled_accounts in K5. injection K5 as Ji Jd Jc Ju. unfold settled_accounts.
  split_and!; [done|done|..]; rewrite ?Ji, ?Jd, ?Jc, ?Ju;
    (destruct usr; [apply modify_inr in E11 as <-|apply mret_inr in E11 as [_ <-]]); simpl; by rewrite ?Ki, ?Kd, ?Kc, ?Ku.
Qed.

(** ** An administrator who can log in *)

(** The rows of the database belong together. *)
Record consistent (w : W) : Prop := {
  identities_wf : wf (w_identities w);
  users_wf : wf (w_users w);
  wallets_wf : wf (w_wallets w);
  users_owned : forall k u, get k (w_users w) = Some u -> is_Some (get (User.identityId u) (w_identities w));
  wallets_owned : forall k x, get k (w_wallets w) = Some x -> Wallet.address x = k /\ is_Some (get (Wallet.identityId x) (w_identities w)) }.

(** What a log-in with this credential, and another run of the script, look for. *)
Definition admin_ready (credential address : string) (w : W) : Prop :=
  blank credential = false /\ exists did d i u x,
    get (hashCredential credential) (w_credentials w) = Some did /\ did <> "" /\
    get did (w_devices w) = Some d /\ Device.deviceId d = did /\ Device.status d = ACTIVE /\
    get (Device.identityId d) (w_identities w) = Some i /\ Identity.identityId i = Device.identityId d /\
    identity_complete i = true /\ Identity.status i = Identity_ACTIVE /\ Identity.role i = Some ADMIN /\
    user_of_identity (Identity.identityId i) w = Some u /\ get ADMIN_ID (w_users w) = Some u /\
    User.employeeId u = ADMIN_ID /\ User.walletAddress u = address /\ User.identityId u = Identity.identityId i /\
    List.find wallet_active (wallets_of (Identity.identityId i) w) = Some x /\ Wallet.deviceId x = did /\ Wallet.address x = address.

Lemma ready_login credential address (w : W) : is_production = false -> admin_ready credential address w ->
  exists u token w', login (Credential credential) w = (inr (u, token), w') /\
    User.employeeId u = ADMIN_ID /\ User.role u = ADMIN /\ User.walletAddress u = address.
Proof.
  intros Hp (Hb & did & d & i & u & x & Hc & Hdid & Hd & Hdd & Hda & Hi & Hii & Hcomp & Hact & Hrole & Hu & _ & Hue & Hua & _ & Hx & Hxd & Hxa).
  cbn [login]. unfold login_credential. rewrite Hp, Hb, !guard_pass.
  erewrite bind_run; [|unfold credentials_findDeviceId, gets; rewrite Hc; reflexivity].
  assert (Ht : truthy_string (Some did) = true) by by apply negb_true_iff, bool_decide_eq_false. rewrite Ht, guard_pass.
  erewrite bind_run; [|unfold devices_findById, gets; simpl; rewrite Hd; reflexivity].
  erewrite bind_run; [|unfold identity_of_device, identities_findById, gets; rewrite Hi; reflexivity].
  erewrite bind_run; [|unfold user_of, users_findByIdentityId, gets; rewrite Hu; reflexivity].
  erewrite bind_run; [|unfold wallets_of_identity, wallets_listByIdentityId, gets; reflexivity].
  cbv zeta. unfold find_wallet. rewrite Hx, Hda, Hcomp, Hxd, Hdd, String.eqb_refl. rewrite bool_decide_eq_true_2 by done.
  rewrite guard_pass, Hrole. unfold require. rewrite bind_ret, Hact, guard_pass.
  unfold open_session. eexists _, _, _. split; [reflexivity|]. simpl. by rewrite Hue, Hxa.
Qed.

(** ** The four calls of a run *)

Lemma activateWallet_wf uid did address actorId : preserves (fun w : W => wf (w_wallets w)) (activateWallet uid did address actorId).
Proof.
  unfold activateWallet, revokeWalletObject.
  repeat first
    [ progress intros
    | lazymatch goal with
      | |- preserves _ (mbind _ _) => apply preserves_bind
      | |- preserves _ (for_each _ _) => apply preserves_for_each
      | |- preserves _ (wallets_save _) => apply preserves_modify; intros; by apply wf_put
      | |- preserves _ (if ?b then _ else _) => destruct b
      | |- preserves _ (match ?o with _ => _ end) => destruct o
      end
    | apply (preserves_keeps _ w_wallets); [by intros ? ? ->|solve [rframe]] ].
Qed.

Lemma user_of_put e u id (w : W) (m : jsmap User.t) : wf m -> w_users w = put e u m -> User.identityId u = id ->
  (forall k v, get k m = Some v -> User.identityId v <> id \/ k = e) -> user_of_identity id w = Some u.
Proof.
  intros Hwf Hw Hu Ho. unfold user_of_identity. rewrite Hw. apply find_only; [apply (get_values e), get_put_eq|by apply String.eqb_eq|].
  intros v (k & Hk)%(values_get _ _ (wf_put _ _ _ Hwf)) Hv%String.eqb_eq. rewrite get_put in Hk.
  destruct (String.eqb_spec k e); [by injection Hk as <-|]. by destruct (Ho _ _ Hk).
Qed.
Lemma created_ready onChain key credential address (w w1 w2 w3 w4 : W) iu d x0 x id :
  consistent w -> CreateIdentityInput.identityId (admin_input onChain) = Some id -> id <> "" ->
  get ADMIN_ID (w_identities w) = None -> get ADMIN_ID (w_users w) = None ->
  createUser (admin_input onChain) None w = (inr iu, w1) ->
  registerDevice ADMIN_ID ADMIN_DEVICE (Some credential) key w1 = (inr d, w2) ->
  registerWallet ADMIN_ID ADMIN_DEVICE address w2 = (inr x0, w3) ->
  activateWallet ADMIN_ID ADMIN_DEVICE address None w3 = (inr x, w4) ->
  admin_ready credential (Wallet.address x) w4.
Proof.
  intros Hcons Hid Hne Hgi Hgu E1 E2 E3 E4. destruct iu as [i u].
  destruct (createUser_saves _ _ _ _ _ _ _ Hid E1) as (Hi & Hie & Hir & Hidp & His & _ & _ & Hfree & Hnew & A1).
  change (CreateIdentityInput.employeeId (admin_input onChain)) with ADMIN_ID in *. specialize (Hnew Hne).
  unfold accounts in A1. injection A1 as Ai1 Au1 Ad1 Aw1 Ac1.
  assert (Hres : forall w' : W, w_identities w' = w_identities w1 -> resolved ADMIN_ID (w_identities w') = Some i).
  { intros w' ->. rewrite Ai1. apply resolved_put; [apply Hcons|done..]. }
  destruct (registerDevice_saves _ _ _ _ _ _ _ E2) as (j & Hj & Hdd & Hdi & Hda & Hb & Hdne & A2).
  rewrite (Hres w1 eq_refl) in Hj. injection Hj as <-. unfold accounts in A2. injection A2 as Ai2 Au2 Ad2 Aw2 Ac2.
  destruct (registerWallet_saves _ _ _ _ _ _ E3) as (j & Hj & Hx0a & Hx0i & Hx0d & Hx0s & A3).
  rewrite (Hres w2 Ai2) in Hj. injection Hj as <-. unfold accounts in A3. injection A3 as Ai3 Au3 Ad3 Aw3 Ac3.
  destruct (activateWallet_saves _ _ _ _ _ _ _ E4) as (j & Hj & Hxi & Hset & Au4).
  rewrite (Hres w3 ltac:(congruence)) in Hj. injection Hj as <-. unfold settled_accounts in Hset. injection Hset as Ai4 Ad4 Ac4.
  assert (Hgid : get id (w_identities w4) = Some i) by (rewrite Ai4, Ai3, Ai2, Ai1; apply get_put_eq).
  assert (Hothers : forall k v, get k (w_users w) = Some v -> User.identityId v <> id \/ k = ADMIN_ID).
  { intros k v [j Hj]%(users_owned _ Hcons). left. intros Hv. rewrite Hv in Hj. congruence. }
  assert (Hu3 : user_of_identity id w3 = Some (toUser i "")).
  { eapply (user_of_put ADMIN_ID); [apply Hcons|by rewrite Au3, Au2, Au1|exact Hi|exact Hothers]. }
  rewrite Hi, Hu3 in Au4. rewrite Au3, Au2, Au1 in Au4. simpl in Au4. rewrite Hie in Au4. simpl in Au4.
  set (u' := User.with_wallet (Wallet.address x) (toUser i "")) in *.
  assert (Hu4 : user_of_identity id w4 = Some u').
  { eapply (user_of_put ADMIN_ID); [|exact Au4|exact Hi|]; [by apply wf_put, Hcons|]. intros k v. rewrite get_put.
    destruct (String.eqb_spec k ADMIN_ID); [by right|apply Hothers]. }
  assert (Hwal : w_wallets w3 = put (trim address) x0 (w_wallets w)) by (rewrite Aw3, Aw2, Aw1; done).
  assert (Hwk : wallets_keyed w3).
  { intros k y. rewrite Hwal, get_put. destruct (String.eqb_spec k (trim address)) as [->|]; [by intros [= <-]|]. intros Hy.
    by apply Hcons in Hy as [? _]. }
  assert (Hwf4 : wf (w_wallets w4)) by (eapply activateWallet_wf; [|exact E4]; rewrite Hwal; by apply wf_put, Hcons).
  destruct (activateWallet_single_active _ _ _ _ _ _ _ Hwk E4) as (Hxs & Hxa & Hxd & Hgx & Honly).
  split; [exact Hb|]. exists ADMIN_DEVICE, d, i, u', x. rewrite Hdi, Hi. split_and!; try done.
  - rewrite Ac4, Ac3, Ac2. apply get_put_eq.
  - rewrite Ad4, Ad3, Ad2. apply get_put_eq.
  - unfold identity_complete. rewrite Hie, Hir, Hidp. vm_compute. done.
  - rewrite Au4. apply get_put_eq.
  - unfold u'. simpl. by rewrite Hie.
  - apply find_only.
    + apply filter_In. split; [by eapply get_values|]. apply String.eqb_eq. by rewrite Hxi.
    + by apply bool_decide_eq_true.
    + intros y [(k & Hk)%(values_get _ _ Hwf4) Hy%String.eqb_eq]%filter_In Hya%bool_decide_eq_true. eapply Honly; [exact Hk|congruence|done].
Qed.
End Accounts.

(** ** A run of the script *)

Section Runs.
Context `{PF : Platform} `{Files} {C : Type} `{BlockchainService C} `{DeviceAttestationAdapter}.
Abbreviation W := (World C).
Context (connect disconnect : M exn (World C) unit).
#[local] Existing Instance bootstrap_integrity.

(** The database client does not change what is stored. *)
Context (connect_silent : forall w r w', connect w = (r, w') -> w' = w) (disconnect_silent : forall w r w', disconnect w = (r, w') -> w' = w).

Lemma checked_env_ok : checked_env = inr tt -> is_production = false /\ truthy_string (process_env "DATABASE_URL") = true.
Proof.
  unfold checked_env, ensure. destruct (bool_decide (process_env "BEL_ENV" = Some "development") && _) eqn:Eb; [|done].
  apply andb_true_iff in Eb as [Hb%bool_decide_eq_true _]. destruct (truthy_string (process_env "DATABASE_URL")); [|done].
  intros _. split; [|done]. unfold is_production. rewrite Hb. by apply bool_decide_eq_false.
Qed.
(** Which repositories the container of the script has. *)
Lemma bootstrap_container container : checked_env = inr tt -> createContainer None no_options = inr container ->
  Container.repositories container = (if bool_decide (process_env "BEL_RUN_INTEGRATION" = Some "true") then Store_postgres else Store_memory) /\
  Container.prisma container = bool_decide (process_env "BEL_RUN_INTEGRATION" = Some "true").
Proof.
  intros (Hp & Hdb)%checked_env_ok. unfold createContainer. intros (chain & _ & Hc)%bind_ok. apply bind_ok in Hc as (u & _ & Hc).
  injection Hc as <-. simpl. rewrite Hp, Hdb. by destruct (bool_decide (process_env "BEL_RUN_INTEGRATION" = Some "true")).
Qed.

Lemma if_prisma_silent container m (w w' : W) r : (forall w r w', m w = (r, w') -> w' = w) -> if_prisma container m w = (r, w') -> w' = w.
Proof. unfold if_prisma. destruct (Container.prisma container); [by intros Hm ?%Hm|by intros _ [= _ <-]]. Qed.
Lemma try_finally_inv {A} (m : M exn W A) cleanup (w w' : W) r : (forall w r w', cleanup w = (r, w') -> w' = w) ->
  try_finally m cleanup w = (r, w') -> exists r', m w = (r', w') /\ forall a, r = inr a -> r' = inr a.
Proof.
  unfold try_finally. intros Hc. destruct (m w) as [r1 w1]. destruct (cleanup w1) as [[e|u] w2] eqn:E; apply Hc in E as ->;
    intros [= <- <-]; exists r1; by split.
Qed.
(** A run with the repositories in the database either stops at the
    configuration or performs the body of the [try]. *)
Lemma run_bootstrap_body : process_env "BEL_RUN_INTEGRATION" = Some "true" ->
  (exists e, forall db : W, run_bootstrap connect disconnect db = (inl e, db)) \/
  exists container a k, is_production = false /\
    forall db : W, run_bootstrap connect disconnect db = try_finally (bootstrap_admin connect container a k) (if_prisma container disconnect) db.
Proof.
  intros Hi. unfold run_bootstrap. destruct (checked_env;; createContainer None no_options) as [e|container] eqn:Ec; [by left; exists e|].
  apply bind_ok in Ec as ([] & Hce & Hcc). destruct (bootstrap_container _ Hce Hcc) as [Hr _]. rewrite Hi, bool_decide_eq_true_2 in Hr by done.
  rewrite Hr. unfold bootstrap_main. destruct (process_env "BEL_BOOTSTRAP_WALLET_ADDRESS") as [a|]; [|by left; eexists].
  destruct (process_env "BEL_BOOTSTRAP_PUBLIC_KEY") as [k|]; [|by left; eexists].
  destruct (bool_decide (a = "") || bool_decide (k = "")); [by left; eexists|right].
  exists container, a, k. split; [by apply checked_env_ok|done].
Qed.
Lemma run_bootstrap_inv (db db' : W) r : process_env "BEL_RUN_INTEGRATION" = Some "true" -> run_bootstrap connect disconnect db = (r, db') ->
  (exists e, r = inl e /\ db' = db) \/
  exists container walletAddress publicKey r', is_production = false /\ bootstrap_admin connect container walletAddress publicKey db = (r', db') /\
    forall b, r = inr b -> r' = inr b.
Proof.
  intros Hi Hrun. destruct (run_bootstrap_body Hi) as [[e He]|(container & a & k & Hp & Hb)].
  - left. rewrite He in Hrun. injection Hrun as <- <-. by exists e.
  - right. rewrite Hb in Hrun. apply try_finally_inv in Hrun as (r' & Hm & Hr'); [|intros w r0 w'; by apply if_prisma_silent].
    by exists container, a, k, r'.
Qed.
(** What a run that created the administrator did. *)
Lemma bootstrap_admin_created container a k (w w' : W) cred addr :
  bootstrap_admin connect container a k w = (inr (Created_admin cred addr), w') ->
  exists onChain w0 iu w1 d w2 x0 w3 x, cred = bootstrap_credential /\ addr = Wallet.address x /\
    (exists c, w0 = upd_chain (fun _ => c) w) /\ get ADMIN_ID (w_users w) = None /\
    match onChain with
    | Some y => exists c, chain_getWallet a (w_chain w) = (inr (Some y), c)
    | None => evmCryptoEnabled = false
    end /\
    createUser (admin_input onChain) None w0 = (inr iu, w1) /\
    registerDevice ADMIN_ID ADMIN_DEVICE (Some bootstrap_credential) (Some k) w1 = (inr d, w2) /\
    registerWallet ADMIN_ID ADMIN_DEVICE a w2 = (inr x0, w3) /\ activateWallet ADMIN_ID ADMIN_DEVICE a None w3 = (inr x, w').
Proof.
  unfold bootstrap_admin. intros (u & w1 & E & Hrun)%bind_inr. apply if_prisma_silent in E as ->; [|done].
  apply bind_inr in Hrun as (oc & w0 & E & Hrun). apply bind_inr in Hrun as (u1 & w1 & [Hact <-]%throw_if_inr & Hrun).
  apply bind_inr in Hrun as (ex & w1 & Eg & Hrun).
  assert (Hw0 : (exists c, w0 = upd_chain (fun _ => c) w) /\
    match oc with Some y => exists c, chain_getWallet a (w_chain w) = (inr (Some y), c) | None => evmCryptoEnabled = false end).
  { destruct evmCryptoEnabled.
    - apply on_chain_inv in E as (c & E & ->). split; [by exists c|]. destruct oc as [y|]; [by exists c|done].
    - injection E as <- <-. split; [|done]. exists (w_chain w). by destruct w. }
  destruct Hw0 as [Hw0 Hoc]. destruct ex as [user|].
  { apply bind_inr in Hrun as (u2 & w2 & _ & [=]). }
  assert (Hnone : w1 = w0 /\ get ADMIN_ID (w_users w0) = None).
  { unfold getById, users_findById in Eg. apply bind_inr in Eg as (o & w2 & [Ho <-]%gets_inr & Eg). destruct o as [u2|]; [by injection Eg|].
    split; [|done]. apply bind_inr in Eg as (i & w2 & Ei & Eg). rewrite resolveIdentity_run in Ei. injection Ei as <- <-.
    destruct (resolved ADMIN_ID (w_identities w0)); [by injection Eg as _ <-|by injection Eg as <-]. }
  destruct Hnone as [-> Hu]. apply bind_inr in Hrun as (iu & w1 & E1 & Hrun). apply bind_inr in Hrun as (d & w2 & E2 & Hrun).
  apply bind_inr in Hrun as (x0 & w3 & E3 & Hrun). apply bind_inr in Hrun as (x & w4 & E4 & Hrun). injection Hrun as <- <- <-.
  exists oc, w0, iu, w1, d, w2, x0, w3, x. split_and!; try done. destruct Hw0 as (c & ->). exact Hu.
Qed.

(** The chain names every owner of a wallet, and the configuration does not
    name the administrator's identity by the empty string. *)
Definition owners_named (a : string) (db : W) : Prop :=
  process_env "BEL_BOOTSTRAP_ADMIN_DID" <> Some "" /\
  forall x c, chain_getWallet a (w_chain db) = (inr (Some x), c) -> Wallet.identityId x <> "".
Lemma run_created_ready (db db' : W) cred addr : process_env "BEL_RUN_INTEGRATION" = Some "true" -> consistent db ->
  get ADMIN_ID (w_identities db) = None -> (forall a, owners_named a db) ->
  run_bootstrap connect disconnect db = (inr (Created_admin cred addr), db') -> is_production = false /\ admin_ready cred addr db'.
Proof.
  intros Hi Hc Hg Hn Hrun. apply run_bootstrap_inv in Hrun as [(e & [=] & _)|(container & a & k & r' & Hp & Hm & Hr)]; [|done].
  split; [done|]. rewrite (Hr _ eq_refl) in Hm. destruct (Hn a) as [Hdid Hown].
  apply bootstrap_admin_created in Hm as (oc & w0 & iu & w1 & d & w2 & x0 & w3 & x & -> & -> & (c & ->) & Hu & Hoc & E1 & E2 & E3 & E4).
  assert (Hid : exists id, CreateIdentityInput.identityId (admin_input oc) = Some id /\ id <> "").
  { unfold admin_input. cbn [CreateIdentityInput.identityId]. destruct oc as [y|].
    - destruct Hoc as [c' Eg]. eexists. split; [done|]. by eapply Hown.
    - destruct (process_env "BEL_BOOTSTRAP_ADMIN_DID") as [s|]; eexists; (split; [reflexivity|]); [|done]. simpl. congruence. }
  destruct Hid as (id & Hid & Hne). eapply (created_ready oc); [|exact Hid|exact Hne| | |exact E1|exact E2|exact E3|exact E4];
    [by destruct Hc|exact Hg|exact Hu].
Qed.

(** C30: With [BEL_RUN_INTEGRATION=true], on a consistent database without an
    administrator, where neither the configured DID nor the chain names an empty
    owner, a run of the script that reports a new administrator leaves a
    database where the reported credential logs in as the administrator
    [ADMIN-001] with the reported wallet. *)
Theorem bootstrapped_admin_logs_in (db db' : W) cred addr :
  process_env "BEL_RUN_INTEGRATION" = Some "true" -> consistent db -> get ADMIN_ID (w_identities db) = None ->
  (forall a, owners_named a db) -> run_bootstrap connect disconnect db = (inr (Created_admin cred addr), db') ->
  exists u token w, login (Credential cred) db' = (inr (u, token), w) /\
    User.employeeId u = ADMIN_ID /\ User.role u = ADMIN /\ User.walletAddress u = addr.
Proof.
  intros Hi Hc Hg Hn Hrun. destruct (run_created_ready db db' cred addr Hi Hc Hg Hn Hrun) as [Hp Hr]. by apply ready_login.
Qed.

(** C31: Off the EVM chain the script never completes an administrator: once a
    run has stored the row [ADMIN-001], every later run reports that the
    administrator exists and changes nothing, also when the first run failed
    and left the administrator without a device or a wallet. *)
Theorem bootstrap_never_completes (db db' : W) r :
  process_env "BEL_RUN_INTEGRATION" = Some "true" -> evmCryptoEnabled = false ->
  (forall w, connect w = (inr tt, w)) -> (forall w, disconnect w = (inr tt, w)) ->
  run_bootstrap connect disconnect db = (r, db') -> get ADMIN_ID (w_users db) = None -> is_Some (get ADMIN_ID (w_users db')) ->
  run_bootstrap connect disconnect db' = (inr Already_bootstrapped, db').
Proof.
  intros Hi Hevm Hcn Hdc Hrun Hnone [u Hu]. destruct (run_bootstrap_body Hi) as [[e He]|(container & a & k & _ & Hb)].
  { rewrite He in Hrun. injection Hrun as _ <-. congruence. }
  assert (Hp : forall m (w : W), (forall w, m w = (inr tt, w)) -> if_prisma container m w = (inr tt, w)).
  { intros m w Hm. unfold if_prisma. by destruct (Container.prisma container). }
  rewrite Hb. unfold try_finally, bootstrap_admin. rewrite (bind_run _ _ _ _ _ (Hp _ db' Hcn)), Hevm, bind_ret. cbn [andb]. rewrite guard_pass.
  assert (Hg : getById ADMIN_ID db' = (inr (Some u), db')).
  { unfold getById, users_findById. unfold mbind, M_bind, gets. by rewrite Hu. }
  rewrite (bind_run _ _ _ _ _ Hg), guard_pass. unfold mret at 1, M_ret. by rewrite (Hp _ db' Hdc).
Qed.

(** Without [BEL_RUN_INTEGRATION=true] nothing of a run reaches the
    database, whatever the run reports: only what happened on the chain stays. *)
Theorem bootstrap_in_memory (db db' : W) r : process_env "BEL_RUN_INTEGRATION" <> Some "true" ->
  run_bootstrap connect disconnect db = (r, db') -> exists c, db' = upd_chain (fun _ => c) db.
Proof.
  intros Hi. unfold run_bootstrap. assert (Hsame : exists c, db = upd_chain (fun _ => c) db) by (exists (w_chain db); by destruct db).
  destruct (checked_env;; createContainer None no_options) as [e|container] eqn:Ec; [by intros [= _ <-]|].
  apply bind_ok in Ec as ([] & Hce & Hcc). destruct (bootstrap_container _ Hce Hcc) as [Hr _]. rewrite bool_decide_eq_false_2 in Hr by done.
  rewrite Hr. destruct (bootstrap_main connect disconnect container (empty_memory (w_chain db))) as [r' w'].
  intros [= _ <-]. by eexists.
Qed.
End Runs.

(** ** Runs of the script *)

Section Demo.
Definition script_env (credential integration : option string) (k : string) : option string :=
  if String.eqb k "BEL_ENV" then Some "development"
  else if String.eqb k "BEL_DEV_BOOTSTRAP" then Some "true"
  else if String.eqb k "DATABASE_URL" then Some "postgresql://bel"
  else if String.eqb k "BEL_BOOTSTRAP_WALLET_ADDRESS" then Some "0xadmin"
  else if String.eqb k "BEL_BOOTSTRAP_PUBLIC_KEY" then Some "key"
  else if String.eqb k "BEL_BOOTSTRAP_CREDENTIAL" then credential
  else if String.eqb k "BEL_RUN_INTEGRATION" then integration
  else None.
#[local] Instance no_files : Files := {|
  existsSync _ := false; readFileSync _ := None; path_isAbsolute _ := true; path_resolve l := join_strings "/" l; REPO_ROOT := "/" |}.
#[local] Instance script_attestation : DeviceAttestationAdapter := RejectingDeviceAttestationAdapter.
Definition client : M exn (World MockChain) unit := mret tt.
Lemma empty_consistent : consistent empty_world.
Proof. split; try done; apply wf_empty. Qed.

Section Complete.
#[local] Instance complete_env : Platform := concrete (script_env None (Some "true")).
Definition bootstrapped_world : World MockChain := snd (run_bootstrap client client empty_world).
Lemma bootstrapped_admin_logs_in_witness : exists u token w,
  login (Credential "dev-admin-001") bootstrapped_world = (inr (u, token), w) /\ User.role u = ADMIN /\ User.walletAddress u = "0xadmin".
Proof.
  assert (Hf : fst (run_bootstrap client client empty_world) = inr (Created_admin "dev-admin-001" "0xadmin")) by (vm_compute; reflexivity).
  unfold bootstrapped_world. destruct (run_bootstrap client client empty_world) as [r db] eqn:Hrun. cbn [fst snd] in *. rewrite Hf in Hrun.
  destruct (bootstrapped_admin_logs_in client client ltac:(by intros w r' w' [= _ <-]) ltac:(by intros w r' w' [= _ <-])
    empty_world db "dev-admin-001" "0xadmin") as (u & token & w & E & _ & Hr & Ha).
  - reflexivity.
  - exact empty_consistent.
  - reflexivity.
  - intros a. split; [vm_compute; discriminate|]. by intros x c.
  - exact Hrun.
  - exists u, token, w. split; [exact E|]. split; [exact Hr|exact Ha].
Defined.
End Complete.

(** With an empty credential the first run stores the row and then fails: the
    administrator has no device, and the script will not give it one. *)
Section Incomplete.
#[local] Instance incomplete_env : Platform := concrete (script_env (Some "") (Some "true")).
Definition half_bootstrapped : World MockChain := snd (run_bootstrap client client empty_world).
Lemma bootstrap_never_completes_witness :
  fst (run_bootstrap client client empty_world) = inl (ValidationError ["deviceId and credential are required"]) /\
  w_devices half_bootstrapped = [] /\ run_bootstrap client client half_bootstrapped = (inr Already_bootstrapped, half_bootstrapped).
Proof.
  split; [vm_compute; reflexivity|]. split; [vm_compute; reflexivity|].
  apply (bootstrap_never_completes client client empty_world half_bootstrapped (fst (run_bootstrap client client empty_world))).
  - reflexivity.
  - vm_compute. reflexivity.
  - reflexivity.
  - reflexivity.
  - apply surjective_pairing.
  - reflexivity.
  - vm_compute. eexists. reflexivity.
Defined.
End Incomplete.

(** Without [BEL_RUN_INTEGRATION] the run reports an administrator that no
    database holds. *)
Section Forgotten.
#[local] Instance forgotten_env : Platform := concrete (script_env None None).
Lemma bootstrap_in_memory_witness :
  fst (run_bootstrap client client empty_world) = inr (Created_admin "dev-admin-001" "0xadmin") /\
  w_users (snd (run_bootstrap client client empty_world)) = [].
Proof.
  split; [vm_compute; reflexivity|].
  destruct (bootstrap_in_memory client client empty_world (snd (run_bootstrap client client empty_world))
    (fst (run_bootstrap client client empty_world))) as [c ->].
  - vm_compute. discriminate.
  - apply surjective_pairing.
  - reflexivity.
Defined.
End Forgotten.
End Demo.
