(* ===== verification/JsonText.v ===== *)
(** * JsonText: an executable codec for the examples

    A text for the values that JSON can carry, with its reader: what the
    documentation promises of [JSON.stringify] and [JSON.parse] on such values
    can hold.  Lengths are written in unary, numbers in binary digits. *)
From S2P Require Import Prelude JsString JsMap JsValue Crypto Concrete.
From Stdlib Require Import Ascii.
Local Open Scope string_scope.
Local Open Scope list_scope.

(** ** Values that survive the way through a text *)

(** Objects of scalars and objects: no number but an integer, no key twice
    and none that an object would move to the front. *)
Definition plain_key (k : string) : bool := match k with "" => true | String a _ => negb (is_digit a) end.
Fixpoint json_plain (v : value) : bool :=
  match v with
  | VNull | VBool _ | VStr _ => true
  | VNum (Num q) => Pos.eqb (Qden q) 1
  | VObj p => bool_decide (NoDup (keys p)) && forallb plain_key (keys p) && forallb (fun kv => json_plain (snd kv)) p
  | VNum _ | VUndefined | VBigInt _ | VArr _ => false
  end.

(** ** The text *)

Definition write_string (s : string) : string := repeat_char "1"%char (String.length s) +:+ String ":"%char s.
Fixpoint read_length (s : string) : option (nat * string) :=
  match s with
  | String a s' =>
      if Ascii.eqb a ":"%char then Some (O, s')
      else if Ascii.eqb a "1"%char then '(n, rest) ← read_length s'; Some (S n, rest)
      else None
  | "" => None
  end.
Definition read_string (s : string) : option (string * string) :=
  '(n, rest) ← read_length s; Some (slice_to n rest, slice_from n rest).

Fixpoint write (v : value) : string :=
  match v with
  | VNull => "n"
  | VBool true => "t"
  | VBool false => "f"
  | VNum (Num q) => String "#"%char (write_string (spell_Z (Qnum q)))
  | VStr s => String "'"%char (write_string s)
  | VObj p =>
      String "{"%char ((fix go (p : payload) : string :=
        match p with [] => "}" | (k, x) :: p' => String ","%char (write_string k +:+ write x +:+ go p') end) p)
  | VNum _ | VUndefined | VBigInt _ | VArr _ => "u"
  end.
Fixpoint write_fields (p : payload) : string :=
  match p with [] => "}" | (k, x) :: p' => String ","%char (write_string k +:+ write x +:+ write_fields p') end.

(** The fields of an object, with the reader of its values. *)
Fixpoint read_fields (read : string -> option (value * string)) (n : nat) (s : string) : option (payload * string) :=
  match n, s with
  | S n', String a s' =>
      if Ascii.eqb a "}"%char then Some ([], s')
      else '(k, s1) ← read_string s'; '(x, s2) ← read s1; '(p, s3) ← read_fields read n' s2; Some ((k, x) :: p, s3)
  | _, _ => None
  end.
Fixpoint read (fuel : nat) (s : string) : option (value * string) :=
  match fuel, s with
  | S fuel', String a s' =>
      if Ascii.eqb a "n"%char then Some (VNull, s')
      else if Ascii.eqb a "t"%char then Some (VBool true, s')
      else if Ascii.eqb a "f"%char then Some (VBool false, s')
      else if Ascii.eqb a "#"%char then '(d, rest) ← read_string s'; z ← read_Z d; Some (VNum (num_of_Z z), rest)
      else if Ascii.eqb a "'"%char then '(t, rest) ← read_string s'; Some (VStr t, rest)
      else if Ascii.eqb a "{"%char then '(p, rest) ← read_fields (read fuel') fuel s'; Some (VObj p, rest)
      else None
  | _, _ => None
  end.
Definition stringify (p : payload) : string := write (VObj p).
Definition parse_text (s : string) : option value := fst <$> read (String.length s) s.

(** ** The way back *)

Lemma read_length_write n s : read_length (repeat_char "1"%char n +:+ String ":"%char s) = Some (n, s).
Proof. induction n as [|n IH]; simpl; [done|]. by rewrite IH. Qed.
Lemma read_string_write s rest : read_string (write_string s +:+ rest) = Some (s, rest).
Proof.
  unfold read_string, write_string. rewrite app_string_assoc. change (String ":" s +:+ rest) with (String ":" (s +:+ rest)).
  rewrite read_length_write. cbn [mbind option_bind]. by rewrite slice_to_app, slice_from_app.
Qed.
Lemma write_object p : write (VObj p) = String "{"%char (write_fields p).
Proof. simpl. f_equal. Qed.

Section Values.
Variable P : value -> Prop.
Hypothesis scalar : forall v, (forall p, v <> VObj p) -> P v.
Hypothesis object : forall p, Forall (fun kv => P (snd kv)) p -> P (VObj p).
(** Induction through the fields of an object. *)
Fixpoint value_fields_ind (v : value) : P v.
Proof.
  destruct v as [| |b|n|z|s|l|p]; try (apply scalar; discriminate).
  apply object. induction p as [|[k x] p IH]; [constructor|]. constructor; [apply value_fields_ind|exact IH].
Defined.
End Values.

Lemma read_fields_write p : forall fuel n rest,
  Forall (fun kv => forall rest, read fuel (write (snd kv) +:+ rest) = Some (snd kv, rest)) p -> (length p < n)%nat ->
  read_fields (read fuel) n (write_fields p +:+ rest) = Some (p, rest).
Proof.
  induction p as [|[k x] p IH]; intros fuel n rest Hp Hn; (destruct n as [|n]; [simpl in Hn; lia|]); [done|].
  inversion_clear Hp. change (write_fields ((k, x) :: p) +:+ rest)
    with (String ","%char ((write_string k +:+ write x +:+ write_fields p) +:+ rest)).
  cbn [read_fields Ascii.eqb Bool.eqb]. rewrite !app_string_assoc, read_string_write. cbn [mbind option_bind].
  simpl in H. rewrite H. cbn [mbind option_bind]. rewrite IH; [done|done|simpl in Hn; lia].
Qed.
Lemma write_nonempty v : (1 <= String.length (write v))%nat.
Proof. destruct v as [| |[]|[]| | | |]; simpl; lia. Qed.
Lemma write_fields_length p : (length p < String.length (write_fields p))%nat /\
  Forall (fun kv => String.length (write (snd kv)) < String.length (write_fields p))%nat p.
Proof.
  induction p as [|[k x] p [IH1 IH2]]; simpl; [split; [lia|constructor]|]. rewrite !length_app_string.
  split; [lia|]. constructor; [simpl; lia|]. eapply List.Forall_impl; [|exact IH2]. intros kv Hkv. simpl in Hkv. lia.
Qed.
Lemma read_write v : json_plain v = true -> forall fuel rest, (String.length (write v) <= fuel)%nat ->
  read fuel (write v +:+ rest) = Some (v, rest).
Proof.
  induction v as [v Hs|p IH] using value_fields_ind; intros Hv fuel rest Hf.
  - destruct fuel as [|fuel]; [pose proof (write_nonempty v); lia|].
    destruct v as [| |[]|n| |s| |p]; try discriminate Hv; try done; [| |by destruct (Hs p)].
    + destruct n as [| | |[z d]]; try discriminate Hv. apply Pos.eqb_eq in Hv. simpl in Hv. subst d.
      change (write (VNum (Num (z # 1))) +:+ rest) with (String "#" (write_string (spell_Z z) +:+ rest)).
      cbn [read Ascii.eqb Bool.eqb]. rewrite read_string_write. cbn [mbind option_bind]. by rewrite read_spell_Z.
    + change (write (VStr s) +:+ rest) with (String "'" (write_string s +:+ rest)).
      cbn [read Ascii.eqb Bool.eqb]. by rewrite read_string_write.
  - rewrite write_object in *. destruct fuel as [|fuel]; [simpl in Hf; lia|]. simpl in Hf.
    simpl in Hv. apply andb_true_iff in Hv as [_ Hv]. pose proof (write_fields_length p) as [Hn Hl].
    change (String "{" (write_fields p) +:+ rest) with (String "{" (write_fields p +:+ rest)).
    cbn [read Ascii.eqb Bool.eqb]. rewrite read_fields_write; [done| |lia].
    rewrite forallb_forall in Hv. rewrite List.Forall_forall in *. intros kv Hin rest'. apply IH; [done|by apply Hv|].
    specialize (Hl _ Hin). lia.
Qed.
Lemma parse_stringify p : json_plain (VObj p) = true -> parse_text (stringify p) = Some (VObj p).
Proof.
  intros Hp. unfold parse_text, stringify. rewrite <- (app_string_nil (write (VObj p))) at 2. by rewrite read_write.
Qed.
