(* ===== verification/DevWallet.v ===== *)
(** * DevWallet: the development wallet, [frontend/dev-wallet/wallet.mjs] and [server.mjs]

    A local service that keeps the key of one device in an encrypted file and
    signs challenges and transactions with it.  The files and the random
    numbers of its machine and the cryptography of Node.js and [ethers] are
    interfaces; bytes are strings. *)
From S2P Require Import Prelude Effects JsString JsMap JsValue Consensus DeviceWallet Client.
From Stdlib Require Import Ascii.
Local Open Scope string_scope.
Local Open Scope list_scope.

(** A thrown value: an [Error] with its message, or anything else. *)
Inductive Fault := Failure (message : string) | NoError.

(** What [Signature.from] makes of a signature. *)
Module EthersSignature.
Record t := mk { yParity : Z; r : string; s : string }.
End EthersSignature.

Class WalletCrypto := {
  (** [ethers.Wallet]; [None] is a throw *)
  Wallet : Type;
  new_Wallet : string -> Fault + Wallet;
  Wallet_privateKey : Wallet -> string;
  Wallet_address : Wallet -> string;
  (** [wallet.signingKey.publicKey] *)
  signingKey_publicKey : Wallet -> string;
  Wallet_signMessage : Wallet -> value -> Fault + string;
  Wallet_signTransaction : Wallet -> payload -> Fault + string;
  Signature_from : string -> Fault + EthersSignature.t;
  (** [node:crypto]: key derivation, AES-256-GCM with key and iv, both ways *)
  scryptSync : string -> string -> nat -> string;
  gcm_encrypt : string -> string -> string -> string * string;
  gcm_decrypt : string -> string -> string -> string -> Fault + string;
  (** [b.toString("base64url")], [b.toString("hex")], [Buffer.from(v, "base64url")] *)
  to_base64url : string -> string;
  bytes_to_hex : string -> string;
  Buffer_from_base64url : value -> Fault + string;
  (** [JSON.stringify(record, null, 2)] and the error of [JSON.parse] *)
  JSON_pretty : payload -> string;
  syntax_error : string -> Fault;
}.

(** The machine the wallet runs on. *)
Class Host (St : Type) := {
  file : string -> St -> option string;
  readFileSync : string -> M Fault St string;
  writeFileSync : string -> string -> M Fault St unit;
  mkdirSync : string -> M Fault St unit;
  chmodSync : string -> M Fault St unit;
  randomBytes : nat -> M Fault St string;
  dirname : string -> string;
  join : list string -> string;
  resolve : string -> string;
  moduleRoot : string;
}.
(** [existsSync(path)] *)
Definition existsSync `{Host St} (path : string) (s : St) : bool := bool_decide (is_Some (file path s)).

(** ** Patterns *)

Definition is_upper (a : ascii) : bool := let n := nat_of_ascii a in bool_decide (65 <= n <= 90)%nat.
Definition is_lower (a : ascii) : bool := let n := nat_of_ascii a in bool_decide (97 <= n <= 122)%nat.
Definition is_alnum (a : ascii) : bool := is_upper a || is_lower a || is_digit a.
Definition one_of (l : string) (a : ascii) : bool := existsb (Ascii.eqb a) (String.list_ascii_of_string l).

(** [/^[A-Za-z0-9][A-Za-z0-9._-]{0,63}$/.test(s)] *)
Definition DEVICE_ID_PATTERN (s : string) : bool :=
  match s with
  | "" => false
  | String a rest => is_alnum a && all_chars (fun c => is_alnum c || one_of "._-" c) rest && (String.length rest <=? 63)%nat
  end.
(** [/^[A-Za-z0-9_-]{43}$/.test(s)] *)
Definition CHALLENGE_PATTERN (s : string) : bool :=
  (String.length s =? 43)%nat && all_chars (fun c => is_alnum c || one_of "_-" c) s.
(** [/^[A-Z][A-Z0-9_]{1,63}$/.test(s)] *)
Definition OPERATION_PATTERN (s : string) : bool :=
  match s with
  | "" => false
  | String a rest => is_upper a && all_chars (fun c => is_upper c || is_digit c || one_of "_" c) rest &&
                     (1 <=? String.length rest)%nat && (String.length rest <=? 63)%nat
  end.
(** [pattern.test(v)] works on [String(v)]. *)
Definition coerced `{Platform} (v : value) : string := match v with VStr s => s | _ => String_of v end.

(** ** [wallet.mjs] *)

(** What [loadOrCreateDevice] returns; [identity] is an object. *)
Module Device.
Section Device.
Context `{WalletCrypto}.
Record t := mk { wallet : Wallet; deviceId : string; publicKey : value; walletAddress : value; keystorePath : string }.
Definition identity (d : t) : payload :=
  [("deviceId", VStr (deviceId d)); ("publicKey", publicKey d); ("walletAddress", walletAddress d)].
End Device.
End Device.

Section Wallet.
Context `{Platform} `{WalletCrypto} {St : Type} `{Host St}.
Abbreviation MS := (M Fault St).

(** [v.k]; [null] and [undefined] have no properties. *)
Definition read_prop (k : string) (v : value) : MS value :=
  match v with
  | VUndefined => throw (Failure ("Cannot read properties of undefined (reading '" +:+ k +:+ "')"))
  | VNull => throw (Failure ("Cannot read properties of null (reading '" +:+ k +:+ "')"))
  | _ => mret (opt_prop k v)
  end.
Definition parse (text : string) : MS value :=
  match JSON_parse text with Some v => mret v | None => throw (syntax_error text) end.

Definition requiredSecret : MS string :=
  match process_env "BEL_DEV_WALLET_SECRET" with
  | Some v => throw_if (String.length v <? 16)%nat (Failure "BEL_DEV_WALLET_SECRET must contain at least 16 characters");; mret v
  | None => throw (Failure "BEL_DEV_WALLET_SECRET must contain at least 16 characters")
  end.
Definition devicesRoot : string :=
  resolve (match process_env "BEL_DEV_WALLET_DIR" with
           | Some d => if String.eqb d "" then join [moduleRoot; ".bel-dev"; "devices"] else d
           | None => join [moduleRoot; ".bel-dev"; "devices"]
           end).
Definition validateDeviceId (deviceId : string) : MS unit :=
  throw_if (negb (DEVICE_ID_PATTERN deviceId)) (Failure "Invalid development device id").
Definition wallet_path (deviceId : string) : string := join [devicesRoot; deviceId; "wallet.json"].
Definition devicePath (deviceId : string) : MS string := validateDeviceId deviceId;; mret (wallet_path deviceId).

Definition keyFromSecret (secret salt : string) : string := scryptSync secret salt 32.

(** The record [encryptPrivateKey] makes of its random numbers. *)
Definition sealed (secret salt iv privateKey : string) : payload :=
  let '(ciphertext, tag) := gcm_encrypt (keyFromSecret secret salt) iv privateKey in
  [("algorithm", VStr "aes-256-gcm"); ("salt", VStr (to_base64url salt)); ("iv", VStr (to_base64url iv));
   ("tag", VStr (to_base64url tag)); ("ciphertext", VStr (to_base64url ciphertext))].
Definition encryptPrivateKey (privateKey : string) : MS payload :=
  salt ← randomBytes 16;
  iv ← randomBytes 12;
  secret ← requiredSecret;
  mret (sealed secret salt iv privateKey).
Definition decryptPrivateKey (record : value) : MS string :=
  throw_if (match opt_prop "algorithm" record with VStr a => negb (String.eqb a "aes-256-gcm") | _ => true end)
    (Failure "Unsupported development wallet keystore");;
  secret ← requiredSecret;
  salt ← lift_result (Buffer_from_base64url (opt_prop "salt" record));
  iv ← lift_result (Buffer_from_base64url (opt_prop "iv" record));
  tag ← lift_result (Buffer_from_base64url (opt_prop "tag" record));
  ciphertext ← lift_result (Buffer_from_base64url (opt_prop "ciphertext" record));
  lift_result (gcm_decrypt (keyFromSecret secret salt) iv tag ciphertext).

(** [`0x${publicKey.slice(4)}`]: without the prefix of an uncompressed point *)
Definition publicKeyWire (wallet : Wallet) : string := "0x" +:+ slice_from 4 (signingKey_publicKey wallet).

Definition importKeyIfConfigured : MS (option string) :=
  configured ← match trim <$> process_env "BEL_DEV_DEVICE_IMPORT_KEY" with
               | Some direct => mret (Some direct)
               | None =>
                   match process_env "BEL_DEV_DEVICE_IMPORT_KEY_FILE" with
                   | Some path => if String.eqb path "" then mret None
                                  else text ← readFileSync (resolve path); mret (Some (trim text))
                   | None => mret None
                   end
               end;
  match configured with
  | None => mret None
  | Some v =>
      throw_if (negb (startsWith "0x" v && is_hex_of_length 64 (slice_from 2 v)))
        (Failure "Imported development private key must be a 32-byte hex key");;
      mret (Some v)
  end.

Definition record_of (deviceId : string) (wallet : Wallet) (privateKey : payload) : payload :=
  [("version", VNum (num_of_Z 1)); ("deviceId", VStr deviceId); ("publicKey", VStr (publicKeyWire wallet));
   ("walletAddress", VStr (Wallet_address wallet)); ("privateKey", VObj privateKey)].
(** [`${JSON.stringify(record, null, 2)}\n`] *)
Definition record_text (record : payload) : string := JSON_pretty record +:+ String (ascii_of_nat 10) "".

Definition create_record (deviceId path : string) : MS value :=
  drawn ← randomBytes 32;
  imported ← importKeyIfConfigured;
  wallet ← lift_result (new_Wallet (default ("0x" +:+ bytes_to_hex drawn) imported));
  privateKey ← encryptPrivateKey (Wallet_privateKey wallet);
  let record := record_of deviceId wallet privateKey in
  writeFileSync path (record_text record);;
  try_catch (chmodSync path) (fun _ => mret tt);;
  mret (VObj record).
(** The checks of a record and the device it stands for. *)
Definition open_device (deviceId path : string) (record : value) : MS Device.t :=
  boundTo ← read_prop "deviceId" record;
  throw_if (match boundTo with VStr d => negb (String.eqb d deviceId) | _ => true end)
    (Failure "Development wallet device binding mismatch");;
  privateKey ← decryptPrivateKey (opt_prop "privateKey" record);
  wallet ← lift_result (new_Wallet privateKey);
  throw_if (match opt_prop "walletAddress" record with VStr a => negb (String.eqb (Wallet_address wallet) a) | _ => true end ||
            negb (String.eqb (toLowerCase (publicKeyWire wallet)) (toLowerCase (coerced (opt_prop "publicKey" record)))))
    (Failure "Development wallet keystore integrity check failed");;
  mret (Device.mk wallet deviceId (opt_prop "publicKey" record) (opt_prop "walletAddress" record) path).
Definition loadOrCreateDevice (deviceId : string) : MS Device.t :=
  path ← devicePath deviceId;
  mkdirSync (dirname path);;
  present ← gets (existsSync path);
  record ← match present with
           | true => text ← readFileSync path; parse text
           | false => create_record deviceId path
           end;
  open_device deviceId path record.

Definition confirmed (options : value) : bool :=
  negb (falsy options) && is_true_value (opt_prop "requireUserVerification" options) &&
  OPERATION_PATTERN (coerced (opt_prop "operation" options)).
Definition unconfirmed : Fault := Failure "Development wallet requires an explicit operation and requireUserVerification=true".
(** [{ ...device.identity, signature, developmentUserVerification: true }] *)
Definition signed (device : Device.t) (signature : string) : payload :=
  Device.identity device ++ [("signature", VStr signature); ("developmentUserVerification", VBool true)].

(** [n.toString(16).padStart(2, "0")] *)
Definition two_digits (n : Z) : string := let h := to_hex n in if (String.length h <? 2)%nat then "0" +:+ h else h.
(** yParity, r and s in one string of hexadecimal digits *)
Definition compact (parsed : EthersSignature.t) : string :=
  "0x" +:+ two_digits (EthersSignature.yParity parsed) +:+ slice_from 2 (EthersSignature.r parsed) +:+
    slice_from 2 (EthersSignature.s parsed).
Definition signChallenge (deviceId : string) (challenge options : value) : MS payload :=
  throw_if (negb (CHALLENGE_PATTERN (coerced challenge))) (Failure "Challenge must be the backend's 43-character base64url value");;
  throw_if (negb (confirmed options)) unconfirmed;;
  device ← loadOrCreateDevice deviceId;
  standard ← lift_result (Wallet_signMessage (Device.wallet device) challenge);
  parsed ← lift_result (Signature_from standard);
  mret (signed device (compact parsed)).
Definition signTransaction (deviceId : string) (transaction options : value) : MS payload :=
  throw_if (negb (confirmed options)) unconfirmed;;
  device ← loadOrCreateDevice deviceId;
  amount ← read_prop "value" transaction;
  signature ← lift_result (Wallet_signTransaction (Device.wallet device)
    (put "value" (coalesce amount (VNum (num_of_Z 0))) (own_properties transaction)));
  mret (signed device signature).
End Wallet.

(** ** [server.mjs] *)

(** A request with the parts its body arrives in, and the error that breaks
    the connection off after them, if any. *)
Module WalletRequest.
Record t := mk { method : string; url : option string; origin : option string; chunks : list string; broken : option Fault }.
End WalletRequest.
Module WalletResponse.
Record t := mk { status : Z; headers : jsmap string; body : option payload }.
End WalletResponse.
(** [new URL(url, base)]: the path and the query parameters *)
Module ParsedUrl.
Record t := mk { pathname : string; searchParams : string -> option string }.
End ParsedUrl.
Class UrlParser := { parse_url : string -> string -> Fault + ParsedUrl.t }.

Section Server.
Context `{Platform} `{WalletCrypto} {St : Type} `{Host St} `{UrlParser}.
Abbreviation MS := (M Fault St).

Definition host : string := "127.0.0.1".
(** [process.env[name] || text], as the text put into addresses *)
Definition env_or (name text : string) : string :=
  match process_env name with Some v => if String.eqb v "" then text else v | None => text end.
Definition deviceId : string := env_or "BEL_DEV_DEVICE_ID" "employee-001-device".
Definition allowedOrigins : list string :=
  ["http://localhost:3000"; "http://127.0.0.1:3000"] ++
  match process_env "BEL_DEV_WALLET_ALLOWED_ORIGIN" with Some o => if String.eqb o "" then [] else [o] | None => [] end.
Definition corsOrigin (req : WalletRequest.t) : string :=
  let o := default "" (WalletRequest.origin req) in if existsb (String.eqb o) allowedOrigins then o else "null".
Definition send (req : WalletRequest.t) (status : Z) (body : payload) : WalletResponse.t :=
  WalletResponse.mk status
    [("content-type", "application/json"); ("access-control-allow-origin", corsOrigin req);
     ("access-control-allow-headers", "content-type"); ("cache-control", "no-store")] (Some body).
Definition preflight (req : WalletRequest.t) : WalletResponse.t :=
  WalletResponse.mk 204
    [("access-control-allow-origin", corsOrigin req); ("access-control-allow-methods", "GET,POST,OPTIONS");
     ("access-control-allow-headers", "content-type")] None.

(** The listeners of [readBody]; the first call of [resolveBody] or [reject] counts. *)
Fixpoint read_chunks (text : string) (chunks : list string) (broken : option Fault) : MS value :=
  match chunks with
  | [] =>
      match broken with
      | Some e => throw e
      | None => require (JSON_parse (if String.eqb text "" then "{}" else text)) (Failure "Request body must be JSON")
      end
  | chunk :: chunks' =>
      let text' := text +:+ chunk in
      if (16384 <? Z.of_nat (String.length text'))%Z then throw (Failure "Request body is too large")
      else read_chunks text' chunks' broken
  end.
Definition readBody (req : WalletRequest.t) : MS value := read_chunks "" (WalletRequest.chunks req) (WalletRequest.broken req).

Definition mismatch : Fault := Failure "Active development device mismatch".
(** The two signing endpoints after their path. *)
Definition sign_route (req : WalletRequest.t) (what : string) (perform : string -> value -> value -> MS payload) : MS WalletResponse.t :=
  body ← readBody req;
  requested ← read_prop "deviceId" body;
  throw_if (match requested with VStr d => negb (String.eqb d deviceId) | _ => true end) mismatch;;
  result ← perform deviceId (opt_prop what body) (opt_prop "options" body);
  mret (send req 200 result).
Definition route (req : WalletRequest.t) : MS WalletResponse.t :=
  url ← lift_result (parse_url (match WalletRequest.url req with Some u => if String.eqb u "" then "/" else u | None => "/" end)
    ("http://" +:+ host +:+ ":" +:+ String_of (VNum (Number_of (env_or "BEL_DEV_WALLET_PORT" "8787")))));
  let asks method path := String.eqb (WalletRequest.method req) method && String.eqb (ParsedUrl.pathname url) path in
  if asks "GET" "/identity" then
    throw_if (match ParsedUrl.searchParams url "deviceId" with
              | Some d => negb (String.eqb d "") && negb (String.eqb d deviceId)
              | None => false
              end) mismatch;;
    device ← loadOrCreateDevice deviceId;
    mret (send req 200 (Device.identity device))
  else if asks "POST" "/sign" then sign_route req "challenge" signChallenge
  else if asks "POST" "/sign-transaction" then sign_route req "transaction" signTransaction
  else mret (send req 404 [("message", VStr "Not found")]).
(** The listener of the server. *)
Definition handle (req : WalletRequest.t) : MS WalletResponse.t :=
  if String.eqb (WalletRequest.method req) "OPTIONS" then mret (preflight req)
  else try_catch (route req) (fun error =>
    mret (send req 400 [("message", VStr (match error with Failure m => m | NoError => "Development wallet request failed" end))])).
(** What happens before the server listens. *)
Definition start : MS unit :=
  throw_if is_production (Failure "The development wallet cannot run with BEL_ENV=production");;
  loadOrCreateDevice deviceId;;
  mret tt.
End Server.
