(* ===== verification/DevWalletCorrect.v ===== *)
(** * DevWalletCorrect: the key of a device stays, and what it signs is accepted

    On a machine whose files keep what is written to them and with
    cryptography as documented: a device keeps its key from the first load on,
    the server signs only what was asked for properly, and a signature that
    the page gets from it passes the verification of the backend. *)
From S2P Require Import Prelude Effects JsString JsMap JsValue Crypto JsonText Consensus Paths Auth DeviceWallet Client DevWallet.
From Stdlib Require Import Ascii.
Local Open Scope string_scope.
Local Open Scope list_scope.

(** ** Documented behaviour *)

(** JSON texts read back as what they were written from. *)
Class JsonLaws `{Platform} `{WalletCrypto} := {
  stringify_parse : forall p, json_plain (VObj p) = true -> JSON_parse (JSON_stringify p) = Some (VObj p);
  pretty_parse : forall p, json_plain (VObj p) = true -> JSON_parse (record_text p) = Some (VObj p);
  parse_nothing : JSON_parse "" = None;
}.

(** A signature in canonical form with a low [s]. *)
Definition canonical (e : EthersSignature.t) (hr hs : string) : Prop :=
  (EthersSignature.yParity e = 0 \/ EthersSignature.yParity e = 1)%Z /\
  EthersSignature.r e = "0x" +:+ hr /\ EthersSignature.s e = "0x" +:+ hs /\
  is_hex_of_length 64 hr = true /\ is_hex_of_length 64 hs = true /\ toLowerCase hr = hr /\ toLowerCase hs = hs /\
  (1 <= hex_value hr < SECP256K1_N)%Z /\ (1 <= hex_value hs <= SECP256K1_HALF_N)%Z.
Class WalletLaws `{Platform} `{WalletCrypto} := {
  decrypt_encrypt : forall k iv p, gcm_decrypt k iv (snd (gcm_encrypt k iv p)) (fst (gcm_encrypt k iv p)) = inr p;
  base64url_back : forall b, Buffer_from_base64url (VStr (to_base64url b)) = inr b;
  reopened : forall k w, new_Wallet k = inr w -> new_Wallet (Wallet_privateKey w) = inr w;
  (** an uncompressed point in lower case, and the address that belongs to it *)
  uncompressed : forall w, exists xy, signingKey_publicKey w = "0x04" +:+ xy /\ is_hex_of_length 128 xy = true /\
    toLowerCase xy = xy;
  address_of_key : forall w, exists a, computeAddress (signingKey_publicKey w) = Some a /\
    getAddress a = Some (Wallet_address w);
  address_canonical : forall w, getAddress (Wallet_address w) = Some (Wallet_address w);
  (** a signed text has a canonical signature that recovers to the signer *)
  signs : forall w m, exists standard e hr hs a,
    Wallet_signMessage w (VStr m) = inr standard /\ Signature_from standard = inr e /\ canonical e hr hs /\
    recoverAddress (hashMessage m) (EthersSignature.r e) (EthersSignature.s e) (27 + EthersSignature.yParity e) = Some a /\
    getAddress a = Some (Wallet_address w);
}.

(** Only writing changes a file, and then the one it names. *)
Definition kept {St} `{Host St} (s s' : St) : Prop := forall p, file p s' = file p s.
Class HostLaws (St : Type) `{Host St} := {
  read_kept : forall p s r s', readFileSync p s = (r, s') -> kept s s' /\ forall t, r = inr t -> file p s = Some t;
  write_kept : forall p t s r s', writeFileSync p t s = (r, s') ->
    (forall q, q <> p -> file q s' = file q s) /\ (r = inr tt -> file p s' = Some t);
  mkdir_kept : forall p s r s', mkdirSync p s = (r, s') -> kept s s';
  chmod_kept : forall p s r s', chmodSync p s = (r, s') -> kept s s';
  random_kept : forall n s r s', randomBytes n s = (r, s') -> kept s s';
}.

(** ** What the backend makes of a key and of a signature *)

Section Accepted.
Context `{Platform} `{WalletCrypto} `{!WalletLaws}.

Lemma wire_address w : publicKeyToEvmAddress (publicKeyWire w) = Some (Wallet_address w).
Proof.
  destruct (uncompressed w) as (xy & E & Hx & Hl). destruct (address_of_key w) as (a & Ha & Hg).
  unfold publicKeyToEvmAddress, canonicalHex, publicKeyWire. rewrite E.
  rewrite (slice_from_app 4 "0x04") by done. rewrite (slice_from_app 2 "0x") by done.
  rewrite startsWith_self.
  change (PUBLIC_KEY_BYTES * 2)%nat with 128%nat. rewrite Hx, Hl. cbn [mbind option_bind]. rewrite <- E, Ha. done.
Qed.
Lemma wire_matches w : assertWalletMatchesPublicKey (Wallet_address w) (publicKeyWire w) = Some (Wallet_address w).
Proof.
  unfold assertWalletMatchesPublicKey. rewrite wire_address. cbn [mbind option_bind].
  rewrite address_canonical. cbn [mbind option_bind]. by rewrite String.eqb_refl.
Qed.

Lemma two_digits_parity y : (y = 0 \/ y = 1)%Z ->
  two_digits y = (if (y =? 0)%Z then "00" else "01") /\ hex_value (two_digits y) = y.
Proof. intros [-> | ->]; by vm_compute. Qed.
Lemma parse_compact e hr hs : canonical e hr hs ->
  parseCompactSignature (compact e) = Some (CompactSignature.mk (EthersSignature.yParity e) (EthersSignature.r e) (EthersSignature.s e)).
Proof.
  intros (Hy & Er & Es & Hr & Hs & Hlr & Hls & Vr & Vs). destruct (two_digits_parity _ Hy) as [Ey Vy].
  unfold compact, parseCompactSignature, canonicalHex. rewrite Er, Es.
  rewrite !(slice_from_app 2 "0x") by done. set (d := two_digits (EthersSignature.yParity e)) in *.
  assert (Hd : String.length d = 2%nat /\ is_hex_of_length 2 d = true /\ toLowerCase d = d)
    by (rewrite Ey; by destruct (_ =? 0)%Z). destruct Hd as (Ld & Xd & Td).
  pose proof Hr as [Lr Xr]%andb_true_iff. pose proof Hs as [Ls Xs]%andb_true_iff. apply bool_decide_eq_true in Lr, Ls.
  rewrite startsWith_self. change (SIGNATURE_BYTES * 2)%nat with 130%nat.
  assert (Hall : is_hex_of_length 130 (d +:+ hr +:+ hs) = true).
  { unfold is_hex_of_length in *. rewrite !length_app_string, !all_chars_app, Ld, Lr, Ls, Xr, Xs.
    apply andb_true_iff in Xd as [_ Xd]. by rewrite Xd. }
  rewrite Hall. cbn [mbind option_bind]. rewrite !toLowerCase_app, Td, Hlr, Hls.
  rewrite (slice_to_app 2 d), (slice_from_app 2 d) by done. rewrite (slice_to_app 64 hr) by done.
  rewrite <- (app_string_assoc d hr hs), (slice_from_app 66) by (by rewrite length_app_string, Ld, Lr).
  rewrite Vy. replace (negb (EthersSignature.yParity e =? 0)%Z && negb (EthersSignature.yParity e =? 1)%Z) with false
    by (by destruct Hy as [-> | ->]).
  rewrite (proj2 (Z.ltb_ge _ _) (proj1 Vr)), (proj2 (Z.leb_gt _ _) (proj2 Vr)), (proj2 (Z.ltb_ge _ _) (proj1 Vs)),
    (proj2 (Z.ltb_ge _ _) (proj2 Vs)). done.
Qed.
Lemma signature_verifies w m standard e : Wallet_signMessage w (VStr m) = inr standard -> Signature_from standard = inr e ->
  verifyCompactSignature m (publicKeyWire w) (compact e) = true.
Proof.
  intros Hs Hp. destruct (signs w m) as (standard' & e' & hr & hs & a & E1 & E2 & Hc & Hr & Ha).
  rewrite Hs in E1. injection E1 as <-. rewrite Hp in E2. injection E2 as <-.
  unfold verifyCompactSignature. rewrite wire_address, (parse_compact _ _ _ Hc). cbn [mbind option_bind].
  cbn [CompactSignature.r CompactSignature.s CompactSignature.yParity]. rewrite Hr. cbn [mbind option_bind].
  rewrite Ha. cbn [mbind option_bind]. by rewrite String.eqb_refl.
Qed.
End Accepted.

(** ** The file of a device *)

Section Keystore.
Context {PF : Platform} {WC : WalletCrypto} {WL : WalletLaws} {JL : JsonLaws} {St : Type} {HO : Host St} {HL : HostLaws St}.
Abbreviation MS := (M Fault St).

#[export] Instance kept_pre : PreOrder (@kept St _).
Proof. split; [by intros s p|]. intros s1 s2 s3 E1 E2 p. by rewrite E2. Qed.

(** The secret the wallets of this machine are sealed with. *)
Definition secret_set (secret : string) : Prop :=
  process_env "BEL_DEV_WALLET_SECRET" = Some secret /\ (16 <= String.length secret)%nat.
(** The file of device [id] holds the key of [w], as this program writes it. *)
Definition holds (id : string) (w : Wallet) (s : St) : Prop :=
  exists secret salt iv, secret_set secret /\ new_Wallet (Wallet_privateKey w) = inr w /\
    file (wallet_path id) s = Some (record_text (record_of id w (sealed secret salt iv (Wallet_privateKey w)))).
Definition device_of (id : string) (w : Wallet) : Device.t :=
  Device.mk w id (VStr (publicKeyWire w)) (VStr (Wallet_address w)) (wallet_path id).

Lemma requiredSecret_inv (s s' : St) r : requiredSecret s = (r, s') ->
  s' = s /\ forall secret, r = inr secret -> secret_set secret.
Proof.
  unfold requiredSecret, secret_set. destruct (process_env "BEL_DEV_WALLET_SECRET") as [v|]; [|by intros [= <- <-]].
  destruct (String.length v <? 16)%nat eqn:E; [by intros [= <- <-]|]. apply Nat.ltb_ge in E.
  intros [= <- <-]. split; [done|]. by intros secret [= <-].
Qed.
Lemma requiredSecret_run secret (s : St) : secret_set secret -> requiredSecret s = (inr secret, s).
Proof. intros [E Hl]. unfold requiredSecret. rewrite E. by rewrite (proj2 (Nat.ltb_ge _ _) Hl). Qed.

Lemma decrypt_sealed secret salt iv key (s : St) : secret_set secret ->
  decryptPrivateKey (VObj (sealed secret salt iv key)) s = (inr key, s).
Proof.
  intros Hs. unfold decryptPrivateKey, sealed. destruct (gcm_encrypt (keyFromSecret secret salt) iv key) as [c t] eqn:E.
  pose proof (decrypt_encrypt (keyFromSecret secret salt) iv key) as D. rewrite E in D. cbn [fst snd] in D.
  set (record := [_; _; _; _; _]).
  change (opt_prop "salt" (VObj record)) with (VStr (to_base64url salt)).
  change (opt_prop "iv" (VObj record)) with (VStr (to_base64url iv)).
  change (opt_prop "tag" (VObj record)) with (VStr (to_base64url t)).
  change (opt_prop "ciphertext" (VObj record)) with (VStr (to_base64url c)).
  change (opt_prop "algorithm" (VObj record)) with (VStr "aes-256-gcm"). cbn [String.eqb Ascii.eqb Bool.eqb negb].
  rewrite guard_pass, (bind_run _ _ _ _ _ (requiredSecret_run _ _ Hs)), !base64url_back.
  unfold lift_result, mbind, M_bind. by rewrite D.
Qed.

Lemma open_recorded id w secret salt iv (s : St) : secret_set secret -> new_Wallet (Wallet_privateKey w) = inr w ->
  open_device id (wallet_path id) (VObj (record_of id w (sealed secret salt iv (Wallet_privateKey w)))) s = (inr (device_of id w), s).
Proof.
  intros Hs Hw. unfold open_device. set (record := record_of _ _ _).
  change (opt_prop "privateKey" (VObj record)) with (VObj (sealed secret salt iv (Wallet_privateKey w))).
  change (opt_prop "walletAddress" (VObj record)) with (VStr (Wallet_address w)).
  change (opt_prop "publicKey" (VObj record)) with (VStr (publicKeyWire w)).
  change (read_prop "deviceId" (VObj record)) with (mret (VStr id) : MS value). rewrite bind_ret, String.eqb_refl, guard_pass.
  rewrite (bind_run _ _ _ _ _ (decrypt_sealed _ _ _ _ _ Hs)). unfold lift_result. rewrite Hw.
  unfold mbind at 1, M_bind at 1. cbn [coerced]. by rewrite !String.eqb_refl.
Qed.
Lemma sealed_plain secret salt iv key : json_plain (VObj (sealed secret salt iv key)) = true.
Proof. unfold sealed. by destruct (gcm_encrypt _ _ _). Qed.
Lemma record_plain id w sealing : json_plain (VObj sealing) = true -> json_plain (VObj (record_of id w sealing)) = true.
Proof.
  intros Hs. change (json_plain (VObj (record_of id w sealing))) with (true && (json_plain (VObj sealing) && true)). by rewrite Hs.
Qed.

Lemma holds_kept id w (s s' : St) : kept s s' -> holds id w s -> holds id w s'.
Proof.
  intros Hk (secret & salt & iv & Hs & Hw & Hf). exists secret, salt, iv. split; [done|]. split; [done|]. by rewrite Hk.
Qed.
Lemma load_present id (s : St) t : file (wallet_path id) s = Some t ->
  (present ← gets (existsSync (wallet_path id));
   record ← match present with true => text ← readFileSync (wallet_path id); parse text | false => create_record id (wallet_path id) end;
   open_device id (wallet_path id) record) s =
  (text ← readFileSync (wallet_path id); record ← parse text; open_device id (wallet_path id) record) s.
Proof.
  intros Hf. unfold gets. unfold mbind at 1, M_bind at 1. unfold existsSync. rewrite Hf, bool_decide_eq_true_2 by eauto.
  by rewrite bind_assoc.
Qed.

(** What a load of a device with a file does; only the machine can refuse it. *)
Definition refused_load (id : string) (s s' : St) (e : Fault) : Prop :=
  mkdirSync (dirname (wallet_path id)) s = (inl e, s') \/
  exists s1, mkdirSync (dirname (wallet_path id)) s = (inr tt, s1) /\ readFileSync (wallet_path id) s1 = (inl e, s').
Lemma load_held id w (s s' : St) r : DEVICE_ID_PATTERN id = true -> holds id w s -> loadOrCreateDevice id s = (r, s') ->
  kept s s' /\ (r = inr (device_of id w) \/ exists e, r = inl e /\ refused_load id s s' e).
Proof.
  intros Hid Hh. unfold loadOrCreateDevice, devicePath, validateDeviceId. rewrite Hid. cbn [negb].
  rewrite bind_assoc, guard_pass, bind_ret.
  intros Hr. apply bind_inv in Hr. destruct Hr as [(e & Er & Hm)|(u & s1 & Hm & Hr)].
  { subst r. split; [by eapply mkdir_kept|]. right. exists e. split; [done|]. by left. }
  destruct u. pose proof (mkdir_kept _ _ _ _ Hm) as K1. pose proof (holds_kept _ _ _ _ K1 Hh) as (secret & salt & iv & Hs & Hw & Hf).
  rewrite (load_present _ _ _ Hf) in Hr. apply bind_inv in Hr as [(e & -> & Hread)|(t & s2 & Hread & Hr)].
  { split; [etrans; [done|by eapply read_kept]|]. right. exists e. split; [done|]. right. eauto. }
  destruct (read_kept _ _ _ _ Hread) as [K2 Ht]. specialize (Ht _ eq_refl). rewrite Hf in Ht. injection Ht as <-.
  unfold parse in Hr. rewrite pretty_parse in Hr by apply record_plain, sealed_plain. rewrite bind_ret in Hr.
  rewrite open_recorded in Hr by done. injection Hr as <- <-. split; [by etrans|by left].
Qed.

(** What the first load of a device leaves. *)
Lemma create_held id (s s' : St) v : create_record id (wallet_path id) s = (inr v, s') ->
  exists w secret salt iv, secret_set secret /\ new_Wallet (Wallet_privateKey w) = inr w /\
    v = VObj (record_of id w (sealed secret salt iv (Wallet_privateKey w))) /\ holds id w s'.
Proof.
  unfold create_record. intros (d & s1 & _ & (imported & s2 & _ & (w & s3 & [Hw <-]%lift_result_inr & Hr)%bind_inr)%bind_inr)%bind_inr.
  apply bind_inr in Hr as (sealing & s4 & Henc & Hr). unfold encryptPrivateKey in Henc.
  apply bind_inr in Henc as (salt & s5 & _ & (iv & s6 & _ & (secret & s7 & Hsec & [<- <-]%mret_inr)%bind_inr)%bind_inr).
  apply requiredSecret_inv in Hsec as [-> Hsec]. specialize (Hsec _ eq_refl).
  apply bind_inr in Hr as ([] & s8 & Hwr & ([] & s9 & Hch & [<- <-]%mret_inr)%bind_inr).
  destruct (write_kept _ _ _ _ _ Hwr) as [_ Hf]. specialize (Hf eq_refl). apply reopened in Hw.
  assert (K : kept s8 s9).
  { unfold try_catch in Hch. destruct (chmodSync (wallet_path id) s8) as [[e|u] sc] eqn:Ec;
      apply chmod_kept in Ec; unfold mret, M_ret in Hch; congruence. }
  exists w, secret, salt, iv. split; [done|]. split; [done|]. split; [done|].
  apply (holds_kept _ _ _ _ K). exists secret, salt, iv. done.
Qed.
Lemma load_created id (s s' : St) d : file (wallet_path id) s = None -> loadOrCreateDevice id s = (inr d, s') ->
  exists w, d = device_of id w /\ holds id w s'.
Proof.
  intros Hf. unfold loadOrCreateDevice, devicePath, validateDeviceId.
  intros (p & s1 & ([] & s0 & [_ ->]%throw_if_inr & [<- <-]%mret_inr)%bind_inr & ([] & s2 & Hm & Hr)%bind_inr)%bind_inr.
  pose proof (mkdir_kept _ _ _ _ Hm) as K. unfold gets in Hr. unfold mbind at 1, M_bind at 1 in Hr. unfold existsSync in Hr.
  rewrite K, Hf in Hr. rewrite bool_decide_eq_false_2 in Hr by (by intros [? [=]]).
  apply bind_inr in Hr as (v & s3 & (w & secret & salt & iv & Hs & Hw & -> & Hh)%create_held & Hr).
  rewrite open_recorded in Hr by done. injection Hr as <- <-. by exists w.
Qed.
End Keystore.

(** ** Theorems on the key *)

Section Theorems.
Context {PF : Platform} {WC : WalletCrypto} {WL : WalletLaws} {JL : JsonLaws} {St : Type} {HO : Host St} {HL : HostLaws St}.

(** C33: The first load of a device makes its key; every later load, with the
    file as it was left, gives the same key and identity or is refused by the
    machine, and changes no file. *)
Theorem device_key_kept id (s s1 s2 s3 : St) d r : file (wallet_path id) s = None -> loadOrCreateDevice id s = (inr d, s1) ->
  file (wallet_path id) s2 = file (wallet_path id) s1 -> loadOrCreateDevice id s2 = (r, s3) ->
  kept s2 s3 /\ (r = inr d \/ exists e, r = inl e /\ refused_load id s2 s3 e).
Proof.
  intros Hf Hl Hsame Hr. destruct (load_created _ _ _ _ Hf Hl) as (w & -> & Hh).
  assert (Hid : DEVICE_ID_PATTERN id = true).
  { unfold loadOrCreateDevice, devicePath, validateDeviceId in Hl.
    apply bind_inr in Hl as (p & s' & ([] & s0 & [Hn _]%throw_if_inr & _)%bind_inr & _). by apply negb_false_iff in Hn. }
  assert (Hh2 : holds id w s2).
  { destruct Hh as (secret & salt & iv & Hs & Hw & E). exists secret, salt, iv. by rewrite Hsame. }
  by apply (load_held _ _ _ _ _ Hid Hh2).
Qed.

(** ** What the server signs *)

Lemma loads id w (s : St) : DEVICE_ID_PATTERN id = true -> holds id w s ->
  (forall s1, kept s s1 -> exists s2, mkdirSync (dirname (wallet_path id)) s1 = (inr tt, s2)) ->
  (forall s1, kept s s1 -> exists t s2, readFileSync (wallet_path id) s1 = (inr t, s2)) ->
  exists s', loadOrCreateDevice id s = (inr (device_of id w), s') /\ kept s s'.
Proof.
  intros Hid Hh Hmk Hrd. destruct (loadOrCreateDevice id s) as [r s'] eqn:E.
  destruct (load_held _ _ _ _ _ Hid Hh E) as [Hk [-> |(e & -> & [Hm|(s1 & Hm & Hr)])]]; [by exists s'| |].
  - destruct (Hmk s) as [s2 E2]; [done|]. congruence.
  - destruct (Hrd s1) as (t & s2 & E2); [by eapply mkdir_kept|]. congruence.
Qed.
Lemma read_chunks_pure text chunks broken (s s' : St) r : read_chunks text chunks broken s = (r, s') ->
  s' = s /\ forall s0 : St, read_chunks text chunks broken s0 = (r, s0).
Proof.
  revert text. induction chunks as [|c chunks IH]; intros text; simpl.
  - destruct broken as [e|]; [by intros [= <- <-]|]. destruct (JSON_parse _) as [v|]; by intros [= <- <-].
  - destruct (16384 <? _)%Z; [by intros [= <- <-]|]. apply IH.
Qed.
Lemma read_whole chunks text (s : St) v : String.concat "" chunks = text -> (Z.of_nat (String.length text) <= 16384)%Z ->
  JSON_parse text = Some v -> read_chunks "" chunks None s = (inr v, s).
Proof.
  intros Ht Hl Hv. assert (Hne : text <> "") by (intros ->; by rewrite parse_nothing in Hv).
  assert (G : forall pre, pre +:+ String.concat "" chunks = text -> read_chunks pre chunks None s = (inr v, s)); [|by apply G].
  clear Ht. induction chunks as [|c chunks IH]; intros pre Hp; simpl.
  - simpl in Hp. rewrite app_string_nil in Hp. subst pre. rewrite (proj2 (String.eqb_neq text "") Hne). by rewrite Hv.
  - assert (E : (pre +:+ c) +:+ String.concat "" chunks = text).
    { rewrite app_string_assoc, <- Hp. destruct chunks; simpl; [by rewrite app_string_nil|done]. }
    rewrite (proj2 (Z.ltb_ge _ _)); [by apply IH|]. rewrite <- E in Hl. rewrite length_app_string in Hl. lia.
Qed.

(** Options that name an operation and demand the verification of the user. *)
Definition options_confirm (o : value) : Prop :=
  opt_prop "requireUserVerification" o = VBool true /\ OPERATION_PATTERN (coerced (opt_prop "operation" o)) = true.
(** A request to sign, put by whoever reaches the port. *)
Definition properly_asked `{UrlParser} (req : WalletRequest.t) : Prop :=
  WalletRequest.method req = "POST" /\
  exists body : value, (forall s : St, readBody req s = (inr body, s)) /\ opt_prop "deviceId" body = VStr deviceId /\
    options_confirm (opt_prop "options" body).
Definition carries_signature (resp : WalletResponse.t) : Prop :=
  exists b, WalletResponse.body resp = Some b /\ field "signature" b <> VUndefined.
End Theorems.

Section Server.
Context {PF : Platform} {WC : WalletCrypto} {St : Type} {HO : Host St} {UP : UrlParser}.
Abbreviation MS := (M Fault St).

Lemma confirmed_inv o : confirmed o = true -> options_confirm o.
Proof.
  unfold confirmed, options_confirm. intros [[_ Hu]%andb_true_iff Ho]%andb_true_iff. split; [|done].
  unfold is_true_value in Hu. by destruct (opt_prop "requireUserVerification" o) as [| |[]| | | | |].
Qed.
Lemma signChallenge_confirmed id c o (s s' : St) b : signChallenge id c o s = (inr b, s') -> confirmed o = true.
Proof.
  unfold signChallenge. intros ([] & s1 & _ & ([] & s2 & [Hc _]%throw_if_inr & _)%bind_inr)%bind_inr. by apply negb_false_iff in Hc.
Qed.
Lemma signTransaction_confirmed id t o (s s' : St) b : signTransaction id t o s = (inr b, s') -> confirmed o = true.
Proof. unfold signTransaction. intros ([] & s1 & [Hc _]%throw_if_inr & _)%bind_inr. by apply negb_false_iff in Hc. Qed.

Lemma sign_route_asked req what perform (s s' : St) resp : WalletRequest.method req = "POST" ->
  (forall id v o s s' b, perform id v o s = (inr b, s') -> confirmed o = true) ->
  sign_route req what perform s = (inr resp, s') -> properly_asked (St := St) req /\ WalletResponse.status resp = 200%Z.
Proof.
  intros Hm Hp. unfold sign_route. intros (body & s1 & Hb & Hr)%bind_inr. apply bind_inr in Hr as (d & s2 & Hd & Hr).
  apply bind_inr in Hr as ([] & s3 & [Hown _]%throw_if_inr & (b & s4 & Hs & [<- _]%mret_inr)%bind_inr).
  apply read_chunks_pure in Hb as [_ Hb]. split; [|done]. split; [done|]. exists body. split; [exact Hb|].
  assert (d = opt_prop "deviceId" body) as -> by (unfold read_prop in Hd; destruct body; by injection Hd).
  split; [|by eapply confirmed_inv, Hp]. destruct (opt_prop "deviceId" body); try discriminate Hown.
  by apply negb_false_iff, String.eqb_eq in Hown as ->.
Qed.

(** C34: Every request is answered; an answer with a signature is a 200 to a POST
    that named the device of the server, an operation and the verification of
    the user. *)
Theorem server_signs_when_asked req (s s' : St) r : handle req s = (r, s') -> exists resp, r = inr resp /\
  (carries_signature resp -> properly_asked (St := St) req /\ WalletResponse.status resp = 200%Z).
Proof.
  unfold handle. destruct (String.eqb (WalletRequest.method req) "OPTIONS").
  { intros [= <- <-]. eexists. split; [done|]. by intros (b & [=] & _). }
  unfold try_catch. destruct (route req s) as [[e|resp] s1] eqn:Er; intros [= <- <-].
  { eexists. split; [done|]. intros (b & [= <-] & Hb). by destruct Hb. }
  exists resp. split; [done|]. unfold route in Er. apply bind_inr in Er as (url & s2 & _ & Er).
  destruct (String.eqb _ "GET" && _).
  { apply bind_inr in Er as ([] & s3 & _ & (d & s4 & _ & [<- _]%mret_inr)%bind_inr). intros (b & [= <-] & Hb). by destruct Hb. }
  destruct (String.eqb_spec (WalletRequest.method req) "POST") as [Hm|]; cbn [andb] in Er.
  - destruct (String.eqb _ "/sign"); [intros _; by eapply sign_route_asked, Er; [|apply signChallenge_confirmed]|].
    destruct (String.eqb _ "/sign-transaction"); [intros _; by eapply sign_route_asked, Er; [|apply signTransaction_confirmed]|].
    apply mret_inr in Er as [<- _]. intros (b & [= <-] & Hb). by destruct Hb.
  - apply mret_inr in Er as [<- _]. intros (b & [= <-] & Hb). by destruct Hb.
Qed.
End Server.

(** ** A page that signs through the server *)

(** The address of an endpoint of a page at [origin], as the browser asks it. *)
Definition method_text (m : HttpMethod) : string := match m with GET => "GET" | POST => "POST" | DELETE => "DELETE" end.
Definition page_request (origin : string) (parts : string -> list string) (m : HttpMethod) (path : string) (body : option FetchBody)
    : WalletRequest.t :=
  WalletRequest.mk (method_text m) (Some path) (Some origin) (match body with Some (Text t) => parts t | _ => [] end) None.

(** Headers that a page may send to another origin unasked: of those that the
    page sends itself, the plain content types. *)
Definition safelisted (h : string * string) : bool :=
  String.eqb (toLowerCase (fst h)) "content-type" &&
  existsb (String.eqb (toLowerCase (snd h))) ["text/plain"; "multipart/form-data"; "application/x-www-form-urlencoded"].
(** Methods that need no leave. *)
Definition simple_method (m : HttpMethod) : bool := match m with GET | POST => true | DELETE => false end.
(** [name] is in the comma-separated list of a header. *)
Definition listed (name : string) (header : option string) : bool :=
  match header with
  | Some l => existsb (fun x => String.eqb (toLowerCase (trim x)) (toLowerCase name)) (split_char "," l)
  | None => false
  end.
(** The CORS check of a preflight answer: it is a success that allows the
    origin, the method and every header that is not safelisted. *)
Definition preflight_allows (origin : string) (m : HttpMethod) (headers : jsmap string) (resp : WalletResponse.t) : Prop :=
  (200 <= WalletResponse.status resp <= 299)%Z /\
  JsMap.get "access-control-allow-origin" (WalletResponse.headers resp) = Some origin /\
  (simple_method m || listed (method_text m) (JsMap.get "access-control-allow-methods" (WalletResponse.headers resp))) = true /\
  forallb (fun h => safelisted h || listed (fst h) (JsMap.get "access-control-allow-headers" (WalletResponse.headers resp))) headers = true.
Definition preflight_request (origin path : string) : WalletRequest.t := WalletRequest.mk "OPTIONS" (Some path) (Some origin) [] None.
(** The browser sends the request of the page: it needs no preflight, or the
    server at [s] answers the preflight with leave, unchanged. *)
Definition cleared `{Platform} `{WalletCrypto} {St : Type} `{Host St} `{UrlParser} (origin : string) (m : HttpMethod) (path : string)
    (headers : jsmap string) (s : St) : Prop :=
  (simple_method m && forallb safelisted headers) = true \/
  exists pre, handle (preflight_request origin path) s = (inr pre, s) /\ preflight_allows origin m headers pre.

(** A browser that reaches the server at [base] delivers a request that it is
    cleared to send, in parts, and gives the page the answer if the answer
    allows the origin of the page. *)
Class Wired {PF : Platform} {WC : WalletCrypto} {St : Type} {HO : Host St} {UP : UrlParser} {B : Type} {BR : Browser B}
    (base origin : string) (machine : B -> St) := {
  parts : string -> list string;
  parts_whole : forall t, String.concat "" (parts t) = t;
  fetch_served : forall m path headers body b resp s' p v,
    cleared origin m path headers (machine b) ->
    handle (page_request origin parts m path body) (machine b) = (inr resp, s') ->
    JsMap.get "access-control-allow-origin" (WalletResponse.headers resp) = Some origin ->
    WalletResponse.body resp = Some p -> JSON_parse (JSON_stringify p) = Some v ->
    exists blob b', fetch (FetchRequest.mk m (base +:+ path) headers body) b =
      (inr (FetchResponse.mk (WalletResponse.status resp) (inr v) blob), b') /\ machine b' = s';
  paths_parsed : forall path base, path = "/identity" \/ path = "/sign" ->
    exists u, parse_url path base = inr u /\ ParsedUrl.pathname u = path /\ ParsedUrl.searchParams u "deviceId" = None;
}.

Section Page.
Context {PF : Platform} {WC : WalletCrypto} {WL : WalletLaws} {JL : JsonLaws} {St : Type} {HO : Host St} {HL : HostLaws St}.
Context {UP : UrlParser} {B : Type} {BR : Browser B} (base origin : string) (machine : B -> St).
Context {WI : Wired base origin machine}.
Hypothesis allowed : In origin allowedOrigins.
Variables (w : Wallet) (s0 : St).
Hypothesis named : DEVICE_ID_PATTERN deviceId = true.
Hypothesis held : holds deviceId w s0.
(** The files can be used. *)
Hypothesis makes : forall s, kept s0 s -> exists s', mkdirSync (dirname (wallet_path deviceId)) s = (inr tt, s').
Hypothesis reads : forall s, kept s0 s -> exists t s', readFileSync (wallet_path deviceId) s = (inr t, s').

Lemma load_works s : kept s0 s -> exists s', loadOrCreateDevice deviceId s = (inr (device_of deviceId w), s') /\ kept s0 s'.
Proof.
  intros Hk. destruct (loads deviceId w s named) as (s' & E & K).
  - by eapply holds_kept.
  - intros s1 K1. apply makes. by etrans.
  - intros s1 K1. apply reads. by etrans.
  - exists s'. split; [done|]. by etrans.
Qed.
Lemma origin_allowed req : WalletRequest.origin req = Some origin -> corsOrigin req = origin.
Proof.
  intros Ho. unfold corsOrigin. rewrite Ho. cbn [default].
  replace (existsb (String.eqb origin) allowedOrigins) with true; [done|]. symmetry. apply existsb_exists.
  exists origin. split; [exact allowed|]. apply String.eqb_refl.
Qed.
(** The page may send its JSON with a [POST]: the preflight allows the header. *)
Lemma json_cleared path s : cleared origin POST path (put "content-type" "application/json" empty_map) s.
Proof.
  right. eexists. split; [reflexivity|]. split; [done|].
  split; [cbn; by rewrite (origin_allowed (preflight_request origin path))|]. split; reflexivity.
Qed.
Lemma origin_answered req status body : WalletRequest.origin req = Some origin ->
  JsMap.get "access-control-allow-origin" (WalletResponse.headers (send req status body)) = Some origin.
Proof.
  intros Ho. unfold send. cbn [WalletResponse.headers JsMap.get String.eqb Ascii.eqb Bool.eqb]. by rewrite origin_allowed.
Qed.

Lemma identity_served s : kept s0 s -> exists s',
  handle (page_request origin parts GET "/identity" None) s =
    (inr (send (page_request origin parts GET "/identity" None) 200 (Device.identity (device_of deviceId w))), s') /\ kept s0 s'.
Proof.
  intros Hk. destruct (load_works _ Hk) as (s' & E & K). exists s'. split; [|done].
  unfold handle, route. cbn [WalletRequest.method page_request method_text String.eqb Ascii.eqb Bool.eqb WalletRequest.url].
  destruct (paths_parsed "/identity" ("http://" +:+ host +:+ ":" +:+ String_of (VNum (Number_of (env_or "BEL_DEV_WALLET_PORT" "8787")))))
    as (u & Eu & Ep & Ed); [by left|]. unfold try_catch. rewrite Eu. unfold lift_result. unfold mbind at 1, M_bind at 1.
  rewrite Ep, Ed. cbn [String.eqb Ascii.eqb Bool.eqb andb]. rewrite guard_pass, (bind_run _ _ _ _ _ E). done.
Qed.

(** What the page sends to have a challenge signed. *)
Definition sign_body (c op : string) : payload :=
  [("deviceId", VStr deviceId); ("challenge", VStr c);
   ("options", VObj (DeviceSigningOptions.to_payload (DeviceSigningOptions.mk op true)))].
Definition sign_request (c op : string) : WalletRequest.t :=
  page_request origin parts POST "/sign" (Some (Text (JSON_stringify (sign_body c op)))).
Lemma sign_body_read c op (s : St) : (Z.of_nat (String.length (JSON_stringify (sign_body c op))) <= 16384)%Z ->
  readBody (sign_request c op) s = (inr (VObj (sign_body c op)), s).
Proof.
  intros Hl. unfold readBody. apply (read_whole _ (JSON_stringify (sign_body c op))); [apply parts_whole|done|].
  by apply stringify_parse.
Qed.
Lemma sign_served c op s : kept s0 s -> CHALLENGE_PATTERN c = true -> OPERATION_PATTERN op = true ->
  (Z.of_nat (String.length (JSON_stringify (sign_body c op))) <= 16384)%Z ->
  exists standard e s', Wallet_signMessage w (VStr c) = inr standard /\ Signature_from standard = inr e /\ kept s0 s' /\
    handle (sign_request c op) s = (inr (send (sign_request c op) 200 (signed (device_of deviceId w) (compact e))), s').
Proof.
  intros Hk Hc Hop Hl. destruct (load_works _ Hk) as (s' & E & K).
  destruct (signs w c) as (standard & e & _ & _ & _ & E1 & E2 & _). exists standard, e, s'. do 3 (split; [done|]).
  unfold handle, route. cbn [WalletRequest.method sign_request page_request method_text String.eqb Ascii.eqb Bool.eqb WalletRequest.url].
  destruct (paths_parsed "/sign" ("http://" +:+ host +:+ ":" +:+ String_of (VNum (Number_of (env_or "BEL_DEV_WALLET_PORT" "8787")))))
    as (u & Eu & Ep & _); [by right|]. unfold try_catch. rewrite Eu. unfold lift_result at 1. unfold mbind at 1, M_bind at 1.
  rewrite Ep. cbn [String.eqb Ascii.eqb Bool.eqb andb]. unfold sign_route.
  change (WalletRequest.mk "POST" _ _ _ _) with (sign_request c op).
  rewrite (bind_run _ _ _ _ _ (sign_body_read c op s Hl)).
  change (read_prop "deviceId" (VObj (sign_body c op))) with (mret (VStr deviceId) : M Fault St value).
  rewrite bind_ret, String.eqb_refl, guard_pass.
  change (opt_prop "challenge" (VObj (sign_body c op))) with (VStr c).
  change (opt_prop "options" (VObj (sign_body c op))) with (VObj (DeviceSigningOptions.to_payload (DeviceSigningOptions.mk op true))).
  assert (Hs : signChallenge deviceId (VStr c) (VObj (DeviceSigningOptions.to_payload (DeviceSigningOptions.mk op true))) s =
    (inr (signed (device_of deviceId w) (compact e)), s')).
  { unfold signChallenge. cbn [coerced]. rewrite Hc. cbn [negb]. rewrite guard_pass.
    assert (Hop' : confirmed (VObj (DeviceSigningOptions.to_payload (DeviceSigningOptions.mk op true))) = true) by exact Hop.
    rewrite Hop'. cbn [negb]. rewrite guard_pass, (bind_run _ _ _ _ _ E). cbn [Device.wallet device_of]. unfold lift_result.
    rewrite E1. unfold mbind at 1, M_bind at 1. rewrite E2. done. }
  rewrite (bind_run _ _ _ _ _ Hs). done.
Qed.

Lemma page_identity b : kept s0 (machine b) -> exists b', kept s0 (machine b') /\
  dev_getIdentity base b = (inr (VObj (Device.identity (device_of deviceId w))), b').
Proof.
  intros Hk. destruct (identity_served _ Hk) as (s' & E & K).
  destruct (fetch_served GET "/identity" empty_map None b _ _ (Device.identity (device_of deviceId w))
    (VObj (Device.identity (device_of deviceId w))) ltac:(by left) E) as (blob & b' & Ef & Em);
    [by apply origin_answered|done|by apply stringify_parse|]. exists b'. rewrite Em. split; [done|].
  unfold dev_getIdentity. by rewrite (bind_run _ _ _ _ _ Ef).
Qed.
Lemma page_signs c op b : kept s0 (machine b) -> CHALLENGE_PATTERN c = true -> OPERATION_PATTERN op = true ->
  (Z.of_nat (String.length (JSON_stringify (sign_body c op))) <= 16384)%Z ->
  exists sig b', kept s0 (machine b') /\ verifyCompactSignature c (publicKeyWire w) sig = true /\
    dev_post base "/sign" "challenge" (VStr c) (DeviceSigningOptions.mk op true) b =
      (inr (VObj (signed (device_of deviceId w) sig)), b').
Proof.
  intros Hk Hc Hop Hl. destruct (page_identity b Hk) as (b1 & K1 & E1).
  destruct (sign_served c op _ K1 Hc Hop Hl) as (standard & e & s2 & Es & Ee & K2 & Eh).
  destruct (fetch_served POST "/sign" (put "content-type" "application/json" empty_map) (Some (Text (JSON_stringify (sign_body c op)))) b1
    _ _ (signed (device_of deviceId w) (compact e)) (VObj (signed (device_of deviceId w) (compact e))) (json_cleared _ _) Eh) as (blob & b2 & Ef & Em);
    [by apply origin_answered|done|by apply stringify_parse|].
  exists (compact e), b2. rewrite Em. split; [done|]. split; [by eapply signature_verifies|].
  unfold dev_post. rewrite (bind_run _ _ _ _ _ E1).
  change (prop "deviceId" (VObj (Device.identity (device_of deviceId w)))) with (mret (VStr deviceId) : M Thrown B value).
  rewrite bind_ret. fold (sign_body c op). by rewrite (bind_run _ _ _ _ _ Ef).
Qed.

(** C32: A challenge of the backend that a page of a development build signs
    through the development wallet gives a signature that a backend with an EVM
    chain accepts for the key the wallet reports, and the wallet it reports is
    the address of that key.  The page is of an origin the wallet allows, and
    its browser asks for leave (a CORS preflight) before it sends the JSON. *)
Theorem page_proof_accepted c op b : env_DEV = true -> belDeviceWallet = None -> devWalletBase = Some base -> base <> "" ->
  evmCryptoEnabled = true -> kept s0 (machine b) -> CHALLENGE_PATTERN c = true -> OPERATION_PATTERN op = true ->
  (Z.of_nat (String.length (JSON_stringify (sign_body c op))) <= 16384)%Z ->
  exists publicKey address b1 sig b2,
    deviceWallet_getIdentity b = (inr (VObj [("deviceId", VStr deviceId); ("publicKey", VStr publicKey); ("walletAddress", VStr address)]), b1) /\
    assertWalletMatchesPublicKey address publicKey = Some address /\
    DeviceWallet.sign (VStr c) (DeviceSigningOptions.mk op true) b1 = (inr sig, b2) /\ verifyProof c publicKey sig = true.
Proof.
  intros Hdev Hno Hbase Hne Hevm Hk Hc Hop Hl. destruct (page_identity b Hk) as (b1 & K1 & E1).
  destruct (page_signs c op b1 K1 Hc Hop Hl) as (sig & b2 & K2 & Hv & E2).
  assert (Hb : bridge = dev_bridge base).
  { unfold bridge. rewrite Hno, Hbase. cbn [truthy_string default]. by rewrite (bool_decide_eq_false_2 (base = "")). }
  exists (publicKeyWire w), (Wallet_address w), b1, sig, b2. split; [unfold deviceWallet_getIdentity; by rewrite Hb|].
  split; [apply wire_matches|]. split; [|unfold verifyProof; by rewrite Hevm].
  unfold DeviceWallet.sign. cbn [DeviceSigningOptions.requireUserVerification negb]. rewrite guard_pass, Hb.
  change (bridge_sign (dev_bridge base)) with (dev_post base "/sign" "challenge").
  assert (Hs : sig <> "").
  { intros ->. revert Hv. unfold verifyCompactSignature. by rewrite wire_address. }
  unfold rescue. unfold mbind at 1, M_bind at 1. rewrite E2. unfold verified. rewrite Hdev.
  change (opt_prop "signature" (VObj (signed (device_of deviceId w) sig))) with (VStr sig).
  cbv beta iota. by rewrite (proj2 (String.eqb_neq sig "") Hs).
Qed.
End Page.

(** ** Witnesses *)

Section Demo.
Definition demo_env (k : string) : option string :=
  if String.eqb k "BEL_DEV_WALLET_SECRET" then Some "sixteen-or-more!" else
  if String.eqb k "BEL_BLOCKCHAIN" then Some "evm" else None.
Definition demo_point : string := "0x04" +:+ repeat_char "a"%char 128.
(** One key, whose every signature is the same; texts are those of [JsonText]. *)
#[local] Instance demo_platform : Platform := {|
  process_env := demo_env; Date_now n := Z.of_nat n; toISOString := Concrete.spell_Z; Date_parse := Concrete.read_Z;
  randomUUID_at := Concrete.spell_Z ∘ Z.of_nat; randomBytes_at := Concrete.spell_Z ∘ Z.of_nat; sha256_hex s := s;
  Number_of _ := NaN; String_of _ := ""; JSON_stringify := stringify; JSON_parse := parse_text; public_key := string;
  createPublicKey_pem s := Some s; createPublicKey_der s := Some s; bytes_of_hex s := s; bytes_of_base64url s := s;
  crypto_verify _ _ _ _ := None; isAddress := startsWith "0x"; getAddress s := Some s;
  computeAddress s := if String.eqb s demo_point then Some "0xA" else None; hashMessage s := s;
  recoverAddress _ _ _ _ := Some "0xA";
|}.
Definition one_word : string := repeat_char "0"%char 63 +:+ "1".
#[local] Instance demo_crypto : WalletCrypto := {|
  Wallet := unit; new_Wallet _ := inr tt; Wallet_privateKey _ := "0xk"; Wallet_address _ := "0xA"; signingKey_publicKey _ := demo_point;
  Wallet_signMessage _ v := match v with VStr m => inr m | _ => inl NoError end; Wallet_signTransaction _ _ := inr "0x";
  Signature_from _ := inr (EthersSignature.mk 0 ("0x" +:+ one_word) ("0x" +:+ one_word));
  scryptSync secret salt _ := secret +:+ salt; gcm_encrypt k iv p := (p, k +:+ iv);
  gcm_decrypt k iv tag c := if String.eqb tag (k +:+ iv) then inr c else inl NoError;
  to_base64url s := s; bytes_to_hex s := s; Buffer_from_base64url v := match v with VStr s => inr s | _ => inl NoError end;
  JSON_pretty := stringify; syntax_error _ := NoError;
|}.
#[local] Instance demo_host : Host (jsmap string * nat) := {|
  file p s := JsMap.get p (fst s);
  readFileSync p s := (match JsMap.get p (fst s) with Some t => inr t | None => inl NoError end, s);
  writeFileSync p t s := (inr tt, (put p t (fst s), snd s)); mkdirSync _ s := (inr tt, s); chmodSync _ s := (inl NoError, s);
  randomBytes _ s := (inr (Concrete.spell_Z (Z.of_nat (snd s))), (fst s, S (snd s)));
  dirname p := p; join := join_strings "/"; resolve p := p; moduleRoot := "";
|}.
#[local] Instance demo_urls : UrlParser := {| parse_url path _ := inr (ParsedUrl.mk path (fun _ => None)) |}.
Definition demo_origin : string := "http://localhost:3000".
(** The browser finds the server at [http://w]. *)
#[local] Instance demo_browser : Browser (jsmap string * nat) := {|
  fetch req b :=
    match handle (page_request demo_origin (fun t => [t]) (FetchRequest.method req) (slice_from 8 (FetchRequest.url req))
      (FetchRequest.body req)) b with
    | (inr resp, b') =>
        match (p ← WalletResponse.body resp; JSON_parse (JSON_stringify p)) with
        | Some v => (inr (FetchResponse.mk (WalletResponse.status resp) (inr v) (inl NotAnError)), b')
        | None => (inl NotAnError, b')
        end
    | (inl _, b') => (inl NotAnError, b')
    end;
  belDeviceWallet := None; env_DEV := true; VITE_BEL_DEV_WALLET_URL := Some "http://w/"; VITE_API_BASE_URL := None;
|}.

#[local] Instance demo_json : JsonLaws.
Proof.
  split; [exact parse_stringify| |done]. intros p Hp. unfold record_text. cbn [JSON_parse JSON_pretty demo_platform demo_crypto].
  unfold parse_text, stringify. rewrite read_write; [done|done|]. rewrite length_app_string. lia.
Qed.
#[local] Instance demo_wallet_laws : WalletLaws.
Proof.
  split; cbn [gcm_decrypt gcm_encrypt fst snd demo_crypto]; try done.
  - intros k iv p. by rewrite String.eqb_refl.
  - intros []. exists (repeat_char "a"%char 128). by vm_compute.
  - intros []. exists "0xA". by vm_compute.
  - intros [] m. exists m, (EthersSignature.mk 0 ("0x" +:+ one_word) ("0x" +:+ one_word)), one_word, one_word, "0xA".
    split; [done|]. split; [done|]. split; [|done]. split; [by left|]. repeat (split; [by vm_compute|]). by vm_compute.
Qed.
#[local] Instance demo_host_laws : HostLaws (jsmap string * nat).
Proof.
  split.
  - intros p s r s' [= <- <-]. split; [by intros q|]. simpl. destruct (JsMap.get p s.1); [by intros t [= <-]|done].
  - intros p t s r s' [= <- <-]. split; [intros q Hq; by apply get_put_ne|]. intros _. apply get_put_eq.
  - by intros p s r s' [= <- <-].
  - by intros p s r s' [= <- <-].
  - by intros n s r s' [= <- <-].
Qed.
#[local] Instance demo_wired : Wired "http://w" demo_origin (fun b : jsmap string * nat => b).
Proof.
  refine {| parts t := [t] |}; [done| |].
  - intros m path headers body b resp s' p v _ Hh _ Hb Hv. exists (inl NotAnError), s'. split; [|done].
    cbn [fetch demo_browser FetchRequest.method FetchRequest.url FetchRequest.body].
    rewrite (slice_from_app 8) by done. rewrite Hh, Hb. cbn [mbind option_bind]. by rewrite Hv.
  - intros path b _. by eexists.
Qed.

Definition demo_files : jsmap string * nat := snd (loadOrCreateDevice deviceId ([], 0)%nat).
Definition demo_device : Device.t := device_of deviceId tt.
Lemma demo_held : holds deviceId tt demo_files.
Proof.
  exists "sixteen-or-more!", (Concrete.spell_Z 1), (Concrete.spell_Z 2). split; [split; [done|simpl; lia]|]. split; [done|].
  vm_compute. reflexivity.
Qed.
Definition demo_challenge : string := repeat_char "c"%char 43.

Lemma device_key_kept_witness : kept demo_files demo_files /\ (inr demo_device = (inr demo_device : Fault + Device.t) \/
  exists e, (inr demo_device : Fault + Device.t) = inl e /\ refused_load deviceId demo_files demo_files e).
Proof.
  apply (device_key_kept deviceId ([], 0)%nat demo_files demo_files demo_files demo_device (inr demo_device)); by vm_compute.
Defined.
Definition demo_sign_request : WalletRequest.t := sign_request "http://w" demo_origin (fun b : jsmap string * nat => b) demo_challenge "LOGIN".
Lemma server_signs_when_asked_witness : exists resp, fst (handle demo_sign_request demo_files) = inr resp /\
  (carries_signature resp -> properly_asked (St := jsmap string * nat) demo_sign_request /\ WalletResponse.status resp = 200%Z).
Proof. exact (server_signs_when_asked demo_sign_request demo_files _ _ (surjective_pairing _)). Defined.
Lemma page_proof_accepted_witness : exists publicKey address b1 sig b2,
  deviceWallet_getIdentity demo_files = (inr (VObj [("deviceId", VStr deviceId); ("publicKey", VStr publicKey);
    ("walletAddress", VStr address)]), b1) /\
  assertWalletMatchesPublicKey address publicKey = Some address /\
  DeviceWallet.sign (VStr demo_challenge) (DeviceSigningOptions.mk "LOGIN" true) b1 = (inr sig, b2) /\
  verifyProof demo_challenge publicKey sig = true.
Proof.
  apply (page_proof_accepted "http://w" demo_origin (fun b => b)) with (w := tt) (s0 := demo_files);
    try (by vm_compute); try exact demo_held; [by left|by eexists|].
  intros s Hs. specialize (Hs (wallet_path deviceId)). cbn [readFileSync demo_host].
  exists (default "" (JsMap.get (wallet_path deviceId) (fst s))), s.
  cbn [file demo_host] in Hs. rewrite Hs. by vm_compute.
Defined.
End Demo.
