(* ===== verification/ErrorLog.v ===== *)
(** * ErrorLog: the diagnostics and the origins of [backend/src/app.ts]

    What [writeBackendErrorLog] puts into its file for a failed request, that
    it never fails itself and never stores a signature, and the origins that
    [createApp] hands to the CORS middleware. *)
From S2P Require Import Prelude Effects JsString JsMap JsValue Shared Errors Http Concrete.
From Stdlib Require Import Ascii.
Local Open Scope string_scope.
Local Open Scope list_scope.

(** ** The entry *)

(** A thrown object with what JavaScript keeps of it besides the error: its
    name, stack and the details of a [BlockchainError]; or something else
    with [String(err)]. *)
Inductive Thrown :=
| Thrown_error (e : exn) (name : string) (stack : option string) (details : value)
| Thrown_other (text : string).
(** What Express and the middleware left on a request. *)
Module Logged.
Record t := mk { method : string; originalUrl : string; path : string; requestId : option string; request : Request.t }.
End Logged.

(** [err.message] *)
Definition message_of (e : exn) : string :=
  match e with
  | Error m | EvidenceStorageError m => m
  | _ => match http_fields e with Some (_, m, _) => m | None => "" end
  end.
Definition kind_string (k : BlockchainErrorKind) : string :=
  match k with
  | INVALID_PAYLOAD => "INVALID_PAYLOAD" | UNSUPPORTED_TRANSACTION => "UNSUPPORTED_TRANSACTION" | NOT_FOUND => "NOT_FOUND"
  | CONFIG => "CONFIG" | SIGNER => "SIGNER" | NETWORK => "NETWORK" | TIMEOUT => "TIMEOUT" | REVERTED => "REVERTED"
  end.
Definition defined (o : option string) : value := match o with Some s => VStr s | None => VUndefined end.

(** The [signature] of a body, if it is a string. *)
Definition signature_of (req : Request.t) : option string :=
  match body_field "signature" req with VStr s => Some s | _ => None end.
Definition http_status (err : Thrown) : Z :=
  match err with
  | Thrown_error e _ _ _ => match http_fields e with Some (status, _, _) => status | None => 500 end
  | Thrown_other _ => 500
  end.
Definition entry (timestamp : string) (req : Logged.t) (err : Thrown) : payload :=
  let signature := signature_of (Logged.request req) in
  let user := Request.user (Logged.request req) in
  [("timestamp", VStr timestamp);
   ("method", VStr (Logged.method req));
   ("path", VStr (if String.eqb (Logged.originalUrl req) "" then Logged.path req else Logged.originalUrl req));
   ("requestId", defined (Logged.requestId req));
   ("status", VNum (num_of_Z (http_status err)));
   ("errorName", VStr (match err with Thrown_error _ name _ _ => name | Thrown_other _ => "UnknownError" end));
   ("message", VStr (match err with Thrown_error e _ _ _ => message_of e | Thrown_other text => text end));
   ("stack", match err with Thrown_error _ _ stack _ => defined stack | Thrown_other _ => VUndefined end);
   ("actorIdentity", defined (User.identityId <$> user));
   ("actorWallet", defined (User.walletAddress <$> user));
   ("signaturePresent", VBool (truthy_string signature));
   ("signatureLength", VNum (num_of_Z (Z.of_nat (String.length (default "" signature)))));
   ("transactionType",
     if String.eqb (Logged.path req) "/assets" then VStr "ASSET_MINT"
     else if String.eqb (Logged.path req) "/jobs" then VStr "JOB_CREATE" else VUndefined);
   ("blockchainKind", match err with Thrown_error (BlockchainError k _) _ _ _ => VStr (kind_string k) | _ => VUndefined end);
   ("blockchainDetails", match err with Thrown_error (BlockchainError _ _) _ _ details => details | _ => VUndefined end)].

(** ** Writing it *)

(** The file system, on a state of its own; any call may throw. *)
Class LogFiles (S : Type) := {
  mkdir : string -> M Thrown S unit;
  appendFile : string -> string -> M Thrown S unit;
  dirname : string -> string;
  (** the log beside the program *)
  default_log : string;
}.

Section Log.
Context `{Platform} {F : Type} `{LogFiles F}.

Definition log_path : string :=
  match trim <$> process_env "BEL_BACKEND_ERROR_LOG" with
  | Some p => if String.eqb p "" then default_log else p
  | None => default_log
  end.
Definition writeBackendErrorLog (timestamp : string) (req : Logged.t) (err : Thrown) : M Thrown F unit :=
  try_catch (mkdir (dirname log_path);;
             appendFile log_path (JSON_stringify (entry timestamp req err) +:+ String (ascii_of_nat 10) ""))
    (fun _ => mret tt).

(** What the error handler of [createApp] does with a thrown object. *)
Definition answer_of (err : Thrown) : Response.t :=
  match err with
  | Thrown_error e _ _ _ => error_response e
  | Thrown_other _ => Response.mk 500 (B_Error "INTERNAL_ERROR" "Unexpected server error")
  end.
Definition handle_error (timestamp : string) (req : Logged.t) (err : Thrown) : M Thrown F Response.t :=
  writeBackendErrorLog timestamp req err;; mret (answer_of err).

(** ** Origins *)

(** [process.env.BEL_CORS_ORIGINS ?? ...], cut at commas, trimmed, without
    empty parts. *)
Definition origins : list string :=
  List.filter (fun o => negb (String.eqb o ""))
    (map trim (split_char ","%char (default (if is_production then "" else "http://localhost:3000,http://127.0.0.1:3000")
      (process_env "BEL_CORS_ORIGINS")))).
(** The [origin] option of the middleware; [None] is [false]. *)
Definition cors_origin : option (list string) := if (0 <? length origins)%nat then Some origins else None.

(** ** Properties *)

(** Logging never fails, whatever the file system does, and the answer is
    that of the serializer. *)
Lemma log_never_fails timestamp req err (f : F) : fst (handle_error timestamp req err f) = inr (answer_of err).
Proof.
  unfold handle_error, writeBackendErrorLog, try_catch. unfold mbind at 1, M_bind at 1.
  by destruct ((mkdir (dirname log_path);; appendFile _ _) f) as [[e|[]] f'].
Qed.
(** Status and message of the entry are those of the answer. *)
Lemma entry_status timestamp req e name stack details status code message :
  serialize_error e = (status, code, message) ->
  field "status" (entry timestamp req (Thrown_error e name stack details)) = VNum (num_of_Z status).
Proof.
  unfold serialize_error. change (field "status" (entry timestamp req (Thrown_error e name stack details)))
    with (VNum (num_of_Z (http_status (Thrown_error e name stack details)))). simpl.
  destruct (http_fields e) as [[[s m] c]|]; by intros [= <- <- <-].
Qed.
(** In production no origin is allowed unless one is configured. *)
Lemma production_origins : is_production = true -> process_env "BEL_CORS_ORIGINS" = None -> cors_origin = None.
Proof. intros Hp He. unfold cors_origin, origins. rewrite He, Hp. done. Qed.
Lemma origins_clean o : In o origins -> o <> "" /\ trim o = o.
Proof.
  unfold origins. rewrite List.filter_In, in_map_iff. intros [(x & <- & _) Hn]. split; [|apply trim_idem].
  by apply negb_true_iff, String.eqb_neq in Hn.
Qed.

(** [body] is the one of [req] with another signature of the same length. *)
Definition same_but_signature (req : Request.t) (sig : string) (req' : Request.t) : Prop :=
  Request.user req' = Request.user req /\
  exists old, signature_of req = Some old /\ signature_of req' = Some sig /\ String.length sig = String.length old.

(** C38: The file never learns a signature: for a given error, requests that differ in nothing but a
    signature of the same length leave the same text. *)
Theorem log_hides_signature timestamp req sig req' err (f : F) :
  same_but_signature (Logged.request req) sig req' ->
  writeBackendErrorLog timestamp req err f =
  writeBackendErrorLog timestamp
    (Logged.mk (Logged.method req) (Logged.originalUrl req) (Logged.path req) (Logged.requestId req) req') err f.
Proof.
  intros (Hu & old & Ho & Hs & Hl). unfold writeBackendErrorLog.
  assert (Hp : truthy_string (Some sig) = truthy_string (Some old)) by (by destruct old, sig).
  assert (E : entry timestamp (Logged.mk (Logged.method req) (Logged.originalUrl req) (Logged.path req) (Logged.requestId req) req') err =
              entry timestamp req err); [|by rewrite E].
  unfold entry. cbn [Logged.request Logged.method Logged.originalUrl Logged.path Logged.requestId].
  rewrite Ho, Hs, Hu, Hp. cbn [default]. unfold from_option, id. by rewrite Hl.
Qed.
End Log.

(** ** Witness *)

Section Demo.
Existing Instance Concrete.dev.
#[local] Instance demo_log : LogFiles (list string) := {|
  mkdir _ f := (inr tt, f); appendFile _ line f := (inr tt, f ++ [line]); dirname p := p; default_log := "logs/backend-errors.log";
|}.
Definition signed_body (sig : string) : Request.t :=
  Request.mk None None None [] [] (VObj [("assetId", VStr "A"); ("signature", VStr sig)]) None.
Definition failed_mint (sig : string) : Logged.t := Logged.mk "POST" "/assets" "/assets" (Some "r1") (signed_body sig).
Definition demo_failure : Thrown := Thrown_error (BlockchainError REVERTED "Blockchain rejected ASSET_MINT") "BlockchainError" None VUndefined.
Lemma log_hides_signature_witness :
  same_but_signature (signed_body "0xaa") "0xbb" (signed_body "0xbb") /\
  writeBackendErrorLog "now" (failed_mint "0xaa") demo_failure [] = writeBackendErrorLog "now" (failed_mint "0xbb") demo_failure [].
Proof.
  assert (H : same_but_signature (signed_body "0xaa") "0xbb" (signed_body "0xbb")) by (split; [done|by exists "0xaa"]).
  split; [exact H|]. exact (log_hides_signature "now" (failed_mint "0xaa") "0xbb" (signed_body "0xbb") demo_failure [] H).
Defined.
End Demo.
