(* ===== verification/Rely.v ===== *)
(** * Rely: what a handler may count on while others run

    Whatever runs at the same time moves the state along [R] and keeps [inv].
    [abides Q p w] says that the program [p], last run in the state [w], does
    so too and returns, if it returns, with what [Q] says; facts that [R] does
    not undo survive the steps of the others.  A pool of such programs keeps
    the invariant.  [try_prog] is [try ... catch] around a program. *)
From S2P Require Import Prelude Effects Interleave.
From stdpp Require Import relations.

Section Try.
Context {X W : Type}.
Abbreviation P := (Prog X W).

(** The operation, its exception as an answer. *)
Definition attempt {B} (op : M X W B) : M X W (X + B) := fun w => let '(r, w') := op w in (inr r, w').
Fixpoint try_prog {A} (p : P A) (h : X -> P A) : P A :=
  match p with
  | Return a => Return a
  | Throw e => h e
  | Await op k => Await (attempt op) (fun r => match r with inl e => h e | inr b => try_prog (k b) h end)
  end.
Lemma run_try {A} (p : P A) h m g w : (forall w, run p w = m w) -> (forall e w, run (h e) w = g e w) ->
  run (try_prog p h) w = try_catch m g w.
Proof.
  intros Hm Hg. unfold try_catch. rewrite <-Hm. clear Hm. revert w. induction p as [a|e|B op k IH]; intros w; simpl; [done|by rewrite Hg|].
  unfold mbind, M_bind, attempt. destruct (op w) as [[e|b] w1]; [by rewrite Hg|apply IH].
Qed.
(** [await Promise.all(l.map(f))]: the answers, each asked for in a step of its own. *)
Fixpoint gather {A B} (f : A -> M X W B) (l : list A) : P (list B) :=
  match l with
  | [] => mret []
  | x :: l' => y ← await (f x); ys ← gather f l'; mret (y :: ys)
  end.
Lemma run_gather {A B} (f : A -> M X W B) l w : run (gather f l) w = map_all f l w.
Proof. revert w. induction l as [|x l IH]; intros w; [done|]. simpl. apply bind_ext; [done|]. intros y w1. rewrite run_bind. by apply bind_ext. Qed.
End Try.

Section Rely.
Context {X W : Type} (R : W -> W -> Prop) `{!PreOrder R} (inv : W -> Prop).
Abbreviation P := (Prog X W).

Fixpoint abides {A} (Q : A -> W -> Prop) (p : P A) (w : W) : Prop :=
  match p with
  | Return a => Q a w
  | Throw _ => True
  | Await op k => forall w1 r w2, R w w1 -> inv w1 -> op w1 = (r, w2) ->
      R w1 w2 /\ inv w2 /\ match r with inl _ => True | inr b => abides Q (k b) w2 end
  end.
(** A fact the others do not undo. *)
Definition lasting {A} (Q : A -> W -> Prop) : Prop := forall a w w', R w w' -> Q a w -> Q a w'.
(** What one operation does, from [w] on. *)
Definition settles {B} (Q : B -> W -> Prop) (op : M X W B) (w : W) : Prop :=
  forall w1 r w2, R w w1 -> inv w1 -> op w1 = (r, w2) -> R w1 w2 /\ inv w2 /\ forall b, r = inr b -> Q b w2.
Definition calm {B} (op : M X W B) : Prop := forall w r w', inv w -> op w = (r, w') -> R w w' /\ inv w'.

Lemma abides_later {A} (Q : A -> W -> Prop) (p : P A) w w' : lasting Q -> R w w' -> abides Q p w -> abides Q p w'.
Proof.
  intros HQ HR. destruct p as [a|e|B op k]; simpl; [by apply HQ|done|]. intros Hp w1 r w2 HR1. apply Hp. by etransitivity.
Qed.
Lemma abides_weaken {A} (Q Q' : A -> W -> Prop) (p : P A) w :
  abides Q p w -> (forall a w', R w w' -> Q a w' -> Q' a w') -> abides Q' p w.
Proof.
  revert w. induction p as [a|e|B op k IH]; simpl; intros w Hp HQ; [by apply HQ|done|]. intros w1 r w2 HR Hi E.
  destruct (Hp w1 r w2 HR Hi E) as (HR2 & Hi2 & Hk). split_and!; [done|done|]. destruct r as [e|b]; [done|]. apply (IH b w2 Hk).
  intros a w' HR'. apply HQ. etransitivity; [done|]. by etransitivity.
Qed.
Lemma abides_bind {A B} (Q : A -> W -> Prop) (Q' : B -> W -> Prop) (p : P A) (f : A -> P B) w :
  abides Q p w -> (forall a w', R w w' -> Q a w' -> abides Q' (f a) w') -> abides Q' (p ≫= f) w.
Proof.
  revert w. induction p as [a|e|D op k IH]; simpl; intros w Hp Hf; [by apply Hf|done|]. intros w1 r w2 HR Hi E.
  destruct (Hp w1 r w2 HR Hi E) as (HR2 & Hi2 & Hk). split_and!; [done|done|]. destruct r as [e|b]; [done|]. apply (IH b w2 Hk).
  intros a w' HR'. apply Hf. etransitivity; [done|]. by etransitivity.
Qed.
Lemma abides_await {B} (Q : B -> W -> Prop) (op : M X W B) w : settles Q op w -> abides Q (await op) w.
Proof. intros Ho w1 r w2 HR Hi E. destruct (Ho w1 r w2 HR Hi E) as (? & ? & HQ). split_and!; [done|done|]. destruct r as [e|b]; [done|].
  by apply HQ. Qed.
Lemma abides_check b e w : abides (fun _ _ => b = false) (check b e) w.
Proof. by destruct b. Qed.
Lemma abides_demand {A} (o : option A) e w : abides (fun a _ => o = Some a) (demand o e) w.
Proof. by destruct o. Qed.
Lemma abides_try {A} (Q : A -> W -> Prop) (p : P A) h w :
  abides Q p w -> (forall e w', R w w' -> abides Q (h e) w') -> abides Q (try_prog p h) w.
Proof.
  revert w. induction p as [a|e|B op k IH]; simpl; intros w Hp Hh; [done|by apply Hh|]. unfold attempt. intros w1 r w2 HR Hi.
  destruct (op w1) as [r1 w3] eqn:E. intros [= <- <-]. destruct (Hp w1 r1 w3 HR Hi E) as (HR2 & Hi2 & Hk). split_and!; [done|done|].
  assert (HR3 : R w w3) by by etransitivity. destruct r1 as [e|b]; [by apply Hh|]. apply (IH b w3 Hk). intros e w' HR'. apply Hh. by etransitivity.
Qed.

(** Programs all of whose steps are calm. *)
Fixpoint quiet {A} (p : P A) : Prop :=
  match p with
  | Return _ | Throw _ => True
  | Await op k => calm op /\ forall b, quiet (k b)
  end.
Lemma quiet_abides {A} (p : P A) w : quiet p -> abides (fun _ _ => True) p w.
Proof.
  revert w. induction p as [a|e|B op k IH]; simpl; intros w Hp; [done|done|]. destruct Hp as [Ho Hk]. intros w1 r w2 _ Hi E.
  destruct (Ho w1 r w2 Hi E). split_and!; [done|done|]. destruct r; [done|]. by apply IH.
Qed.
Lemma quiet_then {A B} (p : P A) (f : A -> P B) : quiet p -> (forall a, quiet (f a)) -> quiet (p ≫= f).
Proof. induction p as [a|e|C op k IH]; simpl; [by auto|done|]. intros [Ho Hk] Hf. split; [done|]. intros b. by apply IH. Qed.
Lemma quiet_await {B} (op : M X W B) : calm op -> quiet (await op).
Proof. done. Qed.
Lemma quiet_check b e : quiet (check b e).
Proof. by destruct b. Qed.
Lemma quiet_demand {A} (o : option A) e : quiet (demand o e).
Proof. by destruct o. Qed.
Lemma quiet_each {A} (l : list A) (f : A -> P unit) : (forall x, quiet (f x)) -> quiet (each l f).
Proof. intros Hf. induction l as [|x l IH]; [done|]. by apply quiet_then; [apply Hf|]. Qed.
Lemma quiet_gather {A B} (f : A -> M X W B) l : (forall x, calm (f x)) -> quiet (gather f l).
Proof.
  intros Hf. induction l as [|x l IH]; [done|]. apply quiet_then; [by apply quiet_await|]. intros y. by apply quiet_then.
Qed.
Lemma quiet_try {A} (p : P A) h : quiet p -> (forall e, quiet (h e)) -> quiet (try_prog p h).
Proof.
  intros Hp Hh. induction p as [a|e|B op k IH]; simpl; [done|by apply Hh|]. destruct Hp as [Ho Hk]. split.
  - intros w r w' Hi. unfold attempt. destruct (op w) as [r1 w1] eqn:E. intros [= _ <-]. by eapply Ho.
  - intros [e|b]; [apply Hh|by apply IH].
Qed.
(** Quiet, then something that needs no fact about it. *)
Lemma abides_quiet {A B} (Q : B -> W -> Prop) (p : P A) (f : A -> P B) w :
  quiet p -> (forall a w', R w w' -> abides Q (f a) w') -> abides Q (p ≫= f) w.
Proof. intros Hp Hf. eapply abides_bind; [by apply quiet_abides|]. intros a w' HR _. by apply Hf. Qed.

(** A pool of programs that abide. *)
Lemma abides_advance {A} (Q : A -> W -> Prop) (p p' : P A) w w' :
  abides Q p w -> inv w -> advance p w = Some (p', w') -> R w w' /\ inv w' /\ abides Q p' w'.
Proof.
  destruct p as [a|e|B op k]; [done|done|]. simpl. intros Hp Hi. destruct (op w) as [r w1] eqn:E. intros [= <- <-].
  destruct (Hp w r w1 ltac:(reflexivity) Hi E) as (? & ? & Hk). split_and!; [done|done|]. by destruct r.
Qed.
Lemma abides_pool {A} (Q : nat -> A -> W -> Prop) (ps ps' : list (P A)) w w' : (forall i, lasting (Q i)) ->
  inv w -> (forall i p, ps !! i = Some p -> abides (Q i) p w) -> interleaves (ps, w) (ps', w') ->
  inv w' /\ R w w' /\ forall i p, ps' !! i = Some p -> abides (Q i) p w'.
Proof.
  intros HQ Hi Hp Hr. remember (ps, w) as s eqn:Es. remember (ps', w') as s' eqn:Es'. revert ps w Hp Hi Es.
  induction Hr as [s|s s1 s2 Ht _ IH]; intros ps w Hp Hi ->; [by injection Es' as <- <-|].
  inversion Ht as [j p p' qs u u' Hj E]; subst. destruct (abides_advance (Q j) _ _ _ _ (Hp j p Hj) Hi E) as (HR & Hi' & Hp').
  destruct (IH eq_refl (<[j := p']> ps) u') as (Hi2 & HR2 & Hp2); [|done|done|split_and!; [done|by etransitivity|done]].
  intros k q. destruct (decide (k = j)) as [->|Hk].
  - rewrite list_lookup_insert_eq by by eapply lookup_lt_Some. by intros [= <-].
  - rewrite list_lookup_insert_ne by done. intros Hq. eapply abides_later; [done|done|by apply Hp].
Qed.
End Rely.
