(* ===== verification/ValidatorRaces.v ===== *)
(** * ValidatorRaces: the validator service and its notifications under concurrency

    The methods of [backend/src/validators/validator.service.ts] and
    [backend/src/notifications/notification.service.ts] as programs of their
    [await]s. *)
From S2P Require Import Prelude Effects JsString JsMap JsValue Shared Errors World Repositories Users Validators ValidatorsCorrect.
From S2P Require Import MockChain Concrete Interleave Rely.
Local Open Scope string_scope.
Local Open Scope list_scope.

Section Programs.
Context `{PF : Platform} {C : Type} `{BlockchainService C} `{EmailNotificationProvider}.
Abbreviation W := (World C).
Abbreviation P := (Prog exn (World C)).

(** ** Notifications *)

(** The delivery is made and handed to the repository at once. *)
Definition notify_steps (eventType : TransactionType) (validatorId recipient : string) (channel : NotificationChannel)
    (status : DeliveryStatus) : P unit := await (notify eventType validatorId recipient channel status).
Definition notify_recipient_steps (eventType : TransactionType) (v : ValidatorRegistration.t) (actor : Identity.t) (recipient : string) : P unit :=
  let validatorId := ValidatorRegistration.validatorId v in
  notify_steps eventType validatorId recipient IN_APP DELIVERED;;
  try_prog
    (await (lift_result (email_send (ValidatorEmail.mk recipient (mail_subject eventType) (mail_body eventType v actor))));;
     notify_steps eventType validatorId recipient EMAIL DELIVERED)
    (fun _ => notify_steps eventType validatorId recipient EMAIL FAILED).
Definition validatorChanged_steps (eventType : TransactionType) (v : ValidatorRegistration.t) (actor : Identity.t) : P unit :=
  active ← await (identities_listByStatus Identity_ACTIVE);
  users ← gather (fun identity => users_findByIdentityId (Identity.identityId identity)) active;
  each (dedup (map User.identityId (omap id users))) (notify_recipient_steps eventType v actor).

(** ** The service *)

Definition activeIdentity_steps (id : string) : P Identity.t :=
  found ← await (identities_findById id);
  value ← demand found (ForbiddenError "An active identity is required");
  check (negb (bool_decide (Identity.status value = Identity_ACTIVE))) (ForbiddenError "An active identity is required");;
  mret value.
Definition admin_steps (id : string) : P Identity.t :=
  identity ← activeIdentity_steps id;
  check (negb (bool_decide (Identity.role identity = Some ADMIN))) (ForbiddenError "Only an active admin may manage validators");;
  mret identity.
Definition assertMetadata_steps (input : payload) : P unit :=
  check (negb (bool_decide (metadata_errors input = []))) (ValidationError (metadata_errors input)).

(** [(await this.chain.getStatus()).height] *)
Definition head_steps : P Z := s ← await (on_chain chain_getStatus); mret (BlockchainStatus.height s).
Definition get_registration_steps (id : string) : P ValidatorRegistration.t :=
  direct ← await (validators_findById id);
  found ← (match direct with Some v => mret (Some v) | None => await (validators_findByValidatorId id) end);
  value ← demand found (NotFoundError ("Validator " +:+ id +:+ " was not found"));
  head ← head_steps;
  mret (effectiveRegistration value head).

(** The transaction is made, with its signature, and handed to the chain at once. *)
Definition hand_on (type : TransactionType) (actor : Identity.t) (user : option User.t) (registration : ValidatorRegistration.t)
    (extra : payload) : M exn W TxResult.t :=
  txId ← randomUUID;
  timestamp ← nowISO;
  signature ← envelopeSignature;
  on_chain (submitTransaction (Transaction.mk txId type
    (if bool_decide (Identity.identityId actor = "") then SYSTEM_IDENTITY else Identity.identityId actor)
    (wallet_or_system user) (spread (registration_payload registration) extra) timestamp signature)).
Definition send_steps (type : TransactionType) (actor : Identity.t) (user : option User.t) (registration : ValidatorRegistration.t)
    (extra : payload) : P TxResult.t :=
  result ← await (hand_on type actor user registration extra);
  check (Validators.unconfirmed type result) (Error ("Blockchain did not confirm " +:+ expected_event type));;
  mret result.
(** The row of a failed attempt. *)
Definition failed_row (type : TransactionType) (actor : Identity.t) (user : option User.t) (registration : ValidatorRegistration.t)
    (extra : payload) : M exn W unit :=
  u ← randomUUID;
  timestamp ← nowISO;
  validatorHistory_append (ValidatorHistoryRecord.mk ("VH:" +:+ u) (ValidatorRegistration.validatorId registration) type
    (Identity.identityId actor) (wallet_or_system user) timestamp None None (Some (ValidatorRegistration.status registration))
    (ValidatorRegistration.status registration) (reason_of extra) History_FAILED None).
Definition validator_submit_steps (type : TransactionType) (actor : Identity.t) (registration : ValidatorRegistration.t)
    (extra : payload) : P TxResult.t :=
  user ← await (users_findByIdentityId (Identity.identityId actor));
  try_prog (send_steps type actor user registration extra)
    (fun error => await (failed_row type actor user registration extra);; Throw error).

(** The id of the row is drawn before the user is looked up. *)
Definition recordHistory_steps (registration : ValidatorRegistration.t) (actor : Identity.t) (operation : TransactionType)
    (previousState : option ValidatorRegistrationStatus) (newState : ValidatorRegistrationStatus) (reason : option string)
    (result : TxResult.t) : P unit :=
  u ← await randomUUID;
  user ← await (users_findByIdentityId (Identity.identityId actor));
  timestamp ← await nowISO;
  await (validatorHistory_append (ValidatorHistoryRecord.mk ("VH:" +:+ u) (ValidatorRegistration.validatorId registration) operation
    (Identity.identityId actor) (wallet_or_system user) timestamp (TxResult.blockNumber result) (Some (hash_of result))
    previousState newState reason History_SUCCESS None)).
Definition finish_steps (registration : ValidatorRegistration.t) (actor : Identity.t) (operation : TransactionType)
    (previousState : option ValidatorRegistrationStatus) (reason : option string) (result : TxResult.t) : P ValidatorRegistration.t :=
  await (validators_save registration);;
  recordHistory_steps registration actor operation previousState (ValidatorRegistration.status registration) reason result;;
  validatorChanged_steps operation registration actor;;
  mret registration.

Definition addValidator_steps (actorId : string) (input : payload) : P ValidatorRegistration.t :=
  actor ← admin_steps actorId;
  assertMetadata_steps input;;
  let validatorId := trimmed_field "validatorId" input in
  existing ← await (validators_findByValidatorId validatorId);
  check (match existing with Some e => negb (bool_decide (ValidatorRegistration.status e = VR_REMOVED)) | None => false end)
    (ConflictError "Validator is already active or scheduled");;
  head ← head_steps;
  let too_low := ValidationError ["activationHeight must be greater than current chain height " +:+ pretty head] in
  activationHeight ← demand (safe_integer (field "activationHeight" input)) too_low;
  check (activationHeight <=? head)%Z too_low;;
  user ← await (users_findByIdentityId (Identity.identityId actor));
  registrationId ← (match existing with
                    | Some e => mret (ValidatorRegistration.registrationId e)
                    | None => u ← await randomUUID; mret ("VREG:" +:+ u)
                    end);
  requestedAt ← (match existing with Some e => mret (ValidatorRegistration.requestedAt e) | None => await nowISO end);
  let registration := ValidatorRegistration.mk registrationId validatorId (Identity.identityId actor) (wallet_or_system user)
    validatorId (trimmed_field "nodeAddress" input) (trimmed_field "publicKey" input) (trimmed_field "signingPublicKey" input)
    (if (head <? activationHeight)%Z then VR_PENDING else VR_ACTIVE) requestedAt activationHeight None None None None in
  result ← validator_submit_steps VALIDATOR_ADD actor registration [];
  finish_steps (ValidatorRegistration.with_removal (ValidatorRegistration.status registration) None None (Some (hash_of result))
    (TxResult.blockNumber result) registration)
    actor VALIDATOR_ADD None None result.

Definition removeValidator_steps (actorId id : string) (input : ValidatorRemovalInput.t) : P ValidatorRegistration.t :=
  actor ← admin_steps actorId;
  let bad_height := ValidationError ["removalHeight must be a positive integer"] in
  removalHeight ← demand (safe_integer (ValidatorRemovalInput.removalHeight input)) bad_height;
  check (removalHeight <? 1)%Z bad_height;;
  let reason := trim (default "" (ValidatorRemovalInput.reason input)) in
  check (bool_decide (reason = "")) (ValidationError ["reason is required"]);;
  registration ← get_registration_steps id;
  check (negb (bool_decide (ValidatorRegistration.status registration ∈ [VR_PENDING; VR_ACTIVE])))
    (ConflictError "Validator is not removable in its current state");;
  head ← head_steps;
  check ((removalHeight <=? head)%Z || (removalHeight <=? ValidatorRegistration.activationHeight registration)%Z)
    (ValidationError ["removalHeight must be greater than current chain height " +:+ pretty head +:+ " and activation height"]);;
  result ← validator_submit_steps VALIDATOR_REMOVE actor registration [("removalHeight", VNum (num_of_Z removalHeight)); ("reason", VStr reason)];
  finish_steps (ValidatorRegistration.with_removal VR_REMOVAL_SCHEDULED (Some removalHeight) (Some reason) (Some (hash_of result))
    (TxResult.blockNumber result) registration)
    actor VALIDATOR_REMOVE (Some (ValidatorRegistration.status registration)) (Some reason) result.

Definition restoreValidator_steps (actorId id : string) (reason : option string) : P ValidatorRegistration.t :=
  actor ← admin_steps actorId;
  let reason := trim (default "" reason) in
  check (bool_decide (reason = "")) (ValidationError ["reason is required"]);;
  registration ← get_registration_steps id;
  head ← head_steps;
  let effectiveStatus := match ValidatorRegistration.status registration, ValidatorRegistration.removalHeight registration with
                         | VR_REMOVAL_SCHEDULED, Some h => if (h <=? head)%Z then VR_REMOVED else VR_REMOVAL_SCHEDULED
                         | s, _ => s
                         end in
  check (negb (bool_decide (effectiveStatus = VR_REMOVED)) ||
            match ValidatorRegistration.removalHeight registration with
            | Some h => (h =? 0)%Z || (head <? h)%Z
            | None => true
            end)
    (ConflictError "Only a validator whose removal is effective can be restored; cancel a scheduled removal instead");;
  result ← validator_submit_steps VALIDATOR_RESTORE actor registration [("reason", VStr reason)];
  finish_steps (reinstated registration result) actor VALIDATOR_RESTORE (Some VR_REMOVED) (Some reason) result.

Definition cancelScheduledRemoval_steps (actorId id : string) (reason : option string) : P ValidatorRegistration.t :=
  actor ← admin_steps actorId;
  let reason := trim (default "" reason) in
  check (bool_decide (reason = "")) (ValidationError ["reason is required"]);;
  registration ← get_registration_steps id;
  check (negb (bool_decide (ValidatorRegistration.status registration = VR_REMOVAL_SCHEDULED)))
    (ConflictError "Only a scheduled removal can be cancelled");;
  result ← validator_submit_steps VALIDATOR_REMOVE_CANCEL actor registration [("reason", VStr reason)];
  finish_steps (reinstated registration result) actor VALIDATOR_REMOVE_CANCEL (Some VR_REMOVAL_SCHEDULED) (Some reason) result.

Definition list_validators_steps : P (list ValidatorRegistration.t) :=
  head ← head_steps;
  all ← await validators_list;
  mret (map (fun v => effectiveRegistration v head) all).

Definition validator_program (c : validator_call) (actorId : string) : P ValidatorRegistration.t :=
  match c with
  | Validator_add input => addValidator_steps actorId input
  | Validator_remove id input => removeValidator_steps actorId id input
  | Validator_restore id reason => restoreValidator_steps actorId id reason
  | Validator_cancel id reason => cancelScheduledRemoval_steps actorId id reason
  end.

(** ** Without interleaving *)

Lemma run_notify_recipient ty v a r (w : W) : run (notify_recipient_steps ty v a r) w = notify_recipient ty v a r w.
Proof.
  unfold notify_recipient_steps, notify_recipient. cbv zeta. rewrite run_bind. apply bind_ext; [apply run_await|]. intros _ w1.
  apply run_try; intros; [same_run|]; apply run_await.
Qed.
Lemma run_validatorChanged ty v a (w : W) : run (validatorChanged_steps ty v a) w = validatorChanged ty v a w.
Proof.
  unfold validatorChanged_steps, validatorChanged. rewrite run_bind. apply bind_ext; [apply run_await|]. intros active w1.
  rewrite run_bind. apply bind_ext; [apply run_gather|]. intros users w2. apply run_each. intros x w3. apply run_notify_recipient.
Qed.
Lemma run_admin id (w : W) : run (admin_steps id) w = admin id w.
Proof. unfold admin_steps, admin, activeIdentity_steps, activeIdentity. same_run. Qed.
Lemma run_head (w : W) : run head_steps w = head_of_chain w.
Proof. unfold head_steps, head_of_chain. same_run. Qed.
Hint Resolve run_validatorChanged run_admin run_head : bel.
Lemma run_get_registration id (w : W) : run (get_registration_steps id) w = get_registration id w.
Proof. unfold get_registration_steps, get_registration. same_run. Qed.
Lemma run_send ty a u r x (w : W) : run (send_steps ty a u r x) w = send ty a u r x w.
Proof.
  transitivity ((hand_on ty a u r x ≫= fun result => throw_if (Validators.unconfirmed ty result)
    (Error ("Blockchain did not confirm " +:+ expected_event ty));; mret result) w).
  - unfold send_steps. rewrite run_bind. apply bind_ext; [apply run_await|]. intros res w1. same_run.
  - unfold hand_on, send. rewrite !bind_assoc. apply bind_ext; [done|]. intros i w1. rewrite bind_assoc. apply bind_ext; [done|].
    intros t w2. by rewrite bind_assoc.
Qed.
Lemma run_validator_submit ty a r x (w : W) : run (validator_submit_steps ty a r x) w = submit ty a r x w.
Proof.
  unfold validator_submit_steps, submit. rewrite run_bind. apply bind_ext; [apply run_await|]. intros u w1.
  rewrite (run_try _ _ (send ty a u r x) (fun e => failed_row ty a u r x;; throw e)); [|apply run_send|intros; same_run].
  unfold try_catch. destruct (send ty a u r x w1) as [[e|res] w2]; [|done]. unfold failed_row. rewrite bind_assoc.
  apply bind_ext; [done|]. intros i w3. by rewrite bind_assoc.
Qed.
Hint Resolve run_get_registration run_validator_submit : bel.
Lemma run_finish r a op prev reason res (w : W) : run (finish_steps r a op prev reason res) w = finish r a op prev reason res w.
Proof. unfold finish_steps, finish, recordHistory_steps, recordHistory. same_run. Qed.
Hint Resolve run_finish : bel.
Lemma run_validator_program c actorId (w : W) : run (validator_program c actorId) w = run_validator c actorId w.
Proof.
  destruct c; cbn [validator_program run_validator];
    [unfold addValidator_steps, addValidator, assertMetadata_steps, assertMetadata|unfold removeValidator_steps, removeValidator
    |unfold restoreValidator_steps, restoreValidator|unfold cancelScheduledRemoval_steps, cancelScheduledRemoval]; same_run.
Qed.
Lemma run_list_validators (w : W) : run list_validators_steps w = list_validators w.
Proof. unfold list_validators_steps, list_validators. same_run. Qed.
End Programs.
