(* ===== verification/EvidenceRaces.v ===== *)
(** * EvidenceRaces: the evidence service under concurrency

    The methods of [backend/src/evidence/evidence.service.ts] as programs of
    their [await]s, and what each of them does to the records and the stored
    bytes while anything else runs. *)
From S2P Require Import Prelude Effects JsString JsMap JsValue Shared Rbac Errors World Repositories Evidence Interleave Rely.
Local Open Scope string_scope.
Local Open Scope list_scope.

Section Programs.
Context `{PF : Platform} {C : Type} `{EvidenceStorage C} (options : EvidenceServiceOptions.t).
Abbreviation W := (World C).
Abbreviation P := (Prog exn (World C)).

Definition requireJob_steps (jobId : string) : P Job.t :=
  job ← await (jobs_findById jobId);
  demand job (NotFoundError ("No job " +:+ jobId)).
(** The checks have no [await]. *)
Definition assertCanUpload_steps (job : Job.t) (actor : EvidenceActor.t) : P unit :=
  check (negb (can (EvidenceActor.role actor) PERFORM_MAINTENANCE PermissionContext.empty)) default_forbidden;;
  check (negb (String.eqb (Job.assignedTo job) (EvidenceActor.identityId actor)))
    (ForbiddenError "Only the assigned technician may upload evidence");;
  check (negb (bool_decide (Job.status job = IN_PROGRESS)))
    (ValidationError ["Evidence may only be uploaded while the job is IN_PROGRESS"]).
Definition assertCanView_steps (job : Job.t) (actor : EvidenceActor.t) : P unit :=
  check (negb (can (EvidenceActor.role actor) VIEW_AUDIT_HISTORY (view_context job actor)))
    (ForbiddenError "You may not view evidence for this job").
Definition validateUpload_steps (input : EvidenceUpload.t) : P unit :=
  let bytes := EvidenceUpload.bytes input in
  check (bool_decide (bytes = "")) (ValidationError ["Evidence file must not be empty"]);;
  check (maxFileSizeBytes options <? byte_length bytes)%Z default_too_large;;
  let contentType := toLowerCase (EvidenceUpload.contentType input) in
  check (negb (bool_decide (contentType ∈ allowedMimeTypes options))) default_media_type;;
  check (String.eqb contentType "application/pdf" && negb (String.eqb (slice_to 5 bytes) "%PDF-"))
    (ValidationError ["PDF evidence has an invalid file signature"]);;
  check (String.eqb contentType "image/png" && negb (String.eqb (slice_to 8 bytes) PNG_SIGNATURE))
    (ValidationError ["PNG evidence has an invalid file signature"]);;
  check (String.eqb contentType "image/jpeg" && negb (is_jpeg bytes))
    (ValidationError ["JPEG evidence has an invalid file signature"]).
Definition hide_storage_error_steps {A} (error : exn) : P A :=
  match error with EvidenceStorageError _ => Throw default_unavailable | e => Throw e end.

(** The record is made and handed to the repository at once. *)
Definition file_record (jobId : string) (actor : EvidenceActor.t) (input : EvidenceUpload.t) (cid : string) : M exn W Evidence.t :=
  let bytes := EvidenceUpload.bytes input in
  now ← nowISO;
  evidenceId ← randomUUID;
  let evidence := Evidence.mk evidenceId jobId cid (sha256_hex bytes)
    (sanitizeFilename (EvidenceUpload.filename input)) (toLowerCase (EvidenceUpload.contentType input))
    (byte_length bytes) (EvidenceActor.identityId actor) now now in
  evidence_save evidence;;
  mret evidence.
Definition upload_steps (jobId : string) (actor : EvidenceActor.t) (input : EvidenceUpload.t) : P Evidence.t :=
  job ← requireJob_steps jobId;
  assertCanUpload_steps job actor;;
  validateUpload_steps input;;
  let bytes := EvidenceUpload.bytes input in
  stored ← try_prog (await (storage_upload bytes (EvidenceUpload.contentType input))) hide_storage_error_steps;
  check (negb (StoredEvidence.sizeBytes stored =? byte_length bytes)%Z)
    (ServiceUnavailableError "Evidence storage rejected the uploaded object");;
  await (file_record jobId actor input (StoredEvidence.cid stored)).

Definition list_evidence_steps (jobId : string) (actor : EvidenceActor.t) : P (list Evidence.t) :=
  job ← requireJob_steps jobId;
  assertCanView_steps job actor;;
  await (evidence_listByJob jobId).
Definition find_evidence_steps (jobId evidenceId : string) : P Evidence.t :=
  found ← await (evidence_findById evidenceId);
  evidence ← demand found (NotFoundError ("No evidence " +:+ evidenceId));
  check (negb (String.eqb (Evidence.jobId evidence) jobId)) (NotFoundError ("No evidence " +:+ evidenceId));;
  mret evidence.
Definition getHash_steps (jobId evidenceId : string) (actor : EvidenceActor.t) : P string :=
  job ← requireJob_steps jobId;
  assertCanView_steps job actor;;
  evidence ← find_evidence_steps jobId evidenceId;
  mret (Evidence.sha256 evidence).
Definition download_steps (jobId evidenceId : string) (actor : EvidenceActor.t) : P (Evidence.t * string) :=
  job ← requireJob_steps jobId;
  assertCanView_steps job actor;;
  evidence ← find_evidence_steps jobId evidenceId;
  bytes ← try_prog (await (storage_download (Evidence.cid evidence))) hide_storage_error_steps;
  check (negb (String.eqb (sha256_hex bytes) (Evidence.sha256 evidence)) || negb (byte_length bytes =? Evidence.sizeBytes evidence)%Z)
    default_integrity;;
  mret (evidence, bytes).

(** ** Without interleaving *)

Lemma run_hidden {A} (m : M exn W A) (w : W) : run (try_prog (await m) hide_storage_error_steps) w = try_catch m hide_storage_error w.
Proof. apply run_try; [intros; apply run_await|]. by intros []. Qed.
Lemma run_requireJob j (w : W) : run (requireJob_steps j) w = requireJob j w.
Proof. unfold requireJob_steps, requireJob. same_run. Qed.
Lemma run_find_evidence j e (w : W) : run (find_evidence_steps j e) w = find_evidence j e w.
Proof. unfold find_evidence_steps, find_evidence. same_run. Qed.
Hint Resolve run_hidden run_requireJob run_find_evidence : bel.
Lemma run_upload j a i (w : W) : run (upload_steps j a i) w = upload options j a i w.
Proof.
  unfold upload_steps, upload, assertCanUpload_steps, assertCanUpload, validateUpload_steps, validateUpload. same_run.
Qed.
Lemma run_list_evidence j a (w : W) : run (list_evidence_steps j a) w = list_evidence j a w.
Proof. unfold list_evidence_steps, list_evidence, assertCanView_steps, assertCanView. same_run. Qed.
Lemma run_getHash j e a (w : W) : run (getHash_steps j e a) w = getHash j e a w.
Proof. unfold getHash_steps, getHash, assertCanView_steps, assertCanView. same_run. Qed.
Lemma run_download j e a (w : W) : run (download_steps j e a) w = download j e a w.
Proof. unfold download_steps, download, assertCanView_steps, assertCanView. same_run. Qed.
End Programs.
