(* ===== verification/LiveJobs.v ===== *)
(** * LiveJobs: job mutations on the memory repository

    [MemoryJobRepository] of [backend/src/domain/repositories.ts] hands out the
    stored object itself and stores what it is given: the mutations of
    [backend/src/jobs/jobs.service.ts] then read the fields of the object as
    they are when they get to run, and write them in place.  The object of an
    id stays the same as long as no job is created under it, so the store is
    again a map. *)
From S2P Require Import Prelude Effects JsString JsMap JsValue Shared Errors World Repositories Jobs MockChain Concrete Interleave JobRaces.
Local Open Scope string_scope.
Local Open Scope list_scope.

Section Programs.
Context `{PF : Platform} {C : Type} `{BlockchainService C} `{Wiring}.
Abbreviation W := (World C).
Abbreviation P := (Prog exn (World C)).

(** The fields of the object of [id], as they are now. *)
Definition live (id : string) : M exn W Job.t :=
  job ← jobs_findById id;
  require job (NotFoundError ("No job " +:+ id)).
(** From the last check before the transaction to the call of the chain
    nothing is awaited. *)
Definition look_and_send (c : Mutation.t) : M exn W TxResult.t :=
  let 'Mutation.mk m id arg actor := c in
  job ← live id;
  assertTransition (Job.status job) (mutation_target m);;
  (match m with
   | M_ASSIGN => mret tt
   | M_START | M_COMPLETE => requireAssignedTechnician job actor
   | M_APPROVE | M_REJECT => requireIndependentVerifier job actor
   end);;
  let signature := trim <$> Actor.signature actor in
  throw_if (evmCryptoEnabled && (negb (truthy_string signature) || bool_decide (signature = Some "development")))
    (BlockchainError SIGNER ("A device-signed raw transaction is required for EVM " +:+ TransactionType_string (mutation_type m)));;
  hand_over (mutation_type m) actor (mutation_payload m (Job.jobId job) arg).
(** The fields are written and the object is stored without an [await]. *)
Definition write_back (c : Mutation.t) : M exn W Job.t :=
  let 'Mutation.mk m id arg actor := c in
  now ← (match m with M_COMPLETE => nowISO | _ => mret "" end);
  job ← live id;
  let job' := mutation_effect m arg now actor job in
  jobs_save job';;
  mret job'.
Definition argument_steps (c : Mutation.t) : P unit :=
  let 'Mutation.mk m _ arg _ := c in
  match m with
  | M_ASSIGN => check (blank arg) (ValidationError ["technicianId is required"]);; check_identity_steps arg
  | M_COMPLETE => check (negb (valid_evidence_hash arg)) (ValidationError ["evidenceHash must be a 64-character SHA-256 hex digest"])
  | M_REJECT => check (blank arg) (ValidationError ["reason is required"])
  | _ => mret tt
  end.
Definition live_program (c : Mutation.t) : P Job.t :=
  found ← await (jobs_findById (Mutation.job c));
  demand found (NotFoundError ("No job " +:+ Mutation.job c));;
  argument_steps c;;
  result ← await (look_and_send c);
  check (negb (bool_decide (TxResult.status result = SUCCESS)))
    (Error ("Blockchain rejected " +:+ TransactionType_string (mutation_type (Mutation.type c)) +:+ revert_detail (TxResult.revert result)));;
  await (write_back c).
End Programs.

(** ** The technician verifies the job *)

Section Demo.
#[local] Existing Instance dev.
#[local] Instance live_wires : Wiring := {| wired_assets := true; wired_identityExists := false |}.

(** A completed job of TECH: V starts to approve it and waits for the chain,
    V2 rejects it, and an administrator assigns it to V. *)
Definition overlapping_calls : list Mutation.t :=
  [Mutation.mk M_APPROVE "J" "" (verifier "V"); Mutation.mk M_REJECT "J" "again" (verifier "V2");
   Mutation.mk M_ASSIGN "J" "V" (verifier "ADMIN")].
Definition overlapping : list nat := [0; 0; 1; 1; 1; 2; 2; 2; 0]%nat.
Definition overlapped {S} (program : Mutation.t -> Prog exn (World MockChain) S) :=
  schedule overlapping (map program overlapping_calls, mock_world).
Definition technician_and_verifier (w : World MockChain) : option (JobStatus * string * option string) :=
  j ← get "J" (w_jobs w); Some (Job.status j, Job.assignedTo j, Job.verifierId j).

(** On the mock chain, which takes every transaction, all three calls return
    and leave a verified job whose verifier is its technician; with copies
    the approval stores the technician it was given for. *)
Theorem live_objects_self_verified :
  statuses (fst (overlapped live_program)) = [Some VERIFIED; Some REJECTED; Some ASSIGNED] /\
  technician_and_verifier (snd (overlapped live_program)) = Some (VERIFIED, "V", Some "V") /\
  technician_and_verifier (snd (overlapped job_program)) = Some (VERIFIED, "TECH", Some "V").
Proof. vm_compute. done. Qed.
End Demo.

(** ** Without interleaving *)

Section Alone.
Context `{PF : Platform} {C : Type} `{BlockchainService C} `{Wiring}.
Abbreviation W := (World C).

Lemma bind_ext_on {A B} (m m' : M exn W A) (f f' : A -> M exn W B) w :
  m w = m' w -> (forall a w1, m' w = (inr a, w1) -> f a w1 = f' a w1) -> (m ≫= f) w = (m' ≫= f') w.
Proof. unfold mbind, M_bind. intros -> Hf. destruct (m' w) as [[e|a] w1]; [done|]. by apply Hf. Qed.
Lemma hand_over_jobs ty a p (w w' : W) r : hand_over ty a p w = (r, w') -> w_jobs w' = w_jobs w.
Proof. by intros (tx & c & _ & _ & _ & Hj & _)%hand_over_inv. Qed.
Lemma live_found id (w : W) j : get id (w_jobs w) = Some j -> live id w = (inr j, w).
Proof. intros Hj. unfold live, jobs_findById, gets, mbind, M_bind. by rewrite Hj. Qed.
(** Sending and writing back, when nobody else moves the job. *)
Definition send_and_write (m : JobMutation) (arg : string) (actor : Actor.t) (job : Job.t) : M exn W Job.t :=
  assertTransition (Job.status job) (mutation_target m);;
  (match m with
   | M_ASSIGN => mret tt
   | M_START | M_COMPLETE => requireAssignedTechnician job actor
   | M_APPROVE | M_REJECT => requireIndependentVerifier job actor
   end);;
  submit (mutation_type m) actor (mutation_payload m (Job.jobId job) arg);;
  now ← (match m with M_COMPLETE => nowISO | _ => mret "" end);
  let job' := mutation_effect m arg now actor job in
  jobs_save job';;
  mret job'.
Lemma live_sends m id arg actor job (w : W) : get id (w_jobs w) = Some job -> Job.jobId job = id ->
  let c := Mutation.mk m id arg actor in
  (look_and_send c ≫= fun result => throw_if (negb (bool_decide (TxResult.status result = SUCCESS)))
     (Error ("Blockchain rejected " +:+ TransactionType_string (mutation_type m) +:+ revert_detail (TxResult.revert result)));; write_back c) w
  = send_and_write m arg actor job w.
Proof.
  intros Hj Hid. cbv zeta. unfold look_and_send, send_and_write. rewrite bind_assoc, (bind_run _ _ _ _ _ (live_found _ _ _ Hj)).
  rewrite bind_assoc. apply bind_ext_on; [done|]. intros [] w1 [_ <-]%throw_if_inr. rewrite bind_assoc.
  apply bind_ext_on; [by destruct m|]. intros [] w1 E.
  assert (w1 = w) as ->.
  { destruct m; [by injection E|by apply requireAssignedTechnician_inr in E as [_ <-]|by apply requireAssignedTechnician_inr in E as [_ <-]
      |by apply requireIndependentVerifier_inr in E as [_ <-]|by apply requireIndependentVerifier_inr in E as [_ <-]]. }
  rewrite (bind_ext _ _ _ _ _ (submit_hands_over _ _ _ w) (fun _ _ => eq_refl)). cbv zeta. rewrite !bind_assoc.
  apply bind_ext_on; [done|]. intros [] w1 [_ <-]%throw_if_inr. rewrite bind_assoc. apply bind_ext_on; [done|].
  intros res w1 Hw%hand_over_jobs. apply bind_ext_on; [done|]. intros [] w4 [_ <-]%throw_if_inr.
  unfold write_back. apply bind_ext_on; [done|]. intros now w5 E5.
  assert (Hj5 : get id (w_jobs w5) = Some job).
  { rewrite <-Hw in Hj. destruct m; injection E5 as _ <-; exact Hj. }
  by rewrite (bind_run _ _ _ _ _ (live_found _ _ _ Hj5)).
Qed.

(** The checks of the argument come first. *)
Definition argument (m : JobMutation) (arg : string) : M exn W unit :=
  match m with
  | M_ASSIGN => throw_if (blank arg) (ValidationError ["technicianId is required"]);; check_identity arg
  | M_COMPLETE => throw_if (negb (valid_evidence_hash arg)) (ValidationError ["evidenceHash must be a 64-character SHA-256 hex digest"])
  | M_REJECT => throw_if (blank arg) (ValidationError ["reason is required"])
  | _ => mret tt
  end.
Lemma call_in_parts m id arg actor (w : W) : run_call (Mutation.mk m id arg actor) w =
  (found ← jobs_findById id; job ← require found (NotFoundError ("No job " +:+ id)); argument m arg;; send_and_write m arg actor job) w.
Proof.
  unfold run_call, run_mutation, send_and_write, argument. cbn [Mutation.type Mutation.job Mutation.argument Mutation.actor].
  destruct m; [unfold assign|unfold start|unfold complete|unfold approve|unfold reject];
    (apply bind_ext; [done|]; intros found w1; apply bind_ext; [done|]; intros job w2); rewrite ?bind_assoc; done.
Qed.
Lemma keeps_argument m arg : keeps (fun w : W => w) (argument m arg).
Proof. unfold argument, check_identity. destruct m; rframe. Qed.

(** A mutation on live objects that nothing interleaves with does what the
    sequential one of [Jobs] does. *)
Theorem live_program_alone c (w : W) : (forall j, get (Mutation.job c) (w_jobs w) = Some j -> Job.jobId j = Mutation.job c) ->
  run (live_program c) w = run_call c w.
Proof.
  destruct c as [m id arg actor]. cbn [Mutation.job]. intros Hid. rewrite call_in_parts. unfold live_program. rewrite run_bind.
  apply bind_ext_on; [apply run_await|]. intros found w1 [Hf <-]%gets_inr. rewrite run_bind. apply bind_ext_on; [apply run_demand|].
  intros job w2 [-> <-]%require_inr. rewrite run_bind. apply bind_ext_on.
  { unfold argument_steps, argument. destruct m; [|done|apply run_check|done|apply run_check].
    rewrite run_bind. apply bind_ext; [apply run_check|]. intros _ w1. apply run_check_identity. }
  intros [] w3 E. assert (w3 = w) as ->.
  { refine (keeps_run _ _ _ _ _ (keeps_argument m arg) _). exact E. }
  rewrite <-(live_sends m id) by auto. rewrite run_bind. apply bind_ext; [apply run_await|]. intros res w4. rewrite run_bind.
  apply bind_ext; [apply run_check|]. intros _ w5. apply run_await.
Qed.
End Alone.
