(* ===== verification/BackendRaces.v ===== *)
(** * BackendRaces: requests to all services at once

    Calls of every service of the backend in one pool, interleaved at their
    [await]s, with the records in repositories that hand out copies, as those
    on the database do, and the evidence in any storage that leaves the records
    of the process alone.  Whatever the interleaving, stored jobs, validator
    registrations and evidence records stay sound, and a record that an upload
    returned is there from then on and only lets the bytes with its digest
    out. *)
From S2P Require Import Prelude Effects JsString JsMap JsValue Shared Rbac Errors World Repositories Integrity.
From S2P Require Import Auth Users Assets Jobs Validators Evidence Rpc Ipfs.
From S2P Require Import MockChain Concrete AuthCorrect UsersCorrect JobsCorrect ValidatorsCorrect EvidenceCorrect.
From S2P Require Import Interleave Rely AuthRaces UserRaces AssetRaces JobRaces ValidatorRaces EvidenceRaces.
From stdpp Require Import relations.
Local Open Scope string_scope.
Local Open Scope list_scope.

(** ** The storage *)

Section Frame.
Context {PF : Platform} {C : Type}.
Abbreviation W := (World C).

(** The stores of the process that are looked at here. *)
Definition three_stores (w : W) := (w_jobs w, w_validators w, w_evidenceRecords w).
Definition apart (w w' : W) : Prop := three_stores w' = three_stores w /\ (w_uuidReads w <= w_uuidReads w')%nat.
#[global] Instance apart_preorder : PreOrder apart.
Proof. split; [done|]. intros w1 w2 w3 [E1 U1] [E2 U2]. split; [congruence|lia]. Qed.
Lemma apart_keeps {A} (op : M exn W A) : keeps (fun w => (three_stores w, w_uuidReads w)) op -> respects apart op.
Proof. apply respects_keeps. intros w w' [= E1 E2 E3 E5]. split; [by unfold three_stores; rewrite E1, E2, E3|by rewrite E5]. Qed.

(** A storage is no part of the process: its calls move no record. *)
Class StorageApart (ES : EvidenceStorage C) : Prop := {
  apart_upload : forall bytes contentType, respects apart (storage_upload bytes contentType);
  apart_download : forall cid, respects apart (storage_download cid);
}.
End Frame.

(** The storage of the tests and the one on a Kubo node are such storages. *)
#[export] Instance memory_apart {PF : Platform} {C} : StorageApart (@MemoryEvidenceStorage C).
Proof.
  split.
  - by intros bytes ct w r w' [= _ <-].
  - intros cid. apply apart_keeps. cbn. unfold memory_download. rframe.
Qed.
#[export] Instance ipfs_apart {PF : Platform} {K} {KU : Kubo K} apiUrl {C} (kubo : C -> K) set_kubo :
  StorageApart (IpfsEvidenceStorage apiUrl kubo set_kubo).
Proof. split; cbn; unfold on_kubo; intros; by intros w r w' (c & _ & ->)%on_chain_inv. Qed.

(** A call of some service. *)
Inductive BackendCall :=
| To_auth (c : auth_call)
| To_users (c : users_call)
| To_assets (r : Request.t) (actor : Actor.t)
| To_create (input : PartialJob.t) (actor : Actor.t)
| To_jobs (c : Mutation.t)
| To_validators (c : validator_call) (actorId : string)
| To_upload (jobId : string) (actor : EvidenceActor.t) (input : EvidenceUpload.t)
| To_list (jobId : string) (actor : EvidenceActor.t)
| To_hash (jobId evidenceId : string) (actor : EvidenceActor.t)
| To_download (jobId evidenceId : string) (actor : EvidenceActor.t).
(** What it answers, as far as it is looked at here. *)
Inductive Answer :=
| Answered
| Answer_job (j : Job.t)
| Answer_validator (v : ValidatorRegistration.t)
| Answer_evidence (e : Evidence.t)
| Answer_bytes (e : Evidence.t) (bytes : string).

Section Backend.
Context {PF : Platform} {PL : PlatformLaws PF} {C : Type} {BC : BlockchainService C} {WI : Wiring} {IW : IntegrityWiring}
  {DA : DeviceAttestationAdapter} {EM : EmailNotificationProvider} {ES : EvidenceStorage C} (options : EvidenceServiceOptions.t) (fuel : nat).
Abbreviation W := (World C).
Abbreviation P := (Prog exn (World C)).

Definition backend_program (c : BackendCall) : P Answer :=
  match c with
  | To_auth c => auth_program c;; mret Answered
  | To_users c => users_program c;; mret Answered
  | To_assets r actor => asset_program fuel r actor;; mret Answered
  | To_create input actor => j ← JobRaces.create_steps input actor; mret (Answer_job j)
  | To_jobs c => j ← job_program c; mret (Answer_job j)
  | To_validators c actorId => v ← validator_program c actorId; mret (Answer_validator v)
  | To_upload jobId actor input => e ← upload_steps options jobId actor input; mret (Answer_evidence e)
  | To_list jobId actor => list_evidence_steps jobId actor;; mret Answered
  | To_hash jobId evidenceId actor => getHash_steps jobId evidenceId actor;; mret Answered
  | To_download jobId evidenceId actor => r ← download_steps jobId evidenceId actor; mret (Answer_bytes (fst r) (snd r))
  end.

(** An evidence record is found under its own id, drawn from the random
    source, and has the digest and the size of some bytes. *)
Definition record_ok (id : string) (e : Evidence.t) (drawn : nat) : Prop :=
  Evidence.evidenceId e = id /\
  (exists bytes, Evidence.sha256 e = sha256_hex bytes /\ Evidence.sizeBytes e = byte_length bytes) /\
  exists n, (n < drawn)%nat /\ id = randomUUID_at n.
(** Jobs obey their life cycle and the separation of duties, registrations
    and evidence records are well formed. *)
Definition stores_sound (w : W) : Prop :=
  store_ok (w_jobs w) /\
  (wf (w_validators w) /\ forall k v, get k (w_validators w) = Some v -> registration_ok k v) /\
  forall id e, get id (w_evidenceRecords w) = Some e -> record_ok id e (w_uuidReads w).
(** Evidence records are only added. *)
Definition moves (w w' : W) : Prop :=
  (w_uuidReads w <= w_uuidReads w')%nat /\
  (forall id e, get id (w_evidenceRecords w) = Some e -> get id (w_evidenceRecords w') = Some e).
#[global] Instance moves_preorder : PreOrder moves.
Proof.
  split; [done|]. intros w1 w2 w3 (U1 & R1) (U2 & R2). split; [lia|auto].
Qed.
Abbreviation obeys := (abides moves stores_sound).
Abbreviation still := (quiet moves stores_sound).
Abbreviation does := (settles moves stores_sound).

(** ** Steps that leave the three stores alone *)

Lemma record_later id e n n' : (n <= n')%nat -> record_ok id e n -> record_ok id e n'.
Proof. intros Hn (He & Hb & m & Hm & ->). split; [done|]. split; [done|]. exists m. split; [lia|done]. Qed.
Lemma apart_uuid : respects apart (randomUUID : M exn W _).
Proof. intros w r w' [_ ->]%randomUUID_inv. split; [done|simpl; lia]. Qed.
Lemma apart_now : respects apart (now : M exn W _).
Proof. by intros w r w' [_ ->]%now_inv. Qed.
Lemma apart_nowISO : respects apart (nowISO : M exn W _).
Proof. by intros w r w' [_ ->]%nowISO_inv. Qed.
Lemma apart_challenge : respects apart (randomChallenge : M exn W _).
Proof. by intros w r w' [_ ->]%randomChallenge_inv. Qed.
Lemma apart_chain {A} (op : M exn C A) : respects apart (on_chain op).
Proof. by intros w r w' (c & _ & ->)%on_chain_inv. Qed.
Lemma apart_consume id t : respects apart (consumeIfUnused id t : M exn W _).
Proof. apply apart_keeps, keeps_consumeIfUnused. done. Qed.
Lemma calm_apart {A} (op : M exn W A) : respects apart op -> calm moves stores_sound op.
Proof.
  intros Hop w r w' (Hj & Hv & He) E. destruct (Hop _ _ _ E) as [Hs Hu]. injection Hs as Ej Ev Er.
  split; [split; [done|by rewrite Er]|]. split; [by rewrite Ej|]. split; [by rewrite Ev|].
  rewrite Er. intros id e Hg. by eapply record_later, He.
Qed.
End Backend.

(** An operation of another part, piece by piece. *)
Ltac apartly :=
  repeat first
    [ progress intros
    | first [apply apart_uuid | apply apart_now | apply apart_nowISO | apply apart_challenge | apply apart_chain | apply apart_consume]
    | apply apart_keeps; solve [rframe]
    | lazymatch goal with
      | |- respects _ (mbind _ _) => apply respects_bind; [exact _|..]
      | |- respects _ (for_each _ _) => apply respects_for_each; [exact _|]
      | |- respects _ (try_catch _ _) => apply respects_try; [exact _|..]
      | |- respects _ (match ?x with _ => _ end) => destruct x
      | |- respects _ (let _ := _ in _) => cbv zeta
      end ].
(** A program of another part, piece by piece. *)
Ltac stilly :=
  repeat first
    [ done
    | solve [auto with bel]
    | lazymatch goal with
      | |- quiet _ _ (mbind _ _) => apply quiet_then; [|intros]
      | |- quiet _ _ (await _) => apply quiet_await, calm_apart;
        unfold issue, open_session, hand_in, provision, hand_over, hand_on, envelopeSignature, failed_row, notify, recall, remember,
          cache_get, cache_set, AssetRaces.send, Assets.submit, transaction, requireActor, requiredString, identity_exists; solve [apartly]
      | |- quiet _ _ (check _ _) => apply quiet_check
      | |- quiet _ _ (demand _ _) => apply quiet_demand
      | |- quiet _ _ (each _ _) => apply quiet_each; intros
      | |- quiet _ _ (gather _ _) => apply quiet_gather; intros; apply calm_apart; solve [apartly]
      | |- quiet _ _ (try_prog _ _) => apply quiet_try; [|intros]
      | |- quiet _ _ (match ?x with _ => _ end) => destruct x
      end
    | progress (cbv zeta) ].

Section Others.
Context {PF : Platform} {C : Type} {BC : BlockchainService C} {WI : Wiring} {IW : IntegrityWiring}
  {DA : DeviceAttestationAdapter} {EM : EmailNotificationProvider} (fuel : nat).
Abbreviation W := (World C).
Abbreviation P := (Prog exn (World C)).
Abbreviation still := (quiet (@moves C) (@stores_sound PF C)).

Lemma still_require_session t : still (require_session_steps t).
Proof. unfold require_session_steps, activeSession_steps. stilly. Qed.
Lemma still_identity_of_device d : still (identity_of_device_steps d).
Proof. unfold identity_of_device_steps. stilly. Qed.
Lemma still_user_of i : still (user_of_steps i).
Proof. unfold user_of_steps. stilly. Qed.
Lemma still_wallets_of i : still (wallets_of_identity_steps i).
Proof. unfold wallets_of_identity_steps. stilly. Qed.
Hint Resolve still_require_session still_identity_of_device still_user_of still_wallets_of : bel.
Lemma still_auth c : still (auth_program c).
Proof.
  destruct c as [d|t o r|t p o r|[s|p]|t|t]; cbn [auth_program login_steps];
    unfold requestAuthenticationChallenge_steps, requestFreshAuthenticationChallenge_steps, verifyFreshAuthentication_steps,
      login_credential_steps, loginWithProof_steps, validateSession_steps, logout_steps; stilly.
Qed.

Lemma still_commit e id ev a st : still (await (Users.commit e id ev a st)).
Proof. apply quiet_await, calm_apart. unfold Users.commit, commitState, adapter_commit. apartly. Qed.
Hint Resolve still_commit : bel.
Lemma still_the_identity k : still (the_identity_steps k).
Proof. unfold the_identity_steps, resolveIdentity_steps, requireIdentity_steps. stilly. Qed.
Lemma still_user_submit type actor p : still (user_submit_steps type actor p).
Proof. unfold user_submit_steps. stilly. Qed.
Hint Resolve still_the_identity still_user_submit : bel.
Lemma still_users c : still (users_program c).
Proof.
  destruct c; cbn [users_program]; apply quiet_then; try done;
    unfold createUser_steps, requestProvisioningChallenge_steps, initializeAccount_steps, verifyRegistration_steps,
      activateRegistration_steps, registerDevice_steps, revokeDevice_steps, registerWallet_steps, revokeWallet_steps,
      activateWallet_steps, assignRole_steps, createGrant_steps, revokeGrant_steps, validateGrant_steps, attestDevice_steps,
      requireAttestation_steps, validateEvmWalletBinding_steps, requireActiveIdentity_steps, active_device_steps, revokeWalletObject_steps,
      ensureIdentityCreated_steps, ensureRoleAssigned_steps, ensureWalletActive_steps, ensureWalletRevoked_steps, grantIsExpired_steps;
    stilly.
Qed.

Lemma still_getById id : still (getById_steps id).
Proof. unfold getById_steps. stilly. Qed.
Lemma still_requiredString v f : still (requiredString_steps v f).
Proof. unfold requiredString_steps. stilly. Qed.
Lemma still_known_owner o : still (known_owner_steps o).
Proof. unfold known_owner_steps. stilly. Qed.
Hint Resolve still_getById still_requiredString still_known_owner : bel.
Lemma still_requireAsset id f : still (requireAsset_steps id f).
Proof. unfold requireAsset_steps. stilly. Qed.
Lemma still_store id ty actor p fb : still (submit_and_store_steps id ty actor p fb).
Proof. unfold submit_and_store_steps, reconcile_steps. stilly. Qed.
Lemma still_cycle_loop n c cur visited : still (assertNoCycle_loop_steps n c cur visited).
Proof. revert cur visited. induction n as [|n IH]; intros cur visited; cbn [assertNoCycle_loop_steps]; stilly. Qed.
Hint Resolve still_requireAsset still_store still_cycle_loop : bel.
Lemma still_assets r actor : still (asset_program fuel r actor).
Proof.
  destruct r; cbn [asset_program];
    unfold AssetRaces.create_steps, transfer_steps, changeAssetState_steps, attachComponent_steps, removeComponent_steps, assertNoCycle_steps; stilly.
Qed.

Lemma still_admin id : still (admin_steps id).
Proof. unfold admin_steps, activeIdentity_steps. stilly. Qed.
Lemma still_metadata input : still (assertMetadata_steps input).
Proof. apply quiet_check. Qed.
Lemma still_head : still head_steps.
Proof. unfold head_steps. stilly. Qed.
Lemma still_validator_submit ty a r x : still (validator_submit_steps ty a r x).
Proof. unfold validator_submit_steps, send_steps. stilly. Qed.
Lemma still_history r a op prev new reason res : still (recordHistory_steps r a op prev new reason res).
Proof. unfold recordHistory_steps. stilly. Qed.
Lemma still_changed ty v a : still (validatorChanged_steps ty v a).
Proof. unfold validatorChanged_steps, notify_recipient_steps, notify_steps, notify. stilly. Qed.

Lemma still_submit type actor p : still (submit_steps type actor p).
Proof. unfold submit_steps. stilly. Qed.
Lemma still_check_identity id : still (check_identity_steps id).
Proof. unfold check_identity_steps. stilly. Qed.
Hint Resolve still_submit still_check_identity : bel.
End Others.

(** ** Steps that touch them *)

Section Sound.
Context {PF : Platform} {PL : PlatformLaws PF} {C : Type} {BC : BlockchainService C} {WI : Wiring} {IW : IntegrityWiring}
  {DA : DeviceAttestationAdapter} {EM : EmailNotificationProvider} {ES : EvidenceStorage C} {SA : StorageApart ES} (options : EvidenceServiceOptions.t) (fuel : nat).
Abbreviation W := (World C).
Abbreviation P := (Prog exn (World C)).
Abbreviation sound := (@stores_sound PF C).
Abbreviation obeys := (abides (@moves C) sound).
Abbreviation does := (settles (X := exn) (@moves C) sound).

Lemma reads {A} (f : W -> A) (Q : A -> W -> Prop) w : (forall w1, moves w w1 -> sound w1 -> Q (f w1) w1) -> does Q (gets f) w.
Proof. intros HQ w1 r w2 HR Hi [= <- <-]. split; [done|]. split; [done|]. intros b [= <-]. by apply HQ. Qed.
Lemma saves_job j w : job_ok j -> does (fun _ _ => True) (jobs_save j) w.
Proof.
  intros Hj w1 r w2 _ ([Hwf Hs] & Hv & He) [= <- <-]. split; [done|]. split; [|done]. split; [|done]. split; [by apply wf_put|].
  intros id j'. simpl. rewrite get_put. destruct (String.eqb_spec id (Job.jobId j)) as [->|]; [by intros [= <-]|apply Hs].
Qed.
Lemma saves_registration v w : registration_ok (ValidatorRegistration.registrationId v) v -> does (fun _ _ => True) (validators_save v) w.
Proof.
  intros Hv w1 r w2 _ (Hj & [Hwf Hs] & He) [= <- <-]. split; [done|]. split; [|done]. split; [done|]. split; [|done]. split; [by apply wf_put|].
  intros k v'. simpl. rewrite get_put. destruct (String.eqb_spec k (ValidatorRegistration.registrationId v)) as [->|]; [by intros [= <-]|apply Hs].
Qed.
(** What is recorded of uploaded bytes. *)
Definition recorded (e : Evidence.t) (bytes : string) (w : W) : Prop :=
  get (Evidence.evidenceId e) (w_evidenceRecords w) = Some e /\
  Evidence.sha256 e = sha256_hex bytes /\ Evidence.sizeBytes e = byte_length bytes.
(** A record gets an id of its own. *)
Lemma files_record jobId actor input cid w :
  does (fun e w' => recorded e (EvidenceUpload.bytes input) w') (file_record jobId actor input cid) w.
Proof.
  intros w1 r w2 _ (Hj & Hv & He) [= <- <-]. simpl.
  set (e := Evidence.mk _ _ _ _ _ _ _ _ _ _).
  assert (Hr : forall id e', get id (w_evidenceRecords w1) = Some e' ->
    get id (put (Evidence.evidenceId e) e (w_evidenceRecords w1)) = Some e').
  { intros id e' Hg. rewrite get_put_ne; [done|]. intros ->. destruct (He _ _ Hg) as (_ & _ & n & Hlt & Hid%randomUUID_inj). lia. }
  split; [split; [simpl; lia|exact Hr]|]. split; [|by intros e' [= <-]; split; [apply get_put_eq|]].
  split; [done|]. split; [done|]. simpl. intros id e'. rewrite get_put.
  destruct (String.eqb_spec id (randomUUID_at (w_uuidReads w1))) as [->|].
  - intros [= <-]. split; [done|]. split; [by exists (EvidenceUpload.bytes input)|]. exists (w_uuidReads w1). split; [lia|done].
  - intros Hg. eapply record_later, He, Hg. simpl. lia.
Qed.

(** ** Jobs *)

(** Step over a check, a demand, an operation of another part. *)
Lemma over_check {B} b e (f : unit -> P B) Q w : (b = false -> forall w', obeys Q (f tt) w') -> obeys Q (check b e ≫= f) w.
Proof. intros Hf. eapply (abides_bind (@moves C) sound); [apply abides_check|]. intros [] w' _ Hb. by apply Hf. Qed.
Lemma over_demand {A B} (o : option A) e (f : A -> P B) Q w : (forall a, o = Some a -> forall w', obeys Q (f a) w') -> obeys Q (demand o e ≫= f) w.
Proof. intros Hf. eapply (abides_bind (@moves C) sound); [apply abides_demand|]. intros a w' _ Ha. by apply Hf. Qed.
Lemma over_quiet {A B} (p : P A) (f : A -> P B) Q w :
  quiet (@moves C) sound p -> (forall a w', obeys Q (f a) w') -> obeys Q (p ≫= f) w.
Proof. intros Hp Hf. apply abides_quiet; [exact _|done|auto]. Qed.
Lemma over_job {B} id e (f : Job.t -> P B) Q w : (forall j, Job.jobId j = id -> job_ok j -> forall w', obeys Q (f j) w') ->
  obeys Q (found ← await (jobs_findById id); j ← demand found e; f j) w.
Proof.
  intros Hf. eapply (abides_bind (@moves C) sound (fun o _ => forall j, o = Some j -> Job.jobId j = id /\ job_ok j)).
  { apply abides_await, reads. intros w1 _ ([_ Hs] & _) j. apply Hs. }
  intros o w1 _ Ho. apply over_demand. intros j ->. destruct (Ho j eq_refl) as [Hid Hj]. by apply Hf.
Qed.
Lemma stored_job j w : job_ok j -> obeys (fun j' _ => job_ok j') (await (jobs_save j);; mret j) w.
Proof. intros Hj. eapply (abides_bind (@moves C) sound); [by apply abides_await, saves_job|]. by intros [] w' _ _. Qed.

Lemma over_transition {B} a b (f : unit -> P B) Q w : (allowed a b -> forall w', obeys Q (f tt) w') -> obeys Q (assertTransition_steps a b ≫= f) w.
Proof. intros Hf. apply over_check. intros Hb%negb_false_iff%bool_decide_eq_true. by apply Hf. Qed.
Lemma over_assigned {B} j a (f : unit -> P B) Q w :
  (Job.assignedTo j <> "" -> Job.assignedTo j = Actor.identityId a -> forall w', obeys Q (f tt) w') -> obeys Q
    (requireAssignedTechnician_steps j a ≫= f) w.
Proof. intros Hf. apply over_check. intros [Hne%bool_decide_eq_false He%negb_false_iff%String.eqb_eq]%orb_false_iff. by apply Hf. Qed.
Lemma over_independent {B} j a (f : unit -> P B) Q w :
  (authorised M_APPROVE j a -> forall w', obeys Q (f tt) w') -> obeys Q (requireIndependentVerifier_steps j a ≫= f) w.
Proof.
  intros Hf. eapply (abides_bind (@moves C) sound (fun _ _ => authorised M_APPROVE j a)).
  - unfold requireIndependentVerifier_steps. apply over_check. intros Hne%String.eqb_neq w'. eapply (abides_weaken (@moves C) sound);
      [apply abides_check|].
    intros [] w1 _ Hv. split; [done|]. intros Ht. rewrite Ht in Hv. simpl in Hv. by apply negb_false_iff, bool_decide_eq_true in Hv.
  - intros [] w' _ Ha. by apply Hf.
Qed.
#[local] Hint Resolve still_submit still_check_identity quiet_check : bel.

(** The job a mutation stores has the life cycle of the one it read. *)
Lemma sound_mutation c w : obeys (fun j _ => job_ok j) (job_program c) w.
Proof.
  destruct c as [m id arg actor]. unfold job_program. cbn [Mutation.type Mutation.job Mutation.argument Mutation.actor].
  assert (Hend : forall now j w', job_ok j -> allowed (Job.status j) (mutation_target m) -> authorised m j actor -> arg_ok m arg ->
    obeys (fun j _ => job_ok j) (await (jobs_save (mutation_effect m arg now actor j));; mret (mutation_effect m arg now actor j)) w').
  { intros now j w' Hj Ha Hau Harg. by apply stored_job, mutation_effect_ok. }
  destruct m; apply over_job; intros j _ Hj w1.
  - apply over_check. intros Harg w2. apply over_quiet; [auto with bel|intros _ w3]. apply over_transition. intros Ha w4.
    apply over_quiet; [auto with bel|intros _ w5]. by apply (Hend "").
  - apply over_transition. intros Ha w2. apply over_assigned. intros Hne Has w3. apply over_quiet; [auto with bel|intros _ w4]. by apply (Hend "").
  - apply over_check. intros Harg%negb_false_iff w2. apply over_transition. intros Ha w3. apply over_assigned. intros Hne Has w4.
    apply over_quiet; [auto with bel|intros _ w5]. apply over_quiet; [apply quiet_await, calm_apart, apart_nowISO|intros now w6]. by apply Hend.
  - apply over_transition. intros Ha w2. apply over_independent. intros Hau w3. apply over_quiet; [auto with bel|intros _ w4]. by apply (Hend "").
  - apply over_check. intros Harg w2. apply over_transition. intros Ha w3. apply over_independent. intros Hau w4.
    apply over_quiet; [auto with bel|intros _ w5]. by apply (Hend "").
Qed.
Lemma sound_create input actor w : obeys (fun j _ => job_ok j) (JobRaces.create_steps input actor) w.
Proof.
  unfold JobRaces.create_steps. cbv zeta. apply over_check. intros _ w1. apply over_quiet.
  { destruct (PartialJob.jobId input) as [s|]; [destruct (blank s)|]; stilly. }
  intros id w2. apply over_quiet; [stilly|intros t w3]. apply over_quiet; [destruct wired_assets; stilly|intros _ w4].
  apply over_quiet; [auto with bel|intros _ w5]. apply over_quiet; [stilly|intros dup w6]. apply over_check. intros _ w7.
  apply over_quiet; [auto with bel|intros _ w8]. by apply stored_job.
Qed.

(** ** Validators *)

#[local] Hint Resolve still_admin still_metadata still_head still_validator_submit still_history still_changed : bel.
Definition registered (v : ValidatorRegistration.t) : Prop := registration_ok (ValidatorRegistration.registrationId v) v.
Lemma finds_registration id w : does (fun o _ => forall v, o = Some v -> registered v) (validators_findById id) w.
Proof. apply reads. intros w1 _ (_ & [_ Hs] & _) v Hg. destruct (Hs _ _ Hg) as [<- Hok]. by split. Qed.
Lemma finds_validator id w : does (fun o _ => forall v, o = Some v -> registered v) (validators_findByValidatorId id) w.
Proof.
  apply reads. intros w1 _ (_ & [Hwf Hs] & _) v [Hf _]%List.find_some. apply values_get in Hf as [k Hg]; [|done].
  destruct (Hs _ _ Hg) as [<- Hok]. by split.
Qed.
Lemma over_registration {B} id (f : ValidatorRegistration.t -> P B) Q w :
  (forall v head, registered v -> forall w', obeys Q (f (effectiveRegistration v head)) w') -> obeys Q (get_registration_steps id ≫= f) w.
Proof.
  intros Hf. eapply (abides_bind (@moves C) sound (fun v' _ => exists v head, registered v /\ v' = effectiveRegistration v head)).
  - unfold get_registration_steps. eapply (abides_bind (@moves C) sound); [apply abides_await, finds_registration|]. intros d w1 _ Hd.
    eapply (abides_bind (@moves C) sound (fun o _ => forall v, o = Some v -> registered v)).
    { destruct d as [v|]; [exact Hd|]. apply abides_await, finds_validator. }
    intros o w2 _ Ho. apply over_demand. intros v -> w3. apply over_quiet; [auto with bel|]. intros head w4. exists v, head. split;
      [by apply Ho|done].
  - intros v' w' _ (v & head & Hv & ->). by apply Hf.
Qed.
Lemma finishes v a op prev reason res w : registered v -> obeys (fun v _ => registered v) (finish_steps v a op prev reason res) w.
Proof.
  intros Hv. unfold finish_steps. eapply (abides_bind (@moves C) sound); [by apply abides_await, saves_registration|]. intros [] w1 _ _.
  apply over_quiet; [auto with bel|intros _ w2]. apply over_quiet; [auto with bel|intros _ w3]. done.
Qed.
Lemma reinstated_ok v head res : registered v -> registered (reinstated (effectiveRegistration v head) res).
Proof. intros _. by repeat split. Qed.

Lemma sound_add actorId input w : obeys (fun v _ => registered v) (addValidator_steps actorId input) w.
Proof.
  unfold addValidator_steps. apply over_quiet; [auto with bel|intros actor w1]. apply over_quiet; [auto with bel|intros _ w2].
  eapply (abides_bind (@moves C) sound); [apply abides_await, finds_validator|]. intros existing w3 _ Hex. apply over_check. intros Hc w4.
  destruct existing as [e|].
  { destruct (Hex e eq_refl) as (_ & Hnr & _). by apply negb_false_iff, bool_decide_eq_true in Hc. }
  apply over_quiet; [auto with bel|intros head w5]. cbv zeta. apply over_demand. intros ah _ w6. apply over_check. intros Hlt%Z.leb_gt w7.
  apply over_quiet; [stilly|intros user w8]. apply over_quiet; [stilly|intros rid w9]. apply over_quiet; [stilly|intros at' w10].
  apply over_quiet; [auto with bel|intros res w11]. apply finishes. split; [done|]. simpl. rewrite (proj2 (Z.ltb_lt _ _) Hlt). done.
Qed.
Lemma sound_remove actorId id input w : obeys (fun v _ => registered v) (removeValidator_steps actorId id input) w.
Proof.
  unfold removeValidator_steps. apply over_quiet; [auto with bel|intros actor w1]. cbv zeta. apply over_demand. intros h Hh w2.
  apply over_check. intros _ w3. apply over_check. intros Hre%bool_decide_eq_false w4. apply over_registration. intros v head Hv w5.
  apply over_check. intros _ w6. apply over_quiet; [auto with bel|intros hd w7]. apply over_check.
  intros [_ Hah%Z.leb_gt]%orb_false_iff w8. apply over_quiet; [auto with bel|intros res w9]. apply finishes. simpl in Hah.
  assert (Hsafe : (Z.abs h <= MAX_SAFE_INTEGER)%Z).
  { unfold safe_integer in Hh. destruct (ValidatorRemovalInput.removalHeight input); try done. by apply as_safe_integer_bound in Hh as [_ ?]. }
  repeat split; simpl; try done; lia.
Qed.
Lemma sound_validators c actorId w : obeys (fun v _ => registered v) (validator_program c actorId) w.
Proof.
  destruct c as [input|id input|id reason|id reason]; cbn [validator_program]; [apply sound_add|apply sound_remove| |].
  - unfold restoreValidator_steps. apply over_quiet; [auto with bel|intros actor w1]. cbv zeta. apply over_check. intros _ w2.
    apply over_registration. intros v head Hv w3. apply over_quiet; [auto with bel|intros hd w4]. apply over_check. intros _ w5.
    apply over_quiet; [auto with bel|intros res w6]. by apply finishes, reinstated_ok.
  - unfold cancelScheduledRemoval_steps. apply over_quiet; [auto with bel|intros actor w1]. cbv zeta. apply over_check. intros _ w2.
    apply over_registration. intros v head Hv w3. apply over_check. intros _ w4. apply over_quiet; [auto with bel|intros res w5].
    by apply finishes, reinstated_ok.
Qed.

(** ** Evidence *)

Lemma still_requireJob id : quiet (@moves C) sound (requireJob_steps id : P _).
Proof. unfold requireJob_steps. stilly. Qed.
Lemma still_view j a : quiet (@moves C) sound (assertCanView_steps j a : P _).
Proof. apply quiet_check. Qed.
Lemma still_upload_checks j a i : quiet (@moves C) sound (assertCanUpload_steps j a;; validateUpload_steps options i : P _).
Proof. unfold assertCanUpload_steps, validateUpload_steps. stilly. Qed.
Lemma still_hidden {A} (op : M exn W A) : respects apart op -> quiet (@moves C) sound (try_prog (await op) hide_storage_error_steps).
Proof. intros Ho. apply quiet_try; [by apply quiet_await, calm_apart|by intros []]. Qed.

(** What an upload returns is recorded with the digest of its bytes; what a
    download returns is a record and bytes with its digest. *)
Lemma sound_upload jobId actor input w :
  obeys (fun e w' => recorded e (EvidenceUpload.bytes input) w') (upload_steps options jobId actor input) w.
Proof.
  unfold upload_steps. apply over_quiet; [apply still_requireJob|intros job w1].
  unfold assertCanUpload_steps, validateUpload_steps. cbv zeta.
  apply over_quiet; [stilly|intros _ w2]. apply over_quiet; [stilly|intros _ w3].
  apply over_quiet; [apply still_hidden, apart_upload|intros s w4]. apply over_check. intros _ w5. apply abides_await, files_record.
Qed.
Lemma sound_download jobId evidenceId actor w :
  obeys (fun r w' => get evidenceId (w_evidenceRecords w') = Some (fst r) /\
      Evidence.sha256 (fst r) = sha256_hex (snd r) /\ Evidence.sizeBytes (fst r) = byte_length (snd r))
    (download_steps jobId evidenceId actor) w.
Proof.
  unfold download_steps. apply over_quiet; [apply still_requireJob|intros job w1]. apply over_quiet; [apply still_view|intros _ w2].
  eapply (abides_bind (@moves C) sound (fun e w' => get evidenceId (w_evidenceRecords w') = Some e)).
  - unfold find_evidence_steps. eapply (abides_bind (@moves C) sound (fun o w' => get evidenceId (w_evidenceRecords w') = o)).
    { by apply abides_await, reads. }
    intros [e|] w3 _ Hg; [|done]. simpl. by destruct (negb _).
  - intros e w3 _ Hg.
    eapply (abides_bind (@moves C) sound); [apply quiet_abides, still_hidden, apart_download; exact _|].
    intros b w4 (_ & HR) _. apply HR in Hg. eapply (abides_bind (@moves C) sound); [apply abides_check|].
    intros [] w5 (_ & HR5) [Hh%negb_false_iff%String.eqb_eq Hs%negb_false_iff%Z.eqb_eq]%orb_false_iff. apply HR5 in Hg. by simpl.
Qed.

(** ** All of them *)

(** What is known of an answer, in the state it was given in and later. *)
Definition answer_holds (c : BackendCall) (a : Answer) (w : W) : Prop :=
  match c, a with
  | To_create _ _, Answer_job j | To_jobs _, Answer_job j => job_ok j
  | To_validators _ _, Answer_validator v => registered v
  | To_upload _ _ input, Answer_evidence e => recorded e (EvidenceUpload.bytes input) w
  | To_download _ evidenceId _, Answer_bytes e b =>
      get evidenceId (w_evidenceRecords w) = Some e /\ Evidence.sha256 e = sha256_hex b /\ Evidence.sizeBytes e = byte_length b
  | To_auth _, Answered | To_users _, Answered | To_assets _ _, Answered | To_list _ _, Answered | To_hash _ _ _, Answered => True
  | _, _ => False
  end.
Lemma answer_lasts c : lasting (@moves C) (answer_holds c).
Proof.
  intros a w w' (_ & HR). destruct c, a; simpl; try done; intros [Hg Hb]; (split; [by apply HR|done]).
Qed.
Lemma sound_backend c w : obeys (answer_holds c) (backend_program options fuel c) w.
Proof.
  destruct c as [c|c|r actor|input actor|c|c actorId|j a i|j a|j e a|j e a]; cbn [backend_program].
  - apply over_quiet; [apply still_auth|done].
  - apply over_quiet; [apply still_users|done].
  - apply over_quiet; [apply still_assets|done].
  - eapply (abides_bind (@moves C) sound); [apply sound_create|done].
  - eapply (abides_bind (@moves C) sound); [apply sound_mutation|done].
  - eapply (abides_bind (@moves C) sound); [apply sound_validators|done].
  - eapply (abides_bind (@moves C) sound); [apply sound_upload|done].
  - unfold list_evidence_steps. apply over_quiet; [|done]. apply quiet_then; [apply still_requireJob|intros]. apply quiet_then;
      [apply still_view|intros; stilly].
  - unfold getHash_steps, find_evidence_steps. apply over_quiet; [|done]. apply quiet_then; [apply still_requireJob|intros].
    apply quiet_then; [apply still_view|intros; stilly].
  - eapply (abides_bind (@moves C) sound); [apply sound_download|]. by intros [e' b] w' _ H.
Qed.
(** The calls of a pool, some of them under way. *)
Definition under_way (l : list BackendCall) (ps : list (P Answer)) (w : W) : Prop :=
  length ps = length l /\ forall i c p, l !! i = Some c -> ps !! i = Some p -> obeys (answer_holds c) p w.
Lemma started l w : under_way l (map (backend_program options fuel) l) w.
Proof.
  split; [by rewrite length_map|]. intros i c p Hc Hp. rewrite list_lookup_fmap, Hc in Hp. injection Hp as <-. apply sound_backend.
Qed.
Lemma interleaves_length {A} (ps ps' : list (P A)) (w w' : W) : interleaves (ps, w) (ps', w') -> length ps' = length ps.
Proof.
  intros Hr. remember (ps, w) as s eqn:Es. remember (ps', w') as s' eqn:Es'. revert ps w Es.
  induction Hr as [s|s s1 s2 Ht _ IH]; intros ps w ->; [by injection Es' as <- _|].
  inversion Ht as [j p p' qs u u' Hj E]; subst. rewrite (IH eq_refl _ _ eq_refl). apply length_insert.
Qed.
Lemma under_way_run l ps ps' w w' : under_way l ps w -> sound w -> interleaves (ps, w) (ps', w') ->
  under_way l ps' w' /\ sound w' /\ moves w w'.
Proof.
  intros [Hl Hp] Hi Hr. pose (Q i a w := forall c, l !! i = Some c -> answer_holds c a w).
  destruct (abides_pool (@moves C) sound Q ps ps' w w') as (Hi' & HR & Hp'); [|done| |done|].
  - intros i a u u' HR HQ c Hc. by eapply answer_lasts, HQ.
  - intros i p Hpi. destruct (lookup_lt_is_Some_2 l i) as [c Hc]; [rewrite <-Hl; by eapply lookup_lt_Some|].
    eapply (abides_weaken (@moves C) sound); [by eapply Hp|]. intros a u _ Ha c' Hc'. by simplify_eq.
  - split; [|done]. split; [by rewrite (interleaves_length _ _ _ _ Hr)|]. intros i c p Hc Hpi.
    eapply (abides_weaken (@moves C) sound); [by apply Hp'|]. intros a u _ Ha. by apply Ha.
Qed.

(** C2: However calls of all services interleave, with repositories that hand
    out copies and any evidence storage that leaves the records of the process
    alone, sound stores stay sound: every job obeys the life cycle and was
    judged by somebody other than its technician, every validator registration
    is well formed, every evidence record is found under its own drawn id with
    the digest and the size of some bytes; and so are the job, the registration
    and the record a call answers with. *)
Theorem stores_stay_sound (l : list BackendCall) (w w' : W) ps :
  sound w -> interleaves (map (backend_program options fuel) l, w) (ps, w') ->
  sound w' /\ forall i c a, l !! i = Some c -> ps !! i = Some (Return a) -> answer_holds c a w'.
Proof.
  intros Hi Hr. destruct (under_way_run l _ _ _ _ (started l w) Hi Hr) as ([_ Hp] & Hi' & _). split; [done|].
  intros i c a Hc Hpi. exact (Hp i c _ Hc Hpi).
Qed.

Lemma download_found (viewer : EvidenceActor.t) job e bytes (w w1 : W) :
  get (Evidence.evidenceId e) (w_evidenceRecords w) = Some e -> get (Evidence.jobId e) (w_jobs w) = Some job ->
  can (EvidenceActor.role viewer) VIEW_AUDIT_HISTORY (view_context job viewer) = true ->
  Evidence.sha256 e = sha256_hex bytes -> Evidence.sizeBytes e = byte_length bytes ->
  storage_download (Evidence.cid e) w = (inr bytes, w1) ->
  download (Evidence.jobId e) (Evidence.evidenceId e) viewer w = (inr (e, bytes), w1).
Proof.
  intros Hg Hj Hv Hsha Hsize Hd. unfold download, requireJob, jobs_findById, assertCanView, find_evidence, evidence_findById.
  unfold mbind, M_bind, gets, try_catch. rewrite Hj. simpl. rewrite Hv. simpl. rewrite Hg. simpl. rewrite String.eqb_refl. simpl.
  rewrite Hd. simpl. by rewrite Hsha, Hsize, String.eqb_refl, Z.eqb_refl.
Qed.

(** C3: However calls of all services interleave, with repositories that hand
    out copies and any evidence storage that leaves the records of the process
    alone, the record an upload returned stays recorded as it was returned,
    with the digest and the size of the uploaded bytes: every download of it,
    at the same time or later, returns that record and bytes with the digest
    and the length of the uploaded ones, or fails; and one that runs alone, for
    a caller who may view the job, returns the uploaded bytes if that is what
    the storage hands out for the content id of the record. *)
Theorem evidence_survives (l : list BackendCall) (w w' : W) ps i jobId actor input e :
  sound w -> interleaves (map (backend_program options fuel) l, w) (ps, w') ->
  l !! i = Some (To_upload jobId actor input) -> ps !! i = Some (Return (Answer_evidence e)) ->
  get (Evidence.evidenceId e) (w_evidenceRecords w') = Some e /\
  (forall j k v e' b, l !! j = Some (To_download k (Evidence.evidenceId e) v) -> ps !! j = Some (Return (Answer_bytes e' b)) ->
     e' = e /\ sha256_hex b = sha256_hex (EvidenceUpload.bytes input) /\ byte_length b = byte_length (EvidenceUpload.bytes input)) /\
  (forall viewer job w1, get (Evidence.jobId e) (w_jobs w') = Some job ->
     can (EvidenceActor.role viewer) VIEW_AUDIT_HISTORY (view_context job viewer) = true ->
     storage_download (Evidence.cid e) w' = (inr (EvidenceUpload.bytes input), w1) ->
     download (Evidence.jobId e) (Evidence.evidenceId e) viewer w' = (inr (e, EvidenceUpload.bytes input), w1)).
Proof.
  intros Hi Hr Hc Hp. destruct (under_way_run l _ _ _ _ (started l w) Hi Hr) as ([_ Ha] & Hi' & _).
  destruct (Ha i _ _ Hc Hp) as (Hg & Hsha & Hsize). split; [done|]. split.
  - intros j k v e' b Hcj Hpj. destruct (Ha j _ _ Hcj Hpj) as (Hg' & Hsha' & Hsize'). simplify_eq. split; [done|]. split; congruence.
  - intros viewer job w1 Hj Hv. by eapply download_found.
Qed.
End Sound.

(** ** Witnesses *)

Section Demo.
(** The answer of the node to an upload is the content id it gives. *)
Definition node_json (text : string) : option value :=
  if startsWith "Qm" text then Some (VObj [("Hash", VStr text)]) else None.
#[local] Instance node_platform : Platform := custom (fun _ => None) read_Z node_json.
#[local] Instance node_laws : PlatformLaws node_platform.
Proof. by destruct (concrete_laws (fun _ => None)). Qed.

(** A node that numbers what it pins, next to the mock chain. *)
Definition Node : Type := list (string * string).
Definition cat_path (cid : string) : string := "/api/v0/cat?arg=" +:+ encodeURIComponent cid.
#[local] Instance demo_node : Kubo Node := fun url form node =>
  match form with
  | Some f =>
      let cid := "Qm" +:+ pretty (length node) in
      (inr (HttpResponse.mk true 200 None None (inr cid)), (cat_path cid, FormFile.bytes f) :: node)
  | None =>
      match List.find (fun x => String.eqb (fst x) url) node with
      | Some x => (inr (HttpResponse.mk true 200 None (Some (Stream.mk [snd x] None)) (inr "")), node)
      | None => (inr (HttpResponse.mk false 404 None None (inr "")), node)
      end
  end.
Definition Outside : Type := MockChain * Node.
Definition set_node (n : Node) (o : Outside) : Outside := (fst o, n).
Definition mock {A} (m : M exn MockChain A) : M exn Outside A := zoom fst (fun c o => (c, snd o)) m.
#[local] Instance outside_chain : BlockchainService Outside := {
  submitTransaction tx := mock (submitTransaction tx);
  submitTransactionDetailed := None; prepareTransaction := None;
  chain_getIdentity id := mock (chain_getIdentity id); chain_getWallet a := mock (chain_getWallet a);
  chain_getAsset id := mock (chain_getAsset id); chain_getStatus := mock chain_getStatus;
  chain_getValidators := mock chain_getValidators; chain_getCommittee h := mock (chain_getCommittee h);
  getAuditTrail := None;
}.
#[local] Instance node_storage : EvidenceStorage Outside := IpfsEvidenceStorage "" snd set_node.
#[local] Existing Instance ConsoleEmailNotificationProvider.
#[local] Instance busy_wires : Wiring := {| wired_assets := false; wired_identityExists := false |}.
#[local] Instance busy_integrity : IntegrityWiring := true.
#[local] Existing Instance RejectingDeviceAttestationAdapter.

(** A technician uploads twice while a job is created, a validator added and
    the first record downloaded. *)
Definition busy_world : World Outside :=
  upd_identities (put "ADM" (Identity.mk "ADM" (Some "E0") "Root" (Some ADMIN) (Some "OPS") Identity_ACTIVE "t" None None))
    (upd_jobs (put "J" running_job) (mkWorld [] [] [] [] [] [] [] [] [] [] [] [] [] [] [] [] [] [] (empty_mock, []) 0 0 0)).
Definition busy_calls : list BackendCall :=
  [To_upload "J" the_technician a_report; To_upload "J" the_technician a_report;
   To_create (PartialJob.mk (Some "J2") (Some "A") (Some "ADM") None (Some HIGH)) (verifier "ADM");
   To_validators (Validator_add new_validator) "ADM";
   To_download "J" (randomUUID_at 0) the_technician].
Definition busy_turns : list nat := concat (repeat [0; 1; 2; 3]%nat 30) ++ repeat 4%nat 6.
Definition busy_run := schedule busy_turns (map (backend_program no_options 5) busy_calls, busy_world).
Lemma busy_sound : stores_sound busy_world.
Proof.
  split; [|split; [split; [constructor|done]|done]]. split; [by repeat constructor; intros []|].
  intros id j. simpl. destruct (String.eqb_spec id "J") as [->|]; [|done]. by intros [= <-].
Qed.
Lemma busy_interleaves : interleaves (map (backend_program no_options 5) busy_calls, busy_world) (fst busy_run, snd busy_run).
Proof. rewrite <-surjective_pairing. apply schedule_interleaves. Qed.

Definition answer_of (i : nat) : option Answer := match fst busy_run !! i with Some (Return a) => Some a | _ => None end.
Lemma answer_of_run i a : answer_of i = Some a -> fst busy_run !! i = Some (Return a).
Proof. unfold answer_of. destruct (fst busy_run !! i) as [[b| |]|]; try done. by intros [= ->]. Qed.

Lemma stores_stay_sound_witness :
  stores_sound (snd busy_run) /\ exists v, answer_of 3 = Some (Answer_validator v) /\ registered v.
Proof.
  destruct (stores_stay_sound no_options 5 busy_calls busy_world (snd busy_run) (fst busy_run) busy_sound busy_interleaves) as [Hs Ha].
  split; [exact Hs|]. destruct (answer_of 3) as [[]|] eqn:E; try (vm_compute in E; discriminate E).
  eexists. split; [reflexivity|]. exact (Ha 3%nat _ _ eq_refl (answer_of_run _ _ E)).
Defined.
Lemma evidence_survives_witness : exists e e' b,
  answer_of 0 = Some (Answer_evidence e) /\ answer_of 4 = Some (Answer_bytes e' b) /\ e' = e /\ b = "all bolts replaced" /\
  fst (download "J" (Evidence.evidenceId e) the_auditor (snd busy_run)) = inr (e, b).
Proof.
  destruct (answer_of 0) as [[| | |e|]|] eqn:E; try (vm_compute in E; discriminate E).
  destruct (answer_of 4) as [[| | | |e' b]|] eqn:E4; try (vm_compute in E4; discriminate E4).
  destruct (evidence_survives no_options 5 busy_calls busy_world (snd busy_run) (fst busy_run) 0%nat "J" the_technician a_report e
    busy_sound busy_interleaves eq_refl (answer_of_run _ _ E)) as (_ & Hd & Ha).
  assert (Hid : Evidence.evidenceId e = randomUUID_at 0) by (vm_compute in E; by injection E as <-).
  assert (Hjob : Evidence.jobId e = "J") by (vm_compute in E; by injection E as <-).
  assert (Hcid : Evidence.cid e = "Qm0") by (vm_compute in E; by injection E as <-).
  assert (Hb : b = EvidenceUpload.bytes a_report) by (vm_compute in E4; by injection E4 as _ <-).
  assert (H4 : fst busy_run !! 4%nat = Some (Return (Answer_bytes e' b))) by exact (answer_of_run 4 _ E4).
  assert (Hc : busy_calls !! 4%nat = Some (To_download "J" (Evidence.evidenceId e) the_technician)) by (rewrite Hid; exact eq_refl).
  destruct (Hd _ _ _ _ _ Hc H4) as [He _]. exists e, e', b. split; [reflexivity|]. split; [reflexivity|]. split; [exact He|].
  split; [exact Hb|]. rewrite Hb, <-Hjob.
  rewrite (Ha the_auditor running_job (snd busy_run)); [reflexivity|rewrite Hjob; vm_compute; reflexivity|vm_compute; reflexivity|].
  rewrite Hcid. vm_compute. reflexivity.
Defined.

(** The stores stay sound, but not everything one would like: on the mock
    chain, which takes every transaction, two requests that both looked before
    either stored create one job twice, the later replacing the earlier, and
    register one validator twice. *)
Definition twice (c : BackendCall) := schedule (concat (repeat [0; 1]%nat 20)) (map (backend_program no_options 5) [c; c], busy_world).
Definition both_return (ps : list (Prog exn (World Outside) Answer)) : bool :=
  forallb (fun p => match p with Return _ => true | _ => false end) ps.
Theorem created_and_registered_twice :
  (let s := twice (To_create (PartialJob.mk (Some "J2") (Some "A") (Some "ADM") None (Some HIGH)) (verifier "ADM")) in
   both_return (fst s) = true /\ keys (w_jobs (snd s)) = ["J"; "J2"]) /\
  (let s := twice (To_validators (Validator_add new_validator) "ADM") in
   both_return (fst s) = true /\ map ValidatorRegistration.validatorId (values (w_validators (snd s))) = ["0xval"; "0xval"]).
Proof. vm_compute. done. Qed.
End Demo.
