(* ===== verification/ScriptLogic.v ===== *)
(** * ScriptLogic: histories in which every watched call was justified

    A script is judged by its history.  For a kind of call that is [watched],
    and a condition [J] on what came before it, [behaves P m Q] says that [m]
    keeps a history in which every watched call was justified, and what is
    known of the history before and after; [silent m] makes no claim but
    that.  [stops] are the calls that end a process, a run of the chain or a
    container, or remove a file; [resets] those that empty the database. *)
From S2P Require Import Prelude Effects JsString JsMap JsValue Paths DeviceWallet DevWallet Orchestrator.
From Stdlib Require Import Ascii.
Local Open Scope string_scope.
Local Open Scope list_scope.

(** ** Histories in which the watched calls are justified *)

(** A condition that stays true as the history grows. *)
Definition lasting (P : list Event -> Prop) : Prop := forall h h', h `prefix_of` h' -> P h -> P h'.

Section Watch.
Variable watched : Event -> Prop.
Variable J : list Event -> Event -> Prop.

Definition clean (h : list Event) : Prop := forall h1 e h2, h = h1 ++ e :: h2 -> watched e -> J h1 e.
Definition behaves {A} (P : list Event -> Prop) (m : MS A) (Q : A -> list Event -> Prop) : Prop :=
  forall w r w', clean (history w) -> P (history w) -> m w = (r, w') ->
    clean (history w') /\ history w `prefix_of` history w' /\ forall a, r = inr a -> Q a (history w').
Definition silent {A} (m : MS A) : Prop := behaves (fun _ => True) m (fun _ _ => True).

Lemma clean_snoc h e : clean h -> (watched e -> J h e) -> clean (h ++ [e]).
Proof.
  intros Hh He h1 e' h2 E W. destruct h2 as [|x h2 _] using rev_ind.
  - apply app_inj_tail in E as [-> ->]. by apply He.
  - rewrite app_comm_cons, app_assoc in E. apply app_inj_tail in E as [-> _]. by eapply Hh.
Qed.

Lemma behaves_weaken {A} P P' (m : MS A) Q Q' :
  behaves P m Q -> (forall h, P' h -> P h) -> (forall a h, Q a h -> Q' a h) -> behaves P' m Q'.
Proof. intros Hm HP HQ w r w' Hc Hp E. destruct (Hm _ _ _ Hc (HP _ Hp) E) as (? & ? & HQa). eauto. Qed.
Lemma behaves_silent {A} P (m : MS A) Q : behaves P m Q -> behaves P m (fun _ _ => True).
Proof. intros Hm. eapply behaves_weaken; eauto. Qed.
Lemma behaves_ret {A} P (a : A) (Q : A -> list Event -> Prop) : (forall h, P h -> Q a h) -> behaves P (mret a) Q.
Proof. intros HQ w r w' Hc Hp [-> ->]%mret_inv. split; [done|]. split; [done|]. intros ? [= <-]. auto. Qed.
Lemma behaves_throw {A} P e (Q : A -> list Event -> Prop) : behaves P (throw e) Q.
Proof. intros w r w' Hc _ [= <- <-]. split; [done|]. by split. Qed.
Lemma behaves_bind {A B} P (m : MS A) R (k : A -> MS B) Q :
  behaves P m R -> (forall a, behaves (R a) (k a) Q) -> behaves P (m ≫= k) Q.
Proof.
  intros Hm Hk w r w' Hc Hp [(e & -> & E)|(a & w1 & E & Hrun)]%bind_inv.
  - destruct (Hm _ _ _ Hc Hp E) as (? & ? & _). split; [done|]. split; [done|]. discriminate.
  - destruct (Hm _ _ _ Hc Hp E) as (Hc1 & Hp1 & HR). destruct (Hk a _ _ _ Hc1 (HR _ eq_refl) Hrun) as (? & ? & ?).
    split; [done|]. split; [by etransitivity|done].
Qed.
Lemma behaves_ret_bind {A B} P (a : A) (k : A -> MS B) Q : behaves P (k a) Q -> behaves P (mret a ≫= k) Q.
Proof. by intros Hk. Qed.
Lemma behaves_throw_bind {A B} P e (k : A -> MS B) Q : behaves P (throw e ≫= k) Q.
Proof. intros w r w' Hc _ [= <- <-]. split; [done|]. by split. Qed.
Lemma behaves_assoc {A B C} P (m : MS A) (f : A -> MS B) (k : B -> MS C) Q :
  behaves P ((m ≫= f) ≫= k) Q -> behaves P (m ≫= fun a => f a ≫= k) Q.
Proof. intros Hm w r w' Hc Hp E. rewrite <- bind_assoc in E. by eapply Hm. Qed.
Lemma behaves_frame {A} P (m : MS A) Q R :
  behaves P m Q -> lasting R -> behaves (fun h => P h /\ R h) m (fun a h => Q a h /\ R h).
Proof. intros Hm HR w r w' Hc [Hp Hr] E. destruct (Hm _ _ _ Hc Hp E) as (? & Hpre & HQ). eauto 6. Qed.
Lemma behaves_call {A} P (ask : list Event -> A) event (Q : A -> list Event -> Prop) :
  (forall h, P h -> (watched (event (ask h)) -> J h (event (ask h))) /\ Q (ask h) (h ++ [event (ask h)])) ->
  behaves P (call ask event) Q.
Proof.
  intros Hc w r w' Hw Hp [= <- <-]. destruct (Hc _ Hp) as [HJ HQ]. simpl.
  split; [by apply clean_snoc|]. split; [by eexists|]. by intros a [= <-].
Qed.
Lemma behaves_attempt {A} P (m : MS (Fault + A)) (Q : A -> list Event -> Prop) :
  behaves P m (fun r h => forall a, r = inr a -> Q a h) -> behaves P (attempt m) Q.
Proof.
  intros Hm. eapply behaves_bind; [exact Hm|]. intros [e|a]; [apply behaves_throw|]. apply behaves_ret. eauto.
Qed.
Lemma behaves_try {A} P (m : MS A) h Q : lasting P ->
  behaves P m Q -> (forall e, behaves P (h e) Q) -> behaves P (js_try m h) Q.
Proof.
  intros HP Hm Hh w r w' Hc Hp. unfold js_try, try_catch. destruct (m w) as [[[f|]|a] w1] eqn:E.
  - destruct (Hm _ _ _ Hc Hp E) as (Hc1 & Hp1 & _). intros E2.
    destruct (Hh f _ _ _ Hc1 (HP _ _ Hp1 Hp) E2) as (? & ? & ?). split; [done|]. split; [by etransitivity|done].
  - destruct (Hm _ _ _ Hc Hp E) as (Hc1 & Hp1 & _). intros [= <- <-]. split; [done|]. by split.
  - intros [= <- <-]. by eapply Hm.
Qed.
Lemma behaves_for_each {A} P (l : list A) f : lasting P ->
  (forall x, x ∈ l -> behaves P (f x) (fun _ _ => True)) -> behaves P (for_each l f) (fun _ => P).
Proof.
  intros HP. induction l as [|x l IH]; intros Hf; [by apply behaves_ret|].
  apply (behaves_bind _ _ (fun _ => P)); [|intros _; apply IH; intros; apply Hf; by right].
  eapply behaves_weaken; [exact (behaves_frame _ _ _ P (Hf x ltac:(left)) HP)|done|]. by intros _ h [_ Hp].
Qed.

(** A silent call leaves what is known. *)
Lemma silent_yields {A} P (m : MS A) : silent m -> lasting P -> behaves P m (fun _ => P).
Proof. intros Hm HP. eapply behaves_weaken; [exact (behaves_frame _ _ _ P Hm HP)|done|]. by intros a h [_ Hp]. Qed.
Lemma silent_then {A B} P (m : MS A) (k : A -> MS B) Q :
  silent m -> lasting P -> (forall a, behaves P (k a) Q) -> behaves P (m ≫= k) Q.
Proof. intros Hm HP Hk. eapply behaves_bind; [by apply silent_yields|done]. Qed.
Lemma silent_bind {A B} (m : MS A) (k : A -> MS B) : silent m -> (forall a, silent (k a)) -> silent (m ≫= k).
Proof. intros Hm Hk. by eapply behaves_bind. Qed.
Lemma silent_try {A} (m : MS A) h : silent m -> (forall e, silent (h e)) -> silent (js_try m h).
Proof. by apply behaves_try. Qed.
Lemma silent_catch {A} (m : MS A) h : silent m -> (forall e, silent (h e)) -> silent (try_catch m h).
Proof.
  intros Hm Hh w r w' Hc _. unfold try_catch. destruct (m w) as [[e|a] w1] eqn:E.
  - destruct (Hm _ _ _ Hc I E) as (Hc1 & Hp1 & _). intros E2.
    destruct (Hh e _ _ _ Hc1 I E2) as (? & ? & ?). split; [done|]. split; [by etransitivity|done].
  - intros [= <- <-]. by eapply Hm.
Qed.
Lemma silent_call {A} (ask : list Event -> A) event : (forall a, ~ watched (event a)) -> silent (call ask event).
Proof. intros He. apply behaves_call. intros h _. split; [intros W; by apply He in W|done]. Qed.
Lemma silent_state {A} (m : MS A) : (forall w, history (snd (m w)) = history w) -> silent m.
Proof. intros Hm w r w' Hc _ E. specialize (Hm w). rewrite E in Hm. simpl in Hm. by rewrite Hm. Qed.
Lemma silent_gets {A} (f : World -> A) : silent (gets f).
Proof. by apply silent_state. Qed.
Lemma silent_js {A} (m : M Fault World A) : keeps history m -> silent (js m).
Proof.
  intros Hm. apply silent_state. intros w. unfold js, rescue. specialize (Hm w). by destruct (m w) as [[e|a] w1].
Qed.
Lemma silent_for_each {A} (l : list A) f : (forall x, silent (f x)) -> silent (for_each l f).
Proof. intros Hf. apply behaves_for_each; [done|]. intros x _. apply Hf. Qed.
Lemma silent_some {A} (f : A -> MS bool) l : (forall x, silent (f x)) -> silent (some_m f l).
Proof. intros Hf. induction l; simpl; [by apply behaves_ret|]. apply silent_bind; [done|]. intros []; [by apply behaves_ret|done]. Qed.
Lemma silent_every {A} (f : A -> MS bool) l : (forall x, silent (f x)) -> silent (every_m f l).
Proof. intros Hf. induction l; simpl; [by apply behaves_ret|]. apply silent_bind; [done|]. intros []; [done|by apply behaves_ret]. Qed.
Lemma silent_filter {A} (f : A -> MS bool) l : (forall x, silent (f x)) -> silent (filter_m f l).
Proof.
  intros Hf. induction l; simpl; [by apply behaves_ret|]. apply silent_bind; [done|]. intros b.
  apply silent_bind; [done|]. intros. by apply behaves_ret.
Qed.

(** What a test that passed, or failed, has shown of the elements of a list. *)
Lemma behaves_every {A} (R : A -> list Event -> Prop) (f : A -> MS bool) l : (forall x, lasting (R x)) ->
  (forall x, behaves (fun _ => True) (f x) (fun b h => b = true -> R x h)) ->
  behaves (fun _ => True) (every_m f l) (fun b h => b = true -> forall x, x ∈ l -> R x h).
Proof.
  intros HR Hf. induction l as [|x l IH]; simpl; [apply behaves_ret; by intros h _ _ x ?%elem_of_nil|].
  eapply behaves_bind; [apply Hf|]. intros []; [|by apply behaves_ret].
  eapply behaves_weaken; [exact (behaves_frame _ _ _ (R x) IH (HR x))|intros h Hx; split; [done|by apply Hx]|].
  intros b h [Hl Hx] Hb y [->|Hy]%elem_of_cons; auto.
Qed.
Lemma behaves_filter {A} (R : A -> list Event -> Prop) (f : A -> MS bool) l : (forall x, lasting (R x)) ->
  (forall x, behaves (fun _ => True) (f x) (fun b h => b = false -> R x h)) ->
  behaves (fun _ => True) (filter_m f l) (fun l' h => forall x, x ∈ l -> x ∈ l' \/ R x h).
Proof.
  intros HR Hf. induction l as [|x l IH]; simpl; [apply behaves_ret; by intros h _ x ?%elem_of_nil|].
  eapply behaves_bind; [apply Hf|]. intros b. eapply behaves_bind.
  { eapply behaves_weaken; [exact (behaves_frame _ _ _ (fun h => b = false -> R x h) IH ltac:(intros h h' Hp Hx Hb; eapply HR; eauto))|by auto|].
    intros l' h Hl. exact Hl. }
  intros l'. apply behaves_ret. intros h [Hl Hx] y [->|Hy]%elem_of_cons.
  - destruct b; [left; left|right; auto].
  - destruct (Hl y Hy) as [Hin|]; [left|by right]. destruct b; [by right|done].
Qed.
End Watch.

Lemma lasting_in e : lasting (fun h => e ∈ h).
Proof. intros h h' [k ->] Hin. rewrite elem_of_app. by left. Qed.
Lemma lasting_true : lasting (fun _ => True).
Proof. done. Qed.
Lemma lasting_and P Q : lasting P -> lasting Q -> lasting (fun h => P h /\ Q h).
Proof. intros HP HQ h h' Hp [? ?]. split; [by eapply HP|by eapply HQ]. Qed.
Lemma lasting_ex {A} (P : A -> list Event -> Prop) : (forall a, lasting (P a)) -> lasting (fun h => exists a, P a h).
Proof. intros HP h h' Hp [a Ha]. exists a. by eapply HP. Qed.
Lemma lasting_pure (P : Prop) : lasting (fun _ => P).
Proof. by intros h h' _ ?. Qed.

(** ** What the calls show *)

Section Spec.
Context `{Platform} `{WalletCrypto} `{Machine}.

(** Calls that end a process, a run of the chain or a container, or remove a file. *)
Inductive stops : Event -> Prop :=
| stops_kill signal l o a : signal <> "-0" -> stops (Ran "kill" (signal :: l) o a)
| stops_taskkill l o a : stops (Ran "taskkill" l o a)
| stops_bash runRoot o a : stops (Ran "bash" [path_join ["scripts"; "stop-besu-bel-demo.sh"]; runRoot] o a)
| stops_wsl runRoot o a : stops (Ran "wsl.exe" ["bash"; "-lc"; wsl_stop_line runRoot] o a)
| stops_docker l o a : stops (Ran "docker" ("compose" :: "stop" :: l) o a)
| stops_file path a : stops (Removed path a).
(** The call that empties the database. *)
Inductive resets : Event -> Prop :=
| resets_database o a : resets (Ran "npm" Up.reset_args o a).

(** The machine showed [command] as the command line of process [pid]. *)
Inductive shown (pid : value) (command : string) : Event -> Prop :=
| shown_proc s : win32 = false -> command = spaced s -> shown pid command (Orchestrator.Read (cmdline pid) (inr s))
| shown_windows r : win32 = true -> command = trimmed_output r ->
    shown pid command (Ran "powershell.exe" ["-NoProfile"; "-Command"; command_query pid] plain (inr r))
| shown_wsl r : win32 = true -> command = trimmed_output r ->
    shown pid command (Ran "wsl.exe" ["bash"; "-lc"; command_test pid] plain (inr r)).
(** It did so in the last call. *)
Definition just_shown (pid : value) (command : string) (h : list Event) : Prop :=
  exists h0 e, h = h0 ++ [e] /\ shown pid command e.
(** The machine said that it has no WSL. *)
Definition wsl_missing (h : list Event) : Prop :=
  exists r, succeeded r = false /\ Ran "wsl.exe" ["--version"] (Options.mk None win32 None) (inr r) ∈ h.
(** The machine said that there is no process [pid]: on Windows, neither there
    nor in WSL, unless [unseen] excuses from looking into WSL. *)
Inductive dead (unseen : list Event -> Prop) (pid : value) (h : list Event) : Prop :=
| dead_none : falsy pid = true -> dead unseen pid h
| dead_linux r : win32 = false -> succeeded r = false -> Ran "kill" ["-0"; text pid] plain (inr r) ∈ h -> dead unseen pid h
| dead_windows r : win32 = true -> succeeded r = false ->
    Ran "powershell.exe" ["-NoProfile"; "-Command"; alive_query pid] plain (inr r) ∈ h ->
    unseen h \/ (exists r2, succeeded r2 = false /\ Ran "wsl.exe" ["bash"; "-lc"; alive_test pid] plain (inr r2) ∈ h) ->
    dead unseen pid h.

(** [pid] was shown to be a node of the run at [runRoot]. *)
Definition node_of (runRoot : string) (pid : value) (h : list Event) : Prop :=
  exists command e, e ∈ h /\ shown pid command e /\ besu_command runRoot (toLowerCase command) = true.
(** [data] was read from [run.json] of the run at [runRoot]. *)
Definition recorded (runRoot : string) (data : value) (h : list Event) : Prop :=
  exists s, Orchestrator.Read (path_join [runRoot; "run.json"]) (inr s) ∈ h /\ JSON_parse s = Some data.
(** The run is one of the orchestrator's, and each of its processes [pids] is gone or a node of it. *)
Definition run_shown (unseen : list Event -> Prop) (runRoot : string) (pids : list value) (h : list Event) : Prop :=
  (exists data, recorded runRoot data h /\ opt_prop "pids" data = VArr pids /\
     (orchestrated runRoot = true \/ is_owner (opt_prop "owner" data) = true)) /\
  forall pid, pid ∈ pids -> dead unseen pid h \/ node_of runRoot pid h.

(** The calls that stop the group of a process, and a run. *)
Definition group_call (pid : value) (e : Event) : Prop := exists o a,
  e = if win32 then Ran "taskkill" ["/PID"; text pid; "/T"; "/F"] o a else Ran "kill" ["-TERM"; "-" +:+ text pid] o a.
Definition run_call (runRoot : string) (e : Event) : Prop := exists o a,
  e = Ran "bash" [path_join ["scripts"; "stop-besu-bel-demo.sh"]; runRoot] o a
  \/ e = Ran "wsl.exe" ["bash"; "-lc"; wsl_stop_line runRoot] o a.

(** What the state file holds. *)
Definition state_read (state : value) (h : list Event) : Prop :=
  exists s, Orchestrator.Read stateFile (inr s) ∈ h /\ JSON_parse s = Some state.
(** A stopping call of [dev-stop.mjs] is justified. *)
Inductive stop_justified (h : list Event) : Event -> Prop :=
| justified_service state l service command e :
    state_read state h -> elements (opt_prop "started" state) = Some l -> service ∈ l ->
    just_shown (opt_prop "pid" service) command h ->
    Stop.marked (Stop.named (opt_prop "name" service)) (toLowerCase command) = true ->
    group_call (opt_prop "pid" service) e -> stop_justified h e
| justified_run runRoot pids e : run_shown (fun _ => False) runRoot pids h -> run_call runRoot e -> stop_justified h e
| justified_containers state l service o a :
    state_read state h -> opt_prop "started" state = VArr l -> service ∈ l ->
    Stop.named (opt_prop "name" service) = "postgres" \/ Stop.named (opt_prop "name" service) = "ipfs" ->
    stop_justified h (Ran "docker" ["compose"; "stop"; "postgres"; "ipfs"] o a)
| justified_state a : stop_justified h (Removed stateFile a).
(** A stopping call of [dev-bootstrap.mjs] is justified. *)
Inductive up_justified (h : list Event) : Event -> Prop :=
| up_service pid name command e :
    just_shown pid command h -> Up.marked name (toLowerCase command) = true -> group_call pid e -> up_justified h e
| up_run runRoot pids e : run_shown wsl_missing runRoot pids h -> run_call runRoot e -> up_justified h e.

(** The chain answered that there is code at [address]. *)
Definition has_code (address : string) (h : list Event) : Prop := exists reply body code,
  Fetched [Request.mk (Up.port_url 8645) "POST" [("content-type", VStr "application/json")]
    (Some (JSON_stringify [("jsonrpc", VStr "2.0"); ("id", VNum (num_of_Z 1)); ("method", VStr "eth_getCode");
                           ("params", VArr [VStr address; VStr "latest"])]))] [inr reply] ∈ h /\
  Reply.ok reply = true /\ Reply.json reply = inr body /\ falsy (opt_prop "error" body) = true /\
  opt_prop "result" body = VStr code /\ Up.code_pattern code = true.
(** The deployment file names [admin] and contracts that all are on the chain. *)
Definition deployed (admin : Up.Admin) (h : list Event) : Prop := exists s deployment contracts,
  Orchestrator.Read Up.deploymentPath (inr s) ∈ h /\ JSON_parse s = Some deployment /\
  Up.is_number Up.CHAIN_ID (Number_value (opt_prop "chainId" deployment)) = true /\
  Up.entries (opt_prop "contracts" deployment) = Some contracts /\
  (exists a, opt_prop "bootstrapAdminWallet" deployment = VStr a /\ toLowerCase a = toLowerCase (Up.walletAddress admin)) /\
  forall name v, (name, v) ∈ contracts -> exists a, v = VStr a /\ Up.address_pattern a = true /\ has_code a h.
(** The development wallet answered with the identity of [admin]. *)
Definition identified (admin : Up.Admin) (h : list Event) : Prop := exists url reply identity address key,
  Fetched [Up.get url] [inr reply] ∈ h /\ Reply.json reply = inr identity /\
  opt_prop "walletAddress" identity = VStr address /\ toLowerCase address = toLowerCase (Up.walletAddress admin) /\
  opt_prop "publicKey" identity = VStr key /\ toLowerCase key = toLowerCase (Up.publicKey admin).
(** Emptying the database is justified. *)
Definition reset_justified (h : list Event) (e : Event) : Prop := exists admin, deployed admin h /\ identified admin h.
End Spec.

(** ** Quiet programs *)

(** A call of another kind than the watched ones. *)
Ltac unwatched :=
  let W := fresh in intros; intros W; inversion W; subst; try done;
  repeat match goal with E : ?x = ?y |- _ => progress cbv [Up.reset_args wsl_stop_line alive_test command_test Up.wsl_script_line] in E;
    simpl in E; try discriminate E end.
Create HintDb silent.
Ltac head_of m := lazymatch m with ?f _ => head_of f | _ => m end.
Ltac silent_step :=
  lazymatch goal with
  | |- behaves ?w ?J (fun _ => True) ?m (fun _ _ => True) => change (silent w J m)
  | |- silent _ _ (mret _) => by apply behaves_ret
  | |- silent _ _ (throw _) => apply behaves_throw
  | |- silent _ _ (_ ≫= _) => apply silent_bind; [|intros ?]
  | |- silent _ _ (js_try _ _) => apply silent_try; [|intros ?]
  | |- silent _ _ (try_catch _ _) => apply silent_catch; [|intros ?]
  | |- silent _ _ (call _ _) => apply silent_call; unwatched
  | |- silent _ _ (gets _) => apply silent_gets
  | |- silent _ _ (modify _) => apply silent_state; intros ?; reflexivity
  | |- silent _ _ (for_each _ _) => apply silent_for_each; intros ?
  | |- silent _ _ (some_m _ _) => apply silent_some; intros ?
  | |- silent _ _ (every_m _ _) => apply silent_every; intros ?
  | |- silent _ _ (filter_m _ _) => apply silent_filter; intros ?
  | |- silent _ _ (match ?x with _ => _ end) => destruct x
  | |- silent _ _ (let _ := _ in _) => cbv zeta
  | |- silent _ _ ?m => first [solve [auto with silent nocore] | let h := head_of m in unfold h]
  end.
Ltac silently := intros; repeat silent_step.

(** ** Looking at processes *)

Lemma in_last {A} (e : A) h : e ∈ h ++ [e].
Proof. apply elem_of_app. right. by apply list_elem_of_singleton. Qed.

Section Looking.
Context `{Platform} `{WalletCrypto} `{Machine}.

Lemma lasting_wsl_missing : lasting wsl_missing.
Proof. intros h h' Hp (r & ? & Hin). exists r. split; [done|by eapply lasting_in]. Qed.
Lemma lasting_dead unseen pid : lasting unseen -> lasting (dead unseen pid).
Proof.
  intros HU h h' Hp [|r|r ? ? ? Hw]; [by apply dead_none|eapply dead_linux|eapply dead_windows]; eauto; try by eapply lasting_in.
  destruct Hw as [Hu|(r2 & ? & Hin)]; [left; by eapply HU|right]. exists r2. split; [done|by eapply lasting_in].
Qed.
Lemma lasting_imp (P : Prop) Q : lasting Q -> lasting (fun h => P -> Q h).
Proof. intros HQ h h' Hp Hq ?. eapply HQ; eauto. Qed.

Variable watched : Event -> Prop.
Variable J : list Event -> Event -> Prop.
Hypothesis reads : forall path a, ~ watched (Orchestrator.Read path a).
Hypothesis lists : forall path a, ~ watched (Listed path a).
Hypothesis signals : forall pid o a, ~ watched (Ran "kill" ["-0"; pid] o a).
Hypothesis queries : forall q o a, ~ watched (Ran "powershell.exe" ["-NoProfile"; "-Command"; q] o a).
Hypothesis tests : forall pid o a, ~ watched (Ran "wsl.exe" ["bash"; "-lc"; alive_test pid] o a).
Hypothesis commands : forall pid o a, ~ watched (Ran "wsl.exe" ["bash"; "-lc"; command_test pid] o a).
Abbreviation silent := (silent watched J).
Abbreviation behaves := (behaves watched J).

Lemma silent_read_file path : silent (readFileSync path).
Proof. apply silent_bind; [apply silent_call; apply reads|]. intros []; [apply behaves_throw|by apply behaves_ret]. Qed.
Lemma silent_prop k v : silent (read_prop k v).
Proof. apply silent_js. by destruct v. Qed.
Lemma silent_parse s : silent (parse s).
Proof. apply silent_js. unfold DevWallet.parse. intros w. by destruct (JSON_parse s). Qed.
(** A property that is read, or the script ends. *)
Lemma behaves_prop {A} P k v (f : value -> MS A) Q : behaves P (f (opt_prop k v)) Q -> behaves P (read_prop k v ≫= f) Q.
Proof.
  intros Hf. destruct v; try exact Hf; intros w r w' Hc _ [= <- <-]; (split; [done|]); (split; [done|]); done.
Qed.
Lemma behaves_parse P s : behaves P (parse s) (fun v h => JSON_parse s = Some v /\ P h).
Proof.
  intros w r w' Hc Hp. unfold parse, js, rescue, DevWallet.parse. destruct (JSON_parse s); intros [= <- <-];
    (split; [done|]); (split; [done|]); by intros ? [= <-].
Qed.
Lemma behaves_read path : behaves (fun _ => True) (readFileSync path) (fun s h => Orchestrator.Read path (inr s) ∈ h).
Proof.
  apply behaves_attempt, behaves_call. intros h _. split; [intros W; by apply reads in W|].
  intros s ->. apply in_last.
Qed.

Variable wsl : MS bool.
Hypothesis silent_wsl : silent wsl.

(** What excuses from looking into WSL, where it is not looked into. *)
Section Unseen.
Context (unseen : list Event -> Prop).
Hypothesis wsl_unseen : behaves (fun _ => True) wsl (fun b h => b = false -> unseen h).
(** The answer of PowerShell is kept until WSL has answered. *)
Lemma wsl_dead pid r : win32 = true -> succeeded r = false ->
  behaves (fun h => Ran "powershell.exe" ["-NoProfile"; "-Command"; alive_query pid] plain (inr r) ∈ h)
    (b ← wsl; if b : bool then r2 ← wsl_bash (alive_test pid); mret (succeeded r2) else mret false)
    (fun b h => b = false -> dead unseen pid h).
Proof.
  intros Ew Er. set (P h := Ran "powershell.exe" ["-NoProfile"; "-Command"; alive_query pid] plain (inr r) ∈ h).
  assert (HP : lasting P) by apply lasting_in.
  eapply behaves_bind; [eapply behaves_weaken; [exact (behaves_frame _ _ _ _ _ P wsl_unseen HP)|by split|intros b h Hb; exact Hb]|].
  intros []; [|apply behaves_ret; intros h [Hu Hp] _; apply (dead_windows _ _ _ r); auto].
  apply (behaves_bind _ _ _ _ (fun r2 h => P h /\ Ran "wsl.exe" ["bash"; "-lc"; alive_test pid] plain (inr r2) ∈ h)).
  - apply behaves_attempt, behaves_call. intros h [_ Hp]. split; [intros W; by apply tests in W|].
    intros r2 ->. split; [eapply HP; [by eexists|done]|apply in_last].
  - intros r2. apply behaves_ret. intros h [Hp Hin] Hb. apply (dead_windows _ _ _ r); eauto.
Qed.
Lemma pid_alive_dead pid : behaves (fun _ => True) (pid_alive wsl pid) (fun b h => b = false -> dead unseen pid h).
Proof.
  unfold pid_alive. destruct (falsy pid) eqn:Ep; [apply behaves_ret; intros; by apply dead_none|].
  destruct win32 eqn:Ew.
  - apply (behaves_bind _ _ _ _ (fun r h => Ran "powershell.exe" ["-NoProfile"; "-Command"; alive_query pid] plain (inr r) ∈ h)).
    + apply behaves_attempt, behaves_call. intros h _. split; [intros W; by apply queries in W|]. intros r ->. apply in_last.
    + intros r. destruct (succeeded r) eqn:Er; [by apply behaves_ret|by apply wsl_dead].
  - apply (behaves_bind _ _ _ _ (fun r h => succeeded r = false -> dead unseen pid h)); [|intros r; apply behaves_ret; auto].
    apply behaves_attempt, behaves_call. intros h _. split; [intros W; by apply signals in W|].
    intros r E Hr. eapply dead_linux; [done|exact Hr|]. rewrite E. apply in_last.
Qed.
End Unseen.

Lemma silent_alive pid : silent (pid_alive wsl pid).
Proof. eapply behaves_silent, (pid_alive_dead (fun _ => True)). by eapply behaves_weaken. Qed.
Lemma just_shown_last pid command e h : shown pid command e -> just_shown pid command (h ++ [e]).
Proof. intros He. by exists h, e. Qed.
(** The command line of a process comes from the last call, or is empty. *)
Lemma pid_command_shown pid : behaves (fun _ => True) (pid_command wsl pid) (fun c h => c = "" \/ just_shown pid c h).
Proof.
  unfold pid_command. eapply behaves_bind; [apply silent_alive|]. intros []; simpl; [|apply behaves_ret; auto].
  destruct win32 eqn:Ew.
  - apply (behaves_bind _ _ _ _ (fun r h => trimmed_output r = "" \/ just_shown pid (trimmed_output r) h)).
    + apply behaves_attempt, behaves_call. intros h _. split; [intros W; by apply queries in W|].
      intros r E. rewrite E. right. apply just_shown_last. by constructor.
    + intros r. destruct (negb _); [by apply behaves_ret|].
      eapply behaves_bind; [eapply behaves_weaken; [exact silent_wsl|done|done]|]. intros []; [|apply behaves_ret; auto].
      apply (behaves_bind _ _ _ _ (fun r h => trimmed_output r = "" \/ just_shown pid (trimmed_output r) h)); [|intros r2; by apply behaves_ret].
      apply behaves_attempt, behaves_call. intros h _. split; [intros W; by apply commands in W|].
      intros r2 E. rewrite E. right. apply just_shown_last. by constructor.
  - apply behaves_try; [done| |intros; apply behaves_ret; auto].
    apply (behaves_bind _ _ _ _ (fun s h => spaced s = "" \/ just_shown pid (spaced s) h)); [|intros s; by apply behaves_ret].
    apply behaves_attempt, behaves_call. intros h _. split; [intros W; by apply reads in W|].
    intros s E. rewrite E. right. apply just_shown_last. by constructor.
Qed.
Lemma silent_command pid : silent (pid_command wsl pid).
Proof. eapply behaves_silent, pid_command_shown. Qed.

Lemma lasting_node runRoot pid : lasting (node_of runRoot pid).
Proof. intros h h' Hp (c & e & Hin & ?). exists c, e. split; [by eapply lasting_in|done]. Qed.
Lemma lasting_recorded runRoot data : lasting (recorded runRoot data).
Proof. intros h h' Hp (s & Hin & ?). exists s. split; [by eapply lasting_in|done]. Qed.
Lemma lasting_run_shown unseen runRoot pids : lasting unseen -> lasting (run_shown unseen runRoot pids).
Proof.
  intros HU h h' Hp [(data & Hr & ?) Hall]. split; [exists data; split; [by eapply lasting_recorded|done]|].
  intros pid Hin. destruct (Hall pid Hin); [left; by eapply lasting_dead|right; by eapply lasting_node].
Qed.
(** The check of one process of a Besu run, and of all that are alive. *)
Definition node_check (runRoot : string) (pid : value) : MS bool :=
  c ← pid_command wsl pid; mret (besu_command runRoot (toLowerCase c)).
Lemma besu_command_empty runRoot : besu_command runRoot "" = false.
Proof. done. Qed.
Lemma node_check_shown runRoot pid : behaves (fun _ => True) (node_check runRoot pid) (fun b h => b = true -> node_of runRoot pid h).
Proof.
  eapply behaves_bind; [apply pid_command_shown|]. intros c. apply behaves_ret. intros h [->|(h0 & e & -> & He)] Hb; [done|].
  exists c, e. split; [apply in_last|done].
Qed.
Lemma live_nodes unseen runRoot pids :
  lasting unseen -> behaves (fun _ => True) wsl (fun b h => b = false -> unseen h) ->
  behaves (fun _ => True) (live ← filter_m (pid_alive wsl) pids; every_m (node_check runRoot) live)
    (fun b h => b = true -> forall pid, pid ∈ pids -> dead unseen pid h \/ node_of runRoot pid h).
Proof.
  intros HU Hwsl.
  eapply behaves_bind; [apply behaves_filter; [intros pid; by apply lasting_dead|intros pid; by apply pid_alive_dead]|]. intros live.
  eapply behaves_weaken.
  - refine (behaves_frame _ _ _ _ _ (fun h => forall pid, pid ∈ pids -> pid ∈ live \/ dead unseen pid h) _ _).
    + apply (behaves_every _ _ (node_of runRoot) (node_check runRoot) live); [apply lasting_node|apply node_check_shown].
    + intros h h' Hp Hl pid Hin. destruct (Hl pid Hin); [by left|right; by eapply lasting_dead].
  - by intros h Hh; split.
  - simpl. intros b h [Hn Hd] Hb pid Hin. destruct (Hd pid Hin); auto.
Qed.
Lemma metadata_recorded runRoot :
  behaves (fun _ => True) (runMetadata runRoot) (fun v h => falsy v = true \/ recorded runRoot v h).
Proof.
  apply behaves_try; [done| |intros; apply behaves_ret; auto].
  eapply behaves_bind; [apply behaves_read|]. intros s. eapply behaves_weaken; [apply behaves_parse|intros h Hin; exact Hin|].
  intros v h [Hs Hin]. right. by exists s.
Qed.
Lemma silent_metadata runRoot : silent (runMetadata runRoot).
Proof. eapply behaves_silent, metadata_recorded. Qed.
Lemma silent_earlier_runs known : silent (earlier_runs known).
Proof.
  apply silent_try; [|intros; by apply behaves_ret].
  apply silent_bind; [|intros; by apply behaves_ret].
  apply silent_bind; [apply silent_call; apply lists|]. intros []; [apply behaves_throw|by apply behaves_ret].
Qed.
End Looking.

(** ** Waiting, whatever is watched *)

(** Calls other than running a program and removing a file. *)
Definition plain_event (e : Event) : Prop := match e with Ran _ _ _ _ | Removed _ _ => False | _ => True end.
Definition ignores_plain (watched : Event -> Prop) : Prop := forall e, plain_event e -> ~ watched e.

Section Waiting.
Context `{Platform} `{WalletCrypto} `{Machine}.
Context {watched : Event -> Prop} {J : list Event -> Event -> Prop} (plain_ignored : ignores_plain watched).
Abbreviation silent := (silent watched J).
Abbreviation behaves := (behaves watched J).
Hint Resolve silent_prop silent_parse : silent.
Ltac plainly := repeat (first [apply silent_call; intros; apply plain_ignored; exact I | silent_step]).

Lemma silent_end_child e : silent (Up.end_child e).
Proof. plainly. Qed.
Lemma silent_turn : silent Up.turn.
Proof. apply silent_bind; [apply silent_call; intros; by apply plain_ignored|]. intros. apply silent_for_each, silent_end_child. Qed.
Hint Resolve silent_turn : silent.
Lemma silent_poll fuel label check deadline e : silent check -> silent (Up.poll fuel label check deadline e).
Proof.
  intros Hc. revert e. induction fuel as [|fuel IH]; intros e; [apply behaves_throw|].
  apply silent_bind; [plainly|]. intros now. destruct (now <? deadline)%Z; [|apply behaves_throw].
  apply silent_bind; [|intros [b e']; destruct b; [by apply behaves_ret|]; apply silent_bind; [plainly|intros; apply IH]].
  apply silent_try; [|intros; by apply behaves_ret]. apply silent_bind; [done|intros; by apply behaves_ret].
Qed.
Lemma silent_waitFor label check timeoutMs : silent check -> silent (Up.waitFor label check timeoutMs).
Proof. intros Hc. apply silent_bind; [plainly|]. intros. by apply silent_poll. Qed.
Lemma silent_find_named name l : silent (Up.find_named name l).
Proof. induction l; simpl; [by apply behaves_ret|]. apply silent_bind; [apply silent_prop|]. intros n. by destruct (String.eqb _ _);
    [apply behaves_ret|]. Qed.
Hint Resolve silent_find_named : silent.
Lemma silent_fetch_together requests : silent (Up.fetch_together requests).
Proof. plainly. Qed.
Hint Resolve silent_fetch_together : silent.
Lemma silent_jsonRpc method params : silent (Up.jsonRpc method params).
Proof. plainly. Qed.
Lemma silent_probe url : silent (Up.probe url).
Proof. plainly. Qed.
Lemma silent_persist : silent Up.persistState.
Proof. plainly. Qed.
Lemma silent_env k : silent (Up.env k).
Proof. plainly. Qed.
Hint Resolve silent_jsonRpc silent_probe silent_persist silent_env : silent.
(** What a request was answered with. *)
Lemma fetch_answered r : behaves (fun _ => True) (Up.fetch r) (fun reply h => Fetched [r] [inr reply] ∈ h).
Proof.
  apply (behaves_bind _ _ _ _ (fun answers h => exists a, answers = [a] /\ Fetched [r] [a] ∈ h)).
  - apply (behaves_bind _ _ _ _ (fun answers h => exists a, answers = [a] /\ Fetched [r] [a] ∈ h)).
    + apply behaves_call. intros h _. split; [intros W; by apply plain_ignored in W|]. eexists. split; [done|]. apply in_last.
    + intros answers. apply silent_then; [apply silent_turn| |intros; by apply behaves_ret].
      intros h h' Hp (a & ? & Hin). exists a. split; [done|by eapply lasting_in].
  - intros answers w rr w' Hc (a & -> & Hin). destruct a; intros [= <- <-]; (split; [done|]); (split; [done|]); [done|by intros ? [= <-]].
Qed.
Lemma lasting_fetched r a : lasting (fun h => Fetched r a ∈ h).
Proof. apply lasting_in. Qed.
End Waiting.
#[export] Hint Resolve silent_prop silent_parse silent_turn silent_find_named silent_fetch_together silent_jsonRpc silent_probe
    silent_persist silent_env : silent.

(** ** Calls that stop *)

Section Stops.
Context `{Platform} `{WalletCrypto} `{Machine}.
Variable J : list Event -> Event -> Prop.
Abbreviation silent := (silent stops J).
Abbreviation behaves := (behaves stops J).

Lemma stops_not_read path a : ~ stops (Orchestrator.Read path a).
Proof. unwatched. Qed.
Lemma stops_not_list path a : ~ stops (Listed path a).
Proof. unwatched. Qed.
Lemma stops_not_signal pid o a : ~ stops (Ran "kill" ["-0"; pid] o a).
Proof. unwatched. Qed.
Lemma stops_not_query q o a : ~ stops (Ran "powershell.exe" ["-NoProfile"; "-Command"; q] o a).
Proof. unwatched. Qed.
Lemma stops_not_test pid o a : ~ stops (Ran "wsl.exe" ["bash"; "-lc"; alive_test pid] o a).
Proof. unwatched. Qed.
Lemma stops_not_command pid o a : ~ stops (Ran "wsl.exe" ["bash"; "-lc"; command_test pid] o a).
Proof. unwatched. Qed.
Lemma silent_log text : silent (log text).
Proof. apply silent_call. unwatched. Qed.
Lemma silent_exists path : silent (existsSync path).
Proof. apply silent_call. unwatched. Qed.
Lemma silent_version command : silent (spawnSync command ["--version"] plain) \/ command = "taskkill" \/ command = "kill".
Proof.
  destruct (decide (command = "taskkill")); [auto|]. destruct (decide (command = "kill")); [auto|]. left.
  apply silent_bind; [apply silent_call; unwatched|]. intros []; [apply behaves_throw|by apply behaves_ret].
Qed.
(** The group of a process may be stopped where that is justified. *)
Lemma stop_group_justified (P : list Event -> Prop) pid :
  (forall h e, P h -> group_call pid e -> J h e) -> behaves P (stop_group pid) (fun _ _ => True).
Proof.
  intros HP. eapply behaves_bind; [|intros; by apply behaves_ret].
  apply (behaves_silent _ _ _ _ (fun _ _ => True)). unfold group_call in HP. destruct win32; (apply behaves_attempt, behaves_call;
    intros h Hp; split; [|done]);
    intros _; apply HP; [done|eauto|done|eauto].
Qed.
Lemma lasting_some_run unseen runRoot : lasting unseen -> lasting (fun h => exists pids, run_shown unseen runRoot pids h).
Proof. intros HU. apply lasting_ex. intros. by apply lasting_run_shown. Qed.
Lemma run_call_justified (P : list Event -> Prop) runRoot :
  (forall h e, P h -> run_call runRoot e -> J h e) ->
  behaves P (stop_script runRoot) (fun _ _ => True) /\ behaves P (stop_script_wsl runRoot) (fun _ _ => True).
Proof.
  intros HP. split; (eapply behaves_bind; [|intros; by apply behaves_ret]); apply (behaves_silent _ _ _ _ (fun _ _ => True));
    (apply behaves_attempt, behaves_call; intros h Hp; split; [|done]); intros _; (apply HP; [done|]); do 2 eexists; [by left|by right].
Qed.
Lemma stops_plain : ignores_plain stops.
Proof. intros [] Hp W; try done; inversion W. Qed.
End Stops.
#[export] Hint Resolve stops_not_read stops_not_list stops_not_signal stops_not_query stops_not_test stops_not_command : core.
