(* ===== verification/OrchestratorCorrect.v ===== *)
(** * OrchestratorCorrect: what the scripts that stop and start the system may do to it

    [dev-stop.mjs] and [dev-bootstrap.mjs] stop nothing but their own, the
    database is only emptied for a chain that is there, and waiting ends. *)
From S2P Require Import Prelude Effects JsString JsMap JsValue Crypto Concrete Paths DeviceWallet DevWallet JsonText Orchestrator ScriptLogic.
From Stdlib Require Import Ascii.
Local Open Scope string_scope.
Local Open Scope list_scope.

(** ** [dev-stop.mjs] *)

Section StopScript.
Context `{Platform} `{WalletCrypto} `{Machine}.
Abbreviation silent := (silent stops stop_justified).
Abbreviation behaves := (behaves stops stop_justified).

Lemma wsl_always : silent (mret true : MS bool).
Proof. by apply behaves_ret. Qed.
Hint Resolve wsl_always : core.
(** This script always looks into WSL. *)
Lemma wsl_looked : behaves (fun _ => True) (mret true : MS bool) (fun b h => b = false -> False).
Proof. by apply behaves_ret. Qed.
Lemma silent_Stop_alive pid : silent (Stop.alive pid).
Proof. apply silent_alive; auto. Qed.
(** *** Services *)

Lemma owned_service_shown service :
  behaves (fun _ => True) (Stop.ownedService service) (fun b h => b = true -> exists command,
    just_shown (opt_prop "pid" service) command h /\ Stop.marked (Stop.named (opt_prop "name" service)) (toLowerCase command) = true).
Proof.
  apply behaves_prop. eapply behaves_bind; [apply pid_command_shown; auto|]. intros c. apply behaves_prop, behaves_ret.
  intros h [->|Hc] Hm; [|eauto].
  exfalso. revert Hm. unfold Stop.marked. by repeat case_match.
Qed.
Lemma stop_service_justified (P : list Event -> Prop) state l service :
  lasting P -> (forall h, P h -> state_read state h) -> elements (opt_prop "started" state) = Some l -> service ∈ l ->
  behaves P (Stop.stop_service service) (fun _ _ => True).
Proof.
  intros HP Hs Hl Hin. apply behaves_prop. destruct (falsy _); [by apply behaves_ret|].
  eapply behaves_bind.
  { eapply behaves_weaken; [exact (behaves_frame _ _ _ _ _ P (owned_service_shown service) HP)|by split|intros b h Hb; exact Hb]. }
  intros []; [|eapply behaves_weaken; [apply silent_log|done|done]].
  apply (behaves_bind _ _ _ _ (fun _ _ => True)); [|intros _; apply silent_log].
  apply stop_group_justified. intros h e [Hsh Hp] He. destruct (Hsh eq_refl) as (c & Hc & Hm).
  eapply justified_service; eauto.
Qed.

(** *** Besu runs *)

Lemma besuOwned_shown runRoot :
  behaves (fun _ => True) (Stop.besuOwned runRoot) (fun b h => b = true -> exists pids, run_shown (fun _ => False) runRoot pids h).
Proof.
  eapply behaves_bind; [apply metadata_recorded; auto|]. intros data.
  destruct (falsy data) eqn:Ef; [by apply behaves_ret|].
  eapply (behaves_weaken _ _ (recorded runRoot data)); [|intros h [|]; congruence|intros ? ? Hq; exact Hq].
  destruct (negb (orchestrated runRoot) && negb (is_owner (opt_prop "owner" data))) eqn:Eo; [by apply behaves_ret|].
  destruct (opt_prop "pids" data) as [| | | | | |pids|] eqn:Ep; try by apply behaves_ret. simpl.
  pose proof (lasting_recorded runRoot data) as HL.
  apply silent_then; [apply silent_some, silent_Stop_alive|exact HL|]. intros []; simpl; [|by apply behaves_ret].
  eapply behaves_weaken; [apply (behaves_frame _ _ _ _ _ _ (live_nodes _ _ stops_not_read stops_not_signal stops_not_query
    stops_not_test stops_not_command _ wsl_always (fun _ => False) runRoot pids (lasting_pure False) wsl_looked) HL)|by intros h Hd; split|].
  intros b h [Hn Hd] Hb. exists pids. split; [exists data; split; [done|split; [done|]]|by apply Hn].
  apply andb_false_iff in Eo as [E|E]; apply negb_false_iff in E; auto.
Qed.
Lemma stop_run_justified run : silent (Stop.stop_run run).
Proof.
  destruct run as [| | | | |runRoot| |]; try apply behaves_throw.
  apply silent_bind; [apply silent_exists|]. intros []; simpl; [|by apply behaves_ret].
  eapply behaves_bind; [apply besuOwned_shown|]. intros []; simpl; [|by apply behaves_ret].
  set (P h := exists pids, run_shown (fun _ => False) runRoot pids h).
  eapply (behaves_bind _ _ _ _ (fun _ _ => True)); [|intros _; apply silent_log].
  eapply (behaves_weaken _ _ P); [|by intros h Hh; apply Hh|done].
  assert (HP : lasting P) by apply lasting_some_run, lasting_pure.
  destruct (run_call_justified stop_justified P runRoot) as [Hb Hw].
  { intros h e [pids Hr] He. eapply justified_run; eauto. }
  destruct (silent_version stop_justified "wsl.exe") as [Hv|[|]]; [|done..]. destruct (silent_version stop_justified "bash") as [Hv2|[|]]; [|done..].
  destruct win32; (apply silent_then; [done..|]); intros r; destruct (succeeded r); try done; try by apply behaves_ret.
  apply silent_then; [done..|]. intros r2. destruct (succeeded r2); [done|by apply behaves_ret].
Qed.

(** *** Containers and the script *)

Lemma containers_listed (P : list Event -> Prop) l : behaves P (some_m Stop.is_container l) (fun b h => P h /\ (b = true ->
  exists service, service ∈ l /\ (Stop.named (opt_prop "name" service) = "postgres" \/ Stop.named (opt_prop "name" service) = "ipfs"))).
Proof.
  induction l as [|x l IH]; simpl; [by apply behaves_ret|].
  apply (behaves_bind _ _ _ _ (fun b h => (b = true -> Stop.named (opt_prop "name" x) = "postgres" \/ Stop.named (opt_prop "name" x) =
    "ipfs") /\ P h)).
  { apply behaves_prop, behaves_ret. intros h Hp. split; [|done].
    intros [E|E]%orb_true_iff; apply String.eqb_eq in E; auto. }
  intros []; [apply behaves_ret; intros h [Hx Hp]; split; [done|]; intros _; exists x; split; [by left|auto]|].
  eapply behaves_weaken; [exact IH|by intros h [_ Hp]|]. intros b h [Hp Hb]. split; [done|]. intros E.
  destruct (Hb E) as (s & Hs & ?). exists s. split; [by right|done].
Qed.
Lemma any_container_listed (P : list Event -> Prop) started : behaves P (Stop.any_container started) (fun b h => P h /\ (b = true ->
  exists l service, started = VArr l /\ service ∈ l /\
    (Stop.named (opt_prop "name" service) = "postgres" \/ Stop.named (opt_prop "name" service) = "ipfs"))).
Proof.
  unfold Stop.any_container. destruct started as [| | | | | |l|]; simpl; try (by apply behaves_ret); try apply behaves_throw.
  eapply behaves_weaken; [apply containers_listed|done|]. intros b h [Hp Hb]. split; [done|]. intros E.
  destruct (Hb E) as (s & ? & ?). eauto.
Qed.
Lemma lasting_state state : lasting (state_read state).
Proof. intros h h' Hp (s & Hin & ?). exists s. split; [by eapply lasting_in|done]. Qed.
(** The services to stop come from the state file. *)
Definition from_file (state : value) (h : list Event) : Prop := opt_prop "started" state = VArr [] \/ state_read state h.
Lemma lasting_from_file state : lasting (from_file state).
Proof. intros h h' Hp [|]; [by left|right; by eapply lasting_state]. Qed.
Lemma read_state_from_file : behaves (fun _ => True) Stop.read_state (fun state h => from_file state h).
Proof.
  apply silent_then; [apply silent_exists|done|]. intros []; [|apply behaves_ret; by left].
  eapply behaves_bind; [apply behaves_read; auto|]. intros s. eapply behaves_weaken; [apply behaves_parse|intros h Hin; exact Hin|].
  intros state h [Hs Hin]. right. by exists s.
Qed.
Lemma stop_containers_justified (P : list Event -> Prop) :
  (forall h o a, P h -> stop_justified h (Ran "docker" ["compose"; "stop"; "postgres"; "ipfs"] o a)) ->
  behaves P Stop.stop_containers (fun _ _ => True).
Proof.
  intros HP. eapply behaves_bind; [|intros; by apply behaves_ret]. apply (behaves_silent _ _ _ _ (fun _ _ => True)).
  apply behaves_attempt, behaves_call. intros h Hp. split; [intros _; by apply HP|done].
Qed.
Lemma stop_script_silent : silent Stop.script.
Proof.
  eapply behaves_bind; [apply read_state_from_file|]. intros state. apply behaves_prop.
  destruct (elements _) as [l|] eqn:El; [|apply behaves_throw].
  pose proof (lasting_from_file state) as HP. apply (behaves_bind _ _ _ _ (fun x h => x = l /\ from_file state h)); [by apply behaves_ret|].
  intros l'. apply (behaves_bind _ _ _ _ (fun _ => from_file state)).
  { intros w r w' Hc [-> Hf]. revert w r w' Hc Hf. change (behaves (from_file state) (for_each l Stop.stop_service) (fun _ => from_file state)).
    apply behaves_for_each; [done|]. intros service Hin. apply (stop_service_justified _ state l); [done| |done..].
    intros h [E|]; [|done]. rewrite E in El. injection El as <-. by apply elem_of_nil in Hin. }
  intros _. apply silent_then; [apply silent_earlier_runs; auto|done|]. intros runs.
  apply (behaves_bind _ _ _ _ (fun _ => from_file state)).
  { apply silent_yields; [|done]. apply silent_for_each, stop_run_justified. }
  intros _. eapply behaves_bind; [apply any_container_listed|]. intros containers.
  apply (behaves_bind _ _ _ _ (fun _ _ => True)).
  { destruct containers; [|by apply behaves_ret]. apply stop_containers_justified. intros h o a [Hf Hb].
    destruct (Hb eq_refl) as (l2 & service & E & Hin & Hn). destruct Hf as [E2|]; [|by eapply justified_containers].
    rewrite E2 in E. injection E as <-. by apply elem_of_nil in Hin. }
  intros _. apply silent_bind; [apply silent_exists|]. intros there. apply silent_bind; [|intros _; apply silent_log].
  destruct there; [|by apply behaves_ret]. apply (behaves_silent _ _ _ _ (fun _ _ => True)).
  apply behaves_attempt, behaves_call. intros h _. split; [intros _; apply justified_state|done].
Qed.

(** C37: Whatever the machine answers, [dev-stop.mjs] stops nothing but its own: the
    process group of a service that the state file records, whose command line
    the machine just showed and which has the mark of that service; a Besu run
    whose every recorded process was shown to be a node of the run or is gone,
    which on Windows both PowerShell and WSL have said; both containers of the
    database and of IPFS when the state file records one of them; and it
    removes no file but the state file. *)
Theorem stop_only_owned r w h1 e h2 :
  Stop.script fresh_world = (r, w) -> history w = h1 ++ e :: h2 -> stops e -> stop_justified h1 e.
Proof.
  intros E. destruct (stop_script_silent fresh_world r w) as [Hc _]; [by intros []|done|done|]. by apply Hc.
Qed.
End StopScript.

(** ** [dev-bootstrap.mjs]: what it stops *)

(** [bash], or on Windows [wsl.exe], answers whenever the script asks for it. *)
Definition answers_version `{Machine} (command : string) : Prop := forall h r,
  on_run h command ["--version"] (Options.mk None win32 None) = inr r -> succeeded r = true.
Class Launcher `{Machine} : Prop := launcher : answers_version "bash" \/ (win32 = true /\ answers_version "wsl.exe").
(** The names of the three shell scripts stay apart in their paths. *)
Class ScriptPaths `{Machine} := {
  start_apart : path_join ["scripts"; "start-besu-prototype.sh"] <> path_join ["scripts"; "stop-besu-bel-demo.sh"];
  deploy_apart : path_join ["scripts"; "deploy-besu-prototype.sh"] <> path_join ["scripts"; "stop-besu-bel-demo.sh"];
}.
Lemma app_string_cancel (a b c : string) : a +:+ b = a +:+ c -> b = c.
Proof. induction a; simpl; [done|]. intros [= E]. auto. Qed.
Lemma script_line_apart `{Machine} script runRoot runRoot' : Up.wsl_script_line script runRoot <> wsl_stop_line runRoot'.
Proof.
  unfold Up.wsl_script_line, wsl_stop_line. intros E. apply (app_string_cancel "cd '") in E. apply app_string_cancel in E.
  simpl in E. discriminate E.
Qed.

Lemma stops_wsl_line `{Platform} `{Machine} line o a : stops (Ran "wsl.exe" ["bash"; "-lc"; line] o a) -> exists r, line = wsl_stop_line r.
Proof. intros W. inversion W. eauto. Qed.

Section UpScript.
Context `{Platform} `{WalletCrypto} `{Machine} `{!ScriptPaths} `{!Launcher}.
Context (argv : list string).
Abbreviation silent := (silent stops up_justified).
Abbreviation behaves := (behaves stops up_justified).

Lemma wsl_there_silent : silent Up.wsl_there.
Proof. silently. Qed.
Lemma wsl_there_missing : behaves (fun _ => True) Up.wsl_there (fun b h => b = false -> wsl_missing h).
Proof.
  apply (behaves_bind _ _ _ _ (fun r h => succeeded r = false -> wsl_missing h)); [|intros r; apply behaves_ret; auto].
  apply behaves_attempt, behaves_call. intros h _. split; [intros W; by inversion W|]. intros r E Hr. exists r. split; [done|].
  rewrite E. apply in_last.
Qed.
(** A program that answers is there. *)
Lemma version_there (P : list Event -> Prop) command : lasting P -> answers_version command ->
  command <> "taskkill" -> command <> "kill" -> behaves P (Up.commandExists command) (fun b h => b = true /\ P h).
Proof.
  intros HP Hc Ht Hk. apply (behaves_bind _ _ _ _ (fun r h => succeeded r = true /\ P h)); [|intros r; apply behaves_ret; auto].
  apply behaves_attempt, behaves_call. intros h Hp. split; [intros W; by inversion W|]. intros r E. split; [by eapply Hc|].
  eapply HP; [by eexists|done].
Qed.
Hint Resolve wsl_there_silent : core silent.
Lemma silent_run_json runRoot : silent (runMetadata runRoot).
Proof. apply silent_metadata; auto. Qed.
Lemma silent_runs known : silent (earlier_runs known).
Proof. apply silent_earlier_runs; auto. Qed.
Hint Resolve silent_run_json silent_runs : silent.
Lemma silent_pidAlive pid : silent (Up.pidAlive pid).
Proof. apply silent_alive; auto. Qed.
Lemma silent_processCommand pid : silent (Up.processCommand pid).
Proof. apply silent_command; auto. Qed.
Hint Resolve silent_pidAlive silent_processCommand : silent.
(** *** Runs and services *)

Lemma run_stopped runRoot pids :
  behaves (run_shown wsl_missing runRoot pids) (stop_script runRoot) (fun _ _ => True) /\
  behaves (run_shown wsl_missing runRoot pids) (stop_script_wsl runRoot) (fun _ _ => True).
Proof. apply run_call_justified. intros h e Hr He. eapply up_run; eauto. Qed.
Lemma stop_nodes_justified runRoot pids : answers_version "bash" ->
  behaves (run_shown wsl_missing runRoot pids) (Up.stop_nodes runRoot pids) (fun _ _ => True).
Proof.
  intros Hb. eapply behaves_bind; [by apply version_there; [apply lasting_run_shown, lasting_wsl_missing|..]|].
  intros b w r w' Hc [-> Hp]. exact (proj1 (run_stopped runRoot pids) w r w' Hc Hp).
Qed.
Lemma stop_besu_justified runRoot pids : behaves (run_shown wsl_missing runRoot pids)
  (if win32 then w ← Up.wsl_there; if w : bool then stop_script_wsl runRoot else Up.stop_nodes runRoot pids
   else Up.stop_nodes runRoot pids) (fun _ _ => True).
Proof.
  assert (HL : lasting (run_shown wsl_missing runRoot pids)) by apply lasting_run_shown, lasting_wsl_missing.
  destruct launcher as [Hb|[-> Hw]].
  - destruct win32; [|by apply stop_nodes_justified].
    apply silent_then; [done|done|]. intros []; [apply run_stopped|by apply stop_nodes_justified].
  - eapply behaves_bind; [by apply version_there|]. intros b w r w' Hc [-> Hp]. exact (proj2 (run_stopped runRoot pids) w r w' Hc Hp).
Qed.
Lemma stopBesuRun_justified runRoot : silent (Up.stopBesuRun runRoot).
Proof.
  eapply behaves_bind; [apply metadata_recorded; auto|]. intros data.
  destruct (falsy data) eqn:Ef; [by apply behaves_ret|].
  destruct (_ && _) eqn:Eo; [by apply behaves_ret|].
  destruct (opt_prop "pids" data) as [| | | | | |pids|] eqn:Ep; try by apply behaves_ret. simpl.
  eapply (behaves_weaken _ _ (recorded runRoot data)); [|intros h [|]; congruence|intros ? ? Hq; exact Hq].
  apply behaves_assoc, (behaves_bind _ _ _ _ (fun b h => b = true -> run_shown wsl_missing runRoot pids h)).
  { eapply behaves_weaken; [exact (behaves_frame _ _ _ _ _ _ (live_nodes _ _ stops_not_read stops_not_signal stops_not_query
      stops_not_test stops_not_command _ wsl_there_silent _ runRoot pids lasting_wsl_missing wsl_there_missing) (lasting_recorded runRoot data))|by intros h Hd; split|].
    intros b h [Hn Hd] Hb. split; [exists data; split; [done|split; [done|]]|by apply Hn].
    apply andb_false_iff in Eo as [E|E]; apply negb_false_iff in E; auto. }
  intros []; simpl; [|by apply behaves_ret].
  eapply (behaves_weaken _ _ (run_shown wsl_missing runRoot pids)); [|by intros h Hr; apply Hr|intros ? ? Hq; exact Hq].
  apply (behaves_bind _ _ _ _ (fun _ _ => True)); [apply stop_besu_justified|intros _; by apply behaves_ret].
Qed.
Lemma service_owned_shown record :
  behaves (fun _ => True) (Up.serviceOwned record) (fun b h => b = true -> exists name command,
    just_shown (opt_prop "pid" record) command h /\ Up.marked name (toLowerCase command) = true).
Proof.
  unfold Up.serviceOwned. cbv zeta. destruct (falsy _); [by apply behaves_ret|].
  apply silent_then; [apply silent_pidAlive|done|]. intros []; simpl; [|by apply behaves_ret].
  eapply behaves_bind; [apply pid_command_shown; auto|]. intros c. apply behaves_ret. intros h [->|Hc] Hm; [|eauto].
  exfalso. revert Hm. unfold Up.marked. by repeat case_match.
Qed.
Lemma stopOwnedService_justified record : silent (Up.stopOwnedService record).
Proof.
  eapply behaves_bind; [apply service_owned_shown|]. intros []; simpl; [|by apply behaves_ret].
  apply (behaves_bind _ _ _ _ (fun _ _ => True)); [|intros _; by apply behaves_ret].
  apply stop_group_justified. intros h e Hsh He. destruct (Hsh eq_refl) as (name & c & Hc & Hm). eapply up_service; eauto.
Qed.
Lemma silent_serviceOwned record : silent (Up.serviceOwned record).
Proof. eapply behaves_silent, service_owned_shown. Qed.
Hint Resolve stopBesuRun_justified stopOwnedService_justified silent_serviceOwned : silent.

(** *** Everything else *)

Hint Resolve stops_plain : silent.
Ltac silently_up := intros; repeat (first [apply (silent_waitFor stops_plain) | silent_step]).

(** Running a script of the chain with bash, and through WSL. *)
Lemma silent_run_script script runRoot environment :
  path_join ["scripts"; script] <> path_join ["scripts"; "stop-besu-bel-demo.sh"] ->
  silent (Up.run "bash" [path_join ["scripts"; script]; runRoot] environment).
Proof.
  intros Hs. apply silent_bind; [silently|]. intros base. apply silent_bind; [|silently].
  apply silent_bind; [apply silent_call; intros a W; by inversion W|]. intros []; [apply behaves_throw|by apply behaves_ret].
Qed.
Lemma silent_run_wsl script runRoot : silent (Up.run "wsl.exe" ["bash"; "-lc"; Up.wsl_script_line script runRoot] []).
Proof.
  apply silent_bind; [silently|]. intros base. apply silent_bind; [|silently].
  apply silent_bind; [apply silent_call; intros a W|intros []; [apply behaves_throw|by apply behaves_ret]].
  apply stops_wsl_line in W as [runRoot' E]. by apply script_line_apart in E.
Qed.
Lemma silent_besu_script script runRoot :
  path_join ["scripts"; script] <> path_join ["scripts"; "stop-besu-bel-demo.sh"] -> silent (Up.runBesuScript script runRoot).
Proof.
  intros Hs. pose proof (fun r e => silent_run_script script r e Hs) as Hr. pose proof (silent_run_wsl script runRoot) as Hw.
  unfold Up.runBesuScript, Up.bash_script. destruct win32; (apply silent_bind; [silently|]); intros []; try done;
    (apply silent_bind; [silently|]); intros []; try done; apply behaves_throw.
Qed.
Lemma silent_verify admin : silent (Up.verifyDeployment admin).
Proof. silently_up. Qed.
Hint Resolve silent_verify : silent.
Lemma silent_start_besu runRoot : silent (Up.start_besu runRoot).
Proof.
  apply silent_bind; [apply silent_besu_script, start_apart|]. intros _.
  repeat (first [apply (silent_bind _ _ (Up.runBesuScript _ _));
    [apply silent_besu_script, deploy_apart|intros _] | apply (silent_waitFor stops_plain) | silent_step]).
Qed.
Lemma silent_infra : silent Up.start_infra.
Proof. silently_up. Qed.
Lemma silent_make_way service f u l : silent (Up.make_way service f u l).
Proof. silently_up. Qed.
Hint Resolve silent_start_besu silent_infra silent_make_way : silent.
Lemma silent_launch name word label command args env url :
  command <> "taskkill" -> silent (Up.launch name word label command args env url).
Proof. silently_up. Qed.
Lemma silent_ready_wallet s runRoot inputs expected : silent (Up.ready_wallet s runRoot inputs expected).
Proof. silently_up. Qed.
Lemma silent_backend_env s expected identity : silent (Up.backend_env s expected identity).
Proof. silently_up. Qed.
Lemma silent_database expected benv : silent (Up.ready_database expected benv).
Proof. silently_up. Qed.
Lemma silent_backend expected benv : silent (Up.ready_backend expected benv).
Proof. silently_up. Qed.
Lemma silent_frontend s : silent (Up.ready_frontend s).
Proof. silently_up. Qed.
Hint Resolve silent_ready_wallet silent_backend_env silent_database silent_backend silent_frontend : silent.
Lemma silent_stale : silent Up.stopOwnedStaleServices.
Proof. silently_up. Qed.
Lemma silent_stale_besu : silent Up.stopOwnedStaleBesu.
Proof. silently_up. Qed.
Hint Resolve silent_stale silent_stale_besu : silent.
Lemma silent_main : silent (Up.main argv).
Proof. silently_up. Qed.
Lemma silent_cleanup : silent Up.cleanupAfterFailure.
Proof. silently_up. Qed.
Hint Resolve silent_main silent_cleanup : silent.
Lemma silent_up_script : silent (Up.script argv).
Proof. silently_up. Qed.

(** C36: On a machine where [bash], or on Windows [wsl.exe], answers whenever it is
    asked for its version, and whatever the machine answers besides,
    [dev-bootstrap.mjs] stops nothing but this, when it succeeds and when it
    fails: the process group of a process whose command
    line the machine just showed and which has the mark of a service; or a Besu
    run, by its own script, when every recorded process was shown to be a node
    of the run or is gone, which on Windows both PowerShell and WSL have said,
    or PowerShell and WSL is missing.  Without [bash] the nodes would be ended
    one by one, and that can hit a newcomer ([newcomer_ended]). *)
Theorem up_only_owned r w h1 e h2 :
  Up.script argv fresh_world = (r, w) -> history w = h1 ++ e :: h2 -> stops e -> up_justified h1 e.
Proof.
  intros E. destruct (silent_up_script fresh_world r w) as [Hc _]; [by intros []|done|done|]. by apply Hc.
Qed.
End UpScript.

(** ** [dev-bootstrap.mjs]: when it empties the database *)

Section Reset.
Context `{Platform} `{WalletCrypto} `{Machine}.
Context (argv : list string).
Abbreviation silent := (silent resets reset_justified).
Abbreviation behaves := (behaves resets reset_justified).
Lemma resets_plain : ignores_plain resets.
Proof. intros [] Hp W; try done; inversion W. Qed.
Hint Resolve resets_plain : silent.
Ltac silently_reset := intros; repeat (first [apply (silent_waitFor resets_plain) | silent_step]).

(** *** The deployment *)

Lemma jsonRpc_answered address :
  behaves (fun _ => True) (Up.jsonRpc "eth_getCode" [VStr address; VStr "latest"])
    (fun v h => forall code, v = VStr code -> Up.code_pattern code = true -> has_code address h).
Proof.
  eapply behaves_bind; [apply (fetch_answered resets_plain)|]. intros reply.
  destruct (Reply.ok reply) eqn:Eo; [|apply behaves_throw]. unfold Up.body_of. simpl.
  destruct (Reply.json reply) as [e|body] eqn:Eb; [apply behaves_throw_bind|]. apply behaves_ret_bind, behaves_prop.
  destruct (falsy _) eqn:Ee; [|apply behaves_throw]. apply behaves_ret. intros h Hin code Ec Hc. exists reply, body, code. split;
    [exact Hin|by split_and!].
Qed.
Lemma lasting_code a : lasting (has_code a).
Proof. intros h h' Hp (reply & body & code & Hin & ?). exists reply, body, code. split; [by eapply lasting_in|done]. Qed.
Definition contract_there (entry : string * value) (h : list Event) : Prop :=
  exists a, snd entry = VStr a /\ Up.address_pattern a = true /\ has_code a h.
Lemma lasting_contract entry : lasting (contract_there entry).
Proof. intros h h' Hp (a & ? & ? & Hc). exists a. split; [done|]. split; [done|by eapply lasting_code]. Qed.
Lemma verify_contract_there entry : behaves (fun _ => True) (Up.verify_contract entry) (fun _ => contract_there entry).
Proof.
  destruct entry as [name v]. unfold Up.verify_contract. cbv zeta. destruct v as [| | | | |a| |]; try apply behaves_throw.
  destruct (Up.address_pattern a) eqn:Ea; [|apply behaves_throw]. simpl.
  eapply behaves_bind; [apply jsonRpc_answered|]. intros code. destruct code as [| | | | |c| |]; try apply behaves_throw.
  destruct (Up.code_pattern c) eqn:Ec; [|apply behaves_throw]. apply behaves_ret. intros h Hc. exists a. eauto.
Qed.
Lemma verify_contracts_there l :
  behaves (fun _ => True) (for_each l Up.verify_contract) (fun _ h => forall entry, entry ∈ l -> contract_there entry h).
Proof.
  induction l as [|x l IH]; simpl; [apply behaves_ret; by intros h _ x ?%elem_of_nil|].
  apply (behaves_bind _ _ _ _ (fun _ => contract_there x)); [apply verify_contract_there|]. intros _.
  eapply behaves_weaken; [exact (behaves_frame _ _ _ _ _ _ IH (lasting_contract x))|by split|].
  intros _ h [Hl Hx] entry [->|Hin]%elem_of_cons; auto.
Qed.
Lemma lower_prop_same {A} P what v (f : option string -> MS A) Q :
  (forall a, v = VStr a -> behaves P (f (Some (toLowerCase a))) Q) -> (behaves P (f None) Q) -> behaves P (Up.lower_prop what v ≫= f) Q.
Proof. intros Hs Hn. destruct v; try (apply behaves_throw_bind); [exact Hn..|by apply Hs]. Qed.
Lemma verified_deployed admin : behaves (fun _ => True) (Up.verifyDeployment admin) (fun _ => deployed admin).
Proof.
  apply (behaves_bind _ _ _ _ (fun d h => exists s, Orchestrator.Read Up.deploymentPath (inr s) ∈ h /\ JSON_parse s = Some d)).
  { apply behaves_try; [done| |intros; apply behaves_throw]. eapply behaves_bind; [apply behaves_read; intros; by apply resets_plain|].
    intros s. eapply behaves_weaken; [apply behaves_parse|intros h Hin; exact Hin|]. intros d h [? ?]. eauto. }
  intros d. apply behaves_prop. destruct (Up.is_number _ _) eqn:En; [|apply behaves_throw]. cbn [negb].
  apply lower_prop_same; [|apply behaves_throw]. intros a Ea.
  destruct (Up.same _ _) eqn:Es; [|apply behaves_throw]. cbn [negb]. apply bool_decide_eq_true in Es. injection Es as Es.
  destruct (Up.entries _) as [contracts|] eqn:Ec; [|apply behaves_throw].
  set (P h := exists s, Orchestrator.Read Up.deploymentPath (inr s) ∈ h /\ JSON_parse s = Some d).
  assert (HP : lasting P). { intros h h' Hp (s & Hin & ?). exists s. split; [by eapply lasting_in|done]. }
  eapply behaves_weaken; [exact (behaves_frame _ _ _ _ _ _ (verify_contracts_there contracts) HP)|by intros h Hh; split|].
  intros _ h [Hall (s & Hin & Hj)]. exists s, d, contracts. do 4 (split; [done|]). split; [by exists a|].
  intros name v Hv. by destruct (Hall _ Hv) as (b & ? & ? & ?); eauto.
Qed.

(** *** The wallet *)

(** [identity] is what a wallet answered. *)
Definition answered (identity : value) (h : list Event) : Prop := exists url reply,
  Fetched [Up.get url] [inr reply] ∈ h /\ Reply.json reply = inr identity.
Lemma lasting_answered identity : lasting (answered identity).
Proof. intros h h' Hp (url & reply & Hin & ?). exists url, reply. split; [by eapply lasting_in|done]. Qed.
Lemma fetch_identity_answered url : behaves (fun _ => True) (Up.fetch_identity url) (fun identity => answered identity).
Proof.
  eapply behaves_bind; [apply (fetch_answered resets_plain)|]. intros reply. unfold Up.body_of.
  destruct (Reply.json reply) as [e|identity] eqn:Ej; [apply behaves_throw|]. apply behaves_ret. intros h Hin. by exists url, reply.
Qed.
(** An identity has the text [expected], whatever its case, under [k]. *)
Definition has_text (k expected : string) (identity : value) : Prop :=
  exists a, opt_prop k identity = VStr a /\ toLowerCase a = toLowerCase expected.
Lemma same_text (P : list Event -> Prop) k what expected identity :
  behaves P (v ← read_prop k identity; a ← Up.lower_prop what v; mret (Up.same a expected))
    (fun b h => P h /\ (b = true -> has_text k expected identity)).
Proof.
  apply behaves_prop, lower_prop_same; [|by apply behaves_ret]. intros a Ea. apply behaves_ret. intros h Hp. split; [done|].
  intros Hb%bool_decide_eq_true. injection Hb as Hb. by exists a.
Qed.
Lemma check_identity_passed (P : list Event -> Prop) expected identity :
  behaves P (Up.check_identity expected identity) (fun _ h => P h /\ forall admin, expected = Some admin ->
    has_text "walletAddress" (Up.walletAddress admin) identity /\ has_text "publicKey" (Up.publicKey admin) identity).
Proof.
  destruct expected as [admin|]; [|by apply behaves_ret]. simpl.
  eapply behaves_bind; [apply same_text|]. intros []; [|apply behaves_throw]. simpl.
  eapply behaves_bind; [apply same_text|]. intros []; [|apply behaves_throw]. apply behaves_ret.
  intros h [[Hp Ha] Hk]. split; [done|]. intros ? [= <-]. auto.
Qed.
Lemma reuse_answered s expected priorWallet :
  behaves (fun _ => True) (Up.reuse_wallet s expected priorWallet) (fun v h => falsy v = true \/ answered v h).
Proof.
  eapply behaves_bind; [apply fetch_identity_answered|]. intros identity.
  apply silent_then; [silently_reset|apply lasting_answered|]. intros [].
  - apply silent_then; [silently_reset|apply lasting_answered|]. intros _. apply behaves_ret. auto.
  - apply silent_then; [silently_reset|apply lasting_answered|]. intros _. apply behaves_ret. auto.
Qed.
Lemma ready_wallet_identified s runRoot inputs expected :
  behaves (fun _ => True) (Up.ready_wallet s runRoot inputs expected)
    (fun _ h => forall admin, expected = Some admin -> identified admin h).
Proof.
  apply silent_then; [silently_reset|done|intros dir]. apply silent_then; [silently_reset|done|intros priorWallet].
  apply silent_then; [silently_reset|done|intros there]. apply (behaves_bind _ _ _ _ (fun v h => falsy v = true \/ answered v h)).
  { destruct there; [apply reuse_answered|apply behaves_ret; by left]. }
  intros found. apply (behaves_bind _ _ _ _ answered).
  { destruct (falsy found) eqn:Ef; [|apply behaves_ret; intros h [|]; [congruence|done]].
    eapply behaves_weaken; [|intros ? _; exact I|intros ? ? Hq; exact Hq].
    apply silent_then; [silently_reset|done|]. intros _. apply fetch_identity_answered. }
  intros identity. eapply behaves_bind; [apply check_identity_passed|]. intros ?. apply behaves_ret.
  intros h [(url & reply & Hin & Hj) Hall] admin Ea. destruct (Hall admin Ea) as [(address & ? & ?) (key & ? & ?)].
  exists url, reply, identity, address, key. by split_and!.
Qed.

(** *** The whole script *)

Lemma lasting_deployed admin : lasting (deployed admin).
Proof.
  intros h h' Hp (s & d & contracts & Hin & Hj & Hn & Hc & Ha & Hall). exists s, d, contracts.
  split; [by eapply lasting_in|]. do 4 (split; [done|]). intros name v Hv.
  destruct (Hall name v Hv) as (a & ? & ? & Hcode). exists a. split; [done|]. split; [done|by eapply lasting_code].
Qed.
Lemma lasting_identified admin : lasting (identified admin).
Proof. intros h h' Hp (url & reply & identity & a & k & Hin & ?). exists url, reply, identity, a, k. split; [by eapply lasting_in|done]. Qed.
Lemma start_besu_deployed runRoot : behaves (fun _ => True) (Up.start_besu runRoot) (fun c => deployed (snd c)).
Proof.
  do 6 (apply silent_then; [silently_reset|done|intros ?]). destruct (negb _); [apply behaves_throw|].
  do 9 (apply silent_then; [silently_reset|done|intros ?]). destruct (negb _); [apply behaves_throw|].
  apply silent_then; [silently_reset|done|intros _]. eapply behaves_bind; [apply verified_deployed|]. intros ?. by apply behaves_ret.
Qed.
(** Both conditions, for the administrator of a fresh chain. *)
Definition checked (expected : option Up.Admin) (h : list Event) : Prop :=
  forall admin, expected = Some admin -> deployed admin h /\ identified admin h.
Lemma lasting_checked expected : lasting (checked expected).
Proof. intros h h' Hp Hc admin Ea. destruct (Hc admin Ea). split; [by eapply lasting_deployed|by eapply lasting_identified]. Qed.
Lemma database_reset expected benv : behaves (checked expected) (Up.ready_database expected benv) (fun _ _ => True).
Proof.
  apply (behaves_bind _ _ _ _ (fun _ _ => True)); [|intros _; silently_reset].
  destruct expected as [admin|]; [|by apply behaves_ret].
  apply silent_then; [silently_reset|apply lasting_checked|]. intros base.
  apply (behaves_bind _ _ _ _ (fun _ _ => True)); [|silently_reset].
  apply behaves_attempt, behaves_call. intros h Hc. split; [intros _; exists admin; by apply Hc|done].
Qed.
Lemma main_resets : silent (Up.main argv).
Proof.
  do 8 (apply silent_bind; [silently_reset|intros ?]).
  apply (behaves_bind _ _ _ _ (fun chain h => forall admin, snd <$> chain = Some admin -> deployed admin h)).
  { destruct (Up.skipBesu argv); [by apply behaves_ret|]. eapply behaves_bind; [apply start_besu_deployed|].
    intros c. apply behaves_ret. by intros h Hd admin [= <-]. }
  intros chain. set (D h := forall admin, snd <$> chain = Some admin -> deployed admin h).
  assert (HD : lasting D). { intros h h' Hp Hd admin Ea. eapply lasting_deployed; eauto. }
  apply silent_then; [silently_reset|done|]. intros s.
  apply (behaves_bind _ _ _ _ (fun _ => checked (snd <$> chain))).
  { eapply behaves_weaken; [exact (behaves_frame _ _ _ _ _ _ (ready_wallet_identified s a6 (fst <$> chain) (snd <$> chain)) HD)|by split|].
    intros identity h [Hi Hd] admin Ea. auto. }
  intros identity. apply silent_then; [silently_reset|apply lasting_checked|]. intros benv.
  apply (behaves_bind _ _ _ _ (fun _ _ => True)); [apply database_reset|]. intros _. silently_reset.
Qed.
Hint Resolve main_resets : silent.
Lemma script_resets : silent (Up.script argv).
Proof. silently_reset. Qed.

(** C35: Whatever the machine answers, [dev-bootstrap.mjs] only empties the
    database for a chain that is there: the deployment file was read and names
    the chain and an administrator, the node answered for every contract in
    the file that there is code at its address, and the development wallet
    answered with the address and the key of that administrator. *)
Theorem reset_after_deployment r w h1 e h2 :
  Up.script argv fresh_world = (r, w) -> history w = h1 ++ e :: h2 -> resets e ->
  exists admin, deployed admin h1 /\ identified admin h1.
Proof.
  intros E. destruct (script_resets fresh_world r w) as [Hc _]; [by intros []|done|done|]. by apply Hc.
Qed.
End Reset.

(** ** Waiting ends *)

(** A clock that does not run backwards and moves while the script sleeps. *)
Class Ticking `{Machine} := {
  now_grows : forall h h', (on_now h <= on_now (h ++ h'))%Z;
  sleep_takes : forall h h1 ms h2, (on_now h < on_now (h ++ h1 ++ Slept ms :: h2))%Z;
}.
Lemma bind_agree {A B} (m : MS A) (k k' : A -> MS B) w :
  (forall a w1, m w = (inr a, w1) -> k a w1 = k' a w1) -> (m ≫= k) w = (m ≫= k') w.
Proof. intros Hk. unfold mbind, M_bind. destruct (m w) as [[e|a] w1]; [done|by apply Hk]. Qed.

Section Ticks.
Context `{Platform} `{WalletCrypto} `{Machine} `{!Ticking}.

(** A computation that only adds to the history. *)
Abbreviation talks := (silent (fun _ => False) (fun _ _ => True)).
Lemma talks_plain : ignores_plain (fun _ => False).
Proof. by intros e _ []. Qed.
Lemma talks_prefix {A} (m : MS A) w r w' : talks m -> m w = (r, w') -> history w `prefix_of` history w'.
Proof. intros Hm E. destruct (Hm w r w') as (_ & ? & _); [by intros h1 e h2 _ []|done|done|done]. Qed.
Lemma sleep_moves ms w u w' : Up.sleep ms w = (inr u, w') -> exists h2, history w' = history w ++ Slept ms :: h2.
Proof.
  intros (a & w1 & [= <- <-] & Ht)%bind_inr. apply talks_prefix in Ht as [h2 E]; [|apply (silent_turn talks_plain)].
  simpl in E. exists h2. by rewrite E, <- app_assoc.
Qed.
Lemma talks_try_once check e : talks check -> talks (Up.try_once check e).
Proof. intros Hc. apply silent_try; [|intros; by apply behaves_ret]. apply silent_bind; [done|intros; by apply behaves_ret]. Qed.
(** Any fuel beyond the milliseconds that are left makes the same run. *)
Lemma poll_fuel label check deadline : talks check -> forall n m e w,
  (1 <= n)%nat -> (1 <= m)%nat -> (deadline - on_now (history w) < Z.of_nat n)%Z -> (deadline - on_now (history w) < Z.of_nat m)%Z ->
  Up.poll n label check deadline e w = Up.poll m label check deadline e w.
Proof.
  intros Hc n. induction n as [|n IH]; intros m e w Hn Hm Hdn Hdm; [lia|]. destruct m as [|m]; [lia|].
  apply bind_agree. intros now w1 [= <- <-]. simpl. destruct (Z.ltb_spec (on_now (history w)) deadline) as [Hlt|]; [|done].
  apply bind_agree. intros r w2 Hr%talks_prefix; [|by apply talks_try_once]. destruct Hr as [h1 Hr]. simpl in Hr.
  destruct (fst r); [done|]. apply bind_agree. intros u w3 [h2 Hs]%sleep_moves.
  assert (on_now (history w) < on_now (history w3))%Z by (rewrite Hs, Hr, <- app_assoc, <- app_assoc; apply (sleep_takes _ (_ :: h1))).
  apply IH; lia.
Qed.
(** [waitFor] with any number of tries. *)
Definition wait_with (tries : nat) (label : string) (check : MS bool) (timeoutMs : Z) : MS unit :=
  now ← Date_now_ms; Up.poll tries label check (now + timeoutMs) "not ready".
(** On a machine whose clock moves while the script sleeps, a wait ends before
    its tries do: whatever the check does, and for any number of tries above
    the one per millisecond that the model allows, the run is the same. *)
Theorem waits_end tries label check timeoutMs w : talks check -> (Up.patience timeoutMs <= tries)%nat ->
  wait_with tries label check timeoutMs w = Up.waitFor label check timeoutMs w.
Proof.
  unfold Up.patience. intros Hc Ht. apply bind_agree. intros now w1 [= <- <-].
  pose proof (now_grows (history w) [Told (on_now (history w))]).
  apply poll_fuel; [done|..]; unfold Up.patience; cbn [history with_history]; lia.
Qed.
End Ticks.

(** ** Witnesses *)

Section Demo.
(** A machine with a backend of an earlier run, and whose chain, wallet and servers come up. *)
Definition demo_address : string := "0x" +:+ repeat_char "a"%char 40.
Definition demo_json (s : string) : option value :=
  if String.eqb s "state" then
    Some (VObj [("started", VArr [VObj [("name", VStr "backend"); ("pid", VStr "7"); ("logPath", VStr "backend.log")]]); ("runRoot", VNull)])
  else if String.eqb s "run" then
    Some (VObj [("owner", VStr OWNER); ("pids", VArr []); ("testAccountKeys", VStr "keys")])
  else if String.eqb s "deployment" then
    Some (VObj [("chainId", VNum (num_of_Z 20260920)); ("bootstrapAdminWallet", VStr "0xA");
                ("contracts", VObj [("JobManager", VStr demo_address)])])
  else None.
#[local] Instance demo_platform : Platform := {|
  process_env _ := None; Date_now n := Z.of_nat n; toISOString := spell_Z; Date_parse := read_Z;
  randomUUID_at := spell_Z ∘ Z.of_nat; randomBytes_at := spell_Z ∘ Z.of_nat; sha256_hex s := s; Number_of _ := NaN;
  String_of v := match v with VNum n => match as_integer n with Some z => spell_Z z | None => "NaN" end | _ => "" end;
  JSON_stringify := stringify; JSON_parse := demo_json; public_key := string;
  createPublicKey_pem s := Some s; createPublicKey_der s := Some s; bytes_of_hex s := s; bytes_of_base64url s := s;
  crypto_verify _ _ _ _ := None; isAddress := startsWith "0x"; getAddress s := Some s; computeAddress s := Some s;
  hashMessage s := s; recoverAddress _ _ _ _ := None;
|}.
#[local] Instance demo_crypto : WalletCrypto := {|
  Wallet := unit; new_Wallet _ := inr tt; Wallet_privateKey _ := "k1"; Wallet_address _ := "0xA"; signingKey_publicKey _ := "0x04BB";
  Wallet_signMessage _ _ := inl NoError; Wallet_signTransaction _ _ := inl NoError; Signature_from _ := inl NoError;
  scryptSync secret salt _ := secret +:+ salt; gcm_encrypt k iv p := (p, k +:+ iv); gcm_decrypt k iv tag c := inr c;
  to_base64url s := s; bytes_to_hex s := s; Buffer_from_base64url v := inl NoError; JSON_pretty := stringify; syntax_error _ := NoError;
|}.
Definition stopped_before (h : list Event) : bool :=
  existsb (fun e => match e with Ran "kill" ("-TERM" :: _) _ _ => true | _ => false end) h.
Definition started_before (script : string) (h : list Event) : bool :=
  existsb (fun e => match e with Spawned _ args _ _ => existsb (String.eqb script) args | _ => false end) h.
Definition demo_reply (v : value) : Fault + Reply.t := inr (Reply.mk true 200 (inr v)).
Definition up_reply (b : bool) : Fault + Reply.t := inr (Reply.mk b 200 (inr VNull)).
#[local] Instance demo_machine : Machine := {|
  win32 := false; execPath := "/bin/node"; root := "/r"; path_join := join_strings "/"; bad_path _ := NoError; JSON_list _ := "";
  on_look h path := true;
  on_read h path :=
    if includes "state.json" path then inr "state" else if includes "run.json" path then inr "run"
    else if includes "besu-prototype.json" path then inr "deployment" else if String.eqb path "keys" then inr "k1"
    else if String.eqb path "/proc/7/cmdline" then inr "node backend/src/index.ts" else inl NoError;
  on_list h path := inr []; on_write h path text := inr tt; on_make_dir h path := inr tt; on_remove h path := inr tt;
  on_open_log h path := inr tt;
  on_run h command args o :=
    inr (Exit.mk (Some (if String.eqb command "kill" && stopped_before h then 1 else 0)%Z) (Some ""));
  on_spawn h command args o := inr (Some 9%Z);
  on_fetch h n r :=
    match Request.body r with
    | Some b => demo_reply (VObj [("result", VStr (if includes "eth_getCode" b then "0x60" else "0x1352838"))])
    | None =>
        if includes "/identity" (Request.url r) then demo_reply (VObj [("walletAddress", VStr "0xa"); ("publicKey", VStr "0xBB")])
        else if String.eqb (Request.url r) Up.backendUrl then up_reply (started_before "dev:backend" h)
        else if String.eqb (Request.url r) Up.frontendUrl then up_reply (started_before "dev:frontend" h)
        else up_reply true
    end;
  on_now h := Z.of_nat (length h); on_turn h := [];
|}.
#[local] Instance demo_paths : ScriptPaths.
Proof. by split. Qed.
#[local] Instance demo_launcher : Launcher.
Proof. left. by intros h r [= <-]. Qed.

Definition demo_stop : World := snd (Stop.script fresh_world).
Definition demo_up : World := snd (Up.script [] fresh_world).

(** A backend that an earlier run recorded is stopped, right after its command line was read. *)
Lemma stop_only_owned_witness : exists h1 h2 e,
  e = Ran "kill" ["-TERM"; "-7"] plain (inr (Exit.mk (Some 0%Z) (Some ""))) /\
  Stop.script fresh_world = (inr tt, demo_stop) /\ history demo_stop = h1 ++ e :: h2 /\ stop_justified h1 e.
Proof.
  exists (take 4 (history demo_stop)), (drop 5 (history demo_stop)). eexists. split; [reflexivity|].
  split; [vm_compute; reflexivity|]. split; [vm_compute; reflexivity|].
  apply (stop_only_owned (inr tt) demo_stop _ _ (drop 5 (history demo_stop))); [vm_compute; reflexivity..|by constructor].
Defined.
Lemma up_only_owned_witness : exists h1 h2 e,
  e = Ran "kill" ["-TERM"; "-7"] plain (inr (Exit.mk (Some 0%Z) (Some ""))) /\
  Up.script [] fresh_world = (inr 0%Z, demo_up) /\ history demo_up = h1 ++ e :: h2 /\ up_justified h1 e.
Proof.
  exists (take 10 (history demo_up)), (drop 11 (history demo_up)). eexists. split; [reflexivity|].
  split; [vm_compute; reflexivity|]. split; [vm_compute; reflexivity|].
  apply (up_only_owned [] (inr 0%Z) demo_up _ _ (drop 11 (history demo_up))); [vm_compute; reflexivity..|by constructor].
Defined.
(** The run comes to its end, and on its way empties the database. *)
Lemma reset_after_deployment_witness : exists h1 h2 o a,
  Up.script [] fresh_world = (inr 0%Z, demo_up) /\ history demo_up = h1 ++ Ran "npm" Up.reset_args o a :: h2 /\
  exists admin, deployed admin h1 /\ identified admin h1.
Proof.
  exists (take 57 (history demo_up)), (drop 58 (history demo_up)). do 2 eexists. split; [vm_compute; reflexivity|].
  split; [vm_compute; reflexivity|].
  eapply (reset_after_deployment [] (inr 0%Z) demo_up _ _ (drop 58 (history demo_up))); [vm_compute; reflexivity..|apply resets_database].
Defined.
#[local] Instance demo_ticks : Ticking.
Proof.
  split; cbn [on_now demo_machine]; intros; rewrite !length_app; simpl; lia.
Qed.
(** A wait for a server that answers at once. *)
Lemma waits_end_witness :
  wait_with (Z.to_nat 100000) "frontend" (Up.probe "http://127.0.0.1:8645") 60000 fresh_world
    = Up.waitFor "frontend" (Up.probe "http://127.0.0.1:8645") 60000 fresh_world.
Proof.
  apply waits_end; [apply (silent_probe talks_plain)|unfold Up.patience; lia].
Defined.

(** *** What the scripts do not do *)

(** A machine without bash, on which process 7 is started between the check of
    a run and its end, and whose clock only moves while the script sleeps. *)
Definition asked_before (h : list Event) : bool :=
  existsb (fun e => match e with Ran "kill" _ _ _ => true | _ => false end) h.
Definition odd_machine : Machine := {|
  win32 := false; execPath := "/bin/node"; root := "/r"; path_join := join_strings "/"; bad_path _ := NoError; JSON_list _ := "";
  on_look h path := true; on_read h path := if includes "run.json" path then inr "listed" else inl NoError;
  on_list h path := inr []; on_write h path text := inr tt; on_make_dir h path := inr tt; on_remove h path := inr tt;
  on_open_log h path := inr tt;
  on_run h command args o :=
    inr (Exit.mk (Some (if String.eqb command "kill" && asked_before h then 0 else 1)%Z) (Some ""));
  on_spawn h command args o := inr None; on_fetch h n r := inl NoError;
  on_now h := (1000 * Z.of_nat (length (List.filter (fun e => match e with Slept _ => true | _ => false end) h)))%Z;
  on_turn h := [];
|}.
(** Without bash, [stopBesuRun] asks again who is alive: a process that took a
    recorded number after the check is ended, and its command line was never read. *)
Example newcomer_ended :
  exists w, @Up.stopBesuRun (custom (fun _ => None) read_Z (fun _ => Some (VObj [("owner", VStr OWNER); ("pids", VArr [VStr "7"])])))
    _ odd_machine "/runs/1" fresh_world = (inr true, w) /\
  existsb (fun e => match e with Ran "kill" ["-TERM"; "7"] _ _ => true | _ => false end) (history w) = true /\
  existsb (fun e => match e with Orchestrator.Read path _ => includes "cmdline" path | _ => false end) (history w) = false.
Proof. eexists. split; [vm_compute; reflexivity|]. by split; vm_compute. Qed.
(** [waitFor] catches what its check throws: a child that is gone is waited for to the deadline. *)
Example gone_child_waited_for :
  let w := with_children [Child.mk "dev-wallet" VUndefined "node" "wallet.log" true (VNum (num_of_Z 1))] fresh_world in
  exists e w', @Up.waitFor _ _ odd_machine "development wallet" (@Up.child_ready _ _ odd_machine 0 "wallet" "http://w/") 60000 w = (inl e, w') /\
  length (List.filter (fun e => match e with Slept _ => true | _ => false end) (history w')) = 60%nat.
Proof. do 2 eexists. split; [vm_compute; reflexivity|]. vm_compute. reflexivity. Qed.
End Demo.
